(* ===== verification/_CoqProject ===== *)
-Q . S2P
Prelude.v
Regex.v
GoErrors.v
Cri.v
Naming.v
Labels.v
Writers.v
Cache.v
GoPath.v
Store.v
MemFs.v
Checkpoint.v
RequestCache.v
GoHash.v
GoNet.v
GoText.v
GoCidr.v
GoTime.v
Libdocker.v
PluginManager.v
Hostport.v
HostportSpec.v
FakeIptables.v
Service.v
Sim.v
SecurityContext.v
SandboxHelpers.v
Containers.v
Sandboxes.v
SandboxSpec.v
ConfigSpec.v
PortForward.v
Images.v
Stats.v
Exec.v
ExecSteps.v
Bandwidth.v
Cni.v
Kubenet.v
ContainerManager.v
StreamPairs.v
RemoteCommand.v
TimeFormat.v
FakeDocker.v
Instrumented.v
StreamServer.v
PluginMetrics.v
Debug.v
KubeClient.v
Connect.v
Hairpin.v
CmdExec.v
Startup.v
CommandLine.v
Windows.v
Platforms.v
