(* ===== verification/Prelude.v ===== *)
(** * cri-dockerd: a verification development

    cri-dockerd serves the Kubernetes CRI (RuntimeService and ImageService) on
    top of a docker engine.  A pod sandbox is a docker container holding the
    pod's namespaces; its containers join them; a network plugin (CNI or
    kubenet) wires the sandbox; the sandbox's port mappings are kept in a
    checkpoint on disk; exec, attach and port-forward requests are answered
    with single-use URLs served by a streaming server.

    ** How the files follow the program

    - [Prelude] (this file): results, the state monad and its notations,
      strings as Go treats them, machine integers, tactics.
    - [Regex]: Go's leftmost-first matching for the patterns of the sources.
    - [GoErrors]: error values, utils/errors/errors.go (aggregates) and the
      docker error classification of libdocker/kube_docker_client.go.
    - [Cri]: the CRI messages and docker API structures, as records.
    - [Naming]: core/naming.go and the container IDs of config/types.go.
    - [Labels]: the labels, filters, options and patterns of core/helpers.go.
    - [Writers]: the write limiters of core/helpers.go (shared by concurrent
      writers, as interleaved steps) and utils/io.go.
    - [Cache]: utils/cache.go.
    - [GoPath]: path/filepath.
    - [Store]: store/store.go, store/filestore.go, store/filesystem.go; the
      class [Store] with the contract [StoreContract] is the interface between
      the checkpoint manager and the file store, which discharges it for every
      [Filesystem] with [FilesystemLaws]; [MemFs] is such a filesystem, whose
      every call may fail.
    - [Checkpoint]: store/checkpointmanager.go, store/checksum.go and
      core/checkpoint.go, over any [Store].
    - [RequestCache]: streaming/request_cache.go, streaming/errors.go and the
      requests of streaming/server.go.
    - [GoTime], [TimeFormat]: docker's timestamps, read (time.Parse) and written
      (time.Format), with the calendar.
    - [Libdocker]: libdocker/helpers.go and libdocker/kube_docker_client.go;
      the class [DockerClient] is the interface the service uses, the class
      [DockerAPI] the engine's API the client uses.
    - [PluginManager]: network/plugins.go; the class [NetworkPlugin].
    - [GoHash], [GoNet], [GoText], [GoCidr]: SHA-256, base32, IP addresses,
      text, hexadecimal, masks and CIDRs of the standard library, executable;
      [GoText] also holds [Execer], the commands of the host.
    - [Hostport]: network/hostport/hostport.go and hostport_manager.go, over
      the classes [IPTables], [PortOpener] and [Conntrack]; [HostportSpec]:
      what the manager promises for every opener with [SocketLaws], and a
      concrete host; [FakeIptables]: network/hostport/fake_iptables.go, a
      concrete [IPTables] on which the manager runs.
    - [Service]: the state of core/docker_service.go ([dockerService]) and its
      cached daemon information; the classes [HostOS], [SELinux], [Semver] and
      [ServiceJSON] for what it relies on.
    - [SecurityContext]: core/security_context.go,
      core/security_context_linux.go, core/selinux_util.go.
    - [SandboxHelpers]: core/sandbox_helpers.go, core/helpers_linux.go.
    - [Containers]: core/container_*.go, the log symlinks of core/logs.go and
      the container conversions of core/convert.go.
    - [Sandboxes]: core/sandbox_run.go, sandbox_stop.go, sandbox_remove.go,
      sandbox_status.go and sandbox_list.go.
    - [Sim]: a concrete world (docker, plugin, operating system, store) on
      which the service is evaluated.
    - [SandboxSpec], [ConfigSpec]: what the sandbox and container operations
      promise.
    - [Images]: core/image.go and the image conversions of core/convert.go.
    - [Stats]: core/stats.go, core/stats_linux.go, core/imagefs.go and
      core/imagefs_linux.go: the statistics cache whose goroutines are a step
      relation, and the handlers that read it.
    - [Exec]: core/exec.go, [ExecSync] of core/container_exec.go,
      streaming/streaming.go, streaming/streaming_others.go, the log requests
      of core/logs.go and the streams of libdocker/kube_docker_client.go;
      [ExecSteps]: the three goroutines of an exec as interleaved steps.
    - [Bandwidth]: network/bandwidth, the tc shaper; the class [Shaper] and its
      three implementations.
    - [Cni]: network/cni, a [NetworkPlugin] over any CNI library; the service
      is its [Host].
    - [Kubenet]: network/kubenet, a [NetworkPlugin] over [Bandwidth] and the
      host port managers of [Hostport].
    - [ContainerManager]: containermanager, the cgroup and the OOM score of
      docker's own processes.
    - [PortForward]: core/sandbox_port_forward.go and the endpoints of
      core/container_exec.go and core/container_attach.go: the link from
      checkpoints to host ports, and from requests to the streaming server.
    - [StreamPairs]: streaming/portforward, the pairing of the streams of a
      port-forward session and its monitors, as interleaved steps.
    - [RemoteCommand]: streaming/remotecommand, the streams of an exec or
      attach session, whose receivers and waiters are interleaved steps, and
      the status written back.
    - [FakeDocker]: libdocker/fake_client.go, a concrete [DockerClient].
    - [Instrumented]: libdocker/instrumented_client.go, a [DockerClient] over
      any other that counts its calls.
    - [StreamServer]: the addresses of streaming/server.go, with the resolution
      and printing of URLs of net/url, over the requests of [RequestCache].
    - [PluginMetrics]: network/metrics/metrics.go and the operations of
      network/plugins.go with the metrics they record.
    - [Debug]: libdocker/debug.go, the transport that logs requests and
      responses, with the bodies read through it; any code that reads and
      closes a body is a [user].
    - [KubeClient]: the statistics, terminal sizes and credentials of
      libdocker/kube_docker_client.go; it implements the class [StatsClient]
      that [Stats] relies on.
    - [Connect]: how the client of docker is made, libdocker/client.go over the
      options of docker's own client.
    - [Hairpin]: network/hairpin.
    - [CmdExec]: utils/exec.go, commands with the signals of [Stop] as
      interleaved steps.
    - [Startup]: [NewDockerService] of core/docker_service.go, cmd/server.go and
      its flags, backend/daemon.go: the other files put together;
      [CommandLine]: config/options.go, cmd/cri/options/options.go,
      cmd/version and the command of cmd/server.go, from the arguments of the
      process to [RunCriDockerd].
    - [Windows]: core/helpers_windows.go, core/security_context_windows.go and
      the container operations of that build, over the class [Registry] with
      [RegistryLaws]; [Platforms]: the other files of the Windows build, and
      what the builds for other platforms refuse.

    ** How the model represents the code

    A method is a state-passing function ([M S A]); a world [W] stands for
    what docker, the network plugin, the operating system and the clock share,
    and every call on it is a parameter that may return anything and change
    the world in any way.  The service's own tables (network readiness, cached
    daemon information, cleanup infos) and the checkpoint store are explicit
    components of [dockerService], so theorems about them hold for every
    docker engine and plugin.  A Go pair of a value and an error is a
    [result]; [RunPodSandbox], which can return both, returns both.  The
    variable [err] that its deferred function reads is modelled separately
    from the error returned.  A network plugin is a call of the world in the
    sandbox operations; what it asks the service in turn is modelled in [Cni]
    and [PortForward], where the service is its [Host].  A panic is an error of its own
    ([nil_dereference_panic] and the like), which no code handles.  Logging is
    left out, but for the log of the debug transport and of failed clean-ups on
    Windows; metrics have files of their own, around the operations they
    measure; the locks of single-step critical sections are left out; the
    pod locks, the shared write limiter, the statistics cache, the stopping of
    commands and the goroutines of execs, port forwards and remote commands,
    whose interleavings matter, are step relations, and the CNI plugin's reloads are
    any action between two steps of a request.  Maps that Go visits in
    any order are visited in a given order, and the theorems quantify over it
    where it matters.  The platform is Linux in every file but [Windows] and
    [Platforms].

    ** What the theorems show

    - Sandboxes: the effect of running, stopping, removing and listing on
      readiness and checkpoints, no double tear down, complete listing, and
      two places where the code does not do what it means to
      ([failed_run_marks_network_ready], [list_pod_sandbox_keeps_checkpoints]).
    - Configurations: sandboxes and containers read back as they were asked
      for; security contexts and seccomp profiles translated exactly.
    - Network: the pod locks serialize the operations of a pod and are
      released, for any number of goroutines and any schedule.
    - Images: removal by ID leaves no reference behind, by a tag or another
      digest it does nothing; the history is reported
      oldest first; users, pull errors and pinning.
    - Statistics: no goroutine leaks and each can stop; listing steers the
      cache; the totals are exact modulo 2^64 in any map order.
    - Exec and logs: output is demultiplexed exactly, polling ends, the
      goroutines of an exec can finish but for the leak of [exec_goroutines],
      the exit code and output of [ExecSync], the byte limit of logs.
    - CNI and kubenet: which network is chosen and that it is never lost, what
      the plugins are told about a pod, the addresses remembered for pods, and
      where the code does not do what it means to ([reset_truncates_handle],
      [kubenet_cidr_events]).
    - Host ports: held all or none, released by removal, without leaking a
      socket; down to the rules of the node for a pod added
      ([add_installs_rules]); port mappings read back from checkpoints; and
      three places where the code does not do what it means to
      ([removed_pod_leaves_jumps], [refused_pod_releases_port],
      [checkpointed_protocols_unknown]).
    - Container manager: only docker's processes on the host are touched, and
      all of them; the bounds of the memory limit; pid files that are never
      read ([pid_file_never_read]).
    - Storage: atomic writes under faults, the file store refines a map and
      stays in its directory, checkpoints read back verified.
    - Streaming: tokens are distinct, bounded, redeemed once and expire; the
      streams of a port forward are paired and forwarded once, its monitors end
      and leave no pair behind; a remote command gets exactly the streams asked
      for and reports its exit code, but for the sessions of
      [remote_command_leaks]; the URL handed out for a request leads to its
      stream.
    - Startup: a service that has started is the one that was asked for; the
      settings of the command line reach the options they name, and no others.
    - Instrumentation is transparent to any code, and its counters are exact;
      so is the debug transport, with an exact log, but for the TLS
      configuration that docker's client no longer sees
      ([debug_level_drops_tls]).
    - Windows: every credential spec in the registry is accounted for at every
      point of the life of the service, and reaches docker; those of earlier
      runs are never removed where access rights are enforced
      ([init_cleanup_outcome]); the panic of a pod without IPv4 address.
    - Commands: [Stop] never kills ([stop_never_kills]).
    - Fake client: it implements the life of a container, where a started
      container that was stopped before is removed while it runs
      ([restarted_container_is_removed]).
    - Docker client: ports, mounts and image references translated exactly,
      timeouts never hidden, and the nil dereference of the pull reporter;
      cached daemon information has the type it is read at; a
      timestamp that is written is read back ([docker_timestamp_roundtrip]).
    - Utilities: error aggregates, limited writers, memoizing cache.

    ** Bounds and fuel

    [split] uses the length of the string as fuel, which every cut shortens;
    [sha_blocks] the number of blocks of the message;
    the token loop of [RequestCache] makes the ten attempts of the code;
    [StdCopy] uses the length of what it reads, of which each frame takes eight
    bytes at least; [swap_loop] the length of the list; [normalize_loop] and
    [chains_go] the length of the text they cut; [poll_exec] has six
    turns, one more than [exec_polling_terminates] shows it takes; every
    other recursion is structural.  Durations and sizes keep their
    64-bit wrap-around ([int64], [uint64], [int32]).

    ** Not modelled, and why

    The streams of [StreamPairs] and [RemoteCommand] are those of the packages
    under streaming/; the connection that carries them is a parameter.  Left
    out: the HTTP and gRPC servers, which only call libraries; the text of the
    help; what a client sends to a command (standard input); the pipes and
    contexts of utils/exec.go; store/fs.go and config/os.go, whose methods are
    the functions of package os they are named after (the classes [Filesystem]
    and [HostOS] are those functions); the negotiation of the API version;
    generated mocks.  Netlink, iptables, tc, the cgroup library,
    hcsshim, winstats, the registry of Windows and CNI binaries are parameters,
    and so are JSON, go-spew, quantities, image references, semantic versions,
    the texts of durations and numbers of flags, TLS configurations, SELinux
    label initialisation and registry credentials. *)
From stdpp Require Export base gmap strings list pretty.
From Stdlib Require Export Ascii ZArith Lia.

Declare Scope go_scope.
Delimit Scope go_scope with go.
Open Scope go_scope.

(** ** Results: a value of Go's [(T, error)] idiom *)

(** A call of the shape [v, err := f()]: either a value with a nil error, or
    a non-nil error.  [E] is the type of errors. *)
Inductive result (E A : Type) : Type :=
| Ok (a : A)
| Err (e : E).
Arguments Ok {E A} a.
Arguments Err {E A} e.

Definition is_ok {E A} (r : result E A) : bool :=
  match r with Ok _ => true | Err _ => false end.

Definition result_map {E A B} (f : A -> B) (r : result E A) : result E B :=
  match r with Ok a => Ok (f a) | Err e => Err e end.

(** ** State passing *)

(** A Go method with a receiver of type [S] it mutates: explicit state
    passing, the state last so that a sequence of calls reads in order. *)
Definition M (S A : Type) : Type := S -> A * S.

Definition ret {S A} (a : A) : M S A := fun s => (a, s).
Definition bind {S A B} (m : M S A) (k : A -> M S B) : M S B :=
  fun s => let '(a, s') := m s in k a s'.
Definition get {S} : M S S := fun s => (s, s).
Definition put {S} (s : S) : M S unit := fun _ => (tt, s).
Definition modify {S} (f : S -> S) : M S unit := fun s => (tt, f s).

(** Propagate an error unchanged: [if err != nil { return nil, err }]. *)
Definition try {S E A B} (m : M S (result E A)) (k : A -> M S (result E B))
  : M S (result E B) :=
  bind m (fun r => match r with Ok a => k a | Err e => ret (Err e) end).

(** Propagate an error after rewriting it:
    [if err != nil { return nil, fmt.Errorf("...: %v", err) }]. *)
Definition try_wrap {S E A B} (m : M S (result E A)) (w : E -> E)
  (k : A -> M S (result E B)) : M S (result E B) :=
  bind m (fun r => match r with Ok a => k a | Err e => ret (Err (w e)) end).

Notation "'let*' x := m 'in' k" := (bind m (fun x => k))
  (at level 10, x name, m at level 200, k at level 200,
   format "'[v' 'let*'  x  :=  m  'in' '//' k ']'") : go_scope.
Notation "'let*' ' p := m 'in' k" := (bind m (fun x => match x with p => k end))
  (at level 10, p strict pattern, m at level 200, k at level 200) : go_scope.
Notation "'let?' x := m 'in' k" := (try m (fun x => k))
  (at level 10, x name, m at level 200, k at level 200) : go_scope.
Notation "'let?' ' p := m 'in' k" := (try m (fun x => match x with p => k end))
  (at level 10, p strict pattern, m at level 200, k at level 200) : go_scope.
Notation "'do*' m 'in' k" := (bind m (fun _ => k))
  (at level 10, m at level 200, k at level 200) : go_scope.

(** Run an action on every element in order ([for _, x := range l]). *)
Fixpoint for_each {S A} (l : list A) (f : A -> M S unit) : M S unit :=
  match l with
  | [] => ret tt
  | x :: l' => do* f x in for_each l' f
  end.

(** Run a fallible action on every element in order, stopping at the first
    error ([for ... { if err := f(x); err != nil { return err } }]). *)
Fixpoint for_try {S E A} (l : list A) (f : A -> M S (result E unit))
  : M S (result E unit) :=
  match l with
  | [] => ret (Ok tt)
  | x :: l' => let? _ := f x in for_try l' f
  end.

Lemma bind_ret_l {S A B} (a : A) (k : A -> M S B) : bind (ret a) k = k a.
Proof. reflexivity. Qed.

(** What an action that ran did first. *)
Lemma bind_step {S A B} (m : M S A) (k : A -> M S B) s r s' :
  bind m k s = (r, s') -> exists a s1, m s = (a, s1) /\ k a s1 = (r, s').
Proof. unfold bind. destruct (m s) as [a s1]. eauto. Qed.

Lemma for_each_app {S A} (l1 l2 : list A) (f : A -> M S unit) s :
  for_each (l1 ++ l2) f s = (do* for_each l1 f in for_each l2 f) s.
Proof.
  revert s; induction l1 as [|x l1 IH]; intros s; simpl; [reflexivity|].
  unfold bind. destruct (f x s) as [[] s']. rewrite IH. unfold bind.
  destruct (for_each l1 f s') as [[] s'']; reflexivity.
Qed.

(** ** Tactics *)

(** One step of case analysis on the innermost scrutinee of the goal. *)
Ltac case_match_eq :=
  match goal with
  | |- context [match ?x with _ => _ end] => destruct x eqn:?
  end.

(** Case analysis on a scrutinee of hypothesis [H]. *)
Ltac case_match_in H :=
  match type of H with
  | context [match ?x with _ => _ end] => destruct x eqn:?
  end.

(** Unfold the state monad. *)
Ltac unfold_M :=
  unfold try, try_wrap, bind, ret, get, put, modify in *; cbn beta iota in *.

(** Destruct every match in the goal and in the hypotheses, then simplify
    the equations that appear. *)
Ltac crush :=
  repeat (simplify_eq; try case_match; simplify_eq); try done; eauto.

Create HintDb go discriminated.

(** ** What an action leaves alone *)

(** The part [g] of the state is the same after the action. *)
Definition preserves {S T A} (g : S -> T) (m : M S A) : Prop := forall s, g (snd (m s)) = g s.

Section Preserves.
Context {S T : Type} (g : S -> T).

Lemma preserves_ret {A} (a : A) : preserves g (ret a).
Proof. done. Qed.
Lemma preserves_get : preserves g get.
Proof. done. Qed.
Lemma preserves_bind {A B} (m : M S A) (k : A -> M S B) :
  preserves g m -> (forall a, preserves g (k a)) -> preserves g (bind m k).
Proof.
  intros Hm Hk s. unfold bind. specialize (Hm s). destruct (m s) as [a s']. cbn in Hm.
  by rewrite Hk.
Qed.
Lemma preserves_try {E A B} (m : M S (result E A)) (k : A -> M S (result E B)) :
  preserves g m -> (forall a, preserves g (k a)) -> preserves g (try m k).
Proof. intros Hm Hk. apply preserves_bind; [done|]. intros [a|e]; [apply Hk|apply preserves_ret]. Qed.
Lemma preserves_for_each {A} (l : list A) (f : A -> M S unit) :
  (forall a, preserves g (f a)) -> preserves g (for_each l f).
Proof.
  intros Hf. induction l as [|a l IH]; [apply preserves_ret|]. by apply preserves_bind.
Qed.
Lemma preserves_for_try {E A} (l : list A) (f : A -> M S (result E unit)) :
  (forall a, preserves g (f a)) -> preserves g (for_try l f).
Proof.
  intros Hf. induction l as [|a l IH]; [apply preserves_ret|]. by apply preserves_try.
Qed.

End Preserves.

Create HintDb preserves discriminated.
#[export] Hint Resolve preserves_ret preserves_get : preserves.

(** Decompose a program into actions known to leave the part alone. *)
Ltac solve_preserves :=
  repeat first
    [ solve [auto with preserves]
    | apply preserves_try; [|intros ?] | apply preserves_for_try; intros ?
    | apply preserves_for_each; intros ? | apply preserves_bind; [|intros ?]
    | match goal with |- preserves _ (match ?x with _ => _ end) => destruct x end
    | match goal with |- preserves _ (let '(_, _) := ?x in _) => destruct x end
    | (intros ?; reflexivity) ].

(** ** Strings *)

(** [s[n:]] for [n <= len(s)]. *)
Fixpoint sdrop (n : nat) (s : string) : string :=
  match n, s with
  | O, _ => s
  | S n', String _ s' => sdrop n' s'
  | S _, EmptyString => EmptyString
  end.

(** [s[:n]] for [n <= len(s)]. *)
Fixpoint stake (n : nat) (s : string) : string :=
  match n, s with
  | O, _ => EmptyString
  | S n', String c s' => String c (stake n' s')
  | S _, EmptyString => EmptyString
  end.

(** [strings.HasPrefix], [strings.TrimPrefix]. *)
Definition has_prefix (s p : string) : bool := String.prefix p s.
Arguments has_prefix : simpl never.
Definition trim_prefix (s p : string) : string :=
  if has_prefix s p then sdrop (String.length p) s else s.

(** [strings.HasSuffix], [strings.TrimSuffix]. *)
Definition has_suffix (s p : string) : bool :=
  (String.length p <=? String.length s)%nat
  && String.eqb (sdrop (String.length s - String.length p) s) p.
Definition trim_suffix (s p : string) : string :=
  if has_suffix s p then stake (String.length s - String.length p) s else s.

(** [strings.Cut]: the text before and after the first occurrence of [sep]. *)
Fixpoint cut (sep s : string) : option (string * string) :=
  if has_prefix s sep then Some (EmptyString, sdrop (String.length sep) s)
  else match s with
       | EmptyString => None
       | String c s' =>
           match cut sep s' with
           | Some (a, b) => Some (String c a, b)
           | None => None
           end
       end.

(** [strings.Contains]. *)
Definition contains (s sub : string) : bool :=
  match cut sub s with Some _ => true | None => false end.

(** [strings.Split] with a non-empty separator; every cut shortens the rest,
    so the length of the string is enough fuel. *)
Fixpoint split_go (fuel : nat) (sep s : string) : list string :=
  match fuel with
  | O => [s]
  | S fuel' =>
      match cut sep s with
      | None => [s]
      | Some (a, b) => a :: split_go fuel' sep b
      end
  end.
Definition split (s sep : string) : list string :=
  split_go (String.length s) sep s.

(** [strings.SplitN(s, sep, 2)]. *)
Definition split2 (s sep : string) : list string :=
  match cut sep s with None => [s] | Some (a, b) => [a; b] end.

(** [strings.Join]. *)
Definition join (l : list string) (sep : string) : string := String.concat sep l.
Arguments join : simpl never.

(** [strings.ToLower], [strings.ToUpper] on ASCII letters. *)
Definition ascii_lower (c : ascii) : ascii :=
  let n := Ascii.N_of_ascii c in
  if ((65 <=? n) && (n <=? 90))%N then Ascii.ascii_of_N (n + 32) else c.
Definition ascii_upper (c : ascii) : ascii :=
  let n := Ascii.N_of_ascii c in
  if ((97 <=? n) && (n <=? 122))%N then Ascii.ascii_of_N (n - 32) else c.
Fixpoint smap (f : ascii -> ascii) (s : string) : string :=
  match s with
  | EmptyString => EmptyString
  | String c s' => String (f c) (smap f s')
  end.
Definition to_lower : string -> string := smap ascii_lower.
Definition to_upper : string -> string := smap ascii_upper.

(** Every byte of [s] satisfies [p]. *)
Fixpoint sforall (p : ascii -> bool) (s : string) : bool :=
  match s with
  | EmptyString => true
  | String c s' => p c && sforall p s'
  end.

(** The byte [c] does not occur in [s]. *)
Definition lacks (c : ascii) (s : string) : bool :=
  sforall (fun d => negb (Ascii.eqb d c)) s.

Definition is_digit (c : ascii) : bool :=
  let n := Ascii.N_of_ascii c in ((48 <=? n) && (n <=? 57))%N.
Definition is_lower_letter (c : ascii) : bool :=
  let n := Ascii.N_of_ascii c in ((97 <=? n) && (n <=? 122))%N.
Definition digit_val (c : ascii) : N := (Ascii.N_of_ascii c - 48)%N.

(** [fmt.Sprintf("%d", n)] on non-negative and on signed integers. *)
Definition utoa (n : N) : string := pretty n.
Definition itoa (z : Z) : string := pretty z.

(** The double quote and the backslash. *)
Definition dquote : string := String (Ascii.ascii_of_N 34) EmptyString.
Definition bslash : string := String (Ascii.ascii_of_N 92) EmptyString.
Definition newline : string := String (Ascii.ascii_of_N 10) EmptyString.

Definition hex_digit (n : N) : ascii :=
  if (n <? 10)%N then Ascii.ascii_of_N (48 + n) else Ascii.ascii_of_N (87 + n).

(** [strconv.Quote], the verb [%q]: exact on ASCII; a byte above 127 is kept,
    which is what Quote does with printable UTF-8 text. *)
Definition quote_char (c : ascii) : string :=
  let n := Ascii.N_of_ascii c in
  if (n =? 34)%N then bslash +:+ dquote
  else if (n =? 92)%N then bslash +:+ bslash
  else if (n =? 7)%N then bslash +:+ "a"
  else if (n =? 8)%N then bslash +:+ "b"
  else if (n =? 12)%N then bslash +:+ "f"
  else if (n =? 10)%N then bslash +:+ "n"
  else if (n =? 13)%N then bslash +:+ "r"
  else if (n =? 9)%N then bslash +:+ "t"
  else if (n =? 11)%N then bslash +:+ "v"
  else if ((n <? 32) || (n =? 127))%N
  then bslash +:+ "x" +:+ String (hex_digit (n / 16)) (String (hex_digit (n mod 16)) "")
  else String c "".
Fixpoint quote_body (s : string) : string :=
  match s with
  | EmptyString => EmptyString
  | String c s' => quote_char c +:+ quote_body s'
  end.
Definition quote (s : string) : string := dquote +:+ quote_body s +:+ dquote.

(** [fmt.Sprintf("%08x", n)] for a 32-bit [n]: eight hexadecimal digits. *)
Fixpoint hex_pad (digits : nat) (n : N) : string :=
  match digits with
  | O => EmptyString
  | S d => hex_pad d (n / 16) +:+ String (hex_digit (n mod 16)) EmptyString
  end.

(** [strconv.ParseUint(s, 10, bits)] on the digits left, [n] being the value
    of those read: a value above [max] is a range error as soon as it is
    reached, even when a later byte is not a digit. *)
Inductive parse_error := ErrSyntax | ErrRange.
Fixpoint parse_uint_loop (max : N) (s : string) (n : N) : result parse_error N :=
  match s with
  | EmptyString => Ok n
  | String c s' =>
      if is_digit c then
        let n1 := (n * 10 + digit_val c)%N in
        if (max <? n1)%N then Err ErrRange else parse_uint_loop max s' n1
      else Err ErrSyntax
  end.
Definition parse_uint (bits : N) (s : string) : result parse_error N :=
  match s with
  | EmptyString => Err ErrSyntax
  | _ => parse_uint_loop (2 ^ bits - 1) s 0
  end.

(** *** Facts about strings *)

#[local] Arguments String.append !s1 s2 : simpl nomatch.

Lemma sapp_nil_r (s : string) : s +:+ "" = s.
Proof. induction s as [|c s IH]; simpl; [done|by rewrite IH]. Qed.

Lemma sapp_assoc (a b c : string) : (a +:+ b) +:+ c = a +:+ (b +:+ c).
Proof. induction a as [|x a IH]; simpl; [done|by rewrite IH]. Qed.

Lemma slength_app (a b : string) :
  String.length (a +:+ b) = (String.length a + String.length b)%nat.
Proof. induction a as [|x a IH]; simpl; [done|by rewrite IH]. Qed.

Lemma sdrop_app (a b : string) : sdrop (String.length a) (a +:+ b) = b.
Proof. by induction a. Qed.

Lemma stake_app (a b : string) : stake (String.length a) (a +:+ b) = a.
Proof. induction a as [|c a IH]; simpl; [by destruct b|by rewrite IH]. Qed.

Lemma has_prefix_app (p s : string) : has_prefix (p +:+ s) p = true.
Proof.
  unfold has_prefix. induction p as [|c p IH]; simpl; [by destruct s|].
  destruct (Ascii.ascii_dec c c); done.
Qed.

Lemma has_prefix_spec (s p : string) :
  has_prefix s p = true <-> exists r, s = p +:+ r.
Proof.
  split.
  - unfold has_prefix. revert s. induction p as [|c p IH]; intros s H.
    + by exists s.
    + destruct s as [|d s]; simpl in H; [done|].
      destruct (Ascii.ascii_dec c d) as [->|]; [|done].
      destruct (IH s H) as [r ->]. by exists r.
  - intros [r ->]. apply has_prefix_app.
Qed.

Lemma trim_prefix_app (p s : string) : trim_prefix (p +:+ s) p = s.
Proof. unfold trim_prefix. rewrite has_prefix_app. apply sdrop_app. Qed.

Lemma trim_prefix_none (s p : string) :
  has_prefix s p = false -> trim_prefix s p = s.
Proof. unfold trim_prefix. by intros ->. Qed.

Lemma sapp_inj_l (p a b : string) : p +:+ a = p +:+ b -> a = b.
Proof. induction p; simpl; intros; simplify_eq; auto. Qed.

Lemma sforall_app p (a b : string) :
  sforall p (a +:+ b) = sforall p a && sforall p b.
Proof. induction a as [|c a IH]; simpl; [done|]. by rewrite IH, andb_assoc. Qed.

Lemma sforall_impl (p q : ascii -> bool) (s : string) :
  (forall c, p c = true -> q c = true) -> sforall p s = true -> sforall q s = true.
Proof.
  intros H. induction s as [|c s IH]; simpl; [done|].
  rewrite !andb_true_iff. intros []; auto.
Qed.

(** *** Cutting and splitting at a one-byte separator *)

Lemma has_prefix_char (c d : ascii) (s : string) :
  has_prefix (String d s) (String c "") = Ascii.eqb d c.
Proof.
  unfold has_prefix; simpl. destruct (Ascii.ascii_dec c d) as [->|Hn].
  - rewrite Ascii.eqb_refl. by destruct s.
  - symmetry. apply Ascii.eqb_neq. congruence.
Qed.

Lemma cut_char_app (c : ascii) (a b : string) :
  lacks c a = true -> cut (String c "") (a +:+ String c b) = Some (a, b).
Proof.
  unfold lacks. induction a as [|d a IH]; simpl; intros H.
  - by rewrite has_prefix_char, Ascii.eqb_refl.
  - rewrite has_prefix_char. apply andb_true_iff in H as [H1 H2].
    destruct (Ascii.eqb d c); [done|]. by rewrite (IH H2).
Qed.

Lemma cut_char_none (c : ascii) (a : string) :
  lacks c a = true -> cut (String c "") a = None.
Proof.
  unfold lacks. induction a as [|d a IH]; simpl; intros H; [done|].
  rewrite has_prefix_char. apply andb_true_iff in H as [H1 H2].
  destruct (Ascii.eqb d c); [done|]. by rewrite (IH H2).
Qed.

Lemma cut_char_some (c : ascii) (s a b : string) :
  cut (String c "") s = Some (a, b) -> s = a +:+ String c b /\ lacks c a = true.
Proof.
  unfold lacks. revert a b. induction s as [|d s IH]; intros a b; simpl; [done|].
  rewrite has_prefix_char. destruct (Ascii.eqb_spec d c) as [->|Hn].
  - intros [= <- <-]. done.
  - destruct (cut _ s) as [[a' b']|] eqn:E; [|done]. intros [= <- <-].
    destruct (IH a' b' eq_refl) as [-> Hl]. simpl. rewrite Hl, andb_true_r. split; [done|].
    by apply negb_true_iff, Ascii.eqb_neq.
Qed.

Lemma join_cons (a b : string) (l : list string) (sep : string) :
  join (a :: b :: l) sep = a +:+ sep +:+ join (b :: l) sep.
Proof. done. Qed.

Lemma split_go_join (c : ascii) (a : string) (l : list string) (fuel : nat) :
  (length l <= fuel)%nat ->
  Forall (fun x => lacks c x = true) (a :: l) ->
  split_go fuel (String c "") (join (a :: l) (String c "")) = a :: l.
Proof.
  revert a fuel. induction l as [|b l IH]; intros a fuel Hf Hall.
  - apply Forall_cons in Hall as [Ha _]. unfold join; simpl.
    destruct fuel; simpl; [done|]. by rewrite cut_char_none.
  - apply Forall_cons in Hall as [Ha Hl]. simpl in Hf.
    destruct fuel as [|fuel]; [lia|]. rewrite join_cons. simpl.
    rewrite cut_char_app by done. f_equal. apply IH; [lia|done].
Qed.

Lemma join_length_ge (a : string) (l : list string) (c : ascii) :
  (length l <= String.length (join (a :: l) (String c "")))%nat.
Proof.
  revert a. induction l as [|b l IH]; intros a; simpl; [lia|].
  rewrite join_cons, !slength_app. specialize (IH b). simpl in *. lia.
Qed.

(** [strings.Split(strings.Join(l, sep), sep) = l] for a one-byte separator
    that no element contains. *)
Lemma split_join (c : ascii) (a : string) (l : list string) :
  Forall (fun x => lacks c x = true) (a :: l) ->
  split (join (a :: l) (String c "")) (String c "") = a :: l.
Proof. intros H. apply split_go_join; [apply join_length_ge|done]. Qed.

(** *** Decimal numbers *)

Lemma digit_val_pretty (n : N) :
  (n < 10)%N -> is_digit (pretty_N_char n) = true /\ digit_val (pretty_N_char n) = n.
Proof.
  intros H. destruct n as [|p]; [by split|].
  do 4 (destruct p as [p|p|]; try (by split); try lia).
Qed.

Lemma parse_uint_loop_pretty (max x : N) (s : string) :
  (x <= max)%N ->
  parse_uint_loop max (pretty_N_go x s) 0 = parse_uint_loop max s x.
Proof.
  revert s. induction (N.lt_wf_0 x) as [x _ IH]; intros s Hx.
  destruct (decide (x = 0)%N) as [->|Hnz]; [by rewrite pretty_N_go_0|].
  rewrite pretty_N_go_step by lia. rewrite IH.
  - simpl. destruct (digit_val_pretty (x mod 10)) as [-> ->].
    { apply N.mod_lt. lia. }
    assert (x `div` 10 * 10 + x `mod` 10 = x)%N as ->.
    { pose proof (N.div_mod x 10). lia. }
    destruct (N.ltb_spec max x); [lia|done].
  - apply N.div_lt; lia.
  - etransitivity; [|exact Hx]. apply N.Div0.div_le_upper_bound. lia.
Qed.

Lemma pretty_N_go_nonempty (x : N) (s : string) :
  (0 < x)%N \/ s <> "" -> pretty_N_go x s <> "".
Proof.
  revert s. induction (N.lt_wf_0 x) as [x _ IH]; intros s H.
  destruct (decide (x = 0)%N) as [->|Hnz].
  - rewrite pretty_N_go_0. destruct H; [lia|done].
  - rewrite pretty_N_go_step by lia. apply IH; [apply N.div_lt; lia|by right].
Qed.

(** [strconv.ParseUint(fmt.Sprintf("%d", n), 10, bits)] gives [n] back. *)
Lemma parse_uint_utoa (bits n : N) :
  (n < 2 ^ bits)%N -> parse_uint bits (utoa n) = Ok n.
Proof.
  intros H. unfold utoa, parse_uint, pretty, pretty_N.
  destruct (decide (n = 0)%N) as [->|Hnz].
  - cbn. by destruct (2 ^ bits - 1)%N.
  - pose proof (pretty_N_go_nonempty n "" ltac:(lia)) as Hne.
    destruct (pretty_N_go n "") eqn:E; [done|]. rewrite <- E.
    rewrite parse_uint_loop_pretty by lia. done.
Qed.

Lemma pretty_char_digit (n : N) :
  (n < 10)%N -> is_digit (pretty_N_char n) = true.
Proof. intros H. by apply digit_val_pretty. Qed.

Lemma sforall_pretty_N_go (x : N) (s : string) :
  sforall is_digit s = true -> sforall is_digit (pretty_N_go x s) = true.
Proof.
  revert s. induction (N.lt_wf_0 x) as [x _ IH]; intros s Hs.
  destruct (decide (x = 0)%N) as [->|Hnz]; [by rewrite pretty_N_go_0|].
  rewrite pretty_N_go_step by lia. apply IH.
  - apply N.div_lt; lia.
  - simpl. rewrite pretty_char_digit; [done|]. apply N.mod_lt. lia.
Qed.

#[export] Instance utoa_inj : Inj eq eq utoa.
Proof. intros n m H. by apply (inj pretty). Qed.

Lemma utoa_digits (n : N) : sforall is_digit (utoa n) = true.
Proof.
  unfold utoa, pretty, pretty_N. case_decide; [done|]. by apply sforall_pretty_N_go.
Qed.

Lemma utoa_nonempty (n : N) : utoa n <> "".
Proof.
  unfold utoa, pretty, pretty_N. case_decide; [done|]. apply pretty_N_go_nonempty. left. lia.
Qed.

Lemma utoa_lacks (c : ascii) (n : N) : is_digit c = false -> lacks c (utoa n) = true.
Proof.
  intros Hc. unfold lacks. eapply sforall_impl; [|apply utoa_digits].
  intros d Hd. destruct (Ascii.eqb_spec d c) as [->|]; [congruence|done].
Qed.

(** *** Hexadecimal digits *)

Definition is_hex (c : ascii) : bool :=
  is_digit c || (let n := Ascii.N_of_ascii c in ((97 <=? n) && (n <=? 102))%N).

Lemma hex_digit_is_hex (n : N) : (n < 16)%N -> is_hex (hex_digit n) = true.
Proof.
  intros H. destruct n as [|p]; [done|].
  do 5 (destruct p as [p|p|]; try done; try lia).
Qed.

Lemma hex_pad_hex (d : nat) (n : N) : sforall is_hex (hex_pad d n) = true.
Proof.
  revert n. induction d as [|d IH]; intros n; [done|]. cbn [hex_pad].
  rewrite sforall_app, IH. simpl. rewrite hex_digit_is_hex; [done|].
  apply N.mod_lt. lia.
Qed.

Lemma hex_pad_length (d : nat) (n : N) : String.length (hex_pad d n) = d.
Proof.
  revert n. induction d as [|d IH]; intros n; [done|]. cbn [hex_pad].
  rewrite slength_app, IH. simpl. lia.
Qed.

Arguments hex_pad : simpl never.

Lemma hex_pad_lacks (c : ascii) (d : nat) (n : N) :
  is_hex c = false -> lacks c (hex_pad d n) = true.
Proof.
  intros Hc. unfold lacks. eapply sforall_impl; [|apply hex_pad_hex].
  intros x Hx. destruct (Ascii.eqb_spec x c) as [->|]; [congruence|done].
Qed.

(** ** Machine integers *)

(** Conversion of an integer to a signed or unsigned [w]-bit type. *)
Definition wrap_u (w : Z) (z : Z) : Z := (z mod 2 ^ w)%Z.
Definition wrap_s (w : Z) (z : Z) : Z :=
  ((z + 2 ^ (w - 1)) mod 2 ^ w - 2 ^ (w - 1))%Z.
Definition int64 (z : Z) : Z := wrap_s 64 z.
Definition int32 (z : Z) : Z := wrap_s 32 z.
Definition uint64 (z : Z) : Z := wrap_u 64 z.

Definition in_int64 (z : Z) : Prop := (- 2 ^ 63 <= z < 2 ^ 63)%Z.

Lemma wrap_s_id (w z : Z) :
  (0 < w)%Z -> (- 2 ^ (w - 1) <= z < 2 ^ (w - 1))%Z -> wrap_s w z = z.
Proof.
  intros Hw H. unfold wrap_s.
  assert (2 ^ w = 2 * 2 ^ (w - 1))%Z as E.
  { replace w with (Z.succ (w - 1)) at 1 by lia. apply Z.pow_succ_r. lia. }
  rewrite Z.mod_small; lia.
Qed.

Lemma int64_id (z : Z) : in_int64 z -> int64 z = z.
Proof. intros H. apply wrap_s_id; [lia|exact H]. Qed.

(** ** Signed numbers in decimal *)

(** [strconv.ParseInt(s, 10, bits)]. *)
Definition parse_int (bits : N) (s : string) : result parse_error Z :=
  let check (neg : bool) (digits : string) : result parse_error Z :=
    match parse_uint bits digits with
    | Err err => Err err
    | Ok un =>
        let cutoff := (2 ^ (Z.of_N bits - 1))%Z in
        let n := Z.of_N un in
        if negb neg && (cutoff <=? n)%Z then Err ErrRange
        else if neg && (cutoff <? n)%Z then Err ErrRange
        else Ok (if neg then (- n)%Z else n)
    end in
  match s with
  | EmptyString => Err ErrSyntax
  | String c s' =>
      if Ascii.eqb c "+" then check false s'
      else if Ascii.eqb c "-" then check true s'
      else check false s
  end.
Abbreviation parse_int64 := (parse_int 64).

Lemma parse_int_digits (bits : N) (s : string) :
  sforall is_digit s = true -> s <> "" ->
  parse_int bits s = match parse_uint bits s with
                     | Err err => Err err
                     | Ok un => if (2 ^ (Z.of_N bits - 1) <=? Z.of_N un)%Z then Err ErrRange
                                else Ok (Z.of_N un)
                     end.
Proof.
  intros Hd Hne. destruct s as [|c s]; [done|]. cbn [sforall] in Hd.
  apply andb_true_iff in Hd as [Hc _]. unfold parse_int.
  destruct (Ascii.eqb_spec c "+") as [->|]; [done|].
  destruct (Ascii.eqb_spec c "-") as [->|]; [done|].
  destruct (parse_uint bits (String c s)) as [un|]; [|done]. cbn [negb andb].
  by destruct (2 ^ (Z.of_N bits - 1) <=? Z.of_N un)%Z.
Qed.

Lemma itoa_cases (z : Z) :
  itoa z = if (z <? 0)%Z then "-" +:+ utoa (Z.to_N (- z)) else utoa (Z.to_N z).
Proof. by destruct z. Qed.

(** [strconv.ParseInt(fmt.Sprintf("%d", z), 10, 64)] gives [z] back. *)
Lemma parse_int64_itoa (z : Z) : in_int64 z -> parse_int64 (itoa z) = Ok z.
Proof.
  intros [Hlo Hhi]. rewrite itoa_cases. destruct (Z.ltb_spec z 0) as [Hz|Hz].
  - cbn [parse_int]. change (("-" +:+ utoa (Z.to_N (- z)))) with (String "-" (utoa (Z.to_N (- z)))).
    cbn [Ascii.eqb Bool.eqb andb negb]. cbn -[Z.ltb Z.of_N Z.to_N]. rewrite parse_uint_utoa by lia.
    destruct (_ <? _)%Z eqn:Hc; [apply Z.ltb_lt in Hc; lia|]. f_equal. lia.
  - rewrite parse_int_digits; [|apply utoa_digits|apply utoa_nonempty].
    rewrite parse_uint_utoa by lia.
    destruct (_ <=? _)%Z eqn:Hc; [apply Z.leb_le in Hc; lia|]. f_equal. lia.
Qed.

(** A number that parses is made of digits. *)
Lemma parse_uint_loop_ok (max : N) (s : string) (n m : N) :
  parse_uint_loop max s n = Ok m -> sforall is_digit s = true.
Proof.
  revert n. induction s as [|c s IH]; intros n; [done|]. cbn [parse_uint_loop sforall].
  destruct (is_digit c); [|done]. destruct (max <? _)%N; [done|]. apply IH.
Qed.

Lemma parse_uint_ok (bits : N) (s : string) (m : N) :
  parse_uint bits s = Ok m -> sforall is_digit s = true.
Proof. destruct s; [done|]. apply parse_uint_loop_ok. Qed.

(** So does a signed number, apart from its sign: a text that ends in another
    byte is not a number. *)
Lemma parse_int64_last (s : string) (c : ascii) (z : Z) :
  is_digit c = false -> parse_int64 (s +:+ String c "") <> Ok z.
Proof.
  intros Hc H.
  assert (forall t n, parse_uint 64 (t +:+ String c "") <> Ok n) as Hn.
  { intros t n Hp. apply parse_uint_ok in Hp. rewrite sforall_app in Hp.
    cbn [sforall] in Hp. rewrite Hc in Hp. by rewrite andb_false_r in Hp. }
  destruct s as [|d s]; cbn [parse_int String.append] in H.
  - destruct (Ascii.eqb c "+"); [done|]. destruct (Ascii.eqb c "-"); [done|].
    specialize (Hn "" ). cbn [String.append] in Hn.
    destruct (parse_uint 64 (String c "")) as [n|]; [by apply (Hn n)|done].
  - pose proof (Hn s) as H1. pose proof (Hn (String d s)) as H2. cbn [String.append] in H2.
    destruct (parse_uint 64 (s +:+ String c "")) as [n|]; [by destruct (H1 n)|].
    destruct (parse_uint 64 (String d (s +:+ String c ""))) as [n|]; [by destruct (H2 n)|].
    by destruct (Ascii.eqb d "+"), (Ascii.eqb d "-").
Qed.
