(* ===== verification/Regex.v ===== *)
(** * Regex: the fragment of Go's [regexp] the sources use

    The patterns of the program (the container-not-found message of
    libdocker/kube_docker_client.go, [conflictRE] and [startRE] of
    core/helpers.go, those of network/bandwidth/linux.go and of
    containermanager/container_manager_linux.go) are concatenations of literals, byte classes, greedy
    or counted repetitions of a byte class, optional parts and one capture
    group, either without anchors or anchored at both ends.  A match is computed as the list of all matches at a position, in
    the order Go's leftmost-first semantics prefers them. *)
From S2P Require Import Prelude.

#[local] Arguments String.append !s1 s2 : simpl nomatch.

Inductive re : Type :=
| Lit (s : string)
| Class (p : ascii -> bool)
| Many (p : ascii -> bool)
| Opt (r : re)
| Cap (r : re)
| Seq (r1 r2 : re).

(** [p+] *)
Definition Many1 (p : ascii -> bool) : re := Seq (Class p) (Many p).

(** [r{n}] *)
Fixpoint Times (n : nat) (r : re) : re :=
  match n with O => Lit EmptyString | S n' => Seq r (Times n' r) end.

(** [.]: any byte but a newline. *)
Definition any (c : ascii) : bool := negb (N.eqb (Ascii.N_of_ascii c) 10).
(** [[0-9a-z]] *)
Definition alnum (c : ascii) : bool := is_digit c || is_lower_letter c.

(** The suffixes left by the greedy repetition of a class, longest match
    first. *)
Fixpoint many (p : ascii -> bool) (s : string) : list string :=
  match s with
  | EmptyString => [EmptyString]
  | String c s' => if p c then many p s' ++ [s] else [s]
  end.

(** The text consumed between a string and one of its suffixes. *)
Definition consumed (s rest : string) : string :=
  stake (String.length s - String.length rest) s.

(** The matches of [r] at the start of [s]: captured groups and rest. *)
Fixpoint matches (r : re) (s : string) : list (list string * string) :=
  match r with
  | Lit l => if has_prefix s l then [([], sdrop (String.length l) s)] else []
  | Class p =>
      match s with
      | String c s' => if p c then [([], s')] else []
      | EmptyString => []
      end
  | Many p => (fun rest => ([], rest)) <$> many p s
  | Opt r' => matches r' s ++ [([], s)]
  | Cap r' => (fun '(caps, rest) => (consumed s rest :: caps, rest)) <$> matches r' s
  | Seq r1 r2 =>
      matches r1 s ≫= (fun '(c1, s1) =>
        (fun '(c2, s2) => (c1 ++ c2, s2)) <$> matches r2 s1)
  end.

(** [FindStringSubmatch]: the groups of the leftmost match, the preferred one
    among those that start there. *)
Fixpoint find_submatch (r : re) (s : string) : option (list string) :=
  match matches r s with
  | (caps, _) :: _ => Some caps
  | [] => match s with EmptyString => None | String _ s' => find_submatch r s' end
  end.

(** [MatchString]. *)
Definition match_string (r : re) (s : string) : bool :=
  match find_submatch r s with Some _ => true | None => false end.

(** [MatchString] of [^r$]: some match of [r] at the start takes the whole
    text. *)
Definition match_whole (r : re) (s : string) : bool :=
  existsb (fun '(_, rest) => String.eqb rest EmptyString) (matches r s).

(** ** Matches survive a longer text *)

Lemma many_app p s t rest :
  rest ∈ many p s -> (rest +:+ t) ∈ many p (s +:+ t).
Proof.
  induction s as [|c s IH]; simpl; intros H.
  - apply list_elem_of_singleton in H; subst. simpl.
    destruct t as [|d t]; simpl; [set_solver|].
    destruct (p d); set_solver.
  - destruct (p c); [|by apply list_elem_of_singleton in H; subst; apply list_elem_of_singleton].
    apply elem_of_app in H as [H|H].
    + apply elem_of_app. left. auto.
    + apply list_elem_of_singleton in H; subst. set_solver.
Qed.

Lemma many_suffix p s rest : rest ∈ many p s -> exists u, s = u +:+ rest.
Proof.
  induction s as [|c s IH]; simpl; intros H.
  - apply list_elem_of_singleton in H; subst. by exists "".
  - destruct (p c).
    + apply elem_of_app in H as [H|H].
      * destruct (IH H) as [u ->]. by exists (String c u).
      * apply list_elem_of_singleton in H; subst. by exists "".
    + apply list_elem_of_singleton in H; subst. by exists "".
Qed.

Lemma matches_suffix r s caps rest :
  (caps, rest) ∈ matches r s -> exists u, s = u +:+ rest.
Proof.
  revert s caps rest.
  induction r as [l|p|p|r IH|r IH|r1 IH1 r2 IH2]; intros s caps rest; simpl.
  - destruct (has_prefix s l) eqn:E; [|set_solver].
    intros ?%list_elem_of_singleton; simplify_eq.
    apply has_prefix_spec in E as [u ->]. exists l. by rewrite sdrop_app.
  - destruct s as [|c s]; [set_solver|]. destruct (p c); [|set_solver].
    intros ?%list_elem_of_singleton; simplify_eq. by exists (String c "").
  - intros (u & Heq & Hu)%list_elem_of_fmap. simplify_eq. by eapply many_suffix.
  - intros [H|H]%elem_of_app; [eauto|].
    apply list_elem_of_singleton in H. simplify_eq. by exists "".
  - intros ([c r'] & Heq & Hu)%list_elem_of_fmap. simplify_eq. eauto.
  - intros ([c1 s1] & H & H1)%list_elem_of_bind.
    apply list_elem_of_fmap in H as ([c2 s2] & Heq & H2). simplify_eq.
    destruct (IH1 _ _ _ H1) as [u1 ->]. destruct (IH2 _ _ _ H2) as [u2 ->].
    exists (u1 +:+ u2). by rewrite sapp_assoc.
Qed.

Lemma consumed_app u rest : consumed (u +:+ rest) rest = u.
Proof.
  unfold consumed. rewrite slength_app, Nat.add_sub. apply stake_app.
Qed.

Lemma matches_app r s t caps rest :
  (caps, rest) ∈ matches r s -> (caps, rest +:+ t) ∈ matches r (s +:+ t).
Proof.
  revert s caps rest.
  induction r as [l|p|p|r IH|r IH|r1 IH1 r2 IH2]; intros s caps rest; simpl.
  - destruct (has_prefix s l) eqn:E; [|set_solver].
    intros ?%list_elem_of_singleton; simplify_eq.
    apply has_prefix_spec in E as [u ->].
    rewrite sapp_assoc, has_prefix_app, !sdrop_app. set_solver.
  - destruct s as [|c s]; simpl; [set_solver|]. destruct (p c); set_solver.
  - intros (u & Heq & Hu)%list_elem_of_fmap. simplify_eq.
    apply list_elem_of_fmap. exists (u +:+ t). split; [done|]. by apply many_app.
  - intros [H|H]%elem_of_app; apply elem_of_app; [left; auto|right].
    apply list_elem_of_singleton in H. simplify_eq. set_solver.
  - intros ([c r'] & Heq & Hu)%list_elem_of_fmap. simplify_eq.
    apply list_elem_of_fmap. exists (c, r' +:+ t). split; [|auto].
    destruct (matches_suffix _ _ _ _ Hu) as [u ->].
    rewrite sapp_assoc, !consumed_app. done.
  - intros ([c1 s1] & H & H1)%list_elem_of_bind.
    apply list_elem_of_fmap in H as ([c2 s2] & Heq & H2). simplify_eq.
    apply list_elem_of_bind. exists (c1, s1 +:+ t). split; [|auto].
    apply list_elem_of_fmap. exists (c2, s2 +:+ t). eauto.
Qed.

Lemma match_string_here r s : matches r s <> [] -> match_string r s = true.
Proof.
  unfold match_string. destruct s; simpl; destruct (matches _ _) as [|[]]; done.
Qed.

Lemma match_string_app_l r u s :
  match_string r s = true -> match_string r (u +:+ s) = true.
Proof.
  intros H. induction u as [|c u IH]; simpl; [done|].
  unfold match_string in *. simpl.
  destruct (matches r (String c (u +:+ s))) as [|[]]; done.
Qed.

Lemma match_string_inv r s :
  match_string r s = true -> exists u v, s = u +:+ v /\ matches r v <> [].
Proof.
  unfold match_string. induction s as [|c s IH]; simpl; intros H.
  - exists "", "". split; [done|]. by destruct (matches r "").
  - destruct (matches r (String c s)) as [|[]] eqn:E.
    + destruct (IH H) as (u & v & -> & Hv). by exists (String c u), v.
    + exists "", (String c s). split; [done|]. by rewrite E.
Qed.

(** A pattern without anchors that matches a text matches every text that
    contains it. *)
Lemma match_string_infix r u s t :
  match_string r s = true -> match_string r (u +:+ s +:+ t) = true.
Proof.
  intros (a & b & -> & Hb)%match_string_inv.
  rewrite sapp_assoc. apply match_string_app_l, match_string_app_l.
  apply match_string_here. destruct (matches r b) as [|[caps rest] l] eqn:E; [done|].
  assert ((caps, rest) ∈ matches r b) as Hin by (rewrite E; set_solver).
  apply (matches_app _ _ t) in Hin. intros Hnil. rewrite Hnil in Hin. set_solver.
Qed.

(** Every byte the pattern can consume satisfies [p]. *)
Fixpoint re_chars (p : ascii -> bool) (r : re) : Prop :=
  match r with
  | Lit l => sforall p l = true
  | Class q | Many q => forall c, q c = true -> p c = true
  | Opt r' | Cap r' => re_chars p r'
  | Seq r1 r2 => re_chars p r1 /\ re_chars p r2
  end.

Lemma many_chars p q s rest :
  (forall c, q c = true -> p c = true) ->
  rest ∈ many q s -> exists u, s = u +:+ rest /\ sforall p u = true.
Proof.
  intros Hq. induction s as [|c s IH]; simpl; intros H.
  - apply list_elem_of_singleton in H; subst. by exists "".
  - destruct (q c) eqn:E.
    + apply elem_of_app in H as [H|H].
      * destruct (IH H) as (u & -> & Hu). exists (String c u). simpl. by rewrite Hq, Hu.
      * apply list_elem_of_singleton in H; subst. by exists "".
    + apply list_elem_of_singleton in H; subst. by exists "".
Qed.

Lemma matches_chars p r s caps rest :
  re_chars p r -> (caps, rest) ∈ matches r s ->
  exists u, s = u +:+ rest /\ sforall p u = true.
Proof.
  revert s caps rest.
  induction r as [l|q|q|r IH|r IH|r1 IH1 r2 IH2]; intros s caps rest; simpl; intros Hp.
  - destruct (has_prefix s l) eqn:E; [|set_solver].
    intros ?%list_elem_of_singleton; simplify_eq.
    apply has_prefix_spec in E as [u ->]. exists l. by rewrite sdrop_app.
  - destruct s as [|c s]; [set_solver|]. destruct (q c) eqn:E; [|set_solver].
    intros ?%list_elem_of_singleton; simplify_eq. exists (String c "").
    simpl. by rewrite Hp.
  - intros (u & Heq & Hu)%list_elem_of_fmap. simplify_eq. by eapply many_chars.
  - intros [H|H]%elem_of_app; [eauto|].
    apply list_elem_of_singleton in H. simplify_eq. by exists "".
  - intros ([c r'] & Heq & Hu)%list_elem_of_fmap. simplify_eq. eauto.
  - destruct Hp as [Hp1 Hp2]. intros ([c1 s1] & H & H1)%list_elem_of_bind.
    apply list_elem_of_fmap in H as ([c2 s2] & Heq & H2). simplify_eq.
    destruct (IH1 _ _ _ Hp1 H1) as (u1 & -> & Hu1). destruct (IH2 _ _ _ Hp2 H2) as (u2 & -> & Hu2).
    exists (u1 +:+ u2). by rewrite sapp_assoc, sforall_app, Hu1, Hu2.
Qed.

(** ** The preferred match *)

(** The match of [r] at the start of [s] that is preferred to all others. *)
Definition prefers (r : re) (s : string) (caps : list string) (rest : string) : Prop :=
  head (matches r s) = Some (caps, rest).

Lemma head_list_fmap {A B} (f : A -> B) (l : list A) : head (f <$> l) = f <$> head l.
Proof. by destruct l. Qed.

Lemma prefers_lit l s : prefers (Lit l) (l +:+ s) [] s.
Proof. unfold prefers. cbn [matches]. by rewrite has_prefix_app, sdrop_app. Qed.

Lemma prefers_class p c s : p c = true -> prefers (Class p) (String c s) [] s.
Proof. intros H. unfold prefers. cbn [matches]. by rewrite H. Qed.

(** A greedy repetition takes all it can. *)
Lemma prefers_many p d t :
  sforall p d = true -> (forall c t', t = String c t' -> p c = false) ->
  prefers (Many p) (d +:+ t) [] t.
Proof.
  intros Hd Ht. unfold prefers. cbn [matches]. rewrite head_list_fmap.
  assert (head (many p (d +:+ t)) = Some t) as ->; [|done].
  induction d as [|c d IH]; cbn in *.
  - destruct t as [|c t]; [done|]. cbn. by rewrite (Ht c t eq_refl).
  - apply andb_true_iff in Hd as [Hc Hd]. rewrite Hc. specialize (IH Hd).
    destruct (many p (d +:+ t)); [done|exact IH].
Qed.

Lemma prefers_seq r1 r2 s c1 s1 c2 s2 :
  prefers r1 s c1 s1 -> prefers r2 s1 c2 s2 -> prefers (Seq r1 r2) s (c1 ++ c2) s2.
Proof.
  unfold prefers. cbn [matches]. intros H1 H2.
  destruct (matches r1 s) as [|m1 l1]; [done|]. cbn in H1. simplify_eq. cbn.
  destruct (matches r2 s1) as [|m2 l2]; [done|]. cbn in H2. by simplify_eq.
Qed.

Lemma prefers_many1 p d t :
  sforall p d = true -> d <> "" -> (forall c t', t = String c t' -> p c = false) ->
  prefers (Many1 p) (d +:+ t) [] t.
Proof.
  intros Hd Hne Ht. destruct d as [|c d]; [done|]. cbn [sforall] in Hd.
  apply andb_true_iff in Hd as [Hc Hd].
  exact (prefers_seq _ _ _ [] _ [] _ (prefers_class p c (d +:+ t) Hc) (prefers_many p d t Hd Ht)).
Qed.

Lemma prefers_cap r u caps rest :
  prefers r (u +:+ rest) caps rest -> prefers (Cap r) (u +:+ rest) (u :: caps) rest.
Proof.
  unfold prefers. cbn [matches]. rewrite head_list_fmap. intros ->. cbn. by rewrite consumed_app.
Qed.

Lemma prefers_find r s caps rest : prefers r s caps rest -> find_submatch r s = Some caps.
Proof.
  unfold prefers. intros H. destruct (matches r s) as [|[c t] l] eqn:E; [done|]. cbn in H.
  simplify_eq. destruct s; cbn [find_submatch]; by rewrite E.
Qed.

(** ** Whole texts: a literal and a number of bytes of a class *)

Lemma has_prefix_nil s : has_prefix s "" = true.
Proof. apply (has_prefix_app "" s). Qed.

Lemma matches_times_class p n s caps rest :
  (caps, rest) ∈ matches (Times n (Class p)) s ->
  exists t, s = t +:+ rest /\ String.length t = n /\ sforall p t = true.
Proof.
  revert s caps. induction n as [|n IH]; intros s caps; cbn [Times matches].
  - rewrite has_prefix_nil, list_elem_of_singleton. intros [= _ ->]. by exists "".
  - intros ([c1 s1] & H & H1)%list_elem_of_bind.
    apply list_elem_of_fmap in H as ([c2 s2] & Heq & H2). simplify_eq.
    destruct s as [|c s]; [set_solver|]. destruct (p c) eqn:Hp; [|set_solver].
    apply list_elem_of_singleton in H1. simplify_eq.
    destruct (IH _ _ H2) as (t & -> & <- & Ht). exists (String c t). simpl. by rewrite Hp.
Qed.

Lemma times_class_matches p t rest :
  sforall p t = true ->
  ([], rest) ∈ matches (Times (String.length t) (Class p)) (t +:+ rest).
Proof.
  induction t as [|c t IH]; cbn [String.length Times matches sforall].
  - intros _. simpl. rewrite has_prefix_nil. by apply list_elem_of_singleton.
  - intros [Hc Ht]%andb_true_iff. apply list_elem_of_bind. simpl. rewrite Hc.
    exists ([], t +:+ rest). split; [|by apply list_elem_of_singleton].
    apply list_elem_of_fmap. exists ([], rest). split; [done|]. by apply IH.
Qed.

Lemma match_whole_lit_times l n p s :
  match_whole (Seq (Lit l) (Times n (Class p))) s = true <->
  exists t, s = l +:+ t /\ String.length t = n /\ sforall p t = true.
Proof.
  unfold match_whole. rewrite existsb_exists. split.
  - intros ([caps rest] & Hin & ->%String.eqb_eq). apply list_elem_of_In in Hin.
    cbn [matches] in Hin. apply list_elem_of_bind in Hin as ([c1 s1] & H & H1).
    apply list_elem_of_fmap in H as ([c2 s2] & Heq & H2). simplify_eq.
    destruct (has_prefix s l) eqn:Hl; [|set_solver].
    apply list_elem_of_singleton in H1. simplify_eq.
    apply has_prefix_spec in Hl as [u ->]. rewrite sdrop_app in H2.
    apply matches_times_class in H2 as (t & -> & <- & Ht). exists t. by rewrite sapp_nil_r.
  - intros (t & -> & <- & Ht). exists ([], ""). split; [|done]. apply list_elem_of_In.
    cbn [matches]. rewrite has_prefix_app, sdrop_app. apply list_elem_of_bind.
    exists ([], t). split; [|by apply list_elem_of_singleton].
    apply list_elem_of_fmap. exists ([], ""). split; [done|].
    rewrite <- (sapp_nil_r t) at 2. by apply times_class_matches.
Qed.
