(* ===== verification/GoErrors.v ===== *)
(** * GoErrors: error values and aggregates

    The error values the program builds and inspects, and the aggregate
    errors of utils/errors/errors.go with their filters; the classification of
    docker errors of libdocker/kube_docker_client.go. *)
From S2P Require Import Prelude Regex.

(** ** Error values *)

(** The package-level error variables the program compares by identity. *)
Inductive sentinel :=
| ErrCorruptCheckpoint
| ErrCheckpointNotFound
| ErrKeyNotFound
| errMaximumWrite
| ErrShortWrite
| EOF
| DeadlineExceeded
| Canceled
| ErrRROUnsupported.

#[export] Instance sentinel_eq_dec : EqDecision sentinel.
Proof. solve_decision. Defined.

(** The text of each variable. *)
Definition sentinel_msg (s : sentinel) : string :=
  match s with
  | ErrCorruptCheckpoint => "checkpoint is corrupted"
  | ErrCheckpointNotFound => "checkpoint is not found"
  | ErrKeyNotFound => "key is not found"
  | errMaximumWrite => "maximum write"
  | ErrShortWrite => "short write"
  | EOF => "EOF"
  | DeadlineExceeded => "context deadline exceeded"
  | Canceled => "context canceled"
  | ErrRROUnsupported => "RRO unsupported"
  end.

(** The errno values behind [os.IsNotExist] and [os.IsExist]. *)
Inductive errno := ENOENT | EEXIST | EOTHER (msg : string).

#[export] Instance errno_eq_dec : EqDecision errno.
Proof. solve_decision. Defined.

Definition errno_msg (e : errno) : string :=
  match e with
  | ENOENT => "no such file or directory"
  | EEXIST => "file exists"
  | EOTHER m => m
  end.

(** An error value by its dynamic type: a fresh [errors.New]/[fmt.Errorf]; a
    package variable; [fmt.Errorf] with [%w], whose text is formatted when it
    is built; libdocker's two error types; an error of the docker engine with
    its not-found classification; a gRPC status; an [*os.PathError]; an
    error of docker's JSON message stream; and [aggregate]. *)
Inductive error :=
| ErrorString (s : string)
| Sentinel (s : sentinel)
| WrapError (msg : string) (err : error)
| ImageNotFoundError (ID : string)
| operationTimeout (err : error)
| DockerError (notfound : bool) (msg : string)
| StatusError (code desc : string)
| PathError (op path : string) (err : errno)
| JSONError (code : Z) (msg : string)
| aggregate (errs : list error).

(** The induction principle that reaches the members of an aggregate. *)
Fixpoint error_ind' (P : error -> Prop)
  (Hs : forall s, P (ErrorString s)) (Hn : forall s, P (Sentinel s))
  (Hw : forall m e, P e -> P (WrapError m e))
  (Hi : forall i, P (ImageNotFoundError i))
  (Ho : forall e, P e -> P (operationTimeout e))
  (Hd : forall b m, P (DockerError b m))
  (Hst : forall c d, P (StatusError c d))
  (Hp : forall o p n, P (PathError o p n))
  (Hj : forall c m, P (JSONError c m))
  (Ha : forall l, Forall P l -> P (aggregate l)) (e : error) : P e :=
  let rec := error_ind' P Hs Hn Hw Hi Ho Hd Hst Hp Hj Ha in
  match e with
  | ErrorString s => Hs s
  | Sentinel s => Hn s
  | WrapError m e' => Hw m e' (rec e')
  | ImageNotFoundError i => Hi i
  | operationTimeout e' => Ho e' (rec e')
  | DockerError b m => Hd b m
  | StatusError c d => Hst c d
  | PathError o p n => Hp o p n
  | JSONError c m => Hj c m
  | aggregate l =>
      Ha l ((fix go (l : list error) : Forall P l :=
               match l with
               | [] => List.Forall_nil P
               | x :: l' => List.Forall_cons P x l' (rec x) (go l')
               end) l)
  end.

(** Results whose error is an [error]. *)
Abbreviation res := (result error).

(** [fmt.Errorf(format, ...)] without [%w]. *)
Definition Errorf (s : string) : error := ErrorString s.

(** [strconv]'s [*NumError] of the function [fn]. *)
Definition NumError (fn s : string) (e : parse_error) : error :=
  Errorf ("strconv." +:+ fn +:+ ": parsing " +:+ quote s +:+ ": "
          +:+ match e with ErrSyntax => "invalid syntax" | ErrRange => "value out of range" end).

(** ** [Error()] *)

(** The distinct messages in order of first occurrence. *)
Fixpoint dedup (seen : list string) (l : list string) : list string :=
  match l with
  | [] => []
  | m :: l' => if decide (m ∈ seen) then dedup seen l' else m :: dedup (m :: seen) l'
  end.

(** The text an aggregate of two or more errors renders from the messages
    [visit] reaches. *)
Definition render_msgs (msgs : list string) : string :=
  match dedup [] msgs with
  | [m] => m
  | ms => "[" +:+ join ms ", " +:+ "]"
  end.

(** The message of an error and the messages of the errors [visit] reaches
    from it. *)
Fixpoint messages (e : error) : string * list string :=
  let leaf m := (m, [m]) in
  match e with
  | ErrorString s => leaf s
  | Sentinel s => leaf (sentinel_msg s)
  | WrapError msg _ => leaf msg
  | ImageNotFoundError ID => leaf ("no such image: " +:+ quote ID)
  | operationTimeout e' => leaf ("operation timeout: " +:+ fst (messages e'))
  | DockerError _ msg => leaf msg
  | StatusError code desc => leaf ("rpc error: code = " +:+ code +:+ " desc = " +:+ desc)
  | PathError op path err => leaf (op +:+ " " +:+ path +:+ ": " +:+ errno_msg err)
  | JSONError _ msg => leaf msg
  | aggregate errs =>
      let inner := flat_map (fun x => snd (messages x)) errs in
      (match errs with
       | [] => ""
       | [x] => fst (messages x)
       | _ => render_msgs inner
       end, inner)
  end.

(** [err.Error()]. *)
Definition Error (e : error) : string := fst (messages e).

(** [err == ErrX] for a package variable [ErrX]. *)
Definition is_sentinel (s : sentinel) (e : error) : bool :=
  match e with Sentinel s' => bool_decide (s = s') | _ => false end.

(** ** [errors.Is] against a package variable, and aggregates *)

Fixpoint errors_Is (e : error) (target : sentinel) : bool :=
  match e with
  | Sentinel s => bool_decide (s = target)
  | WrapError _ e' => errors_Is e' target
  | operationTimeout e' => errors_Is e' target
  | aggregate errs => existsb (fun x => errors_Is x target) errs
  | _ => false
  end.

(** [visit]: apply [f] to the non-aggregate errors in order until one
    matches. *)
Fixpoint visit (f : error -> bool) (e : error) : bool :=
  match e with
  | aggregate errs => existsb (visit f) errs
  | _ => f e
  end.

(** [NewAggregate]: nil errors are dropped, no error at all is nil. *)
Definition NewAggregate (errlist : list (option error)) : option error :=
  match errlist with
  | [] => None
  | _ => match omap id errlist with
         | [] => None
         | errs => Some (aggregate errs)
         end
  end.

Definition Errors (agg : error) : list error :=
  match agg with aggregate l => l | _ => [] end.

Definition matchesError (e : error) (fns : list (error -> bool)) : bool :=
  existsb (fun fn => fn e) fns.

(** The loop of [filterErrors] over an already defined [FilterOut]. *)
Definition filterErrors (F : error -> option error) : list error -> list error :=
  fix go l := match l with
              | [] => []
              | e :: l' => match F e with Some r => r :: go l' | None => go l' end
              end.

Fixpoint FilterOut (e : error) (fns : list (error -> bool)) : option error :=
  match e with
  | aggregate errs =>
      NewAggregate (Some <$> filterErrors (fun x => FilterOut x fns) errs)
  | _ => if matchesError e fns then None else Some e
  end.

(** [Flatten] of a non-nil Aggregate. *)
Fixpoint Flatten (agg : error) : option error :=
  match agg with
  | aggregate errs =>
      NewAggregate (Some <$>
        flat_map (fun err => match err with
                             | aggregate _ =>
                                 match Flatten err with Some r => Errors r | None => [] end
                             | _ => [err]
                             end) errs)
  | _ => None
  end.

Definition Reduce (err : option error) : option error :=
  match err with
  | Some (aggregate [e]) => Some e
  | Some (aggregate []) => None
  | _ => err
  end.

(** ** Classification of docker errors *)

Definition containerNotFoundErrorRegx : re :=
  Seq (Lit "No such container: ") (Many1 alnum).

Definition IsContainerNotFoundError (e : error) : bool :=
  match_string containerNotFoundErrorRegx (Error e).

Definition IsImageNotFoundError (e : error) : bool :=
  match e with ImageNotFoundError _ => true | _ => false end.

(** [os.IsNotExist]. *)
Definition IsNotExist (e : error) : bool :=
  match e with PathError _ _ ENOENT => true | _ => false end.

(** ** Theory *)

(** The non-aggregate errors below an error, left to right. *)
Fixpoint leaves (e : error) : list error :=
  match e with
  | aggregate errs => flat_map leaves errs
  | _ => [e]
  end.

Definition oleaves (e : option error) : list error := from_option leaves [] e.

Definition is_aggregate (e : error) : bool :=
  match e with aggregate _ => true | _ => false end.

Lemma is_sentinel_eq s e : is_sentinel s e = true <-> e = Sentinel s.
Proof.
  destruct e; simpl; split; try done.
  - by intros ->%bool_decide_eq_true.
  - intros [= ->]. by apply bool_decide_eq_true.
Qed.

Lemma omap_id_Some (l : list error) : omap id (Some <$> l) = l.
Proof. induction l as [|x l IH]; csimpl; [done|]. by f_equal. Qed.

Lemma NewAggregate_Some (l : list error) :
  NewAggregate (Some <$> l) = match l with [] => None | _ => Some (aggregate l) end.
Proof.
  unfold NewAggregate. rewrite omap_id_Some. by destruct l.
Qed.

Lemma oleaves_NewAggregate (l : list error) :
  oleaves (NewAggregate (Some <$> l)) = flat_map leaves l.
Proof. rewrite NewAggregate_Some. by destruct l. Qed.

Lemma visit_leaves (f : error -> bool) (e : error) :
  visit f e = existsb f (leaves e).
Proof.
  induction e as [| | | | | | | | |l IH] using error_ind'; simpl;
    try done; try by rewrite orb_false_r.
  induction IH as [|x l Hx Hl IHl]; simpl; [done|].
  by rewrite existsb_app, Hx, IHl.
Qed.

Lemma errors_Is_leaves (e : error) (t : sentinel) :
  errors_Is e t = existsb (fun x => errors_Is x t) (leaves e).
Proof.
  induction e as [| | | | | | | | |l IH] using error_ind'; simpl;
    try done; try by rewrite orb_false_r.
  induction IH as [|x l Hx Hl IHl]; simpl; [done|].
  by rewrite existsb_app, Hx, IHl.
Qed.

Lemma filterErrors_leaves (fns : list (error -> bool)) (l : list error) :
  Forall (fun e => oleaves (FilterOut e fns)
                   = filter (fun x => matchesError x fns = false) (leaves e)) l ->
  flat_map leaves (filterErrors (fun x => FilterOut x fns) l)
  = filter (fun x => matchesError x fns = false) (flat_map leaves l).
Proof.
  induction 1 as [|x l Hx Hl IHl]; simpl; [done|].
  rewrite filter_app, <- Hx, <- IHl. by destruct (FilterOut x fns).
Qed.

Lemma FilterOut_leaves_aux (e : error) (fns : list (error -> bool)) :
  oleaves (FilterOut e fns)
  = filter (fun x => matchesError x fns = false) (leaves e).
Proof.
  induction e as [| | | | | | | | |l IH] using error_ind';
    try (cbn [FilterOut leaves]; rewrite filter_cons, filter_nil;
         destruct (matchesError _ _); by simpl).
  simpl. rewrite oleaves_NewAggregate. by apply filterErrors_leaves.
Qed.

Lemma Flatten_aggregate (l : list error) :
  Flatten (aggregate l)
  = match flat_map leaves l with [] => None | l' => Some (aggregate l') end.
Proof.
  cut (forall e, match e with
            | aggregate l => Flatten e
                = match flat_map leaves l with [] => None | l' => Some (aggregate l') end
            | _ => True end).
  { intros H. exact (H (aggregate l)). }
  clear l. intros e. induction e as [| | | | | | | | |l IH] using error_ind'; try done.
  simpl. rewrite NewAggregate_Some.
  match goal with
  | |- match ?x with _ => _ end = match ?y with _ => _ end => assert (x = y) as ->; [|by destruct y]
  end.
  induction IH as [|x l Hx Hl IHl]; simpl; [done|]. rewrite IHl. f_equal.
  destruct x; try done. rewrite Hx. simpl. by destruct (flat_map leaves errs).
Qed.

Lemma leaves_not_aggregate (e : error) : Forall (fun x => is_aggregate x = false) (leaves e).
Proof.
  induction e as [| | | | | | | | |l IH] using error_ind'; simpl; repeat constructor.
  induction IH as [|x l Hx Hl IHl]; simpl; [constructor|]. by apply Forall_app.
Qed.

Lemma flat_map_leaves_id (l : list error) :
  Forall (fun x => is_aggregate x = false) l -> flat_map leaves l = l.
Proof.
  induction 1 as [|x l Hx Hl IHl]; simpl; [done|]. rewrite IHl. by destruct x.
Qed.

Lemma flat_map_leaves_of (e : error) : flat_map leaves (leaves e) = leaves e.
Proof. apply flat_map_leaves_id, leaves_not_aggregate. Qed.

(** The classification of a not-found error survives every wrapping that
    keeps its text. *)
Lemma IsContainerNotFoundError_Errorf (u v : string) (e : error) :
  IsContainerNotFoundError e = true ->
  IsContainerNotFoundError (Errorf (u +:+ Error e +:+ v)) = true.
Proof. apply match_string_infix. Qed.

(** ** Properties *)


Lemma FilterOut_some_leaves (e e' : error) (fns : list (error -> bool)) :
  FilterOut e fns = Some e' -> leaves e' <> [].
Proof.
  revert e'. induction e as [| | | | | | | | |l IH] using error_ind'; intros e';
    try (cbn [FilterOut]; destruct (matchesError _ _); by intros [= <-]).
  simpl. rewrite NewAggregate_Some.
  destruct (filterErrors _ l) as [|r rs] eqn:E; [done|]. intros [= <-]. simpl.
  assert (leaves r <> []) as Hr; [|by destruct (leaves r)].
  clear -IH E. revert r rs E. induction IH as [|x l Hx Hl IHl]; intros r rs; simpl; [done|].
  destruct (FilterOut x fns) as [r'|] eqn:Ex; [|eauto].
  intros [= <- <-]. eauto.
Qed.

(** ** Properties *)

(** [FilterOut] keeps exactly the errors, at any nesting depth and in their
    order, that no matcher accepts, and is nil exactly when every error of the
    tree is accepted. *)
Theorem FilterOut_keeps_unmatched (e : error) (fns : list (error -> bool)) :
  oleaves (FilterOut e fns) = filter (fun x => matchesError x fns = false) (leaves e)
  /\ (FilterOut e fns = None <-> Forall (fun x => matchesError x fns = true) (leaves e)).
Proof.
  split; [apply FilterOut_leaves_aux|].
  pose proof (FilterOut_leaves_aux e fns) as H. split.
  - intros E. rewrite E in H. simpl in H. symmetry in H.
    apply Forall_forall. intros x Hx. apply not_false_is_true. intros Hf.
    assert (x ∈ filter (fun x => matchesError x fns = false) (leaves e)) as Hin.
    { by apply list_elem_of_filter. }
    rewrite H in Hin. set_solver.
  - intros Hall. destruct (FilterOut e fns) as [e'|] eqn:E; [|done].
    destruct (FilterOut_some_leaves _ _ _ E). simpl in H. rewrite H.
    clear -Hall. induction Hall as [|x l Hx Hl IH]; [done|].
    rewrite filter_cons, decide_False by congruence. done.
Qed.

(** [Flatten] gives nil or an aggregate of the same errors in the same
    order with no aggregate among them; it accepts the same targets under
    [errors.Is], and flattening again changes nothing. *)
Theorem Flatten_flat (l : list error) (t : sentinel) :
  Flatten (aggregate l)
    = match leaves (aggregate l) with [] => None | l' => Some (aggregate l') end
  /\ Forall (fun x => is_aggregate x = false) (leaves (aggregate l))
  /\ from_option (fun e => errors_Is e t) false (Flatten (aggregate l))
     = errors_Is (aggregate l) t
  /\ (Flatten (aggregate l) ≫= Flatten) = Flatten (aggregate l).
Proof.
  rewrite Flatten_aggregate. split; [done|]. split; [apply leaves_not_aggregate|].
  rewrite (errors_Is_leaves (aggregate l)). cbn [leaves].
  destruct (flat_map leaves l) as [|x l'] eqn:E; [done|]. split.
  - cbn [from_option]. rewrite errors_Is_leaves. f_equal. cbn [leaves].
    rewrite <- E. apply (flat_map_leaves_of (aggregate l)).
  - cbn [mbind option_bind]. rewrite Flatten_aggregate.
    replace (flat_map leaves (x :: l')) with (x :: l'); [done|].
    rewrite <- E. symmetry. apply (flat_map_leaves_of (aggregate l)).
Qed.
