(* ===== verification/Cri.v ===== *)
(** * Cri: the messages the service receives and sends

    The CRI messages (k8s.io/cri-api runtime v1) and the docker API structures
    the sources read and build, restricted to the fields they use.  A message
    pointer the code tests for nil is an [option]; a pointer the protocol
    requires and the code dereferences directly (such as [Metadata]) is a
    value.  A protobuf enum that a [switch] with a default inspects keeps its
    unlisted values in an extra constructor. *)
From S2P Require Import Prelude.

(** ** CRI enums *)

Inductive NamespaceMode := NS_POD | NS_CONTAINER | NS_NODE | NS_TARGET.
Inductive Protocol := Protocol_TCP | Protocol_UDP | Protocol_SCTP | Protocol_Other (n : Z).
Inductive MountPropagation :=
| PROPAGATION_PRIVATE | PROPAGATION_HOST_TO_CONTAINER | PROPAGATION_BIDIRECTIONAL
| PROPAGATION_Other (n : Z).
Inductive ContainerState :=
| CONTAINER_CREATED | CONTAINER_RUNNING | CONTAINER_EXITED | CONTAINER_UNKNOWN.
Inductive PodSandboxState := SANDBOX_READY | SANDBOX_NOTREADY.
Inductive ProfileType :=
| SecurityProfile_RuntimeDefault | SecurityProfile_Unconfined | SecurityProfile_Localhost
| SecurityProfile_Other (n : Z).

#[export] Instance NamespaceMode_eq_dec : EqDecision NamespaceMode.
Proof. solve_decision. Defined.
#[export] Instance Protocol_eq_dec : EqDecision Protocol.
Proof. solve_decision. Defined.
#[export] Instance MountPropagation_eq_dec : EqDecision MountPropagation.
Proof. solve_decision. Defined.
#[export] Instance ContainerState_eq_dec : EqDecision ContainerState.
Proof. solve_decision. Defined.
#[export] Instance PodSandboxState_eq_dec : EqDecision PodSandboxState.
Proof. solve_decision. Defined.
#[export] Instance ProfileType_eq_dec : EqDecision ProfileType.
Proof. solve_decision. Defined.

(** The enum names [String()] prints for [MountPropagation]. *)
Definition propagation_string (p : MountPropagation) : string :=
  match p with
  | PROPAGATION_PRIVATE => "PROPAGATION_PRIVATE"
  | PROPAGATION_HOST_TO_CONTAINER => "PROPAGATION_HOST_TO_CONTAINER"
  | PROPAGATION_BIDIRECTIONAL => "PROPAGATION_BIDIRECTIONAL"
  | PROPAGATION_Other n => itoa n
  end.

(** ** CRI messages: sandbox side *)

Record PodSandboxMetadata := mkPodSandboxMetadata {
  psm_Name : string;
  psm_Uid : string;
  psm_Namespace : string;
  psm_Attempt : N;
}.

Record NamespaceOption := mkNamespaceOption {
  ns_Network : NamespaceMode;
  ns_Pid : NamespaceMode;
  ns_Ipc : NamespaceMode;
  ns_TargetId : string;
}.

(** The nil-safe getters of [NamespaceOption]. *)
Definition GetNetwork (o : option NamespaceOption) : NamespaceMode :=
  from_option ns_Network NS_POD o.
Definition GetPid (o : option NamespaceOption) : NamespaceMode :=
  from_option ns_Pid NS_POD o.
Definition GetIpc (o : option NamespaceOption) : NamespaceMode :=
  from_option ns_Ipc NS_POD o.
Definition GetTargetId (o : option NamespaceOption) : string :=
  from_option ns_TargetId "" o.

Record SELinuxOption := mkSELinuxOption {
  se_User : string;
  se_Role : string;
  se_Type : string;
  se_Level : string;
}.

Record LinuxSandboxSecurityContext := mkLinuxSandboxSecurityContext {
  lssc_NamespaceOptions : option NamespaceOption;
  lssc_SelinuxOptions : option SELinuxOption;
  lssc_RunAsUser : option Z;
  lssc_RunAsGroup : option Z;
  lssc_ReadonlyRootfs : bool;
  lssc_SupplementalGroups : list Z;
  lssc_Privileged : bool;
}.

Record LinuxPodSandboxConfig := mkLinuxPodSandboxConfig {
  lps_CgroupParent : string;
  lps_SecurityContext : option LinuxSandboxSecurityContext;
  lps_Sysctls : gmap string string;
}.

Record DNSConfig := mkDNSConfig {
  dns_Servers : list string;
  dns_Searches : list string;
  dns_Options : list string;
}.

Record PortMapping := mkPortMapping {
  pm_Protocol : Protocol;
  pm_ContainerPort : Z;
  pm_HostPort : Z;
  pm_HostIp : string;
}.

Record PodSandboxConfig := mkPodSandboxConfig {
  psc_Metadata : PodSandboxMetadata;
  psc_Hostname : string;
  psc_LogDirectory : string;
  psc_DnsConfig : option DNSConfig;
  psc_PortMappings : list PortMapping;
  psc_Labels : gmap string string;
  psc_Annotations : gmap string string;
  psc_Linux : option LinuxPodSandboxConfig;
}.

(** [config.GetLinux().GetSecurityContext().GetNamespaceOptions()]. *)
Definition sandbox_namespace_options (c : PodSandboxConfig) : option NamespaceOption :=
  (psc_Linux c ≫= lps_SecurityContext) ≫= lssc_NamespaceOptions.

(** ** CRI messages: container side *)

Record ContainerMetadata := mkContainerMetadata {
  cm_Name : string;
  cm_Attempt : N;
}.

Record Capability := mkCapability {
  cap_Add : list string;
  cap_Drop : list string;
}.

Record SecurityProfile := mkSecurityProfile {
  sp_ProfileType : ProfileType;
  sp_LocalhostRef : string;
}.

Record LinuxContainerSecurityContext := mkLinuxContainerSecurityContext {
  sc_Capabilities : option Capability;
  sc_Privileged : bool;
  sc_NamespaceOptions : option NamespaceOption;
  sc_SelinuxOptions : option SELinuxOption;
  sc_RunAsUser : option Z;
  sc_RunAsGroup : option Z;
  sc_RunAsUsername : string;
  sc_ReadonlyRootfs : bool;
  sc_SupplementalGroups : list Z;
  sc_ApparmorProfile : string;
  sc_Seccomp : option SecurityProfile;
  sc_NoNewPrivs : bool;
  sc_MaskedPaths : list string;
  sc_ReadonlyPaths : list string;
}.

Record LinuxContainerResources := mkLinuxContainerResources {
  lr_CpuPeriod : Z;
  lr_CpuQuota : Z;
  lr_CpuShares : Z;
  lr_MemoryLimitInBytes : Z;
  lr_OomScoreAdj : Z;
  lr_CpusetCpus : string;
  lr_CpusetMems : string;
}.

Record LinuxContainerConfig := mkLinuxContainerConfig {
  lcc_Resources : option LinuxContainerResources;
  lcc_SecurityContext : option LinuxContainerSecurityContext;
}.

Record WindowsContainerResources := mkWindowsContainerResources {
  wr_CpuShares : Z;
  wr_CpuCount : Z;
  wr_CpuMaximum : Z;
  wr_MemoryLimitInBytes : Z;
}.

Record WindowsContainerSecurityContext := mkWindowsContainerSecurityContext {
  wsc_RunAsUsername : string;
  wsc_CredentialSpec : string;
}.

Record WindowsContainerConfig := mkWindowsContainerConfig {
  wcc_Resources : option WindowsContainerResources;
  wcc_SecurityContext : option WindowsContainerSecurityContext;
}.

Record KeyValue := mkKeyValue { kv_Key : string; kv_Value : string }.

Record Mount := mkMount {
  m_ContainerPath : string;
  m_HostPath : string;
  m_Readonly : bool;
  m_SelinuxRelabel : bool;
  m_Propagation : MountPropagation;
  m_RecursiveReadOnly : bool;
}.

Record Device := mkDevice {
  dev_ContainerPath : string;
  dev_HostPath : string;
  dev_Permissions : string;
}.

Record ContainerConfig := mkContainerConfig {
  cc_Metadata : ContainerMetadata;
  cc_Image : option string;
  cc_Command : list string;
  cc_Args : list string;
  cc_WorkingDir : string;
  cc_Envs : list KeyValue;
  cc_Mounts : list Mount;
  cc_Devices : list Device;
  cc_Labels : gmap string string;
  cc_Annotations : gmap string string;
  cc_LogPath : string;
  cc_Stdin : bool;
  cc_StdinOnce : bool;
  cc_Tty : bool;
  cc_Linux : option LinuxContainerConfig;
  cc_CDIDevices : list string;
  cc_Windows : option WindowsContainerConfig;
}.

Record RuntimeHandler := mkRuntimeHandler {
  rh_Name : string;
  rh_RecursiveReadOnlyMounts : bool;
  rh_UserNamespaces : bool;
}.

(** ** CRI responses *)

Record PodSandbox := mkPodSandbox {
  ps_Id : string;
  ps_Metadata : PodSandboxMetadata;
  ps_State : PodSandboxState;
  ps_CreatedAt : Z;
  ps_Labels : gmap string string;
  ps_Annotations : gmap string string;
}.

Record Container := mkContainer {
  c_Id : string;
  c_PodSandboxId : string;
  c_Metadata : ContainerMetadata;
  c_Image : string;
  c_ImageRef : string;
  c_State : ContainerState;
  c_CreatedAt : Z;
  c_Labels : gmap string string;
  c_Annotations : gmap string string;
}.

Record PodSandboxStatus := mkPodSandboxStatus {
  pss_Id : string;
  pss_State : PodSandboxState;
  pss_CreatedAt : Z;
  pss_Metadata : PodSandboxMetadata;
  pss_Labels : gmap string string;
  pss_Annotations : gmap string string;
  pss_Ip : string;
  pss_AdditionalIps : list string;
  pss_Network : NamespaceMode;
  pss_Pid : NamespaceMode;
  pss_Ipc : NamespaceMode;
  pss_RuntimeHandler : string;
}.

Record StatusMount := mkStatusMount {
  sm_HostPath : string;
  sm_ContainerPath : string;
  sm_Readonly : bool;
}.

Record ContainerStatus := mkContainerStatus {
  cs_Id : string;
  cs_Metadata : ContainerMetadata;
  cs_Image : string;
  cs_ImageRef : string;
  cs_Mounts : list StatusMount;
  cs_ExitCode : Z;
  cs_State : ContainerState;
  cs_CreatedAt : Z;
  cs_StartedAt : Z;
  cs_FinishedAt : Z;
  cs_Reason : string;
  cs_Message : string;
  cs_Labels : gmap string string;
  cs_Annotations : gmap string string;
  cs_LogPath : string;
}.

(** ** Docker API structures *)

Record BindOptions := mkBindOptions {
  bo_Propagation : string;
  bo_CreateMountpoint : bool;
  bo_ReadOnlyNonRecursive : bool;
}.

Record DockerMount := mkDockerMount {
  dm_Type : string;
  dm_Source : string;
  dm_Target : string;
  dm_ReadOnly : bool;
  dm_BindOptions : BindOptions;
}.

Record PortBinding := mkPortBinding {
  pb_HostIP : string;
  pb_HostPort : string;
}.

#[export] Instance PortBinding_eq_dec : EqDecision PortBinding.
Proof. solve_decision. Defined.

Record DeviceMapping := mkDeviceMapping {
  dvm_PathOnHost : string;
  dvm_PathInContainer : string;
  dvm_CgroupPermissions : string;
}.

Record DeviceRequest := mkDeviceRequest {
  dr_Driver : string;
  dr_DeviceIDs : list string;
}.

(** [container.Resources], which [HostConfig] embeds. *)
Record Resources := mkResources {
  r_Memory : Z;
  r_MemorySwap : Z;
  r_CPUShares : Z;
  r_CPUQuota : Z;
  r_CPUPeriod : Z;
  r_CpusetCpus : string;
  r_CpusetMems : string;
  r_CgroupParent : string;
  r_Devices : list DeviceMapping;
  r_DeviceRequests : list DeviceRequest;
  r_NanoCPUs : Z;
  r_CPUCount : Z;
}.

Record HostConfig := mkHostConfig {
  hc_Resources : Resources;
  hc_IpcMode : string;
  hc_NetworkMode : string;
  hc_PidMode : string;
  hc_UTSMode : string;
  hc_Privileged : bool;
  hc_ReadonlyRootfs : bool;
  hc_CapAdd : list string;
  hc_CapDrop : list string;
  hc_GroupAdd : list string;
  hc_SecurityOpt : list string;
  hc_MaskedPaths : list string;
  hc_ReadonlyPaths : list string;
  hc_Sysctls : gmap string string;
  hc_PortBindings : gmap string (list PortBinding);
  hc_OomScoreAdj : Z;
  hc_Mounts : list DockerMount;
  hc_RestartPolicy : string;
  hc_Runtime : string;
  hc_ShmSize : Z;
}.

(** [container.Config]. *)
Record DockerConfig := mkDockerConfig {
  dc_Hostname : string;
  dc_User : string;
  dc_ExposedPorts : gset string;
  dc_Tty : bool;
  dc_OpenStdin : bool;
  dc_StdinOnce : bool;
  dc_Env : list string;
  dc_Cmd : list string;
  dc_Healthcheck : option (list string);
  dc_Image : string;
  dc_WorkingDir : string;
  dc_Entrypoint : list string;
  dc_Labels : gmap string string;
  dc_Volumes : gset string;
  dc_StopSignal : string;
}.

Record ContainerCreateConfig := mkContainerCreateConfig {
  ccc_Name : string;
  ccc_Config : DockerConfig;
  ccc_HostConfig : HostConfig;
}.

(** The zero values Go's composite literals fill in. *)
Definition zero_Resources : Resources := mkResources 0 0 0 0 0 "" "" "" [] [] 0 0.
Definition zero_HostConfig : HostConfig :=
  mkHostConfig zero_Resources "" "" "" "" false false [] [] [] [] [] [] ∅ ∅ 0 [] "" "" 0.
Definition zero_DockerConfig : DockerConfig :=
  mkDockerConfig "" "" ∅ false false false [] [] None "" "" [] ∅ ∅ "".

Record DockerContainerState := mkDockerContainerState {
  st_Running : bool;
  st_OOMKilled : bool;
  st_Pid : Z;
  st_ExitCode : Z;
  st_Error : string;
  st_StartedAt : string;
  st_FinishedAt : string;
}.

Record NetworkSettings := mkNetworkSettings {
  nset_IPAddress : string;
  nset_GlobalIPv6Address : string;
}.

Record MountPoint := mkMountPoint {
  mp_Source : string;
  mp_Destination : string;
  mp_RW : bool;
}.

(** [types.ContainerJSON], the answer of [docker inspect]. *)
Record ContainerJSON := mkContainerJSON {
  cj_ID : string;
  cj_Created : string;
  cj_State : DockerContainerState;
  cj_Image : string;
  cj_ResolvConfPath : string;
  cj_LogPath : string;
  cj_Name : string;
  cj_HostConfig : HostConfig;
  cj_Mounts : list MountPoint;
  cj_Config : DockerConfig;
  cj_NetworkSettings : option NetworkSettings;
}.

(** [types.Container], an entry of [docker ps]. *)
Record DockerContainer := mkDockerContainer {
  dct_ID : string;
  dct_Names : list string;
  dct_Image : string;
  dct_ImageID : string;
  dct_Created : Z;
  dct_Labels : gmap string string;
  dct_Status : string;
}.

Record RootFS := mkRootFS { rf_Type : string; rf_Layers : list string }.
Record ImageInspect := mkImageInspect {
  ii_ID : string;
  ii_RepoTags : list string;
  ii_RepoDigests : list string;
  ii_Size : Z;
  ii_Created : string;
  ii_Config : option DockerConfig;
  ii_Author : string;
  ii_Architecture : string;
  ii_Os : string;
  ii_RootFS : RootFS;
}.

(** [filters.Args]: a field name to the set of its values. *)
Record ListOptions := mkListOptions {
  lo_All : bool;
  lo_Filters : gmap string (gset string);
}.

Record RemoveOptions := mkRemoveOptions {
  ro_RemoveVolumes : bool;
  ro_Force : bool;
}.

Record ImageSummary := mkImageSummary {
  is_ID : string;
  is_RepoTags : list string;
  is_RepoDigests : list string;
  is_Size : Z;
  is_SharedSize : Z;
}.

(** [image.ListOptions]. *)
Record ImageListOptions := mkImageListOptions {
  ilo_All : bool;
  ilo_SharedSize : bool;
  ilo_Filters : gmap string (gset string);
}.

Record HistoryResponseItem := mkHistoryResponseItem {
  hi_Created : Z;
  hi_CreatedBy : string;
  hi_Comment : string;
  hi_Size : Z;
}.

(** [types.Version] and [system.Info], the fields the service reads. *)
Record DockerVersion := mkDockerVersion {
  dv_Version : string;
  dv_APIVersion : string;
}.

Record DockerInfo := mkDockerInfo {
  di_LoggingDriver : string;
  di_CgroupDriver : string;
  di_DockerRootDir : string;
  di_DefaultRuntime : string;
  (** runtime name to its status map *)
  di_Runtimes : gmap string (gmap string string);
}.

(** [container.UpdateConfig] is its embedded [Resources]. *)
Record AuthConfig := mkAuthConfig {
  ac_Username : string;
  ac_Password : string;
  ac_Auth : string;
  ac_ServerAddress : string;
  ac_IdentityToken : string;
  ac_RegistryToken : string;
}.

Definition zero_AuthConfig : AuthConfig := mkAuthConfig "" "" "" "" "" "".

Record ExecOptions := mkExecOptions {
  eo_Tty : bool;
  eo_AttachStdin : bool;
  eo_AttachStdout : bool;
  eo_AttachStderr : bool;
  eo_Cmd : list string;
}.

Record ExecInspect := mkExecInspect {
  ei_ExecID : string;
  ei_ContainerID : string;
  ei_Running : bool;
  ei_ExitCode : Z;
  ei_Pid : Z;
}.
