(* ===== verification/Naming.v ===== *)
(** * Naming: docker names of sandboxes and containers

    core/naming.go: the names the shim gives to docker containers, the names
    it parses back, and the [ContainerID] strings of config/types.go. *)
From S2P Require Import Prelude GoErrors Cri.

(** ** Constants *)

Definition kubePrefix : string := "k8s".
Definition sandboxContainerName : string := "POD".
Definition underscore : ascii := Ascii.ascii_of_N 95.
Definition nameDelimiter : string := String underscore "".
Definition DockerImageIDPrefix : string := "docker://".
Definition DockerPullableImageIDPrefix : string := "docker-pullable://".

(** ** Building names *)

Definition makeSandboxName (s : PodSandboxConfig) : string :=
  join [ kubePrefix;
         sandboxContainerName;
         psm_Name (psc_Metadata s);
         psm_Namespace (psc_Metadata s);
         psm_Uid (psc_Metadata s);
         utoa (psm_Attempt (psc_Metadata s)) ] nameDelimiter.

Definition makeContainerName (s : PodSandboxConfig) (c : ContainerConfig) : string :=
  join [ kubePrefix;
         cm_Name (cc_Metadata c);
         psm_Name (psc_Metadata s);
         psm_Namespace (psc_Metadata s);
         psm_Uid (psc_Metadata s);
         utoa (cm_Attempt (cc_Metadata c)) ] nameDelimiter.

(** [randomizeName], the random 32-bit number being an argument. *)
Definition randomizeName (rand : N) (name : string) : string :=
  join [name; hex_pad 8 rand] nameDelimiter.

(** ** Parsing names *)

Definition parseUint32 (s : string) : res N :=
  match parse_uint 32 s with
  | Ok n => Ok n
  | Err e => Err (NumError "ParseUint" s e)
  end.

Definition parseSandboxName (name0 : string) : res PodSandboxMetadata :=
  let name := trim_prefix name0 "/" in
  let parts := split name nameDelimiter in
  if negb (Nat.eqb (length parts) 6) && negb (Nat.eqb (length parts) 7)
  then Err (Errorf ("failed to parse the sandbox name: " +:+ quote name))
  else if decide (nth 0 parts "" = kubePrefix) then
    match parseUint32 (nth 5 parts "") with
    | Err err => Err (Errorf ("failed to parse the sandbox name " +:+ quote name
                              +:+ ": " +:+ Error err))
    | Ok attempt =>
        Ok {| psm_Name := nth 2 parts "";
              psm_Namespace := nth 3 parts "";
              psm_Uid := nth 4 parts "";
              psm_Attempt := attempt |}
    end
  else Err (Errorf ("container is not managed by kubernetes: " +:+ quote name)).

Definition parseContainerName (name0 : string) : res ContainerMetadata :=
  let name := trim_prefix name0 "/" in
  let parts := split name nameDelimiter in
  if negb (Nat.eqb (length parts) 6) && negb (Nat.eqb (length parts) 7)
  then Err (Errorf ("failed to parse the container name: " +:+ quote name))
  else if decide (nth 0 parts "" = kubePrefix) then
    match parseUint32 (nth 5 parts "") with
    | Err err => Err (Errorf ("failed to parse the container name " +:+ quote name
                              +:+ ": " +:+ Error err))
    | Ok attempt =>
        Ok {| cm_Name := nth 1 parts ""; cm_Attempt := attempt |}
    end
  else Err (Errorf ("container is not managed by kubernetes: " +:+ quote name)).

(** ** Container IDs (config/types.go) *)

Record ContainerID := mkContainerID { cid_Type : string; cid_ID : string }.

(** [strings.Trim] of double quotes, on the left and on the right. *)
Fixpoint trim_left_quote (s : string) : string :=
  match s with
  | String c s' => if Ascii.eqb c (Ascii.ascii_of_N 34) then trim_left_quote s' else s
  | EmptyString => EmptyString
  end.
Fixpoint trim_right_quote (s : string) : string :=
  match s with
  | EmptyString => EmptyString
  | String c s' =>
      match trim_right_quote s' with
      | EmptyString => if Ascii.eqb c (Ascii.ascii_of_N 34) then EmptyString else String c EmptyString
      | r => String c r
      end
  end.
Definition trim_quotes (s : string) : string := trim_right_quote (trim_left_quote s).

Definition ParseString (data : string) : res ContainerID :=
  match split (trim_quotes data) "://" with
  | [t; i] => Ok (mkContainerID t i)
  | _ => Err (Errorf ("invalid container ID: " +:+ quote data))
  end.

Definition BuildContainerID (typ ID : string) : ContainerID := mkContainerID typ ID.

(** ** Theory *)

Definition name_ok (s : string) : Prop := lacks underscore s = true.

#[export] Instance name_ok_dec s : Decision (name_ok s) := decide (lacks underscore s = true).

(** The metadata a name can carry: no delimiter in its fields, and an attempt
    that is a [uint32]. *)
Definition sandbox_metadata_ok (m : PodSandboxMetadata) : Prop :=
  name_ok (psm_Name m) /\ name_ok (psm_Namespace m) /\ name_ok (psm_Uid m)
  /\ (psm_Attempt m < 2 ^ 32)%N.

Definition container_metadata_ok (m : ContainerMetadata) : Prop :=
  name_ok (cm_Name m) /\ (cm_Attempt m < 2 ^ 32)%N.

Lemma utoa_name_ok n : name_ok (utoa n).
Proof. by apply utoa_lacks. Qed.

Lemma hex_name_ok d n : name_ok (hex_pad d n).
Proof. by apply hex_pad_lacks. Qed.

Lemma lacks_join c sep l :
  Forall (fun x => lacks c x = true) l -> lacks c sep = true -> lacks c (join l sep) = true.
Proof.
  intros Hl Hs. induction Hl as [|x l Hx Hl IH]; [done|].
  destruct l as [|y l]; [done|]. rewrite join_cons.
  unfold lacks in *. rewrite !sforall_app, Hx, Hs. done.
Qed.

(** The six parts of a name, recovered from the name as docker reports it
    (with or without its slash) and with or without the random suffix. *)
Lemma split_name (b c d e f : string) (slash : string) (suffix : option N) :
  slash = "/" \/ slash = "" ->
  Forall name_ok [kubePrefix; b; c; d; e; f] ->
  let name := join [kubePrefix; b; c; d; e; f] nameDelimiter in
  let name := from_option (fun r => randomizeName r name) name suffix in
  split (trim_prefix (slash +:+ name) "/") nameDelimiter
  = [kubePrefix; b; c; d; e; f] ++ from_option (fun r => [hex_pad 8 r]) [] suffix.
Proof.
  intros Hslash Hall name name'.
  assert (name' = join ([kubePrefix; b; c; d; e; f]
                        ++ from_option (fun r => [hex_pad 8 r]) [] suffix) nameDelimiter) as E.
  { subst name' name. destruct suffix as [r|]; simpl; [|done].
    unfold randomizeName. rewrite !join_cons. rewrite !sapp_assoc. done. }
  assert (trim_prefix (slash +:+ name') "/" = name') as ->.
  { destruct Hslash as [->| ->]; [apply trim_prefix_app|].
    apply trim_prefix_none. rewrite E. by destruct suffix. }
  rewrite E. apply split_join. destruct suffix; cbn [from_option app]; [|exact Hall].
  repeat (apply Forall_cons in Hall as [? Hall]).
  repeat (constructor; [done|]). constructor; [apply hex_name_ok|constructor].
Qed.

Lemma parseUint32_utoa n : (n < 2 ^ 32)%N -> parseUint32 (utoa n) = Ok n.
Proof. intros H. unfold parseUint32. by rewrite parse_uint_utoa. Qed.

Lemma join6_inj (a b c d e f a' b' c' d' e' f' : string) :
  Forall name_ok [a; b; c; d; e; f] -> Forall name_ok [a'; b'; c'; d'; e'; f'] ->
  join [a; b; c; d; e; f] nameDelimiter = join [a'; b'; c'; d'; e'; f'] nameDelimiter ->
  [a; b; c; d; e; f] = [a'; b'; c'; d'; e'; f'].
Proof.
  intros H H' E. rewrite <- (split_join underscore a [b; c; d; e; f]) by done.
  rewrite <- (split_join underscore a' [b'; c'; d'; e'; f']) by done.
  by f_equal.
Qed.

Lemma sandbox_name_parts_ok (m : PodSandboxMetadata) (c : string) (n : N) :
  sandbox_metadata_ok m -> name_ok c ->
  Forall name_ok [kubePrefix; c; psm_Name m; psm_Namespace m; psm_Uid m; utoa n].
Proof.
  intros (H1 & H2 & H3 & _) Hc. repeat (constructor; [done|]).
  constructor; [apply utoa_name_ok|constructor].
Qed.

(** ** Properties *)

(** A sandbox name parses back to the sandbox metadata it was made from,
    as docker reports it (with or without the leading slash) and also after
    it was randomized, for metadata whose fields contain no underscore. *)
Lemma sandbox_name_roundtrip (s : PodSandboxConfig) (slash : string) (suffix : option N) :
  sandbox_metadata_ok (psc_Metadata s) ->
  slash = "/" \/ slash = "" ->
  let name := makeSandboxName s in
  parseSandboxName (slash +:+ from_option (fun r => randomizeName r name) name suffix)
  = Ok (psc_Metadata s).
Proof.
  intros Hm Hs name. unfold parseSandboxName. subst name. unfold makeSandboxName.
  rewrite split_name; [|done|by apply sandbox_name_parts_ok].
  destruct Hm as (_ & _ & _ & Ha). destruct (psc_Metadata s) as [n u ns att].
  destruct suffix; simpl; rewrite parseUint32_utoa by done; done.
Qed.

Definition example_sandbox : PodSandboxConfig :=
  mkPodSandboxConfig (mkPodSandboxMetadata "web-0" "6fe1" "default" 3)
    "web-0" "/var/log/pods" None [] ∅ ∅ None.
Definition example_container : ContainerConfig :=
  mkContainerConfig (mkContainerMetadata "nginx" 7) (Some "nginx:1.25") [] [] "" [] [] []
    ∅ ∅ "nginx/7.log" false false false None [] None.

(** A container name parses back to the container metadata, with the
    slash and the random suffix tolerated as for sandboxes. *)
Lemma container_name_roundtrip (s : PodSandboxConfig) (c : ContainerConfig)
  (slash : string) (suffix : option N) :
  sandbox_metadata_ok (psc_Metadata s) -> container_metadata_ok (cc_Metadata c) ->
  slash = "/" \/ slash = "" ->
  let name := makeContainerName s c in
  parseContainerName (slash +:+ from_option (fun r => randomizeName r name) name suffix)
  = Ok (cc_Metadata c).
Proof.
  intros Hm [Hc Ha] Hs name. unfold parseContainerName. subst name. unfold makeContainerName.
  rewrite split_name; [|done|by apply sandbox_name_parts_ok].
  destruct (cc_Metadata c) as [n att].
  destruct suffix; simpl; rewrite parseUint32_utoa by done; done.
Qed.

(** Names identify what they were made from: two containers get the same
    docker name only if their pods' name, namespace and uid and their own
    metadata agree, and a container's name is a sandbox's name only when the
    container is itself called POD.  This is what makes creation idempotent. *)
Theorem container_name_injective (s s' : PodSandboxConfig) (c c' : ContainerConfig) :
  sandbox_metadata_ok (psc_Metadata s) -> container_metadata_ok (cc_Metadata c) ->
  sandbox_metadata_ok (psc_Metadata s') -> container_metadata_ok (cc_Metadata c') ->
  (makeContainerName s c = makeContainerName s' c' ->
   cc_Metadata c = cc_Metadata c'
   /\ psm_Name (psc_Metadata s) = psm_Name (psc_Metadata s')
   /\ psm_Namespace (psc_Metadata s) = psm_Namespace (psc_Metadata s')
   /\ psm_Uid (psc_Metadata s) = psm_Uid (psc_Metadata s'))
  /\ (makeSandboxName s = makeSandboxName s' -> psc_Metadata s = psc_Metadata s')
  /\ (makeSandboxName s = makeContainerName s' c' ->
      cm_Name (cc_Metadata c') = sandboxContainerName).
Proof.
  intros Hs [Hc _] Hs' [Hc' _].
  pose proof (fun c n => sandbox_name_parts_ok _ c n Hs) as P.
  pose proof (fun c n => sandbox_name_parts_ok _ c n Hs') as P'.
  destruct s as [[]], s' as [[]], c as [[]], c' as [[]]; simpl in *.
  split; [|split]; intros E; apply join6_inj in E;
    try (by apply P); try (by apply P'); by simplify_eq/=.
Qed.

Lemma container_name_injective_witness :
  makeSandboxName example_sandbox = "k8s_POD_web-0_default_6fe1_3"
  /\ (makeSandboxName example_sandbox = makeContainerName example_sandbox example_container ->
      cm_Name (cc_Metadata example_container) = sandboxContainerName).
Proof.
  split; [reflexivity|].
  exact (proj2 (proj2 (container_name_injective example_sandbox example_sandbox
    example_container example_container
    ltac:(by repeat split) ltac:(by split) ltac:(by repeat split) ltac:(by split)))).
Defined.

