(* ===== verification/Labels.v ===== *)
(** * Labels: docker labels, list filters and security options

    core/helpers.go: CRI labels and annotations stored as docker labels and
    read back, the list filters, the formatting of docker options, and the two
    patterns the service applies to docker's error texts; the label constants
    of core/docker_service.go. *)
From S2P Require Import Prelude Regex GoErrors.

(** ** Constants *)

Definition annotationPrefix : string := "annotation.".
Definition securityOptSeparator : string := "=".
Definition containerTypeLabelKey : string := "io.kubernetes.docker.type".
Definition containerTypeLabelSandbox : string := "podsandbox".
Definition containerTypeLabelContainer : string := "container".
Definition containerLogPathLabelKey : string := "io.kubernetes.container.logpath".
Definition sandboxIDLabelKey : string := "io.kubernetes.sandbox.id".
Definition KubernetesContainerNameLabel : string := "io.kubernetes.container.name".
Definition internalLabelKeys : list string :=
  [containerTypeLabelKey; containerLogPathLabelKey; sandboxIDLabelKey].

(** ** Labels and annotations *)

(** [makeLabels]: the annotations, under their prefixed keys, written over the
    labels. *)
Definition makeLabels (labels annotations : gmap string string) : gmap string string :=
  kmap (String.append annotationPrefix) annotations ∪ labels.

(** Keys of the shim itself: an internal key, or the container name of a
    sandbox. *)
Definition hidden_key (input : gmap string string) (k : string) : bool :=
  bool_decide (k ∈ internalLabelKeys)
  || (bool_decide (k = KubernetesContainerNameLabel)
      && bool_decide (default "" (input !! containerTypeLabelKey) = containerTypeLabelSandbox)).

(** The body of the loop of [extractLabels]. *)
Definition extract_step (input : gmap string string) (k v : string)
  (acc : gmap string string * gmap string string) : gmap string string * gmap string string :=
  let '(labels, annotations) := acc in
  if hidden_key input k then (labels, annotations)
  else if has_prefix k annotationPrefix
       then (labels, <[trim_prefix k annotationPrefix := v]> annotations)
       else (<[k := v]> labels, annotations).

(** [extractLabels]: CRI labels and annotations of a container's docker
    labels. *)
Definition extractLabels (input : gmap string string)
  : gmap string string * gmap string string :=
  map_fold (extract_step input) (∅, ∅) input.

(** ** List filters *)

(** [filters.Args] and the two methods of [dockerFilter]. *)
Definition dockerFilter_Add (key value : string) (args : gmap string (gset string))
  : gmap string (gset string) :=
  <[key := {[ value ]} ∪ default ∅ (args !! key)]> args.

Definition AddLabel (key value : string) : gmap string (gset string) -> gmap string (gset string) :=
  dockerFilter_Add "label" (key +:+ "=" +:+ value).

(** A label selector added entry by entry. *)
Definition AddLabels (sel : gmap string string) (args : gmap string (gset string))
  : gmap string (gset string) :=
  map_fold AddLabel args sel.

(** ** Docker options *)

Record DockerOpt := mkDockerOpt { opt_key : string; opt_value : string; opt_msg : string }.

Definition FmtDockerOpts (opts : list DockerOpt) (sep : string) : list string :=
  (fun opt => opt_key opt +:+ sep +:+ opt_value opt) <$> opts.

Definition GetKV (d : DockerOpt) : string * string := (opt_key d, opt_value d).

Definition defaultSeccompOpt : list DockerOpt := [mkDockerOpt "seccomp" "unconfined" ""].

(** ** Patterns over docker's error texts *)

Definition conflictRE : re :=
  Seq (Lit "Conflict")
  (Seq (Class any)
  (Seq (Lit " ")
  (Seq (Many1 any)
  (Seq (Lit " is already in use by container ")
  (Seq (Opt (Lit dquote))
  (Seq (Cap (Many1 alnum))
       (Opt (Lit dquote)))))))).

Definition startRE : re :=
  let q := bslash +:+ bslash +:+ bslash +:+ dquote in
  Seq (Lit q) (Seq (Cap (Many any)) (Seq (Lit q) (Lit ": executable file not found"))).

(** ** Theory *)

#[export] Instance append_inj (p : string) : Inj eq eq (String.append p).
Proof. intros a b. apply sapp_inj_l. Qed.

Lemma makeLabels_lookup_annotation labels annotations k :
  makeLabels labels annotations !! (annotationPrefix +:+ k)
  = union_with (fun v _ => Some v) (annotations !! k) (labels !! (annotationPrefix +:+ k)).
Proof. unfold makeLabels. by rewrite lookup_union, lookup_kmap by apply _. Qed.

Lemma kmap_prefix_None (annotations : gmap string string) k :
  has_prefix k annotationPrefix = false ->
  (kmap (String.append annotationPrefix) annotations : gmap string string) !! k = None.
Proof.
  intros H. apply lookup_kmap_None; [apply _|]. intros i ->.
  rewrite has_prefix_app in H. done.
Qed.

Lemma makeLabels_lookup_label labels annotations k :
  has_prefix k annotationPrefix = false ->
  makeLabels labels annotations !! k = labels !! k.
Proof.
  intros H. unfold makeLabels. rewrite lookup_union, kmap_prefix_None by done.
  by destruct (labels !! k).
Qed.

Lemma trim_annotation_eq (k k' : string) :
  has_prefix k annotationPrefix = true ->
  trim_prefix k annotationPrefix = k' <-> k = annotationPrefix +:+ k'.
Proof.
  intros [r ->]%has_prefix_spec. rewrite trim_prefix_app. split.
  - by intros ->.
  - by intros ->%(inj _).
Qed.

(** What the loop has gathered after the entries of [m]. *)
Definition extracted (input m : gmap string string)
  (acc : gmap string string * gmap string string) : Prop :=
  forall k,
    acc.1 !! k = (if hidden_key input k || has_prefix k annotationPrefix then None else m !! k)
    /\ acc.2 !! k = (if hidden_key input (annotationPrefix +:+ k) then None
                     else m !! (annotationPrefix +:+ k)).

Lemma extract_step_extracted input m acc k v :
  m !! k = None -> extracted input m acc ->
  extracted input (<[k := v]> m) (extract_step input k v acc).
Proof.
  destruct acc as [ls ans]. unfold extract_step, extracted. cbn [fst snd].
  intros Hk H k'. destruct (H k') as [H1 H2]. clear H.
  destruct (hidden_key input k) eqn:Eh; [|destruct (has_prefix k annotationPrefix) eqn:Ep];
    cbn [fst snd]; split.
  - rewrite H1. destruct (decide (k = k')) as [->|]; [by rewrite Eh|by simplify_map_eq].
  - rewrite H2. destruct (decide (k = annotationPrefix +:+ k')) as [->|]; [by rewrite Eh|by simplify_map_eq].
  - rewrite H1. destruct (decide (k = k')) as [->|]; [by rewrite Ep, orb_true_r|by simplify_map_eq].
  - destruct (decide (k = annotationPrefix +:+ k')) as [->|Hn].
    + by rewrite trim_prefix_app, !lookup_insert_eq, Eh.
    + rewrite !lookup_insert_ne; [done|done|]. by rewrite trim_annotation_eq.
  - destruct (decide (k = k')) as [->|]; simplify_map_eq; [by rewrite Eh, Ep|done].
  - rewrite H2. destruct (decide (k = annotationPrefix +:+ k')) as [->|];
      [by rewrite has_prefix_app in Ep|by simplify_map_eq].
Qed.

Lemma extractLabels_extracted input : extracted input input (extractLabels input).
Proof.
  unfold extractLabels. apply (map_fold_weak_ind (fun acc m => extracted input m acc)).
  - intros k; simpl; rewrite !lookup_empty. by repeat case_match.
  - intros k v m acc Hk Hacc. by apply extract_step_extracted.
Qed.

(** Labels a pod or container may carry: not the shim's own keys and not
    mistakable for an annotation. *)
Definition user_labels (ls : gmap string string) : Prop :=
  map_Forall (fun k _ => k ∉ internalLabelKeys /\ has_prefix k annotationPrefix = false) ls.

(** [m] is the labels of a docker container made from [ls] and [ans]: it
    agrees with [makeLabels] on every key the shim does not hide. *)
Lemma extractLabels_of_makeLabels (m ls ans : gmap string string) :
  user_labels ls ->
  (forall k, hidden_key m k = false -> m !! k = makeLabels ls ans !! k) ->
  (forall k, hidden_key m k = true -> ls !! k = None) ->
  extractLabels m = (ls, ans).
Proof.
  intros Hu Hm Hh. pose proof (extractLabels_extracted m) as He.
  assert (forall k, hidden_key m (annotationPrefix +:+ k) = false) as Ha.
  { intros k. unfold hidden_key. rewrite orb_false_iff, andb_false_iff. split; [|left];
    apply bool_decide_eq_false; [|by intros [=]].
    unfold internalLabelKeys. intros Hin.
    repeat (apply elem_of_cons in Hin as [[=]|Hin]). by apply elem_of_nil in Hin. }
  destruct (extractLabels m) as [ls' ans']. unfold extracted in He. cbn [fst snd] in He.
  f_equal; apply map_eq; intros k.
  - destruct (He k) as [-> _]. destruct (hidden_key m k) eqn:E; simpl.
    + by rewrite Hh.
    + destruct (has_prefix k annotationPrefix) eqn:Ep.
      * destruct (ls !! k) eqn:El; [|done]. destruct (Hu _ _ El); congruence.
      * rewrite Hm by done. by apply makeLabels_lookup_label.
  - destruct (He k) as [_ ->]. rewrite Ha, Hm by done.
    rewrite makeLabels_lookup_annotation.
    destruct (ls !! (annotationPrefix +:+ k)) eqn:El; [|by destruct (ans !! k)].
    destruct (Hu _ _ El) as [_ Hp]. rewrite has_prefix_app in Hp. done.
Qed.

(** The labels of a container as [CreateContainer] writes them. *)
Definition container_labels (ls ans : gmap string string) (logpath sandboxID : string)
  : gmap string string :=
  <[sandboxIDLabelKey := sandboxID]>
  (<[containerLogPathLabelKey := logpath]>
  (<[containerTypeLabelKey := containerTypeLabelContainer]> (makeLabels ls ans))).

(** The labels of a sandbox as [makeSandboxDockerConfig] writes them. *)
Definition sandbox_labels (ls ans : gmap string string) : gmap string string :=
  <[KubernetesContainerNameLabel := "POD"]>
  (<[containerTypeLabelKey := containerTypeLabelSandbox]> (makeLabels ls ans)).

Lemma hidden_key_container ls ans p i k :
  hidden_key (container_labels ls ans p i) k = bool_decide (k ∈ internalLabelKeys).
Proof.
  unfold hidden_key, container_labels.
  rewrite 2!lookup_insert_ne, lookup_insert_eq by done.
  rewrite (bool_decide_eq_false_2 (default _ _ = _)) by done.
  by rewrite andb_false_r, orb_false_r.
Qed.

Lemma hidden_key_sandbox ls ans k :
  hidden_key (sandbox_labels ls ans) k
  = bool_decide (k ∈ internalLabelKeys) || bool_decide (k = KubernetesContainerNameLabel).
Proof.
  unfold hidden_key, sandbox_labels.
  rewrite lookup_insert_ne, lookup_insert_eq by done.
  rewrite (bool_decide_eq_true_2 (default _ _ = _)) by done.
  by rewrite andb_true_r.
Qed.

(** Labels and annotations survive the trip through docker: what
    [extractLabels] reads from the labels a container or a sandbox was created
    with is exactly the pair given to [makeLabels], with none of the shim's
    own keys. *)
Lemma labels_roundtrip (ls ans : gmap string string) (logpath sandboxID : string) :
  user_labels ls ->
  extractLabels (container_labels ls ans logpath sandboxID) = (ls, ans)
  /\ (ls !! KubernetesContainerNameLabel = None ->
      extractLabels (sandbox_labels ls ans) = (ls, ans)).
Proof.
  intros Hu. split; [|intros Hn]; apply extractLabels_of_makeLabels; try done; intros k.
  - rewrite hidden_key_container. intros Hk%bool_decide_eq_false. unfold container_labels.
    rewrite !lookup_insert_ne; [done|..]; intros <-; apply Hk; unfold internalLabelKeys; set_solver.
  - rewrite hidden_key_container. intros Hk%bool_decide_eq_true.
    destruct (ls !! k) eqn:E; [|done]. by destruct (Hu _ _ E).
  - rewrite hidden_key_sandbox. intros [Hk%bool_decide_eq_false Hk'%bool_decide_eq_false]%orb_false_iff.
    unfold sandbox_labels.
    rewrite !lookup_insert_ne; [done|..]; intros <-;
      first [by apply Hk'|apply Hk; unfold internalLabelKeys; set_solver].
  - rewrite hidden_key_sandbox.
    intros [Hk%bool_decide_eq_true|Hk%bool_decide_eq_true]%orb_true_iff.
    + destruct (ls !! k) eqn:E; [|done]. by destruct (Hu _ _ E).
    + by rewrite Hk.
Qed.
