(* ===== verification/Writers.v ===== *)
(** * Writers: the two byte-limiting writers

    [SharedWriteLimiter] of core/helpers.go (one limit shared by the stdout and
    stderr of a log request) and [LimitedWriter] of utils/io.go (the output of
    an exec probe), over an arbitrary [io.Writer]. *)
From S2P Require Import Prelude GoErrors.

(** The length of a byte slice as an [int64]. *)
Definition len (p : string) : Z := Z.of_nat (String.length p).

(** The result [(n, err)] of a write. *)
Definition wres : Type := Z * option error.

(** [io.Writer]: what a writer promises its callers. *)
Class Writer (W : Type) := {
  Write : string -> M W wres;
  Write_bounds : forall p w, (0 <= fst (fst (Write p w)) <= len p)%Z;
  Write_short : forall p w,
    (fst (fst (Write p w)) < len p)%Z -> snd (fst (Write p w)) <> None;
}.

(** ** [SharedWriteLimiter] *)

Module Shared.

(** The writers behind a limiter together with the shared [*int64]. *)
Record state (W : Type) := mkState { delegate : W; limit : Z }.
Arguments mkState {W}.
Arguments delegate {W}.
Arguments limit {W}.

Section Shared.
Context {W : Type} `{Writer W}.

(** The slice [p[0:limit]] when the limit is below the length. *)
Definition clip (limit : Z) (p : string) : string * bool :=
  if (limit <? len p)%Z then (stake (Z.to_nat limit) p, true) else (p, false).

Definition Write_ (p : string) : M (state W) wres := fun s =>
  if (len p =? 0)%Z then ((0%Z, None), s)
  else if (limit s <=? 0)%Z then ((0%Z, Some (Sentinel errMaximumWrite)), s)
  else
    let '(p', truncated) := clip (limit s) p in
    let '((n, err), w') := Write p' (delegate s) in
    let limit' := if (0 <? n)%Z then int64 (limit s - n) else limit s in
    let err' := match err with
                | None => if truncated then Some (Sentinel errMaximumWrite) else None
                | Some e => Some e
                end in
    ((n, err'), mkState w' limit').

(** A sequence of writes, with the total number of bytes accepted. *)
Fixpoint Write_all (ps : list string) (s : state W) : Z * state W :=
  match ps with
  | [] => (0%Z, s)
  | p :: ps' =>
      let '((n, _), s') := Write_ p s in
      let '(total, s'') := Write_all ps' s' in
      ((n + total)%Z, s'')
  end.

Lemma len_nonneg p : (0 <= len p)%Z.
Proof. unfold len. lia. Qed.

Lemma length_stake n p : (n <= String.length p)%nat -> String.length (stake n p) = n.
Proof.
  revert p. induction n as [|n IH]; intros [|c p] Hn; simpl in *; try lia.
  rewrite IH; lia.
Qed.

Lemma clip_len l p : (0 < l)%Z -> (len (fst (clip l p)) <= l)%Z /\ (len (fst (clip l p)) <= len p)%Z.
Proof.
  intros Hl. unfold clip. destruct (Z.ltb_spec l (len p)); simpl; [|lia].
  unfold len in *. rewrite length_stake by lia. lia.
Qed.

(** One write: the limit goes down by exactly what was accepted, and never
    below zero. *)
Lemma Shared_Write_step p s :
  (limit s < 2 ^ 63)%Z ->
  let '((n, _), s') := Write_ p s in
  (0 <= n <= len p)%Z /\ limit s' = (limit s - n)%Z /\ (n <= Z.max 0 (limit s))%Z.
Proof.
  intros Hl. unfold Write_. pose proof (len_nonneg p).
  destruct (Z.eqb_spec (len p) 0) as [?|Hne]; [simpl; lia|].
  destruct (Z.leb_spec (limit s) 0); [simpl; lia|].
  pose proof (clip_len (limit s) p ltac:(lia)) as [Hc1 Hc2].
  destruct (clip (limit s) p) as [p' tr]. simpl in Hc1, Hc2.
  pose proof (Write_bounds p' (delegate s)) as Hb.
  destruct (Write p' (delegate s)) as [[n err] w']. simpl in *.
  split; [lia|]. split; [|lia].
  destruct (Z.ltb_spec 0 n); [|lia]. rewrite int64_id; [done|].
  unfold in_int64. lia.
Qed.

End Shared.

(** *** Interleaved writers *)

(** The three shared accesses of one [Write] of a non-empty [p]: load the
    limit, write to the delegate, subtract.  A goroutine between two of them
    holds the limit it loaded or the count it wrote. *)
Inductive pc := Start | Loaded (l : Z) | Written (n : Z) | Done.

Record thread := mkThread { th_p : string; th_pc : pc }.

(** A configuration: the shared limit, the bytes delivered so far, and the
    goroutines writing; the delegate accepts every write in full. *)
Record config := mkConfig { cf_limit : Z; cf_out : Z; cf_threads : list thread }.

Definition step_thread (t : thread) (lim out : Z) : option (thread * Z * Z) :=
  match th_pc t with
  | Start => Some (mkThread (th_p t) (if (lim <=? 0)%Z then Done else Loaded lim), lim, out)
  | Loaded l =>
      let n := len (fst (clip l (th_p t))) in
      Some (mkThread (th_p t) (Written n), lim, (out + n)%Z)
  | Written n => Some (mkThread (th_p t) Done, int64 (lim - n), out)
  | Done => None
  end.

Inductive step : config -> config -> Prop :=
| step_at i t t' lim' out' c :
    cf_threads c !! i = Some t ->
    step_thread t (cf_limit c) (cf_out c) = Some (t', lim', out') ->
    step c (mkConfig lim' out' (<[i := t']> (cf_threads c))).

(** Executable runs of a schedule (the index of the goroutine to step). *)
Fixpoint run (sched : list nat) (c : config) : option config :=
  match sched with
  | [] => Some c
  | i :: sched' =>
      match cf_threads c !! i with
      | Some t =>
          match step_thread t (cf_limit c) (cf_out c) with
          | Some (t', lim', out') =>
              run sched' (mkConfig lim' out' (<[i := t']> (cf_threads c)))
          | None => None
          end
      | None => None
      end
  end.

Lemma run_steps sched c c' : run sched c = Some c' -> rtc step c c'.
Proof.
  revert c. induction sched as [|i sched IH]; intros c; simpl.
  - intros [= ->]. apply rtc_refl.
  - destruct (cf_threads c !! i) as [t|] eqn:Et; [|done].
    destruct (step_thread t _ _) as [[[t' lim'] out']|] eqn:Es; [|done].
    intros Hr. eapply rtc_l; [by eapply step_at|]. by apply IH.
Qed.

(** *** Properties *)

(** Over any sequence of writes through limiters that share one limit, the
    writers behind them accept at most that many bytes in total, the limit
    always being what is left; and an exhausted limiter refuses a non-empty
    write with errMaximumWrite without touching the writer. *)
Theorem shared_limit_respected {W} `{Writer W} (ps : list string) (s : state W) :
  (limit s < 2 ^ 63)%Z ->
  let '(total, s') := Write_all ps s in
  (0 <= total <= Z.max 0 (limit s))%Z /\ limit s' = (limit s - total)%Z
  /\ forall p, (limit s' <= 0)%Z -> (0 < len p)%Z ->
       Write_ p s' = ((0%Z, Some (Sentinel errMaximumWrite)), s').
Proof.
  revert s. induction ps as [|p ps IH]; intros s Hl; simpl.
  - split; [lia|]. split; [lia|]. intros p H0 Hp. unfold Write_.
    destruct (Z.eqb_spec (len p) 0) as [?|Hne]; [lia|]. destruct (Z.leb_spec (limit s) 0); [done|lia].
  - pose proof (Shared_Write_step p s Hl) as Hw.
    destruct (Write_ p s) as [[n err] s'] eqn:Ew. destruct Hw as (Hn & Hl' & Hm).
    specialize (IH s' ltac:(lia)).
    destruct (Write_all ps s') as [total s'']. destruct IH as (Ht & Hl'' & Hp).
    split; [lia|]. split; [lia|done].
Qed.

(** The limit is not a bound under concurrent use: with the limit at 4, two
    goroutines that each write 3 bytes can deliver 6, because each loads the
    limit before the other has subtracted.  (The callers in the repository
    write from one goroutine, to which the previous property applies.) *)
Theorem shared_limit_race :
  let c := mkConfig 4 0 [mkThread "abc" Start; mkThread "xyz" Start] in
  exists c', rtc step c c' /\ cf_out c' = 6%Z /\ (cf_limit c < cf_out c')%Z.
Proof.
  intros c.
  assert (run [0; 1; 0; 0; 1; 1]%nat c
          = Some (mkConfig (-2) 6 [mkThread "abc" Done; mkThread "xyz" Done])) as Hr by reflexivity.
  eexists. split; [exact (run_steps _ _ _ Hr)|]. by split.
Qed.

End Shared.

(** ** [LimitedWriter] *)

Module Limited.

Record LimitedWriter (W : Type) := mkLimited { lw_W : W; lw_N : Z }.
Arguments mkLimited {W}.
Arguments lw_W {W}.
Arguments lw_N {W}.

Section Limited.
Context {W : Type} `{Writer W}.

Definition LimitWriter (w : W) (n : Z) : LimitedWriter W := mkLimited w n.

Definition Write_ (p : string) : M (LimitedWriter W) wres := fun l =>
  if (lw_N l <=? 0)%Z then ((0%Z, Some (Sentinel ErrShortWrite)), l)
  else
    let '(p', truncated) := if (lw_N l <? len p)%Z then (stake (Z.to_nat (lw_N l)) p, true)
                            else (p, false) in
    let '((n, err), w') := Write p' (lw_W l) in
    let err' := match err with
                | None => if truncated then Some (Sentinel ErrShortWrite) else None
                | Some e => Some e
                end in
    ((n, err'), mkLimited w' (int64 (lw_N l - n))).

Fixpoint Write_all (ps : list string) (l : LimitedWriter W) : Z * LimitedWriter W :=
  match ps with
  | [] => (0%Z, l)
  | p :: ps' =>
      let '((n, _), l') := Write_ p l in
      let '(total, l'') := Write_all ps' l' in
      ((n + total)%Z, l'')
  end.

Lemma Limited_Write_step p l :
  (lw_N l < 2 ^ 63)%Z ->
  let '((n, err), l') := Write_ p l in
  (0 <= n <= len p)%Z /\ lw_N l' = (lw_N l - n)%Z /\ (n <= Z.max 0 (lw_N l))%Z
  /\ ((n < len p)%Z -> err <> None).
Proof.
  intros Hl. unfold Write_. pose proof (Shared.len_nonneg p).
  destruct (Z.leb_spec (lw_N l) 0); [simpl; split_and!; try lia; done|].
  pose proof (Shared.clip_len (lw_N l) p ltac:(lia)) as [Hc1 Hc2].
  unfold Shared.clip in *.
  destruct (lw_N l <? len p)%Z eqn:E; simpl in Hc1, Hc2.
  all: match goal with |- context [Write ?q ?w] =>
    pose proof (Write_bounds q w) as Hb; pose proof (Write_short q w) as Hs;
    destruct (Write q w) as [[n err] w'] end; simpl in *.
  all: rewrite int64_id by (unfold in_int64; lia).
  all: split_and!; try lia.
  - intros _. by destruct err.
  - intros Hn. destruct err; [done|]. by apply Hs.
Qed.

End Limited.

(** A [LimitedWriter] of [N] bytes passes on at most [N] bytes over any
    sequence of writes, keeps in [N] what is left, and reports an error for
    every write it could not pass on in full. *)
Theorem limited_writer_bound {W} `{Writer W} (ps : list string) (l : LimitedWriter W) :
  (lw_N l < 2 ^ 63)%Z ->
  (let '(total, l') := Write_all ps l in
   (0 <= total <= Z.max 0 (lw_N l))%Z /\ lw_N l' = (lw_N l - total)%Z)
  /\ forall p, (fst (fst (Write_ p l)) < len p)%Z -> snd (fst (Write_ p l)) <> None.
Proof.
  intros Hl. split.
  - revert l Hl. induction ps as [|p ps IH]; intros l Hl; simpl; [lia|].
    pose proof (Limited_Write_step p l Hl) as Hw.
    destruct (Write_ p l) as [[n err] l']. destruct Hw as (Hn & Hl' & Hm & _).
    specialize (IH l' ltac:(lia)). destruct (Write_all ps l') as [total l''].
    lia.
  - intros p. pose proof (Limited_Write_step p l Hl) as Hw.
    destruct (Write_ p l) as [[n err] l']. simpl. tauto.
Qed.

End Limited.

(** ** A concrete writer: a buffer that takes everything *)

#[export] Program Instance buffer_writer : Writer string := {|
  Write := fun p w => ((len p, None), w +:+ p);
|}.
Next Obligation. intros p w. simpl. unfold len. lia. Qed.
Next Obligation. intros p w. simpl. lia. Qed.

Lemma shared_limit_respected_witness :
  Shared.Write_all ["hello "; "wor"; "ld"] (Shared.mkState "" 8)
    = (8%Z, Shared.mkState "hello wo" 0)
  /\ (let '(total, s') := Shared.Write_all ["hello "; "wor"; "ld"] (Shared.mkState "" 8) in
      (0 <= total <= 8)%Z).
Proof.
  split; [reflexivity|].
  exact (proj1 (Shared.shared_limit_respected ["hello "; "wor"; "ld"] (Shared.mkState "" 8)
                  ltac:(reflexivity))).
Defined.

Lemma limited_writer_bound_witness :
  Limited.Write_ "hello" (Limited.mkLimited "" 3)
    = ((3%Z, Some (Sentinel ErrShortWrite)), Limited.mkLimited "hel" 0)
  /\ (let '(total, l') := Limited.Write_all ["hello"; "x"] (Limited.mkLimited "" 3) in
      (0 <= total <= 3)%Z /\ Limited.lw_N l' = (3 - total)%Z).
Proof.
  split; [reflexivity|].
  exact (proj1 (Limited.limited_writer_bound ["hello"; "x"] (Limited.mkLimited "" 3)
                  ltac:(reflexivity))).
Defined.
