(* ===== verification/Cache.v ===== *)
(** * Cache: memoized results with a time to live (utils/cache.go)

    The service keeps the answers of [docker version] and [docker info] in
    such a cache.  An entry's lock makes the calls of one key sequential; the
    model is the sequence they form. *)
From S2P Require Import Prelude GoErrors.

(** ** Time *)

(** [time.Duration] is an [int64] of nanoseconds; [time.Time] is a count of
    nanoseconds, the zero time ([None]) being far before every other. *)
Definition maxDuration : Z := (2 ^ 63 - 1)%Z.
Definition minDuration : Z := (- 2 ^ 63)%Z.

(** [t.Sub(u)] saturates. *)
Definition Sub (t : Z) (u : option Z) : Z :=
  match u with
  | None => maxDuration
  | Some u => Z.max minDuration (Z.min maxDuration (t - u))
  end.

Definition Second : Z := 1000000000%Z.
Definition Minute : Z := (60 * Second)%Z.

(** A world with a clock. *)
Class Clock (W : Type) := Now : M W Z.

(** ** The cache *)

Record entry (V : Type) := mkEntry {
  value : option V;
  generated : option Z;
  lastTimeTaken : Z;
}.
Arguments mkEntry {V}.
Arguments value {V}.
Arguments generated {V}.
Arguments lastTimeTaken {V}.

Definition zero_entry {V} : entry V := mkEntry None None 0.

Section Cache.
Context {W V : Type} `{Clock W}.

(** [getEntry]: the entry of a key, stored empty when there is none. *)
Definition getEntry (key : string) : M (gmap string (entry V)) (entry V) := fun c =>
  match c !! key with
  | Some e => (e, c)
  | None => (zero_entry, <[key := zero_entry]> c)
  end.

(** Fresh enough at time [now]. *)
Definition fresh (e : entry V) (minTTL now : Z) : bool :=
  (Sub now (generated e) <? int64 (minTTL + lastTimeTaken e))%Z.

Definition Memoize (key : string) (minTTL : Z) (fn : M W (res V))
  : M (gmap string (entry V) * W) (res (option V)) := fun '(c, w) =>
  let '(e, c1) := getEntry key c in
  let '(now, w1) := Now w in
  if fresh e minTTL now then (Ok (value e), (c1, w1))
  else
    let '(start, w2) := Now w1 in
    let '(r, w3) := fn w2 in
    match r with
    | Ok v =>
        let '(gen, w4) := Now w3 in
        let '(stop, w5) := Now w4 in
        (Ok (Some v), (<[key := mkEntry (Some v) (Some gen) (Sub stop (Some start))]> c1, w5))
    | Err err => (Err err, (c1, w3))
    end.

Definition Delete (key : string) (c : gmap string (entry V)) : gmap string (entry V) :=
  delete key c.

(** [ClearByAge]: every key is looked at once, each at its own clock reading;
    the keys in the order [Range] visits them. *)
Fixpoint clear_range (d : Z) (keys : list string) : M (gmap string (entry V) * W) unit :=
  fun '(c, w) =>
  match keys with
  | [] => (tt, (c, w))
  | k :: keys' =>
      match c !! k with
      | Some e =>
          let '(now, w1) := Now w in
          clear_range d keys'
            (if (d <? Sub now (generated e))%Z then delete k c else c, w1)
      | None => clear_range d keys' (c, w)
      end
  end.
Definition ClearByAge (d : Z) : M (gmap string (entry V) * W) unit := fun '(c, w) =>
  clear_range d (fst <$> map_to_list c) (c, w).

(** ** Theory *)

Lemma getEntry_spec key c :
  getEntry key c = (default zero_entry (c !! key), <[key := default zero_entry (c !! key)]> c).
Proof.
  unfold getEntry. destruct (c !! key) eqn:E; simpl; [|done].
  by rewrite insert_id.
Qed.

Lemma Memoize_hit key minTTL fn c w e :
  c !! key = Some e -> fresh e minTTL (fst (Now w)) = true ->
  Memoize key minTTL fn (c, w) = (Ok (value e), (c, snd (Now w))).
Proof.
  intros He Hf. unfold Memoize. rewrite getEntry_spec, He. simpl.
  destruct (Now w) as [now w1]. simpl in *. rewrite Hf. by rewrite insert_id.
Qed.

Lemma clear_range_lookup d keys c w k :
  let c' := fst (snd (clear_range d keys (c, w))) in
  c' !! k = c !! k \/ (c' !! k = None /\ k ∈ keys).
Proof.
  revert c w. induction keys as [|k0 keys IH]; intros c w; simpl; [by left|].
  destruct (c !! k0) as [e|] eqn:E.
  - destruct (Now w) as [now w1]. case_match; simpl.
    + destruct (IH (delete k0 c) w1) as [->|[-> Hin]]; [|right; set_solver].
      destruct (decide (k0 = k)) as [->|]; [|rewrite lookup_delete_ne by done; by left].
      rewrite lookup_delete_eq. right. set_solver.
    + destruct (IH c w1) as [->|[-> Hin]]; [by left|right; set_solver].
  - destruct (IH c w) as [->|[-> Hin]]; [by left|right; set_solver].
Qed.

End Cache.

(** ** Properties *)

(** [Memoize] caches exactly the successful results: after it returned a
    value, every later call with the key answers that value from the cache,
    whatever function it is given, as long as the entry is fresh; after it
    returned an error the entry is what it was; no other key is affected. *)
Theorem memoize_caches_successes {W V} `{Clock W} (key : string) (minTTL : Z)
  (fn : M W (res V)) (c : gmap string (entry V)) (w : W) :
  let '(r, (c', w')) := Memoize key minTTL fn (c, w) in
  (forall k, k <> key -> c' !! k = c !! k)
  /\ match r with
     | Ok v => exists e, c' !! key = Some e /\ value e = v
                 /\ forall minTTL2 fn2 w2, fresh e minTTL2 (fst (Now w2)) = true ->
                      Memoize key minTTL2 fn2 (c', w2) = (Ok v, (c', snd (Now w2)))
     | Err _ => c' !! key = Some (default zero_entry (c !! key))
     end.
Proof.
  unfold Memoize at 1. rewrite getEntry_spec.
  destruct (Now w) as [now w1]. destruct (fresh _ minTTL now) eqn:Ef.
  - split; [intros k Hk; by simplify_map_eq|].
    exists (default zero_entry (c !! key)). split; [by simplify_map_eq|]. split; [done|].
    intros ttl2 fn2 w2 Hf2. by erewrite Memoize_hit by (done || by simplify_map_eq).
  - destruct (Now w1) as [start w2]. destruct (fn w2) as [[v|err] w3].
    + destruct (Now w3) as [gen w4]. destruct (Now w4) as [stop w5].
      split; [intros k Hk; by simplify_map_eq|].
      eexists. split; [by simplify_map_eq|]. split; [done|].
      intros ttl2 fn2 w6 Hf2. by erewrite Memoize_hit by (done || by simplify_map_eq).
    + split; [intros k Hk; by simplify_map_eq|]. by simplify_map_eq.
Qed.

(** A miss is never answered from the cache: when the entry of the key is
    absent or too old, the result is the function's own, and its success is
    stored with the time at which it was obtained and how long it took. *)
Theorem memoize_miss_calls {W V} `{Clock W} (key : string) (minTTL : Z)
  (fn : M W (res V)) (c : gmap string (entry V)) (w : W) :
  (- 2 ^ 63 <= minTTL < 2 ^ 63)%Z ->
  c !! key = None \/ (exists e, c !! key = Some e /\ fresh e minTTL (fst (Now w)) = false) ->
  let '(start, w2) := Now (snd (Now w)) in
  let '(r, w3) := fn w2 in
  let '(r', (c', _)) := Memoize key minTTL fn (c, w) in
  match r with
  | Ok v => r' = Ok (Some v)
            /\ c' !! key = Some (mkEntry (Some v) (Some (fst (Now w3)))
                             (Sub (fst (Now (snd (Now w3)))) (Some start)))
  | Err e => r' = Err e
  end.
Proof.
  intros Ht Hmiss. unfold Memoize. rewrite getEntry_spec.
  assert (fresh (default zero_entry (c !! key)) minTTL (fst (Now w)) = false) as Hf.
  { destruct Hmiss as [->|(e & -> & Hf)]; [|done]. unfold fresh, zero_entry. simpl.
    rewrite Z.add_0_r, int64_id by exact Ht. unfold maxDuration. apply Z.ltb_ge. lia. }
  destruct (Now w) as [now w1]. simpl in *. rewrite Hf.
  destruct (Now w1) as [start w2]. destruct (fn w2) as [[v|err] w3]; [|done].
  destruct (Now w3) as [gen w4]. simpl. destruct (Now w4) as [stop w5]. simpl.
  split; [done|]. by simplify_map_eq.
Qed.

(** A clock that advances by one second per reading. *)
#[local] Instance tick_clock : Clock Z := fun t => (t, (t + Second)%Z).

Lemma memoize_miss_calls_witness :
  let fn := fun w : Z => (Ok "27.0", (w + Second)%Z) : res string * Z in
  fst (Memoize "docker_version" Minute fn (∅, 0%Z)) = Ok (Some "27.0")
  /\ fst (snd (Memoize "docker_version" Minute fn (∅, 0%Z))) !! "docker_version"
     = Some (mkEntry (Some "27.0") (Some (3 * Second)%Z) (3 * Second)%Z).
Proof.
  intros fn.
  exact (memoize_miss_calls "docker_version" Minute fn ∅ 0%Z
           ltac:(unfold Minute, Second; lia) ltac:(by left)).
Defined.
