(* ===== verification/GoPath.v ===== *)
(** * GoPath: Go's lexical path operations

    [filepath.Clean], [Join], [Dir] and [Base] on slash-separated paths, as the
    checkpoint store, the log paths and the cgroup parents use them. *)
From S2P Require Import Prelude.

Definition slash : ascii := Ascii.ascii_of_N 47.

(** One component of a path against the components kept so far (last first). *)
Definition clean_step (rooted : bool) (kept : list string) (c : string) : list string :=
  if decide (c = "" \/ c = ".") then kept
  else if decide (c = "..") then
    match kept with
    | x :: rest => if decide (x = "..") then ".." :: kept else rest
    | [] => if rooted then [] else [".."]
    end
  else c :: kept.

Definition Clean (p : string) : string :=
  if decide (p = "") then "."
  else
    let rooted := has_prefix p "/" in
    let kept := rev (foldl (clean_step rooted) [] (split p "/")) in
    let out := (if rooted then "/" else "") +:+ join kept "/" in
    if decide (out = "") then "." else out.

Definition Join (elems : list string) : string :=
  match filter (fun e => e <> "") elems with
  | [] => ""
  | es => Clean (join es "/")
  end.

(** [Dir]: everything up to the last slash, cleaned. *)
Definition Dir (p : string) : string :=
  match split p "/" with
  | [_] => Clean ""
  | parts => Clean (join (removelast parts ++ [""]) "/")
  end.

(** [Base]: the last component that is not empty. *)
Definition Base (p : string) : string :=
  if decide (p = "") then "."
  else match last (filter (fun c => c <> "") (split p "/")) with
       | Some c => c
       | None => "/"
       end.

(** [filepath.IsAbs]. *)
Definition IsAbs (p : string) : bool := has_prefix p "/".

(** ** Clean absolute paths *)

(** A component that cleaning keeps. *)
Definition plain (c : string) : Prop :=
  lacks slash c = true /\ c <> "" /\ c <> "." /\ c <> "..".

#[export] Instance plain_dec c : Decision (plain c).
Proof. unfold plain. apply _. Defined.

(** The absolute path of a list of components. *)
Definition abs_path (comps : list string) : string := join ("" :: comps) "/".

Lemma join_snoc (l : list string) (x sep : string) :
  l <> [] -> join (l ++ [x]) sep = join l sep +:+ sep +:+ x.
Proof.
  induction l as [|a l IH]; [done|]. intros _. destruct l as [|b l]; [done|].
  change ((a :: b :: l) ++ [x]) with (a :: b :: (l ++ [x])).
  rewrite !join_cons. change (b :: l ++ [x]) with ((b :: l) ++ [x]).
  rewrite IH by done. by rewrite !sapp_assoc.
Qed.

Lemma abs_path_snoc comps c : abs_path (comps ++ [c]) = abs_path comps +:+ "/" +:+ c.
Proof. unfold abs_path. change ("" :: comps ++ [c]) with (("" :: comps) ++ [c]). by apply join_snoc. Qed.

Lemma split_abs_path comps :
  Forall plain comps -> split (abs_path comps) "/" = "" :: comps.
Proof.
  intros H. apply (split_join slash). constructor; [done|].
  eapply Forall_impl; [exact H|]. by intros c [? _].
Qed.

Lemma foldl_clean_plain rooted comps kept :
  Forall plain comps -> foldl (clean_step rooted) kept comps = rev comps ++ kept.
Proof.
  intros H. revert kept. induction H as [|c comps (Hs & H1 & H2 & H3) _ IH]; intros kept; simpl; [done|].
  rewrite IH. unfold clean_step. rewrite decide_False by tauto. rewrite decide_False by done.
  by rewrite <- app_assoc.
Qed.

Lemma abs_path_cons c comps : abs_path (c :: comps) = "/" +:+ join (c :: comps) "/".
Proof. done. Qed.

Lemma Clean_parts comps tail :
  comps <> [] -> Forall plain comps -> Forall (fun c => c = "") tail ->
  foldl (clean_step true) [] ("" :: comps ++ tail) = rev comps.
Proof.
  intros _ Hp Ht. cbn [foldl]. change (clean_step true [] "") with (@nil string).
  rewrite foldl_app, (foldl_clean_plain true comps), app_nil_r by done.
  induction Ht as [|x tail -> _ IH]; [done|]. cbn [foldl].
  change (clean_step true (rev comps) "") with (rev comps). exact IH.
Qed.

Lemma Clean_abs_path comps :
  comps <> [] -> Forall plain comps -> Clean (abs_path comps) = abs_path comps.
Proof.
  intros Hne Hp. destruct comps as [|c comps]; [done|]. unfold Clean.
  rewrite abs_path_cons, decide_False by done. rewrite has_prefix_app.
  rewrite <- abs_path_cons, split_abs_path by done.
  replace ("" :: c :: comps) with ("" :: (c :: comps) ++ []) by by rewrite app_nil_r.
  rewrite Clean_parts by (done || constructor).
  rewrite rev_involutive, decide_False by done. done.
Qed.

(** [filepath.Join(dir, key)] of a clean directory and a plain name. *)
Lemma Join_abs_path comps key :
  comps <> [] -> Forall plain comps -> plain key ->
  Join [abs_path comps; key] = abs_path comps +:+ "/" +:+ key.
Proof.
  intros Hne Hp Hk. unfold Join.
  assert (abs_path comps <> "") as Ha.
  { destruct comps as [|c comps]; [done|]. by rewrite abs_path_cons. }
  destruct Hk as (Hk1 & Hk2 & Hk3 & Hk4).
  rewrite !filter_cons, filter_nil, !decide_True by done.
  rewrite join_cons. change (join [key] "/") with key. rewrite <- abs_path_snoc.
  apply Clean_abs_path; [by destruct comps|].
  apply Forall_app. split; [done|]. constructor; [done|constructor].
Qed.

(** [filepath.Dir] of such a path. *)
Lemma Dir_abs_path comps key :
  comps <> [] -> Forall plain comps -> plain key ->
  Dir (abs_path comps +:+ "/" +:+ key) = abs_path comps.
Proof.
  intros Hne Hp Hk. rewrite <- abs_path_snoc. unfold Dir.
  rewrite split_abs_path by (apply Forall_app; split; [done|by constructor]).
  destruct comps as [|c comps]; [done|].
  cbn [app]. change ("" :: c :: comps ++ [key]) with (("" :: c :: comps) ++ [key]).
  rewrite removelast_last.
  change (join (("" :: c :: comps) ++ [""]) "/") with (abs_path ((c :: comps) ++ [""])).
  unfold Clean. rewrite abs_path_snoc, abs_path_cons, decide_False by done.
  rewrite sapp_assoc, has_prefix_app, <- sapp_assoc, <- abs_path_cons, <- abs_path_snoc.
  replace (split (abs_path ((c :: comps) ++ [""])) "/") with ("" :: (c :: comps) ++ [""]).
  2: { symmetry. apply (split_join slash). constructor; [done|]. apply Forall_app. split.
       - eapply Forall_impl; [exact Hp|]. by intros x [? _].
       - by constructor. }
  rewrite Clean_parts by (done || by constructor).
  rewrite rev_involutive, decide_False by done. done.
Qed.

Lemma Base_abs_path comps key :
  Forall plain comps -> plain key -> Base (abs_path (comps ++ [key])) = key.
Proof.
  intros Hp Hk. unfold Base. rewrite decide_False by by destruct comps.
  assert (Forall plain (comps ++ [key])) as H.
  { apply Forall_app. split; [done|by constructor]. }
  rewrite split_abs_path by done.
  rewrite filter_cons_False by auto.
  assert (filter (fun c => c <> "") (comps ++ [key]) = comps ++ [key]) as ->.
  { induction H as [|x l (_ & Hx & _) _ IH]; [done|]. by rewrite filter_cons_True, IH. }
  by rewrite last_snoc.
Qed.
