(* ===== verification/Store.v ===== *)
(** * Store: the file-backed key/value store of checkpoints

    store/store.go and store/filestore.go over the [Filesystem] interface of
    store/filesystem.go.  The class [Store] with its contract is what the
    checkpoint manager relies on; [FileStore] discharges it for every
    filesystem that satisfies [FilesystemLaws]. *)
From S2P Require Import Prelude Regex GoErrors GoPath.

#[local] Arguments String.append !s1 s2 : simpl nomatch.

(** ** Keys *)

Definition keyMaxLength : nat := 250.

Definition is_upper_letter (c : ascii) : bool :=
  let n := Ascii.N_of_ascii c in ((65 <=? n) && (n <=? 90))%N.
(** [[A-Za-z0-9]] and [[-A-Za-z0-9_.]] *)
Definition keyChar (c : ascii) : bool := is_upper_letter c || is_lower_letter c || is_digit c.
Definition keyExtChar (c : ascii) : bool :=
  Ascii.eqb c "-" || Ascii.eqb c "_" || Ascii.eqb c "." || keyChar c.

(** The body of [keyRegex], which is anchored at both ends. *)
Definition qualifiedKey : re :=
  Seq (Opt (Seq (Class keyChar) (Many keyExtChar))) (Class keyChar).

(** A match of an anchored pattern: one that leaves nothing. *)
Definition full_match (r : re) (s : string) : bool :=
  existsb (fun m => String.eqb (snd m) "") (matches r s).

Definition valid_key (key : string) : bool :=
  (String.length key <=? keyMaxLength)%nat && full_match qualifiedKey key.

Definition ValidateKey (key : string) : res unit :=
  if valid_key key then Ok tt else Err (Errorf ("invalid key: " +:+ quote key)).

(** ** The [Store] interface and its contract *)

Class Store (St : Type) := {
  Store_Write : string -> string -> M St (res unit);
  Store_Read : string -> M St (res string);
  Store_Delete : string -> M St (res unit);
  Store_List : M St (res (list string));
}.

(** What a store promises, in terms of the data it holds under each key.  A
    failed operation changes nothing. *)
Class StoreContract (St : Type) `{Store St} := {
  contents : St -> string -> option string;
  write_contents : forall k d s r s', Store_Write k d s = (r, s') ->
    forall k', contents s' k' =
      if decide (is_ok r = true /\ k' = k) then Some d else contents s k';
  read_contents : forall k s r s', Store_Read k s = (r, s') ->
    (forall k', contents s' k' = contents s k')
    /\ match r with
       | Ok d => contents s k = Some d
       | Err e => e = Sentinel ErrKeyNotFound -> contents s k = None
       end;
  delete_contents : forall k s r s', Store_Delete k s = (r, s') ->
    forall k', contents s' k' =
      if decide (is_ok r = true /\ k' = k) then None else contents s k';
  list_contents : forall s r s', Store_List s = (r, s') ->
    (forall k', contents s' k' = contents s k')
    /\ match r with
       | Ok ks => forall k, contents s k <> None -> k ∈ ks
       | Err _ => True
       end;
}.

(** ** The [Filesystem] interface *)

(** The operations the store uses.  An open temporary file is identified by
    its name: the code renames or removes it only after its last write. *)
Class Filesystem (W : Type) := {
  Stat : string -> M W (res unit);
  MkdirAll : string -> M W (res unit);
  TempFile : string -> string -> M W (res string);
  File_Write : string -> string -> M W (res unit);
  File_Sync : string -> M W (res unit);
  File_Close : string -> M W (res unit);
  Rename : string -> string -> M W (res unit);
  Remove : string -> M W (res unit);
  ReadFile : string -> M W (res string);
  ReadDir : string -> M W (res (list string));
}.

(** What the operating system documents of them, by their effect on the
    regular files.  Any of them may fail. *)
Class FilesystemLaws (W : Type) `{Filesystem W} := {
  files : W -> gmap string string;
  Stat_files : forall p w, files (snd (Stat p w)) = files w;
  MkdirAll_files : forall p w, files (snd (MkdirAll p w)) = files w;
  TempFile_files : forall d p w r w', TempFile d p w = (r, w') ->
    match r with
    | Ok t => (exists sfx, t = d +:+ "/" +:+ p +:+ sfx /\ lacks slash sfx = true)
              /\ files w !! t = None /\ files w' = <[t := ""]> (files w)
    | Err _ => files w' = files w
    end;
  File_Write_files : forall t d w r w', File_Write t d w = (r, w') ->
    match r with
    | Ok _ => files w' = alter (fun c => c +:+ d) t (files w)
    | Err _ => exists c, files w' = alter (fun _ => c) t (files w)
    end;
  File_Sync_files : forall t w, files (snd (File_Sync t w)) = files w;
  File_Close_files : forall t w, files (snd (File_Close t w)) = files w;
  Rename_files : forall o n w r w', Rename o n w = (r, w') ->
    match r with
    | Ok _ => exists c, files w !! o = Some c /\ files w' = <[n := c]> (delete o (files w))
    | Err _ => files w' = files w
    end;
  Remove_files : forall p w r w', Remove p w = (r, w') ->
    match r with
    | Ok _ => files w' = delete p (files w)
    | Err e => files w' = files w /\ (IsNotExist e = true -> files w !! p = None)
    end;
  ReadFile_files : forall p w r w', ReadFile p w = (r, w') ->
    files w' = files w
    /\ match r with
       | Ok c => files w !! p = Some c
       | Err e => IsNotExist e = true -> files w !! p = None
       end;
  ReadFile_no_sentinel : forall p w s, fst (ReadFile p w) <> Err (Sentinel s);
  ReadDir_files : forall d w r w', ReadDir d w = (r, w') ->
    files w' = files w
    /\ match r with
       | Ok names => forall k, lacks slash k = true -> files w !! (d +:+ "/" +:+ k) <> None -> k ∈ names
       | Err _ => True
       end;
}.

(** ** [FileStore] *)

Definition tmpPrefix : string := ".".

Section FileStore.
Context {W : Type} `{Filesystem W}.

Definition ensureDirectory (path : string) : M W (res unit) :=
  let* r := Stat path in
  match r with
  | Err _ => MkdirAll path
  | Ok _ => ret (Ok tt)
  end.

Definition removePath (path : string) : M W (res unit) :=
  let* r := Remove path in
  match r with
  | Err e => if IsNotExist e then ret (Ok tt) else ret (Err e)
  | Ok _ => ret (Ok tt)
  end.

(** The statements of [writeFile] after the temporary file was made: the
    value returned and whether the deferred function still has to close. *)
Definition writeFile_body (tmpPath path data : string) : M W (option error * bool) :=
  let* wr := File_Write tmpPath data in
  match wr with
  | Err err => ret (Some err, true)
  | Ok _ =>
      let* sy := File_Sync tmpPath in
      match sy with
      | Err err => ret (Some err, true)
      | Ok _ =>
          let* cl := File_Close tmpPath in
          match cl with
          | Err err => ret (Some err, false)
          | Ok _ =>
              let* rn := Rename tmpPath path in
              match rn with
              | Err err => ret (Some err, false)
              | Ok _ => ret (None, false)
              end
          end
      end
  end.

(** The deferred function of [writeFile]: close the file, remove it on error. *)
Definition writeFile_defer (tmpPath : string) (retErr : option error) (shouldClose : bool)
  : M W (option error) :=
  let* retErr1 :=
    if shouldClose then
      let* cl := File_Close tmpPath in
      ret (match cl with
           | Ok _ => retErr
           | Err err =>
               match retErr with
               | None => Some (Errorf ("close error: " +:+ Error err))
               | Some e => Some (Errorf ("failed to close temp file after error " +:+ Error e
                                         +:+ "; close error: " +:+ Error err))
               end
           end)
    else ret retErr in
  match retErr1 with
  | Some e =>
      if decide (tmpPath = "") then ret retErr1
      else
        let* rm := removePath tmpPath in
        ret (match rm with
             | Ok _ => retErr1
             | Err err =>
                 Some (Errorf ("failed to remove the temporary file (" +:+ quote tmpPath
                               +:+ ") after error " +:+ Error e
                               +:+ "; remove error: " +:+ Error err))
             end)
  | None => ret retErr1
  end.

Definition writeFile (path data : string) : M W (res unit) :=
  let* r := TempFile (Dir path) tmpPrefix in
  match r with
  | Err err => ret (Err err)
  | Ok tmpPath =>
      let* '(retErr, shouldClose) := writeFile_body tmpPath path data in
      let* retErr' := writeFile_defer tmpPath retErr shouldClose in
      ret (match retErr' with Some e => Err e | None => Ok tt end)
  end.

(** A store directory. *)
Variable directoryPath : string.

Definition getPathByKey (key : string) : string := Join [directoryPath; key].

Definition NewFileStore : M W (res unit) := ensureDirectory directoryPath.

Definition FileStore_Write (key data : string) : M W (res unit) :=
  match ValidateKey key with
  | Err err => ret (Err err)
  | Ok _ => let? _ := ensureDirectory directoryPath in writeFile (getPathByKey key) data
  end.

Definition FileStore_Read (key : string) : M W (res string) :=
  match ValidateKey key with
  | Err err => ret (Err err)
  | Ok _ =>
      let* r := ReadFile (getPathByKey key) in
      ret (match r with
           | Err e => if IsNotExist e then Err (Sentinel ErrKeyNotFound) else Err e
           | Ok bytes => Ok bytes
           end)
  end.

Definition FileStore_Delete (key : string) : M W (res unit) :=
  match ValidateKey key with
  | Err err => ret (Err err)
  | Ok _ => removePath (getPathByKey key)
  end.

Definition FileStore_List : M W (res (list string)) :=
  let* r := ReadDir directoryPath in
  ret (match r with
       | Err err => Err err
       | Ok names => Ok (filter (fun n => has_prefix n tmpPrefix = false) names)
       end).

End FileStore.

(** ** Theory: keys *)

Lemma keyChar_ext c : keyChar c = true -> keyExtChar c = true.
Proof. unfold keyExtChar. intros ->. by rewrite !orb_true_r. Qed.

Lemma keyExtChar_not_slash c : keyExtChar c = true -> negb (Ascii.eqb c slash) = true.
Proof.
  intros H. destruct (Ascii.eqb_spec c slash) as [->|]; [|done]. by vm_compute in H.
Qed.

Lemma valid_key_lacks_slash k : valid_key k = true -> lacks slash k = true.
Proof.
  intros [_ Hm]%andb_true_iff. unfold full_match in Hm.
  apply existsb_exists in Hm as ([caps rest] & Hin & Hr).
  apply String.eqb_eq in Hr. simpl in Hr; subst.
  apply list_elem_of_In in Hin. apply (matches_chars keyExtChar) in Hin as (u & -> & Hu).
  - rewrite sapp_nil_r. eapply sforall_impl; [|exact Hu]. apply keyExtChar_not_slash.
  - simpl. auto using keyChar_ext.
Qed.

Lemma valid_key_head k : valid_key k = true -> exists c k', k = String c k' /\ keyChar c = true.
Proof.
  intros [_ Hm]%andb_true_iff. destruct k as [|c k]; [done|]. exists c, k.
  split; [done|]. destruct (keyChar c) eqn:E; [done|]. exfalso.
  unfold full_match, qualifiedKey in Hm. simpl in Hm. rewrite E in Hm. simpl in Hm.
  rewrite E in Hm. done.
Qed.

Lemma valid_key_plain k : valid_key k = true -> plain k /\ has_prefix k tmpPrefix = false.
Proof.
  intros Hk. pose proof (valid_key_lacks_slash k Hk) as Hs.
  destruct (valid_key_head k Hk) as (c & k' & -> & Hc).
  assert (Ascii.eqb c "." = false) as Hd.
  { destruct (Ascii.eqb_spec c "."%char) as [->|]; [by vm_compute in Hc|done]. }
  split; [|by unfold tmpPrefix; rewrite has_prefix_char].
  split; [done|]. split; [done|].
  apply Ascii.eqb_neq in Hd. split; intros [= ? ?]; congruence.
Qed.

(** ** Theory: writing a file *)

(** A prefixed name in the directory is not the path of a valid key. *)
Lemma sapp_slash_inj d a b :
  lacks slash a = true -> lacks slash b = true ->
  d +:+ "/" +:+ a = d +:+ "/" +:+ b -> a = b.
Proof. intros _ _ E. apply sapp_inj_l in E. by injection E. Qed.

Section WriteFile.
Context {W : Type} `{FilesystemLaws W}.

Lemma ensureDirectory_files p w : files (snd (ensureDirectory p w)) = files w.
Proof.
  unfold ensureDirectory, bind, ret. pose proof (Stat_files p w) as Hs.
  destruct (Stat p w) as [[u|e] w1]; simpl in *; [done|].
  by rewrite MkdirAll_files.
Qed.

Lemma removePath_files p w r w' : removePath p w = (r, w') ->
  match r with
  | Ok _ => files w' = delete p (files w)
  | Err _ => files w' = files w
  end.
Proof.
  unfold removePath, bind, ret. destruct (Remove p w) as [r1 w1] eqn:E.
  apply Remove_files in E. destruct r1 as [u|e]; [by intros [= <- <-]|].
  destruct E as [E1 E2]. destruct (IsNotExist e); intros [= <- <-]; [|done].
  rewrite E1, delete_id; auto.
Qed.

(** The outcome of the body, from a world where the temporary file is new and
    empty: renamed over the target, or still there with some contents. *)
Lemma writeFile_body_files tmp path data f0 w r sc w' :
  f0 !! tmp = None -> files w = <[tmp := ""]> f0 ->
  writeFile_body tmp path data w = ((r, sc), w') ->
  match r with
  | None => sc = false /\ files w' = <[path := data]> f0
  | Some _ => exists c, files w' = <[tmp := c]> f0
  end.
Proof.
  intros Hnew Hw. unfold writeFile_body, bind, ret.
  destruct (File_Write tmp data w) as [r1 w1] eqn:E1. apply File_Write_files in E1.
  destruct r1 as [u1|e1].
  2: { intros [= <- <- <-]. destruct E1 as [c E1]. exists c.
       by rewrite E1, Hw, alter_insert_eq. }
  rewrite Hw, alter_insert_eq in E1. simpl in E1.
  pose proof (File_Sync_files tmp w1) as E2. destruct (File_Sync tmp w1) as [[u2|e2] w2]; simpl in E2.
  2: { intros [= <- <- <-]. exists data. by rewrite E2. }
  pose proof (File_Close_files tmp w2) as E3. destruct (File_Close tmp w2) as [[u3|e3] w3]; simpl in E3.
  2: { intros [= <- <- <-]. exists data. by rewrite E3, E2. }
  destruct (Rename tmp path w3) as [r4 w4] eqn:E4. apply Rename_files in E4.
  rewrite E3, E2, E1 in E4. destruct r4 as [u4|e4]; intros [= <- <- <-].
  - split; [done|]. destruct E4 as (c & Hc & ->). rewrite lookup_insert_eq in Hc.
    injection Hc as <-. by rewrite delete_insert_id.
  - by exists data.
Qed.

Lemma writeFile_defer_files tmp retErr sc w r w' :
  writeFile_defer tmp retErr sc w = (r, w') ->
  match retErr, sc with
  | None, false => r = None /\ files w' = files w
  | Some _, _ => r <> None /\ (files w' = delete tmp (files w) \/ files w' = files w)
  | None, true => True
  end.
Proof.
  unfold writeFile_defer, bind, ret.
  destruct retErr as [e|]; destruct sc; [..|done|by intros [= <- <-]].
  1: pose proof (File_Close_files tmp w) as Ec;
     destruct (File_Close tmp w) as [[u|err] w1]; simpl in Ec; try rewrite <- Ec.
  all: case_decide; [intros [= <- <-]; auto|].
  all: match goal with |- context [removePath ?t ?v] =>
         destruct (removePath t v) as [[?|?] w2] eqn:Er end;
       apply removePath_files in Er; intros [= <- <-]; auto.
Qed.

(** [writeFile] is a transaction: on success the target holds the data and
    nothing else changed; on failure every file is as it was, except possibly
    a fresh temporary file that could not be removed. *)
Lemma writeFile_files path data w r w' :
  writeFile path data w = (r, w') ->
  match r with
  | Ok _ => files w' = <[path := data]> (files w)
  | Err _ => files w' = files w
             \/ exists sfx c, files w' = <[Dir path +:+ "/" +:+ tmpPrefix +:+ sfx := c]> (files w)
                  /\ files w !! (Dir path +:+ "/" +:+ tmpPrefix +:+ sfx) = None
                  /\ lacks slash sfx = true
  end.
Proof.
  unfold writeFile. unfold bind at 1.
  destruct (TempFile (Dir path) tmpPrefix w) as [rt w1] eqn:Et. apply TempFile_files in Et.
  destruct rt as [tmp|e]; [|intros [= <- <-]; by left].
  destruct Et as ((sfx & -> & Hsfx) & Hnew & Hw1).
  unfold bind, ret. set (tmp := Dir path +:+ "/" +:+ tmpPrefix +:+ sfx) in *.
  destruct (writeFile_body tmp path data w1) as [[re sc] w2] eqn:Eb.
  apply (writeFile_body_files _ _ _ (files w)) in Eb; [|done|done].
  destruct (writeFile_defer tmp re sc w2) as [re' w3] eqn:Ed.
  apply writeFile_defer_files in Ed. destruct re as [e|].
  - destruct Ed as [Hne Hd]. destruct re' as [e'|]; [|done]. intros [= <- <-].
    destruct Eb as [c Ec]. destruct Hd as [Hd|Hd]; rewrite Hd.
    + left. by rewrite Ec, delete_insert_id.
    + right. exists sfx, c. by rewrite Ec.
  - destruct Eb as [-> Ec]. destruct Ed as [-> Ef]. intros [= <- <-]. by rewrite Ef.
Qed.

End WriteFile.

(** ** [FileStore] meets the contract *)

Definition FileStore_Store {W} `{Filesystem W} (dir : string) : Store W := {|
  Store_Write := FileStore_Write dir;
  Store_Read := FileStore_Read dir;
  Store_Delete := FileStore_Delete dir;
  Store_List := FileStore_List dir;
|}.

Section Contract.
Context {W : Type} `{FilesystemLaws W}.
(** The components of the store's directory, a clean absolute path. *)
Variable comps : list string.
Hypothesis comps_ne : comps <> [].
Hypothesis comps_plain : Forall plain comps.

Let dir : string := abs_path comps.

(** The data a world holds under a key. *)
Definition fs_contents (w : W) (k : string) : option string :=
  if valid_key k then files w !! (dir +:+ "/" +:+ k) else None.

Lemma getPathByKey_valid k : valid_key k = true -> getPathByKey dir k = dir +:+ "/" +:+ k.
Proof. intros [Hk _]%valid_key_plain. by apply Join_abs_path. Qed.

Lemma Dir_getPathByKey k : valid_key k = true -> Dir (getPathByKey dir k) = dir.
Proof.
  intros Hk. rewrite getPathByKey_valid by done. apply valid_key_plain in Hk as [Hk _].
  by apply Dir_abs_path.
Qed.

Lemma fs_contents_ext w w' : files w' = files w -> forall k, fs_contents w' k = fs_contents w k.
Proof. intros E k. unfold fs_contents. by rewrite E. Qed.

(** A temporary file is not the file of any key. *)
Lemma fs_contents_tmp w w' sfx c :
  files w' = <[dir +:+ "/" +:+ tmpPrefix +:+ sfx := c]> (files w) ->
  forall k, fs_contents w' k = fs_contents w k.
Proof.
  intros E k. unfold fs_contents. destruct (valid_key k) eqn:Hk; [|done].
  rewrite E, lookup_insert_ne; [done|]. intros Heq. apply sapp_inj_l in Heq.
  injection Heq as <-. apply valid_key_plain in Hk as [_ Hk].
  unfold tmpPrefix in Hk. by rewrite has_prefix_char in Hk.
Qed.

Lemma fs_contents_insert w w' k d :
  valid_key k = true -> files w' = <[dir +:+ "/" +:+ k := d]> (files w) ->
  forall k', fs_contents w' k' = if decide (k' = k) then Some d else fs_contents w k'.
Proof.
  intros Hk E k'. unfold fs_contents. rewrite E. case_decide as Hd.
  - subst. by rewrite Hk, lookup_insert_eq.
  - destruct (valid_key k') eqn:Hk'; [|done]. rewrite lookup_insert_ne; [done|].
    intros Heq. apply sapp_inj_l in Heq. injection Heq as Heq. congruence.
Qed.

Lemma fs_contents_delete w w' k :
  valid_key k = true -> files w' = delete (dir +:+ "/" +:+ k) (files w) ->
  forall k', fs_contents w' k' = if decide (k' = k) then None else fs_contents w k'.
Proof.
  intros Hk E k'. unfold fs_contents. rewrite E. case_decide as Hd.
  - subst. by rewrite Hk, lookup_delete_eq.
  - destruct (valid_key k') eqn:Hk'; [|done]. rewrite lookup_delete_ne; [done|].
    intros Heq. apply sapp_inj_l in Heq. injection Heq as Heq. congruence.
Qed.

Lemma FileStore_Write_contents k d w r w' :
  FileStore_Write dir k d w = (r, w') ->
  forall k', fs_contents w' k' =
    if decide (is_ok r = true /\ k' = k) then Some d else fs_contents w k'.
Proof.
  unfold FileStore_Write, ValidateKey. destruct (valid_key k) eqn:Hk.
  2: { intros [= <- <-] k'. by rewrite decide_False by (simpl; naive_solver). }
  unfold try, bind, ret. pose proof (ensureDirectory_files dir w) as He.
  destruct (ensureDirectory dir w) as [[u|e] w1]; simpl in He.
  2: { intros [= <- <-] k'. rewrite decide_False by (simpl; naive_solver). by apply fs_contents_ext. }
  intros Hw. apply writeFile_files in Hw. rewrite He, Dir_getPathByKey in Hw by done.
  rewrite getPathByKey_valid in Hw by done. destruct r as [u'|e]; simpl; intros k'.
  - rewrite (fs_contents_insert w w' k d) by done. by repeat case_decide; try tauto.
  - try rewrite decide_False by naive_solver. destruct Hw as [Hw|(sfx & c & Hw & _)].
    + by apply fs_contents_ext.
    + by eapply fs_contents_tmp.
Qed.

Lemma FileStore_Read_contents k w r w' :
  FileStore_Read dir k w = (r, w') ->
  (forall k', fs_contents w' k' = fs_contents w k')
  /\ match r with
     | Ok d => fs_contents w k = Some d
     | Err e => e = Sentinel ErrKeyNotFound -> fs_contents w k = None
     end.
Proof.
  unfold FileStore_Read, ValidateKey. destruct (valid_key k) eqn:Hk.
  2: { intros [= <- <-]. by split. }
  unfold bind, ret. rewrite getPathByKey_valid by done.
  pose proof (ReadFile_no_sentinel (dir +:+ "/" +:+ k) w ErrKeyNotFound) as Hns.
  destruct (ReadFile _ w) as [r1 w1] eqn:E. apply ReadFile_files in E as [Hf Hr].
  intros [= <- <-]. split; [by apply fs_contents_ext|].
  unfold fs_contents. rewrite Hk. destruct r1 as [c|e]; [done|].
  destruct (IsNotExist e) eqn:En; [auto|]. intros ->. by destruct Hns.
Qed.

Lemma FileStore_Delete_contents k w r w' :
  FileStore_Delete dir k w = (r, w') ->
  forall k', fs_contents w' k' =
    if decide (is_ok r = true /\ k' = k) then None else fs_contents w k'.
Proof.
  unfold FileStore_Delete, ValidateKey. destruct (valid_key k) eqn:Hk.
  2: { intros [= <- <-] k'. by rewrite decide_False by (simpl; naive_solver). }
  rewrite getPathByKey_valid by done. intros Hr k'. apply removePath_files in Hr.
  destruct r as [u|e]; simpl.
  - rewrite (fs_contents_delete w w' k) by done. by repeat case_decide; try tauto.
  - try rewrite decide_False by naive_solver. by apply fs_contents_ext.
Qed.

Lemma FileStore_List_contents w r w' :
  FileStore_List dir w = (r, w') ->
  (forall k', fs_contents w' k' = fs_contents w k')
  /\ match r with
     | Ok ks => forall k, fs_contents w k <> None -> k ∈ ks
     | Err _ => True
     end.
Proof.
  unfold FileStore_List, bind, ret. destruct (ReadDir dir w) as [r1 w1] eqn:E.
  apply ReadDir_files in E as [Hf Hr]. intros [= <- <-].
  split; [by apply fs_contents_ext|]. destruct r1 as [names|e]; [|done].
  intros k Hk. unfold fs_contents in Hk. destruct (valid_key k) eqn:Hv; [|done].
  apply list_elem_of_filter. split; [by apply valid_key_plain|].
  apply Hr; [by apply valid_key_lacks_slash|done].
Qed.

Definition FileStore_contract : @StoreContract W (FileStore_Store dir) :=
  @Build_StoreContract W (FileStore_Store dir) fs_contents
    FileStore_Write_contents FileStore_Read_contents FileStore_Delete_contents
    FileStore_List_contents.

End Contract.

(** ** Abstract specification and simulation *)

Inductive op := OWrite (k d : string) | ORead (k : string) | ODelete (k : string) | OList.
Inductive resp := RUnit (r : res unit) | RRead (r : res string) | RList (r : res (list string)).

(** The abstract store: a finite map whose operations may fail without
    effect, but never with a wrong answer. *)
Inductive spec_step (m : gmap string string) : op -> resp -> gmap string string -> Prop :=
| spec_write_ok k d : spec_step m (OWrite k d) (RUnit (Ok tt)) (<[k := d]> m)
| spec_delete_ok k : spec_step m (ODelete k) (RUnit (Ok tt)) (delete k m)
| spec_write_err k d e : spec_step m (OWrite k d) (RUnit (Err e)) m
| spec_delete_err k e : spec_step m (ODelete k) (RUnit (Err e)) m
| spec_read_ok k d : m !! k = Some d -> spec_step m (ORead k) (RRead (Ok d)) m
| spec_read_none k : m !! k = None -> spec_step m (ORead k) (RRead (Err (Sentinel ErrKeyNotFound))) m
| spec_read_err k e : e <> Sentinel ErrKeyNotFound -> spec_step m (ORead k) (RRead (Err e)) m
| spec_list_ok ks : (forall k, m !! k <> None -> k ∈ ks) -> spec_step m OList (RList (Ok ks)) m
| spec_list_err e : spec_step m OList (RList (Err e)) m.

Inductive spec_run (m : gmap string string) : list op -> list resp -> gmap string string -> Prop :=
| spec_nil : spec_run m [] [] m
| spec_cons o r m1 os rs m2 :
    spec_step m o r m1 -> spec_run m1 os rs m2 -> spec_run m (o :: os) (r :: rs) m2.

Section Simulation.
Context {St : Type} `{StoreContract St}.

Definition exec_op (o : op) (s : St) : resp * St :=
  match o with
  | OWrite k d => let '(r, s') := Store_Write k d s in (RUnit r, s')
  | ORead k => let '(r, s') := Store_Read k s in (RRead r, s')
  | ODelete k => let '(r, s') := Store_Delete k s in (RUnit r, s')
  | OList => let '(r, s') := Store_List s in (RList r, s')
  end.

Fixpoint exec_ops (os : list op) (s : St) : list resp * St :=
  match os with
  | [] => ([], s)
  | o :: os' =>
      let '(r, s1) := exec_op o s in
      let '(rs, s2) := exec_ops os' s1 in
      (r :: rs, s2)
  end.

Definition represents (m : gmap string string) (s : St) : Prop :=
  forall k, m !! k = contents s k.

Lemma exec_op_simulates o s m :
  represents m s -> exists m', spec_step m o (fst (exec_op o s)) m' /\ represents m' (snd (exec_op o s)).
Proof.
  intros Hm. destruct o as [k d|k|k|]; simpl.
  - destruct (Store_Write k d s) as [r s'] eqn:E. simpl.
    pose proof (write_contents _ _ _ _ _ E) as Hc. destruct r as [[]|e]; simpl in Hc.
    + exists (<[k := d]> m). split; [constructor|]. intros k'. rewrite Hc, lookup_insert, Hm.
      by repeat case_decide; try naive_solver.
    + exists m. split; [constructor|]. intros k'. rewrite Hc. apply Hm.
  - destruct (Store_Read k s) as [r s'] eqn:E. simpl.
    apply read_contents in E as [Hc Hr]. exists m. split; [|intros k'; by rewrite Hc, Hm].
    destruct r as [d|e]; [constructor; by rewrite Hm|].
    destruct (decide (is_sentinel ErrKeyNotFound e = true)) as [->%is_sentinel_eq|He].
    + constructor. rewrite Hm. auto.
    + constructor. intros ->. by apply He.
  - destruct (Store_Delete k s) as [r s'] eqn:E. simpl.
    pose proof (delete_contents _ _ _ _ E) as Hc. destruct r as [[]|e]; simpl in Hc.
    + exists (delete k m). split; [constructor|]. intros k'. rewrite Hc, lookup_delete, Hm.
      by repeat case_decide; try naive_solver.
    + exists m. split; [constructor|]. intros k'. rewrite Hc. apply Hm.
  - destruct Store_List as [r s'] eqn:E. simpl.
    apply list_contents in E as [Hc Hr]. exists m. split; [|intros k'; by rewrite Hc, Hm].
    destruct r as [ks|e]; constructor. intros k Hk. apply Hr. by rewrite <- Hm.
Qed.

Lemma exec_ops_simulates os s m :
  represents m s ->
  exists m', spec_run m os (fst (exec_ops os s)) m' /\ represents m' (snd (exec_ops os s)).
Proof.
  revert s m. induction os as [|o os IH]; intros s m Hm; simpl.
  - exists m. split; [constructor|done].
  - destruct (exec_op_simulates o s m Hm) as (m1 & Hs & Hm1).
    destruct (exec_op o s) as [r s1]. simpl in *.
    destruct (IH s1 m1 Hm1) as (m2 & Hr & Hm2).
    destruct (exec_ops os s1) as [rs s2]. simpl in *.
    exists m2. split; [by econstructor|done].
Qed.

End Simulation.
