(* ===== verification/MemFs.v ===== *)
(** * MemFs: an in-memory filesystem with scheduled faults

    A concrete [Filesystem] that satisfies [FilesystemLaws], so that the
    theorems stated for every filesystem have inputs they apply to.  Each
    operation consumes one entry of a fault schedule and fails when it is
    [true]; past the end of the schedule nothing fails. *)
From S2P Require Import Prelude GoErrors GoPath Store.

#[local] Arguments String.append !s1 s2 : simpl nomatch.

Record memfs := mkMemfs { mf_files : gmap string string; mf_faults : list bool }.

Definition io_error (p : string) : error := PathError "io" p (EOTHER "input/output error").
Definition no_entry (p : string) : error := PathError "open" p ENOENT.

(** Run an operation, or fail as the schedule says. *)
Definition faulty {A} (p : string) (f : gmap string string -> res A * gmap string string)
  : M memfs (res A) := fun w =>
  match mf_faults w with
  | true :: fl => (Err (io_error p), mkMemfs (mf_files w) fl)
  | fl => let '(r, m) := f (mf_files w) in (r, mkMemfs m (tail fl))
  end.

Definition max_len (m : gmap string string) : nat :=
  map_fold (fun k _ n => Nat.max (String.length k) n) 0%nat m.

Fixpoint zeros (n : nat) : string :=
  match n with O => EmptyString | S n' => String "0" (zeros n') end.

(** The names of the files directly in a directory. *)
Definition dir_names (d : string) (m : gmap string string) : list string :=
  let p := d +:+ "/" in
  omap (fun '(k, _) => if has_prefix k p && lacks slash (trim_prefix k p)
                       then Some (trim_prefix k p) else None) (map_to_list m).

#[export] Instance memfs_Filesystem : Filesystem memfs := {|
  Stat := fun p => faulty p (fun m => (match m !! p with Some _ => Ok tt | None => Err (no_entry p) end, m));
  MkdirAll := fun p => faulty p (fun m => (Ok tt, m));
  TempFile := fun d p => faulty d (fun m =>
    let t := d +:+ "/" +:+ p +:+ zeros (S (max_len m)) in (Ok t, <[t := ""]> m));
  File_Write := fun t d => faulty t (fun m => (Ok tt, alter (fun c => c +:+ d) t m));
  File_Sync := fun t => faulty t (fun m => (Ok tt, m));
  File_Close := fun t => faulty t (fun m => (Ok tt, m));
  Rename := fun o n => faulty o (fun m =>
    match m !! o with
    | Some c => (Ok tt, <[n := c]> (delete o m))
    | None => (Err (no_entry o), m)
    end);
  Remove := fun p => faulty p (fun m =>
    match m !! p with
    | Some _ => (Ok tt, delete p m)
    | None => (Err (no_entry p), m)
    end);
  ReadFile := fun p => faulty p (fun m =>
    (match m !! p with Some c => Ok c | None => Err (no_entry p) end, m));
  ReadDir := fun d => faulty d (fun m => (Ok (dir_names d m), m));
|}.

Lemma zeros_length n : String.length (zeros n) = n.
Proof. induction n; simpl; auto. Qed.

Lemma zeros_lacks n : lacks slash (zeros n) = true.
Proof. induction n; simpl; auto. Qed.

Lemma max_len_ge m k v : m !! k = Some v -> (String.length k <= max_len m)%nat.
Proof.
  unfold max_len. apply (map_fold_weak_ind
    (fun (n : nat) (m : gmap string string) => m !! k = Some v -> (String.length k <= n)%nat)).
  - by rewrite lookup_empty.
  - intros k' v' m' n _ IH. rewrite lookup_insert. case_decide as Hk; [subst; lia|].
    intros Hl%IH. lia.
Qed.

Lemma temp_fresh (d p : string) m : m !! (d +:+ "/" +:+ p +:+ zeros (S (max_len m))) = None.
Proof.
  destruct (m !! _) as [v|] eqn:E; [|done]. apply max_len_ge in E.
  rewrite !slength_app, zeros_length in E. lia.
Qed.

Lemma dir_names_spec d m k :
  lacks slash k = true -> m !! (d +:+ "/" +:+ k) <> None -> k ∈ dir_names d m.
Proof.
  intros Hk Hm. destruct (m !! (d +:+ "/" +:+ k)) as [v|] eqn:E; [|done].
  unfold dir_names. apply list_elem_of_omap. exists (d +:+ "/" +:+ k, v).
  split; [by apply elem_of_map_to_list|].
  rewrite <- sapp_assoc, has_prefix_app, trim_prefix_app, Hk. done.
Qed.

Ltac faulty_cases :=
  simpl in *; unfold faulty in *; simpl in *;
  repeat match goal with
  | H : context [match mf_faults ?w with _ => _ end] |- _ => destruct (mf_faults w) as [|[] ?]
  | |- context [match mf_faults ?w with _ => _ end] => destruct (mf_faults w) as [|[] ?]
  end; simplify_eq/=.

#[export] Program Instance memfs_laws : FilesystemLaws memfs := {| files := mf_files |}.
Next Obligation. intros p w. faulty_cases; done. Qed.
Next Obligation. intros p w. faulty_cases; done. Qed.
Next Obligation.
  intros d p w r w' E. faulty_cases; try done.
  all: split; [|split; [apply temp_fresh|done]].
  all: exists (zeros (S (max_len (mf_files w)))); split; [done|apply zeros_lacks].
Qed.
Next Obligation.
  intros t d w r w' E. faulty_cases; try done.
  exists (default "" (mf_files w !! t)). symmetry. apply map_eq. intros k.
  rewrite lookup_alter. case_decide as Hk; [subst|done]. by destruct (mf_files w !! _).
Qed.
Next Obligation. intros t w. faulty_cases; done. Qed.
Next Obligation. intros t w. faulty_cases; done. Qed.
Next Obligation.
  intros o n w r w' E. faulty_cases; try done.
  all: destruct (mf_files w !! o); simplify_eq/=; eauto.
Qed.
Next Obligation.
  intros p w r w' E. faulty_cases; try done.
  all: destruct (mf_files w !! p) eqn:?; simplify_eq/=; eauto.
Qed.
Next Obligation.
  intros p w r w' E. faulty_cases; try done.
  all: destruct (mf_files w !! p) eqn:?; simplify_eq/=; eauto.
Qed.
Next Obligation.
  intros p w s. faulty_cases; try done. all: by destruct (mf_files w !! p).
Qed.
Next Obligation.
  intros d w r w' E. faulty_cases; try done.
  all: split; [done|]; intros k; apply dir_names_spec.
Qed.

(** ** Properties of the file store *)

(** C14: [writeFile] is a transaction on every path through its error handling,
    including failures of the clean-up itself: on success the target file
    holds exactly the data and no other file changed (no temporary file is
    left); on failure no file changed, except that one fresh temporary file
    may remain when it could not be removed. *)
Theorem writeFile_atomic {W} `{FilesystemLaws W} (path data : string) (w : W) :
  let '(r, w') := writeFile path data w in
  match r with
  | Ok _ => files w' = <[path := data]> (files w)
  | Err _ => files w' = files w
             \/ exists sfx c, files w' = <[Dir path +:+ "/" +:+ tmpPrefix +:+ sfx := c]> (files w)
                  /\ files w !! (Dir path +:+ "/" +:+ tmpPrefix +:+ sfx) = None
                  /\ lacks slash sfx = true
  end.
Proof.
  destruct (writeFile path data w) as [r w'] eqn:E. by apply writeFile_files in E.
Qed.

Lemma writeFile_atomic_witness :
  let w := mkMemfs {[ "/d/k" := "old" ]} [false; false; true; true; true] in
  files (snd (writeFile "/d/k" "new" w)) = {[ "/d/.00000" := "new"; "/d/k" := "old" ]}
  /\ match fst (writeFile "/d/k" "new" w) with
     | Ok _ => False
     | Err _ => files (snd (writeFile "/d/k" "new" w)) = files w
                \/ exists sfx c, files (snd (writeFile "/d/k" "new" w))
                                 = <["/d" +:+ "/" +:+ tmpPrefix +:+ sfx := c]> (files w)
                     /\ files w !! ("/d" +:+ "/" +:+ tmpPrefix +:+ sfx) = None
                     /\ lacks slash sfx = true
     end.
Proof.
  intros w. split; [reflexivity|]. exact (writeFile_atomic "/d/k" "new" w).
Defined.


(** The keys of a store cannot collide with its temporary files or leave
    its directory: an invalid key is refused by every operation before the
    filesystem is touched, a valid key has no slash and no leading dot, and a
    listing never names a temporary file. *)
Theorem filestore_keys_confined {W} `{Filesystem W} (dir key data : string) (w : W) :
  (valid_key key = false ->
   FileStore_Write dir key data w = (Err (Errorf ("invalid key: " +:+ quote key)), w)
   /\ FileStore_Read dir key w = (Err (Errorf ("invalid key: " +:+ quote key)), w)
   /\ FileStore_Delete dir key w = (Err (Errorf ("invalid key: " +:+ quote key)), w))
  /\ (valid_key key = true ->
      plain key /\ has_prefix key tmpPrefix = false /\ (String.length key <= 250)%nat)
  /\ (forall ks, fst (FileStore_List dir w) = Ok ks ->
      Forall (fun k => has_prefix k tmpPrefix = false) ks).
Proof.
  split; [|split].
  - intros Hk. unfold FileStore_Write, FileStore_Read, FileStore_Delete, ValidateKey.
    by rewrite Hk.
  - intros Hk. destruct (valid_key_plain _ Hk). split_and!; try done.
    apply andb_true_iff in Hk as [Hk _]. by apply Nat.leb_le in Hk.
  - intros ks. unfold FileStore_List, bind, ret. destruct (ReadDir dir w) as [[names|e] w1]; [|done].
    simpl. intros [= <-]. apply Forall_forall. intros k Hk.
    by apply list_elem_of_filter in Hk as [Hk _].
Qed.


Lemma filestore_keys_confined_witness :
  FileStore_Write "/s" "../etc" "x" (mkMemfs ∅ [])
    = (Err (Errorf ("invalid key: " +:+ quote "../etc")), mkMemfs ∅ [])
  /\ has_prefix "c0ffee" tmpPrefix = false.
Proof.
  split.
  - exact (proj1 (proj1 (filestore_keys_confined "/s" "../etc" "x" (mkMemfs ∅ [])) eq_refl)).
  - exact (proj1 (proj2 (proj1 (proj2 (filestore_keys_confined "/s" "c0ffee" "x" (mkMemfs ∅ []))) eq_refl))).
Defined.
