(* ===== verification/Checkpoint.v ===== *)
(** * Checkpoint: sandbox checkpoints

    store/checksum.go (the FNV checksum of a checkpoint's data),
    core/checkpoint.go (the checkpoint of a sandbox) and
    store/checkpointmanager.go (checkpoints in a [Store]).  The printing of
    the hashed data (go-spew) and the JSON encoding are parameters. *)
From S2P Require Import Prelude GoErrors GoPath Store MemFs.

(** ** Data (core/checkpoint.go, config/types.go) *)

(** [config.PortMapping]; its pointer fields are always set where the code
    builds one. *)
Record PortMappingCp := mkPortMappingCp {
  pmc_Protocol : string;
  pmc_ContainerPort : Z;
  pmc_HostPort : Z;
  pmc_HostIP : string;
}.

#[export] Instance PortMappingCp_eq_dec : EqDecision PortMappingCp.
Proof. solve_decision. Defined.

Record CheckpointData := mkCheckpointData {
  cd_PortMappings : list PortMappingCp;
  cd_HostNetwork : bool;
}.

#[export] Instance CheckpointData_eq_dec : EqDecision CheckpointData.
Proof. solve_decision. Defined.

Record PodSandboxCheckpoint := mkPodSandboxCheckpoint {
  cp_Version : string;
  cp_Name : string;
  cp_Namespace : string;
  cp_Data : CheckpointData;
  cp_Checksum : N;
}.

#[export] Instance PodSandboxCheckpoint_eq_dec : EqDecision PodSandboxCheckpoint.
Proof. solve_decision. Defined.

Definition protocolTCP : string := "tcp".
Definition protocolUDP : string := "udp".
Definition protocolSCTP : string := "sctp".
Definition schemaVersion : string := "v1".

Definition NewPodSandboxCheckpoint (namespace name : string) (data : CheckpointData)
  : PodSandboxCheckpoint :=
  mkPodSandboxCheckpoint schemaVersion name namespace data 0.

(** The target every caller of [GetCheckpoint] decodes into. *)
Definition empty_checkpoint : PodSandboxCheckpoint :=
  NewPodSandboxCheckpoint "" "" (mkCheckpointData [] false).

(** [GetData]. *)
Definition GetData (cp : PodSandboxCheckpoint)
  : string * string * string * list PortMappingCp * bool :=
  (cp_Version cp, cp_Name cp, cp_Namespace cp,
   cd_PortMappings (cp_Data cp), cd_HostNetwork (cp_Data cp)).

(** ** FNV-1a over 32 bits ([fnv.New32a]) *)

Definition fnv_offset32 : N := 2166136261.
Definition fnv_prime32 : N := 16777619.
Fixpoint fnv32a_go (h : N) (s : string) : N :=
  match s with
  | EmptyString => h
  | String c s' =>
      fnv32a_go ((N.lxor h (Ascii.N_of_ascii c) * fnv_prime32) mod 2 ^ 32)%N s'
  end.
Definition fnv32a (s : string) : N := fnv32a_go fnv_offset32 s.

Lemma fnv32a_bound s : (fnv32a s < 2 ^ 32)%N.
Proof.
  unfold fnv32a. assert (fnv_offset32 < 2 ^ 32)%N as H by reflexivity.
  revert H. generalize fnv_offset32. induction s as [|c s IH]; intros h Hh; simpl; [done|].
  apply IH. apply N.mod_lt. discriminate.
Qed.

(** ** The code this model takes as parameters *)

(** [spew]: the text go-spew prints for checkpoint data. *)
Class Spew := spew : CheckpointData -> string.

(** [json.Marshal] and [json.Unmarshal] on checkpoints: decoding what was
    encoded, into a fresh checkpoint, gives it back. *)
Class CheckpointJSON := {
  json_Marshal : PodSandboxCheckpoint -> res string;
  json_Unmarshal : string -> PodSandboxCheckpoint -> res PodSandboxCheckpoint;
  json_roundtrip : forall cp blob,
    json_Marshal cp = Ok blob -> json_Unmarshal blob empty_checkpoint = Ok cp;
}.

Section Checkpoint.
Context `{Spew} `{CheckpointJSON}.

(** ** Checksums (store/checksum.go) *)

Definition getChecksum (data : CheckpointData) : N := fnv32a (spew data).
Definition NewChecksum (data : CheckpointData) : N := getChecksum data.
Definition Checksum_Verify (cs : N) (data : CheckpointData) : res unit :=
  if (cs =? NewChecksum data)%N then Ok tt
  else Err (Errorf "checkpoint is corrupted").

(** ** [PodSandboxCheckpoint] *)

(** [cp.Checksum = store.NewChecksum( *cp.Data)]. *)
Definition with_checksum (cp : PodSandboxCheckpoint) : PodSandboxCheckpoint :=
  mkPodSandboxCheckpoint (cp_Version cp) (cp_Name cp) (cp_Namespace cp) (cp_Data cp)
    (NewChecksum (cp_Data cp)).

(** [MarshalCheckpoint] stores the checksum in the checkpoint, then encodes
    it. *)
Definition MarshalCheckpoint (cp : PodSandboxCheckpoint) : res string * PodSandboxCheckpoint :=
  let cp' := with_checksum cp in (json_Marshal cp', cp').

Definition UnmarshalCheckpoint (blob : string) (cp : PodSandboxCheckpoint)
  : res PodSandboxCheckpoint := json_Unmarshal blob cp.

Definition VerifyChecksum (cp : PodSandboxCheckpoint) : res unit :=
  Checksum_Verify (cp_Checksum cp) (cp_Data cp).

(** ** The checkpoint manager, over any store *)

Section Manager.
Context {St : Type} `{Store St}.

Definition CreateCheckpoint (checkpointKey : string) (cp : PodSandboxCheckpoint)
  : M St (res unit) :=
  match fst (MarshalCheckpoint cp) with
  | Err err => ret (Err err)
  | Ok blob => Store_Write checkpointKey blob
  end.

(** [GetCheckpoint], always called with a fresh checkpoint to fill. *)
Definition GetCheckpoint (checkpointKey : string) : M St (res PodSandboxCheckpoint) :=
  let* r := Store_Read checkpointKey in
  ret (match r with
       | Err err =>
           if is_sentinel ErrKeyNotFound err then Err (Sentinel ErrCheckpointNotFound)
           else Err err
       | Ok blob =>
           match UnmarshalCheckpoint blob empty_checkpoint with
           | Err err => Err err
           | Ok cp =>
               match VerifyChecksum cp with
               | Err err => Err err
               | Ok _ => Ok cp
               end
           end
       end).

Definition RemoveCheckpoint (checkpointKey : string) : M St (res unit) :=
  Store_Delete checkpointKey.

Definition ListCheckpoints : M St (res (list string)) :=
  let* r := Store_List in
  ret (match r with
       | Err err => Err (Errorf ("failed to list checkpoint store: " +:+ Error err))
       | Ok keys => Ok keys
       end).

End Manager.

(** ** Theory *)

Lemma VerifyChecksum_with_checksum cp : VerifyChecksum (with_checksum cp) = Ok tt.
Proof. unfold VerifyChecksum, Checksum_Verify. simpl. by rewrite N.eqb_refl. Qed.

(** The checkpoint a blob decodes to, if it decodes and verifies. *)
Definition decode_checkpoint (blob : string) : option PodSandboxCheckpoint :=
  match UnmarshalCheckpoint blob empty_checkpoint with
  | Ok cp => match VerifyChecksum cp with Ok _ => Some cp | Err _ => None end
  | Err _ => None
  end.

Lemma decode_marshal cp blob :
  fst (MarshalCheckpoint cp) = Ok blob -> decode_checkpoint blob = Some (with_checksum cp).
Proof.
  intros Hm. unfold decode_checkpoint, UnmarshalCheckpoint.
  rewrite (json_roundtrip _ _ Hm). by rewrite VerifyChecksum_with_checksum.
Qed.

Lemma VerifyChecksum_error cp e :
  VerifyChecksum cp = Err e -> is_sentinel ErrCorruptCheckpoint e = false.
Proof.
  unfold VerifyChecksum, Checksum_Verify. case_match; [done|]. by intros [= <-].
Qed.

(** The result of [GetCheckpoint] from what the store returned. *)
Lemma GetCheckpoint_read {St} `{Store St} key (s : St) blob s' cp :
  Store_Read key s = (Ok blob, s') -> decode_checkpoint blob = Some cp ->
  GetCheckpoint key s = (Ok cp, s').
Proof.
  intros Hr Hd. unfold GetCheckpoint, bind, ret. rewrite Hr. unfold decode_checkpoint in Hd.
  destruct (UnmarshalCheckpoint blob empty_checkpoint) as [cp'|e]; [|done].
  destruct (VerifyChecksum cp'); by simplify_eq.
Qed.

End Checkpoint.

(** The key an operation can change. *)
Definition op_touches (k : string) (o : op) : bool :=
  match o with
  | OWrite k' _ | ODelete k' => bool_decide (k' = k)
  | _ => false
  end.

Lemma exec_ops_other {St} `{StoreContract St} k os (s : St) :
  Forall (fun o => op_touches k o = false) os ->
  contents (snd (exec_ops os s)) k = contents s k.
Proof.
  intros Hos. revert s. induction Hos as [|o os Ho _ IH]; intros s; simpl; [done|].
  assert (contents (snd (exec_op o s)) k = contents s k) as E.
  { destruct o as [k' d|k'|k'|]; simpl in *.
    - destruct (Store_Write k' d s) as [r s'] eqn:Ew. simpl.
      rewrite (write_contents _ _ _ _ _ Ew). apply bool_decide_eq_false in Ho.
      rewrite decide_False; [done|]. naive_solver.
    - destruct (Store_Read k' s) as [r s'] eqn:Ew. simpl. by apply read_contents in Ew as [-> _].
    - destruct (Store_Delete k' s) as [r s'] eqn:Ew. simpl.
      rewrite (delete_contents _ _ _ _ Ew). apply bool_decide_eq_false in Ho.
      rewrite decide_False; [done|]. naive_solver.
    - destruct Store_List as [r s'] eqn:Ew. simpl. by apply list_contents in Ew as [-> _]. }
  destruct (exec_op o s) as [r s1]. simpl in E. specialize (IH s1).
  destruct (exec_ops os s1) as [rs s2]. simpl in *. by rewrite IH.
Qed.

(** ** A concrete codec *)

(** The binary digits of a positive number, least significant first, and
    back. *)
Fixpoint bits (p : positive) : string :=
  match p with
  | xH => EmptyString
  | xO p' => String "0" (bits p')
  | xI p' => String "1" (bits p')
  end.
Fixpoint unbits (s : string) : positive :=
  match s with
  | EmptyString => xH
  | String c s' => if Ascii.eqb c "0" then xO (unbits s') else xI (unbits s')
  end.
Lemma unbits_bits p : unbits (bits p) = p.
Proof. by induction p as [p IH|p IH|]; simpl; rewrite ?IH. Qed.

#[export] Instance PortMappingCp_countable : Countable PortMappingCp.
Proof.
  apply (inj_countable' (fun p => (pmc_Protocol p, pmc_ContainerPort p, pmc_HostPort p, pmc_HostIP p))
           (fun '(a, b, c, d) => mkPortMappingCp a b c d)). by intros [].
Defined.
#[export] Instance CheckpointData_countable : Countable CheckpointData.
Proof.
  apply (inj_countable' (fun d => (cd_PortMappings d, cd_HostNetwork d))
           (fun '(a, b) => mkCheckpointData a b)). by intros [].
Defined.
#[export] Instance PodSandboxCheckpoint_countable : Countable PodSandboxCheckpoint.
Proof.
  apply (inj_countable' (fun p => (cp_Version p, cp_Name p, cp_Namespace p, cp_Data p, cp_Checksum p))
           (fun '(a, b, c, d, e) => mkPodSandboxCheckpoint a b c d e)). by intros [].
Defined.

#[local] Instance bits_spew : Spew := fun d => bits (encode d).
#[local] Program Instance bits_json : CheckpointJSON := {|
  json_Marshal := fun cp => Ok (bits (encode cp));
  json_Unmarshal := fun blob _ =>
    match decode (unbits blob) with Some cp => Ok cp | None => Err (Errorf "invalid character") end;
|}.
Next Obligation. intros cp blob [= <-]. by rewrite unbits_bits, decode_encode. Qed.

(** ** Properties *)

(** C15: A checkpoint read back is the checkpoint written: after a successful
    [CreateCheckpoint] and any operations on other keys, [GetCheckpoint]
    returns the checkpoint with its checksum filled in, verified, or the
    store's own read error; it never reports it as missing or corrupted. *)
Theorem checkpoint_roundtrip `{Spew} `{CheckpointJSON} {St} `{StoreContract St}
  (key : string) (cp : PodSandboxCheckpoint) (os : list op) (s s1 : St) :
  CreateCheckpoint key cp s = (Ok tt, s1) ->
  Forall (fun o => op_touches key o = false) os ->
  let s2 := snd (exec_ops os s1) in
  fst (GetCheckpoint key s2) = Ok (with_checksum cp)
  \/ exists e, fst (Store_Read key s2) = Err e /\ e <> Sentinel ErrKeyNotFound
       /\ fst (GetCheckpoint key s2) = Err e.
Proof.
  intros Hc Hos s2. unfold CreateCheckpoint in Hc.
  destruct (fst (MarshalCheckpoint cp)) as [blob|e] eqn:Em; [|done].
  apply decode_marshal in Em.
  assert (contents s2 key = Some blob) as Hs2.
  { subst s2. rewrite exec_ops_other by done.
    rewrite (write_contents _ _ _ _ _ Hc). by rewrite decide_True. }
  destruct (Store_Read key s2) as [r s3] eqn:Er. pose proof (read_contents _ _ _ _ Er) as [_ Hr].
  destruct r as [blob'|e].
  - left. assert (blob' = blob) as -> by congruence. by erewrite GetCheckpoint_read.
  - right. exists e.
    assert (e <> Sentinel ErrKeyNotFound) as Hne by (intros ->; rewrite Hr in Hs2; done).
    split; [done|]. split; [done|]. unfold GetCheckpoint, bind, ret. rewrite Er. simpl.
    destruct (is_sentinel ErrKeyNotFound e) eqn:Es; [|done].
    apply is_sentinel_eq in Es. done.
Qed.

Definition example_checkpoint : PodSandboxCheckpoint :=
  NewPodSandboxCheckpoint "default" "web-0"
    (mkCheckpointData [mkPortMappingCp "tcp" 80 8080 "10.0.0.1"] false).

Definition example_comps : list string := ["var"; "sandbox"].
Definition example_store : Store memfs := FileStore_Store (abs_path example_comps).
Lemma example_comps_ok : example_comps <> [] /\ Forall plain example_comps.
Proof. split; [done|]. by repeat (constructor; [done|]). Qed.
Definition example_contract : @StoreContract memfs example_store :=
  FileStore_contract example_comps (proj1 example_comps_ok) (proj2 example_comps_ok).
Definition example_created : memfs :=
  snd (@CreateCheckpoint _ _ memfs example_store "c0ffee" example_checkpoint (mkMemfs ∅ [])).

Lemma checkpoint_roundtrip_witness :
  let s2 := snd (@exec_ops memfs example_store [OWrite "beef" "x"; OList] example_created) in
  fst (@GetCheckpoint _ _ memfs example_store "c0ffee" s2) = Ok (with_checksum example_checkpoint)
  \/ exists e, fst (@Store_Read memfs example_store "c0ffee" s2) = Err e
       /\ e <> Sentinel ErrKeyNotFound
       /\ fst (@GetCheckpoint _ _ memfs example_store "c0ffee" s2) = Err e.
Proof.
  assert (@CreateCheckpoint _ _ memfs example_store "c0ffee" example_checkpoint (mkMemfs ∅ [])
          = (Ok tt, example_created)) as Hc by (vm_compute; reflexivity).
  exact (@checkpoint_roundtrip _ _ memfs example_store example_contract "c0ffee"
           example_checkpoint [OWrite "beef" "x"; OList] (mkMemfs ∅ []) example_created
           Hc ltac:(by repeat (constructor; [done|]))).
Defined.
