(* ===== verification/RequestCache.v ===== *)
(** * RequestCache: single-use tokens for streaming requests

    streaming/request_cache.go, the validation and the URL side of
    streaming/server.go, and streaming/errors.go.  The clock and the random
    source are those of an arbitrary world. *)
From stdpp Require Import sorting.
From S2P Require Import Prelude GoErrors Cache.

(** ** Requests *)

Record ExecRequest := mkExecRequest {
  er_ContainerId : string; er_Cmd : list string;
  er_Tty : bool; er_Stdin : bool; er_Stdout : bool; er_Stderr : bool;
}.
Record AttachRequest := mkAttachRequest {
  ar_ContainerId : string;
  ar_Stdin : bool; ar_Tty : bool; ar_Stdout : bool; ar_Stderr : bool;
}.
Record PortForwardRequest := mkPortForwardRequest {
  pf_PodSandboxId : string; pf_Port : list Z;
}.

(** [request]: an exec, attach or port-forward request. *)
Inductive request :=
| ReqExec (r : ExecRequest)
| ReqAttach (r : AttachRequest)
| ReqPortForward (r : PortForwardRequest).

(** ** Errors (streaming/errors.go) *)

Definition NewErrorStreamingDisabled (method : string) : error :=
  StatusError "NotFound" ("streaming method " +:+ method +:+ " disabled").
Definition NewErrorTooManyInFlight : error :=
  StatusError "ResourceExhausted" "maximum number of in-flight requests exceeded".

Definition cacheTTL : Z := Minute.
Definition maxInFlight : nat := 1000.
Definition tokenLen : nat := 8.

(** An HTTP response: status, headers, body. *)
Record response := mkResponse { rs_status : Z; rs_headers : gmap string string; rs_body : string }.

Definition WriteError (err : error) : response :=
  let code := match err with StatusError c _ => c | _ => "Unknown" end in
  if decide (code = "NotFound") then mkResponse 404 ∅ (Error err)
  else if decide (code = "ResourceExhausted")
       then mkResponse 429 {[ "Retry-After" := itoa (cacheTTL / Second) ]} (Error err)
       else mkResponse 500 ∅ (Error err).

(** ** Base64 ([base64.RawURLEncoding]) *)

Definition b64_char (n : N) : ascii :=
  if (n <? 26)%N then Ascii.ascii_of_N (65 + n)
  else if (n <? 52)%N then Ascii.ascii_of_N (97 + (n - 26))
  else if (n <? 62)%N then Ascii.ascii_of_N (48 + (n - 52))
  else if (n =? 62)%N then "-"%char else "_"%char.

(** Three bytes to four characters; a rest of one or two bytes to two or three
    characters, without padding. *)
Fixpoint b64_encode (bs : list N) : string :=
  match bs with
  | a :: b :: c :: bs' =>
      String (b64_char (a / 4))
      (String (b64_char ((a mod 4) * 16 + b / 16))
      (String (b64_char ((b mod 16) * 4 + c / 64))
      (String (b64_char (c mod 64)) (b64_encode bs'))))
  | [a; b] =>
      String (b64_char (a / 4))
      (String (b64_char ((a mod 4) * 16 + b / 16))
      (String (b64_char ((b mod 16) * 4)) EmptyString))
  | [a] => String (b64_char (a / 4)) (String (b64_char ((a mod 4) * 16)) EmptyString)
  | [] => EmptyString
  end.

(** ** The world: a clock that does not go back and a random source *)

(** [rand.Read] into a slice of the given length. *)
Class Rand (W : Type) := RandRead : nat -> M W (res (list N)).

(** What the cache relies on: readings of the clock never decrease, and a
    successful [rand.Read] fills the slice. *)
Class TimeLaws (W : Type) `{Clock W} `{Rand W} := {
  time : W -> Z;
  Now_time : forall w, (time w <= fst (Now w) <= time (snd (Now w)))%Z;
  Rand_time : forall n w, (time w <= time (snd (RandRead n w)))%Z;
  Rand_len : forall n w bs, fst (RandRead n w) = Ok bs -> length bs = n;
}.

(** ** The cache *)

Record cacheEntry := mkCacheEntry { ce_token : string; ce_req : request; ce_expireTime : Z }.

(** A [*list.Element] is identified by a number; [rc_ll] is the list from its
    front (newest) to its back (oldest). *)
Record requestCache := mkRequestCache {
  rc_tokens : gmap string nat;
  rc_ll : list (nat * cacheEntry);
  rc_next : nat;
}.

Definition newRequestCache : requestCache := mkRequestCache ∅ [] 0.

(** The loop of [gc] over the list from its back. *)
Fixpoint gc_loop (now : Z) (back : list (nat * cacheEntry)) (tokens : gmap string nat)
  : list (nat * cacheEntry) * gmap string nat :=
  match back with
  | [] => ([], tokens)
  | (i, e) :: back' =>
      if (ce_expireTime e <? now)%Z then gc_loop now back' (delete (ce_token e) tokens)
      else (back, tokens)
  end.

Section RequestCache.
Context {W : Type} `{Clock W} `{Rand W}.

Definition gc : M (requestCache * W) unit := fun '(c, w) =>
  let '(now, w1) := Now w in
  let '(back, tokens) := gc_loop now (reverse (rc_ll c)) (rc_tokens c) in
  (tt, (mkRequestCache tokens (reverse back) (rc_next c), w1)).

(** The number of bytes for [tokenLen] characters: ceil(8 * 6 / 8). *)
Definition tokenSize : nat := ((tokenLen * 6 + 7) / 8)%nat.

(** [uniqueToken]: at most [tries] attempts. *)
Fixpoint uniqueToken_loop (tries : nat) (tokens : gmap string nat) : M W (res string) := fun w =>
  match tries with
  | O => (Err (Errorf "failed to generate unique token"), w)
  | S tries' =>
      let '(r, w1) := RandRead tokenSize w in
      match r with
      | Err err => (Err err, w1)
      | Ok rawToken =>
          let encoded := b64_encode rawToken in
          let token := stake tokenLen encoded in
          match tokens !! encoded with
          | None => (Ok token, w1)
          | Some _ => uniqueToken_loop tries' tokens w1
          end
      end
  end.
Definition maxTries : nat := 10.
Definition uniqueToken (tokens : gmap string nat) : M W (res string) :=
  uniqueToken_loop maxTries tokens.

Definition Insert (req : request) : M (requestCache * W) (res string) := fun cw =>
  let '(_, (c, w)) := gc cw in
  if Nat.eqb (length (rc_ll c)) maxInFlight then (Err NewErrorTooManyInFlight, (c, w))
  else
    let '(r, w1) := uniqueToken (rc_tokens c) w in
    match r with
    | Err err => (Err err, (c, w1))
    | Ok token =>
        let '(now, w2) := Now w1 in
        let ele := rc_next c in
        let entry := mkCacheEntry token req (now + cacheTTL) in
        (Ok token, (mkRequestCache (<[token := ele]> (rc_tokens c)) ((ele, entry) :: rc_ll c) (S ele), w2))
    end.

Definition remove_element (i : nat) (ll : list (nat * cacheEntry)) : list (nat * cacheEntry) :=
  filter (fun x => x.1 <> i) ll.

(** [Consume]: the element's value stays reachable after it was unlinked. *)
Definition Consume (token : string) : M (requestCache * W) (option request) := fun '(c, w) =>
  match rc_tokens c !! token with
  | None => (None, (c, w))
  | Some ele =>
      let c' := mkRequestCache (delete token (rc_tokens c)) (remove_element ele (rc_ll c)) (rc_next c) in
      match list_find (fun x => x.1 = ele) (rc_ll c) with
      | None => (None, (c', w))
      | Some (_, (_, entry)) =>
          let '(now, w1) := Now w in
          if (ce_expireTime entry <? now)%Z then (None, (c', w1))
          else (Some (ce_req entry), (c', w1))
      end
  end.

(** ** The server's front end (streaming/server.go) *)

Definition validateExecRequest (req : ExecRequest) : res unit :=
  if decide (er_ContainerId req = "") then
    Err (StatusError "InvalidArgument" "missing required container_id")
  else if er_Tty req && er_Stderr req then
    Err (StatusError "InvalidArgument" "tty and stderr cannot both be true")
  else if negb (er_Stdin req) && negb (er_Stdout req) && negb (er_Stderr req) then
    Err (StatusError "InvalidArgument" "one of stdin, stdout, or stderr must be set")
  else Ok tt.

Definition validateAttachRequest (req : AttachRequest) : res unit :=
  if decide (ar_ContainerId req = "") then
    Err (StatusError "InvalidArgument" "missing required container_id")
  else if ar_Tty req && ar_Stderr req then
    Err (StatusError "InvalidArgument" "tty and stderr cannot both be true")
  else if negb (ar_Stdin req) && negb (ar_Stdout req) && negb (ar_Stderr req) then
    Err (StatusError "InvalidArgument" "one of stdin, stdout, and stderr must be set")
  else Ok tt.

(** [buildURL]: the resolution of a relative reference by [net/url] is a
    parameter of the server. *)
Variable buildURL : string -> string -> string.

Definition GetExec (req : ExecRequest) : M (requestCache * W) (res string) :=
  match validateExecRequest req with
  | Err err => ret (Err err)
  | Ok _ => let? token := Insert (ReqExec req) in ret (Ok (buildURL "exec" token))
  end.

Definition GetAttach (req : AttachRequest) : M (requestCache * W) (res string) :=
  match validateAttachRequest req with
  | Err err => ret (Err err)
  | Ok _ => let? token := Insert (ReqAttach req) in ret (Ok (buildURL "attach" token))
  end.

Definition GetPortForward (req : PortForwardRequest) : M (requestCache * W) (res string) :=
  if decide (pf_PodSandboxId req = "") then
    ret (Err (StatusError "InvalidArgument" "missing required pod_sandbox_id"))
  else let? token := Insert (ReqPortForward req) in ret (Ok (buildURL "portforward" token)).

(** The three handlers up to the call that serves the stream: the cached
    request of the handler's own kind, or 404. *)
Inductive served (A : Type) := ServeStream (a : A) | ServeNotFound | ServeBadRequest (e : error).
Arguments ServeStream {A}.
Arguments ServeNotFound {A}.
Arguments ServeBadRequest {A}.

Definition serveExec (token : string) : M (requestCache * W) (served ExecRequest) :=
  let* r := Consume token in
  ret (match r with Some (ReqExec e) => ServeStream e | _ => ServeNotFound end).
Definition serveAttach (token : string) : M (requestCache * W) (served AttachRequest) :=
  let* r := Consume token in
  ret (match r with Some (ReqAttach a) => ServeStream a | _ => ServeNotFound end).

(** The validation of the ports by the kubelet's portforward package. *)
Variable BuildV4Options : list Z -> res unit.

Definition servePortForward (token : string) : M (requestCache * W) (served PortForwardRequest) :=
  let* r := Consume token in
  ret (match r with
       | Some (ReqPortForward p) =>
           match BuildV4Options (pf_Port p) with
           | Ok _ => ServeStream p
           | Err err => ServeBadRequest err
           end
       | _ => ServeNotFound
       end).

End RequestCache.
Arguments ServeStream {A}.
Arguments ServeNotFound {A}.
Arguments ServeBadRequest {A}.

(** ** Theory *)

(** Token map and list describe the same requests, at most [maxInFlight]. *)
Record wf (c : requestCache) : Prop := {
  wf_ids : NoDup (fst <$> rc_ll c);
  wf_next : forall x, x ∈ rc_ll c -> (x.1 < rc_next c)%nat;
  wf_tokens : forall t i, rc_tokens c !! t = Some i <->
                exists e, (i, e) ∈ rc_ll c /\ ce_token e = t;
  wf_bound : (length (rc_ll c) <= maxInFlight)%nat;
}.

(** The list is ordered by age, which is what [gc] relies on. *)
Definition newer (x y : nat * cacheEntry) : Prop :=
  (ce_expireTime y.2 <= ce_expireTime x.2)%Z.
Definition aged (now : Z) (ll : list (nat * cacheEntry)) : Prop :=
  StronglySorted newer ll /\ forall x, x ∈ ll -> (ce_expireTime x.2 <= now + cacheTTL)%Z.

Lemma NoDup_fst_eq {A} (l : list (nat * A)) i (a b : A) :
  NoDup (fst <$> l) -> (i, a) ∈ l -> (i, b) ∈ l -> a = b.
Proof.
  induction l as [|[j x] l IH]; csimpl; intros Hnd Ha Hb; [set_solver|].
  apply NoDup_cons in Hnd as [Hj Hnd].
  apply elem_of_cons in Ha as [Ha|Ha], Hb as [Hb|Hb]; simplify_eq; try done.
  - destruct Hj. apply list_elem_of_fmap. by exists (j, b).
  - destruct Hj. apply list_elem_of_fmap. by exists (j, a).
  - auto.
Qed.

Lemma wf_same_token c i j e e' :
  wf c -> (i, e) ∈ rc_ll c -> (j, e') ∈ rc_ll c -> ce_token e = ce_token e' -> (i, e) = (j, e').
Proof.
  intros Hwf Hi Hj Ht.
  assert (rc_tokens c !! ce_token e = Some i) as H1 by (apply (wf_tokens _ Hwf); eauto).
  assert (rc_tokens c !! ce_token e' = Some j) as H2 by (apply (wf_tokens _ Hwf); eauto).
  rewrite Ht in H1. simplify_eq. f_equal. eapply NoDup_fst_eq; eauto. apply Hwf.
Qed.

Lemma StronglySorted_sublist {A} (R : relation A) l l' :
  sublist l' l -> StronglySorted R l -> StronglySorted R l'.
Proof.
  induction 1 as [|x l1 l2 Hs IH|x l1 l2 Hs IH]; intros Hl; [done|..];
    apply StronglySorted_inv in Hl as [Hl Hx]; [|auto].
  constructor; [auto|]. rewrite Forall_forall in Hx |- *. intros y Hy. apply Hx.
  by eapply elem_of_sublist.
Qed.

Lemma wf_remove c (ts : list string) tokens' ll' :
  wf c -> sublist ll' (rc_ll c) ->
  (forall x, x ∈ rc_ll c -> x ∈ ll' <-> ce_token x.2 ∉ ts) ->
  (forall t, tokens' !! t = if decide (t ∈ ts) then None else rc_tokens c !! t) ->
  wf (mkRequestCache tokens' ll' (rc_next c)).
Proof.
  intros Hwf Hs Hm Ht.
  assert (forall x, x ∈ ll' -> x ∈ rc_ll c) as Hsub by (intros x ?; by eapply elem_of_sublist).
  constructor; simpl.
  - eapply sublist_NoDup; [apply Hwf|]. by apply fmap_sublist.
  - intros x Hx. apply Hwf. auto.
  - intros t i. rewrite Ht. case_decide as Hin.
    + split; [done|]. intros (e & He & <-). apply Hm in He; [done|]. auto.
    + rewrite (wf_tokens _ Hwf). split; intros (e & He & <-); exists e; split; auto.
      by apply (Hm (i, e)).
  - etransitivity; [by apply sublist_length|apply Hwf].
Qed.

(** [gc_loop] removes a suffix of the list, all of it expired, and exactly the
    tokens of that suffix. *)
Lemma gc_loop_spec now back tokens back' tokens' :
  gc_loop now back tokens = (back', tokens') ->
  exists gone, back = gone ++ back'
    /\ Forall (fun x => ce_expireTime x.2 < now)%Z gone
    /\ (forall t, tokens' !! t = if decide (t ∈ (fun x => ce_token x.2) <$> gone) then None
                                  else tokens !! t)
    /\ (forall x, head back' = Some x -> (now <= ce_expireTime x.2)%Z).
Proof.
  revert tokens. induction back as [|[i e] back IH]; intros tokens; simpl.
  - intros [= <- <-]. exists []. split_and!; [done|constructor| |done].
    intros t. by rewrite decide_False by set_solver.
  - destruct (Z.ltb_spec (ce_expireTime e) now) as [Hlt|Hge].
    + intros (gone & -> & Hg & Ht & Hh)%IH. exists ((i, e) :: gone).
      split_and!; [done|by constructor| |done].
      intros t. rewrite Ht, lookup_delete. csimpl.
      repeat case_decide; try done; set_solver.
    + intros [= <- <-]. exists []. split_and!; [done|constructor| |by intros x [= <-]].
      intros t. by rewrite decide_False by set_solver.
Qed.

Section Theory.
Context {W : Type} `{TimeLaws W}.

Lemma gc_spec c w c' w' :
  gc (c, w) = (tt, (c', w')) -> wf c ->
  wf c' /\ sublist (rc_ll c') (rc_ll c) /\ (time w <= time w')%Z /\ rc_next c' = rc_next c
  /\ (forall x, x ∈ rc_ll c -> (time w' <= ce_expireTime x.2)%Z -> x ∈ rc_ll c').
Proof.
  unfold gc. pose proof (Now_time w) as Hn. destruct (Now w) as [now w1]. simpl in Hn.
  destruct (gc_loop now (reverse (rc_ll c)) (rc_tokens c)) as [back tokens] eqn:Eg.
  intros [= <- <-] Hwf.
  apply gc_loop_spec in Eg as (gone & Hb & Hg & Ht & Hh).
  assert (rc_ll c = reverse back ++ reverse gone) as Hll.
  { rewrite <- (reverse_involutive (rc_ll c)), Hb. apply reverse_app. }
  assert (sublist (reverse back) (rc_ll c)) as Hs by (rewrite Hll; apply sublist_inserts_r; done).
  assert (forall x, x ∈ rc_ll c -> x ∈ reverse back <-> ce_token x.2 ∉ (fun x => ce_token x.2) <$> gone) as Hm.
  { intros [i e] Hx. split.
    - intros Hin ([j e'] & Heq & Hgone)%list_elem_of_fmap. simpl in *.
      assert ((j, e') ∈ reverse gone) as Hgr by (by apply elem_of_reverse).
      assert ((j, e') ∈ rc_ll c) as Hj by (rewrite Hll; set_solver).
      pose proof (wf_same_token _ _ _ _ _ Hwf Hx Hj Heq) as [= <- <-].
      pose proof (wf_ids _ Hwf) as Hnd. rewrite Hll, fmap_app in Hnd.
      apply NoDup_app in Hnd as (_ & Hnd & _). apply (Hnd i).
      + apply list_elem_of_fmap. by exists (i, e).
      + apply list_elem_of_fmap. by exists (i, e).
    - intros Hnin. rewrite Hll in Hx. apply elem_of_app in Hx as [Hx|Hx]; [done|].
      destruct Hnin. apply list_elem_of_fmap. exists (i, e). split; [done|].
      by rewrite elem_of_reverse in Hx. }
  split; [by eapply wf_remove|]. split; [done|]. split; [lia|]. split; [done|].
  intros x Hx He. simpl. rewrite Hll in Hx. apply elem_of_app in Hx as [Hx|Hx]; [done|].
  rewrite Forall_forall in Hg. rewrite elem_of_reverse in Hx. apply Hg in Hx. lia.
Qed.

Lemma stake_all p : stake (String.length p) p = p.
Proof. induction p as [|c p IH]; simpl; [done|]. by rewrite IH. Qed.

Lemma b64_token_length bs :
  length bs = tokenSize -> String.length (b64_encode bs) = tokenLen.
Proof. do 7 (destruct bs as [|? bs]; try done). Qed.

Lemma uniqueToken_loop_spec tries tokens w r w' :
  uniqueToken_loop tries tokens w = (r, w') ->
  (time w <= time w')%Z
  /\ match r with
     | Ok t => tokens !! t = None /\ String.length t = tokenLen
     | Err _ => True
     end.
Proof.
  revert w. induction tries as [|tries IH]; intros w; cbn [uniqueToken_loop].
  - intros [= <- <-]. by split.
  - pose proof (Rand_time tokenSize w) as Ht. pose proof (Rand_len tokenSize w) as Hl.
    destruct (RandRead tokenSize w) as [[bs|e] w1]; simpl in Ht; [|by intros [= <- <-]].
    specialize (Hl bs eq_refl). apply b64_token_length in Hl.
    destruct (tokens !! b64_encode bs) eqn:E.
    + intros [Hm Hr]%IH. split; [lia|done].
    + rewrite <- Hl, stake_all, Hl. intros [= <- <-]. by split.
Qed.

(** The invariant of the cache in a world. *)
Definition inv (c : requestCache) (w : W) : Prop := wf c /\ aged (time w) (rc_ll c).

Lemma aged_weaken t t' ll ll' :
  (t <= t')%Z -> sublist ll' ll -> aged t ll -> aged t' ll'.
Proof.
  intros Ht Hs [Hso Hmax]. split; [by eapply StronglySorted_sublist|].
  intros x Hx. pose proof (elem_of_sublist _ _ _ Hx Hs) as Hx'. apply Hmax in Hx'. lia.
Qed.

Lemma Insert_spec req c w r c' w' :
  Insert req (c, w) = (r, (c', w')) -> inv c w ->
  inv c' w' /\ (time w <= time w')%Z
  /\ (forall x, x ∈ rc_ll c -> (time w' <= ce_expireTime x.2)%Z -> x ∈ rc_ll c')
  /\ match r with
     | Ok t => exists i e, (i, e) ∈ rc_ll c' /\ ce_token e = t /\ ce_req e = req
                 /\ (time w + cacheTTL <= ce_expireTime e <= time w' + cacheTTL)%Z
                 /\ String.length t = tokenLen
                 /\ (forall x, x ∈ rc_ll c' -> x.2 <> e -> x ∈ rc_ll c /\ ce_token x.2 <> t)
     | Err _ => sublist (rc_ll c') (rc_ll c)
     end.
Proof.
  unfold Insert. destruct (gc (c, w)) as [[] [c1 w1]] eqn:Eg. intros HI [Hwf Hag].
  apply gc_spec in Eg as (Hwf1 & Hs1 & Ht1 & Hn1 & Hk1); [|done].
  pose proof (aged_weaken _ _ _ _ Ht1 Hs1 Hag) as Hag1.
  destruct (Nat.eqb_spec (length (rc_ll c1)) maxInFlight) as [Hfull|Hroom].
  { injection HI as <- <- <-. by split_and!. }
  destruct (uniqueToken (rc_tokens c1) w1) as [rt w2] eqn:Eu.
  apply uniqueToken_loop_spec in Eu as [Ht2 Hu]. destruct rt as [t|e].
  2: { injection HI as <- <- <-. split; [|split_and!; [lia|intros; apply Hk1; auto; lia|done]].
       split; [done|]. eapply aged_weaken; [exact Ht2|reflexivity|exact Hag1]. }
  destruct Hu as [Hfresh Hlen]. pose proof (Now_time w2) as Hn.
  destruct (Now w2) as [now w3]. simpl in Hn. injection HI as <- <- <-.
  assert (forall x, x ∈ rc_ll c1 -> ce_token x.2 <> t) as Hne.
  { intros [j e] Hx He. assert (rc_tokens c1 !! t = Some j); [|congruence].
    apply (wf_tokens _ Hwf1). eauto. }
  split_and!; [|lia|intros; simpl; apply elem_of_cons; right; apply Hk1; auto; lia|].
  - split.
    + constructor; simpl.
      * apply NoDup_cons. split; [|apply Hwf1]. intros ([j e] & Hj & Hin)%list_elem_of_fmap.
        apply (wf_next _ Hwf1) in Hin. simpl in *. lia.
      * intros x [->|Hx]%elem_of_cons; simpl; [lia|]. apply (wf_next _ Hwf1) in Hx. lia.
      * intros t' i. rewrite lookup_insert. case_decide as Hd.
        -- subst. split.
           ++ intros [= <-]. eexists. split; [by left|done].
           ++ intros (e & [Heq|Hin]%elem_of_cons & Htok); [by simplify_eq|].
              by destruct (Hne _ Hin).
        -- rewrite (wf_tokens _ Hwf1). split; intros (e & He & Htok); exists e; split; try done.
           ++ by right.
           ++ apply elem_of_cons in He as [He|He]; [by simplify_eq/=|done].
      * pose proof (wf_bound _ Hwf1). lia.
    + destruct Hag1 as [Hso Hmax]. split; simpl.
      * constructor; [done|]. apply Forall_forall. intros x Hx. unfold newer; simpl.
        apply Hmax in Hx. lia.
      * intros x [->|Hx]%elem_of_cons; simpl; [lia|]. apply Hmax in Hx. lia.
  - exists (rc_next c1). eexists. split; [by left|]. simpl. split_and!; try done; try lia.
    intros x [->|Hx]%elem_of_cons Hxe; [done|]. split; [|by apply Hne].
    by eapply elem_of_sublist.
Qed.

Lemma remove_element_elem i ll x : x ∈ remove_element i ll <-> x ∈ ll /\ x.1 <> i.
Proof. unfold remove_element. rewrite list_elem_of_filter. tauto. Qed.

Lemma list_find_element c i e :
  wf c -> (i, e) ∈ rc_ll c -> exists n, list_find (fun x => x.1 = i) (rc_ll c) = Some (n, (i, e)).
Proof.
  intros Hwf Hin. destruct (list_find_elem_of (fun x => x.1 = i) (rc_ll c) (i, e)) as [[n [j e']] Hf];
    [done|done|]. exists n. rewrite Hf. apply list_find_Some in Hf as (Hn & Hj & _). simpl in Hj.
  subst. apply list_elem_of_lookup_2 in Hn. do 2 f_equal.
  f_equal. by eapply NoDup_fst_eq; [apply Hwf|..].
Qed.

(** [Consume] of a token in the cache: the entry leaves the cache, its request
    is returned unless it expired. *)
Lemma Consume_hit t i e c w :
  inv c w -> (i, e) ∈ rc_ll c -> ce_token e = t ->
  exists c', Consume t (c, w)
      = (if (ce_expireTime e <? fst (Now w))%Z then None else Some (ce_req e), (c', snd (Now w)))
    /\ inv c' (snd (Now w)) /\ rc_tokens c' !! t = None
    /\ (forall x, x ∈ rc_ll c' <-> x ∈ rc_ll c /\ ce_token x.2 <> t).
Proof.
  intros [Hwf Hag] Hin Ht. unfold Consume.
  assert (rc_tokens c !! t = Some i) as -> by (apply (wf_tokens _ Hwf); eauto).
  destruct (list_find_element c i e Hwf Hin) as [n ->].
  pose proof (Now_time w) as Hn. destruct (Now w) as [now w1]. simpl in *.
  assert (forall x, x ∈ rc_ll c -> x ∈ remove_element i (rc_ll c) <-> ce_token x.2 ∉ [t]) as Hm.
  { intros [j e'] Hx. rewrite remove_element_elem, list_elem_of_singleton. simpl. split.
    - intros [_ Hji] Htok. pose proof (wf_same_token _ _ _ _ _ Hwf Hx Hin ltac:(congruence)). congruence.
    - intros Htok. split; [done|]. intros ->.
      assert (e' = e) by (eapply NoDup_fst_eq; [apply Hwf|done|done]). congruence. }
  eexists. split; [by destruct (ce_expireTime e <? now)%Z|]. split_and!.
  - split.
    + apply (wf_remove c [t]); [done|apply sublist_filter|done|].
      intros t'. rewrite lookup_delete. by repeat case_decide; try set_solver.
    + eapply aged_weaken; [|apply sublist_filter|done]. simpl. lia.
  - simpl. by rewrite lookup_delete_eq.
  - intros x. simpl. split.
    + intros Hx. assert (x ∈ rc_ll c) as Hx' by (by apply remove_element_elem in Hx as [? _]).
      split; [done|]. apply Hm in Hx; [|done]. set_solver.
    + intros [Hx Htok]. apply Hm; [done|set_solver].
Qed.

Lemma Consume_miss t c w :
  (forall x, x ∈ rc_ll c -> ce_token x.2 <> t) -> wf c ->
  Consume t (c, w) = (None, (c, w)).
Proof.
  intros Hno Hwf. unfold Consume. destruct (rc_tokens c !! t) as [i|] eqn:E; [|done].
  apply (wf_tokens _ Hwf) in E as (e & He & Ht). by destruct (Hno _ He).
Qed.

(** A token of the cache, or none: the two cases of [Consume]. *)
Lemma token_cases c t : wf c ->
  (exists i e, (i, e) ∈ rc_ll c /\ ce_token e = t) \/ (forall x, x ∈ rc_ll c -> ce_token x.2 <> t).
Proof.
  intros Hwf. destruct (rc_tokens c !! t) as [i|] eqn:E.
  - left. apply (wf_tokens _ Hwf) in E as (e & He). eauto.
  - right. intros [i e] Hx Ht. assert (rc_tokens c !! t = Some i); [|congruence].
    apply (wf_tokens _ Hwf). eauto.
Qed.

(** ** Sequences of operations *)

(** The operations of the cache, and time passing in the world (to [w'], when
    it is not earlier). *)
Inductive rc_op := RInsert (req : request) | RConsume (t : string) | RPass (w' : W).

Definition rc_step (o : rc_op) (cw : requestCache * W) : requestCache * W :=
  match o with
  | RInsert req => snd (Insert req cw)
  | RConsume t => snd (Consume t cw)
  | RPass w' => if (time (snd cw) <=? time w')%Z then (fst cw, w') else cw
  end.
Definition rc_run (os : list rc_op) (cw : requestCache * W) : requestCache * W :=
  foldl (fun s o => rc_step o s) cw os.

(** One operation keeps the invariant, does not turn back the clock, and keeps
    every entry that is neither consumed by it nor expired after it. *)
Lemma rc_step_spec o c w c' w' :
  rc_step o (c, w) = (c', w') -> inv c w ->
  inv c' w' /\ (time w <= time w')%Z
  /\ forall x, x ∈ rc_ll c -> (time w' <= ce_expireTime x.2)%Z ->
       (forall t, o = RConsume t -> ce_token x.2 <> t) -> x ∈ rc_ll c'.
Proof.
  destruct o as [req|t|w0]; cbn [rc_step].
  - destruct (Insert req (c, w)) as [r [c1 w1]] eqn:E. simpl. intros [= -> ->] Hinv.
    apply Insert_spec in E as (Hi & Ht & Hk & _); [|done]. split_and!; auto.
  - intros E Hinv. destruct (token_cases c t) as [(i & e & Hin & Htok)|Hno]; [apply Hinv|..].
    + destruct (Consume_hit t i e c w Hinv Hin Htok) as (c1 & Ec & Hi & _ & Hk).
      rewrite Ec in E. simpl in E. injection E as <- <-. split_and!; [done| |].
      * pose proof (Now_time w). lia.
      * intros x Hx _ Hc. apply Hk. split; [done|]. by apply Hc.
    + rewrite Consume_miss in E by (done || apply Hinv). simpl in E. injection E as <- <-.
      by split_and!.
  - simpl. destruct (Z.leb_spec (time w) (time w0)); intros [= <- <-] Hinv; [|by split_and!].
    split_and!; [|done|done]. destruct Hinv as [Hwf Hag]. split; [done|].
    eapply aged_weaken; [eassumption|reflexivity|exact Hag].
Qed.

(** Without an insertion no entry appears. *)
Lemma rc_step_sub o c w c' w' x :
  rc_step o (c, w) = (c', w') -> inv c w -> (forall req, o <> RInsert req) ->
  x ∈ rc_ll c' -> x ∈ rc_ll c.
Proof.
  destruct o as [req|t|w0]; cbn [rc_step]; intros E Hinv Hne Hx; [by destruct (Hne req)|..].
  - destruct (token_cases c t) as [(j & e' & Hj & Ht)|Hno]; [apply Hinv|..].
    + destruct (Consume_hit t j e' c w Hinv Hj Ht) as (c1 & Ec & _ & _ & Hk).
      rewrite Ec in E. simpl in E. injection E as <- <-. by apply Hk in Hx as [? _].
    + rewrite Consume_miss in E by (done || apply Hinv). simpl in E. by injection E as <- <-.
  - simpl in E. destruct (time w <=? time w0)%Z; by simplify_eq/=.
Qed.

Lemma rc_run_spec os c w c' w' :
  rc_run os (c, w) = (c', w') -> inv c w ->
  inv c' w' /\ (time w <= time w')%Z
  /\ forall x, x ∈ rc_ll c -> (time w' <= ce_expireTime x.2)%Z ->
       RConsume (ce_token x.2) ∉ os -> x ∈ rc_ll c'.
Proof.
  revert c w. induction os as [|o os IH]; intros c w.
  - intros [= <- <-] Hinv. by split_and!.
  - change (rc_run (o :: os) (c, w)) with (rc_run os (rc_step o (c, w))).
    destruct (rc_step o (c, w)) as [c1 w1] eqn:E. intros Hr Hinv.
    apply rc_step_spec in E as (Hi1 & Ht1 & Hk1); [|done].
    destruct (IH c1 w1 Hr Hi1) as (Hi2 & Ht2 & Hk2). split_and!; [done|lia|].
    intros x Hx He Hnot. apply Hk2; [|done|set_solver]. apply Hk1; [done|lia|].
    intros t -> <-. set_solver.
Qed.

End Theory.
Arguments RInsert {W}.
Arguments RConsume {W}.
Arguments RPass {W}.

Lemma inv_new {W} `{TimeLaws W} (w : W) : inv newRequestCache w.
Proof.
  split.
  - constructor; simpl; [constructor|set_solver| |unfold maxInFlight; lia].
    intros t i. rewrite lookup_empty. split; [done|]. intros (e & He & _). set_solver.
  - split; [constructor|set_solver].
Qed.

(** ** A concrete world *)

Record demo_world := mkDemo { dw_time : Z; dw_rand : list (list N) }.
#[export] Instance demo_clock : Clock demo_world :=
  fun w => (dw_time w, mkDemo (dw_time w + Second) (dw_rand w)).
#[export] Instance demo_rand : Rand demo_world := fun n w =>
  match dw_rand w with
  | bs :: rest => if Nat.eqb (length bs) n then (Ok bs, mkDemo (dw_time w) rest)
                  else (Err (Sentinel EOF), mkDemo (dw_time w) rest)
  | [] => (Err (Sentinel EOF), w)
  end.
#[export] Program Instance demo_laws : TimeLaws demo_world := {| time := dw_time |}.
Next Obligation. intros w. simpl. unfold Second. lia. Qed.
Next Obligation. intros n w. unfold RandRead, demo_rand. repeat case_match; simpl; lia. Qed.
Next Obligation.
  intros n w bs. unfold RandRead, demo_rand. destruct (dw_rand w) as [|bs' l]; [done|].
  destruct (Nat.eqb_spec (length bs') n); by intros [= <-].
Qed.

(** ** Properties *)

(** C22: Every reachable state of the request cache is consistent: the token map
    and the age-ordered list describe the same requests, tokens are distinct,
    the list is sorted newest first, and no more than 1000 requests are in
    flight, for every sequence of inserts and consumes. *)
Theorem request_cache_invariant {W} `{TimeLaws W} (os : list (rc_op (W := W))) (w : W) :
  let '(c, w') := rc_run os (newRequestCache, w) in
  (forall t i, rc_tokens c !! t = Some i <-> exists e, (i, e) ∈ rc_ll c /\ ce_token e = t)
  /\ NoDup ((fun x => ce_token x.2) <$> rc_ll c)
  /\ StronglySorted newer (rc_ll c)
  /\ (length (rc_ll c) <= maxInFlight)%nat.
Proof.
  destruct (rc_run os (newRequestCache, w)) as [c w'] eqn:E.
  apply rc_run_spec in E as ([Hwf [Hso _]] & _ & _); [|apply inv_new].
  split_and!; [apply Hwf| |done|apply Hwf].
  apply NoDup_fmap_2_strong; [|eapply NoDup_fmap_1, Hwf].
  intros [i e] [j e'] Hx Hy Ht. by eapply wf_same_token.
Qed.

(** A token is redeemed exactly once: the request stored by a successful
    [Insert] is returned by [Consume] of its token within a minute, whatever
    other requests are inserted and whatever other tokens are consumed in
    between, and from then on the token is unknown. *)
Theorem token_redeemed_once {W} `{TimeLaws W} (req : request) (t : string) (os : list (rc_op (W := W)))
  (c c1 c2 : requestCache) (w w1 w2 : W) :
  inv c w ->
  Insert req (c, w) = (Ok t, (c1, w1)) ->
  rc_run os (c1, w1) = (c2, w2) -> RConsume t ∉ os ->
  (fst (Now w2) <= time w + cacheTTL)%Z ->
  exists c3, Consume t (c2, w2) = (Some req, (c3, snd (Now w2)))
    /\ Consume t (c3, snd (Now w2)) = (None, (c3, snd (Now w2)))
    /\ String.length t = tokenLen.
Proof.
  intros Hinv Hi Hr Hos Hnow.
  apply Insert_spec in Hi as (Hinv1 & Ht1 & _ & i & e & Hin & Htok & Hreq & Hexp & Hlen & _); [|done].
  apply rc_run_spec in Hr as (Hinv2 & Ht2 & Hk2); [|done].
  pose proof (Now_time w2) as Hn.
  assert ((i, e) ∈ rc_ll c2) as Hin2 by (apply Hk2; [done|simpl; lia|by simpl; rewrite Htok]).
  destruct (Consume_hit t i e c2 w2 Hinv2 Hin2 Htok) as (c3 & Hc & Hinv3 & Hnone & _).
  exists c3. split_and!; [| |done].
  - rewrite Hc. destruct (Z.ltb_spec (ce_expireTime e) (fst (Now w2))); [lia|by rewrite Hreq].
  - unfold Consume. by rewrite Hnone.
Qed.

(** An expired token buys nothing: once the clock is past the minute after
    the insertion, [Consume] reports the token as unknown. *)
Theorem token_expires {W} `{TimeLaws W} (req : request) (t : string) (os : list (rc_op (W := W)))
  (c c1 c2 : requestCache) (w w1 w2 : W) :
  inv c w ->
  Insert req (c, w) = (Ok t, (c1, w1)) ->
  rc_run os (c1, w1) = (c2, w2) ->
  Forall (fun o => forall req', o <> RInsert req') os ->
  (time w1 + cacheTTL < fst (Now w2))%Z ->
  fst (Consume t (c2, w2)) = None.
Proof.
  intros Hinv Hi Hr Hos Hnow.
  apply Insert_spec in Hi as (Hinv1 & Ht1 & _ & i & e & Hin & Htok & Hreq & Hexp & _); [|done].
  assert (forall x, x ∈ rc_ll c2 -> x ∈ rc_ll c1) as Hsub.
  { clear -Hos Hr Hinv1. revert c1 w1 Hinv1 Hr.
    induction Hos as [|o os Ho _ IH]; intros c1 w1 Hinv1 Hr x; [by injection Hr as <- <-|].
    change (rc_run (o :: os) (c1, w1)) with (rc_run os (rc_step o (c1, w1))) in Hr.
    destruct (rc_step o (c1, w1)) as [c' w'] eqn:Es. intros Hx.
    pose proof (rc_step_spec _ _ _ _ _ Es Hinv1) as (Hinv' & _).
    pose proof (IH c' w' Hinv' Hr x Hx) as Hx'. by eapply rc_step_sub. }
  apply rc_run_spec in Hr as (Hinv2 & _); [|done].
  destruct (token_cases c2 t) as [(j & e' & Hj & Ht)|Hno]; [apply Hinv2|..].
  - pose proof (wf_same_token _ _ _ _ _ (proj1 Hinv1) (Hsub _ Hj) Hin ltac:(congruence)) as [= -> ->].
    destruct (Consume_hit t i e c2 w2 Hinv2 Hj Ht) as (c3 & -> & _). simpl.
    destruct (Z.ltb_spec (ce_expireTime e) (fst (Now w2))); [done|lia].
  - by rewrite Consume_miss by (done || apply Hinv2).
Qed.

Definition demo_req : request :=
  ReqExec (mkExecRequest "c0ffee" ["ls"] false false true true).
Definition demo_start : demo_world := mkDemo 0 [[1; 2; 3; 4; 5; 6]%N; [7; 7; 7; 7; 7; 7]%N].
Definition demo_c1 : requestCache := fst (snd (Insert demo_req (newRequestCache, demo_start))).
Definition demo_w1 : demo_world := snd (snd (Insert demo_req (newRequestCache, demo_start))).

Lemma token_redeemed_once_witness :
  let '(c2, w2) := rc_run [RInsert demo_req; RConsume "other"] (demo_c1, demo_w1) in
  exists c3, Consume "AQIDBAUG" (c2, w2) = (Some demo_req, (c3, snd (Now w2)))
    /\ Consume "AQIDBAUG" (c3, snd (Now w2)) = (None, (c3, snd (Now w2)))
    /\ String.length "AQIDBAUG" = tokenLen.
Proof.
  apply (token_redeemed_once demo_req "AQIDBAUG" [RInsert demo_req; RConsume "other"]
           newRequestCache demo_c1 _ demo_start demo_w1 _);
    [apply inv_new|reflexivity|reflexivity| |vm_compute; discriminate].
  by intros [[=]|[[=]|?%elem_of_nil]%elem_of_cons]%elem_of_cons.
Defined.

Lemma token_expires_witness :
  fst (Consume "AQIDBAUG" (demo_c1, mkDemo (2 * Minute) [])) = None.
Proof.
  apply (token_expires demo_req "AQIDBAUG" [RPass (mkDemo (2 * Minute) [])]
           newRequestCache demo_c1 demo_c1 demo_start demo_w1);
    [apply inv_new|reflexivity|reflexivity|by constructor|vm_compute; reflexivity].
Defined.
