(* ===== verification/GoHash.v ===== *)
(** * GoHash: crypto/sha256 and encoding/base32

    The SHA-256 digest of a string and the standard base32 encoding of
    RFC 4648, as Go's standard library computes them; the host port manager
    names its iptables chains with them, and the service its seccomp profiles. *)
From S2P Require Import Prelude.
#[local] Open Scope N_scope.

(** ** SHA-256 *)

Definition word (n : N) : N := n mod 2 ^ 32.
Definition add32 (a b : N) : N := word (a + b).
Definition rotr (x n : N) : N := N.lor (N.shiftr x n) (word (N.shiftl x (32 - n))).
Definition not32 (x : N) : N := N.lxor x (2 ^ 32 - 1).

(** The constants are the first 32 bits of the fractional parts of the cube
    roots of the first 64 primes, and of the square roots of the first 8. *)
Definition is_prime (n : N) : bool :=
  forallb (fun d => negb (n mod d =? 0)) (N.of_nat <$> seq 2 (N.to_nat (N.sqrt n) - 1)).
Definition primes_below (bound : nat) : list N :=
  base.filter (fun n => is_prime n = true) (N.of_nat <$> seq 2 (bound - 2)).

(** The integer cube root, one bit at a time from bit [bits - 1]. *)
Fixpoint cube_root_go (bits : nat) (n root : N) : N :=
  match bits with
  | O => root
  | S b => let r := root + 2 ^ N.of_nat b in
           cube_root_go b n (if r * r * r <=? n then r else root)
  end.

Definition sha_K : list N :=
  Eval vm_compute in (fun p => word (cube_root_go 40 (p * 2 ^ 96) 0)) <$> primes_below 312.
Definition sha_H : list N :=
  Eval vm_compute in (fun p => word (N.sqrt (p * 2 ^ 64))) <$> primes_below 20.

(** The eight chaining words. *)
Record sha_state := mkSha { sa : N; sb : N; sc : N; sd : N; se : N; sf : N; sg : N; sh : N }.

Definition sha_of_words (ws : list N) : sha_state :=
  let w i := nth i ws 0 in mkSha (w 0%nat) (w 1%nat) (w 2%nat) (w 3%nat) (w 4%nat) (w 5%nat) (w 6%nat) (w 7%nat).
Definition sha_init : sha_state := sha_of_words sha_H.

Definition sha_round (s : sha_state) (kw : N * N) : sha_state :=
  let '(k, w) := kw in
  let S1 := N.lxor (rotr (se s) 6) (N.lxor (rotr (se s) 11) (rotr (se s) 25)) in
  let ch := N.lxor (N.land (se s) (sf s)) (N.land (not32 (se s)) (sg s)) in
  let t1 := word (sh s + S1 + ch + k + w) in
  let S0 := N.lxor (rotr (sa s) 2) (N.lxor (rotr (sa s) 13) (rotr (sa s) 22)) in
  let maj := N.lxor (N.land (sa s) (sb s)) (N.lxor (N.land (sa s) (sc s)) (N.land (sb s) (sc s))) in
  let t2 := word (S0 + maj) in
  mkSha (add32 t1 t2) (sa s) (sb s) (sc s) (add32 (sd s) t1) (se s) (sf s) (sg s).

(** The message schedule, newest word first: [n] more words. *)
Fixpoint sha_extend (n : nat) (ws : list N) : list N :=
  match n with
  | O => ws
  | S n' =>
      let w2 := nth 1 ws 0 in
      let w15 := nth 14 ws 0 in
      let s1 := N.lxor (rotr w2 17) (N.lxor (rotr w2 19) (N.shiftr w2 10)) in
      let s0 := N.lxor (rotr w15 7) (N.lxor (rotr w15 18) (N.shiftr w15 3)) in
      sha_extend n' (word (nth 15 ws 0 + s0 + nth 6 ws 0 + s1) :: ws)
  end.

Definition sha_block (s : sha_state) (block : list N) : sha_state :=
  let ws := rev (sha_extend 48 (rev block)) in
  let r := fold_left sha_round (combine sha_K ws) s in
  mkSha (add32 (sa s) (sa r)) (add32 (sb s) (sb r)) (add32 (sc s) (sc r)) (add32 (sd s) (sd r))
        (add32 (se s) (se r)) (add32 (sf s) (sf r)) (add32 (sg s) (sg r)) (add32 (sh s) (sh r)).

(** The bytes of a string, and a 32-bit or 64-bit number in big-endian. *)
Fixpoint string_bytes (s : string) : list N :=
  match s with EmptyString => [] | String c s' => Ascii.N_of_ascii c :: string_bytes s' end.
Definition be_byte (n : N) (i : N) : N := N.land (N.shiftr n (8 * i)) 255.
Definition be32 (n : N) : list N := [be_byte n 3; be_byte n 2; be_byte n 1; be_byte n 0].
Definition be64 (n : N) : list N := be32 (N.shiftr n 32) ++ be32 (word n).

(** The padding: 0x80, zeros up to 56 bytes modulo 64, the length in bits. *)
Definition sha_pad (s : string) : list N :=
  let len := String.length s in
  string_bytes s ++ [0x80] ++ repeat 0 ((119 - len mod 64) mod 64) ++ be64 (8 * N.of_nat len).

(** Bytes as big-endian 32-bit words. *)
Fixpoint be_words (bs : list N) : list N :=
  match bs with
  | a :: b :: c :: d :: bs' =>
      N.lor (N.shiftl a 24) (N.lor (N.shiftl b 16) (N.lor (N.shiftl c 8) d)) :: be_words bs'
  | _ => []
  end.

(** Consume the words sixteen at a time ([fuel]: the number of blocks). *)
Fixpoint sha_blocks (fuel : nat) (s : sha_state) (ws : list N) : sha_state :=
  match fuel with
  | O => s
  | S fuel' => sha_blocks fuel' (sha_block s (take 16 ws)) (drop 16 ws)
  end.

Definition sha_bytes (s : sha_state) : list N :=
  be32 (sa s) ++ be32 (sb s) ++ be32 (sc s) ++ be32 (sd s)
  ++ be32 (se s) ++ be32 (sf s) ++ be32 (sg s) ++ be32 (sh s).

(** [sha256.Sum256]. *)
Definition sha256 (s : string) : list N :=
  let ws := be_words (sha_pad s) in
  sha_bytes (sha_blocks (length ws / 16) sha_init ws).

(** Bytes in hexadecimal, the verb [%x]. *)
Definition hex_of (bs : list N) : string := String.concat "" (hex_pad 2 <$> bs).

(** ** base32 *)

Definition base32_alphabet : list ascii :=
  String.list_ascii_of_string "ABCDEFGHIJKLMNOPQRSTUVWXYZ234567".
Definition base32_char (n : N) : ascii := nth (N.to_nat n) base32_alphabet "A"%char.

Definition byte_bits (b : N) : list bool :=
  [N.testbit b 7; N.testbit b 6; N.testbit b 5; N.testbit b 4;
   N.testbit b 3; N.testbit b 2; N.testbit b 1; N.testbit b 0].
Definition quintet (a b c d e : bool) : N :=
  16 * N.b2n a + 8 * N.b2n b + 4 * N.b2n c + 2 * N.b2n d + N.b2n e.

(** Five bits per character, the last group completed with zeros. *)
Fixpoint base32_chars (bits : list bool) : string :=
  match bits with
  | [] => EmptyString
  | [a] => String (base32_char (quintet a false false false false)) EmptyString
  | [a; b] => String (base32_char (quintet a b false false false)) EmptyString
  | [a; b; c] => String (base32_char (quintet a b c false false)) EmptyString
  | [a; b; c; d] => String (base32_char (quintet a b c d false)) EmptyString
  | a :: b :: c :: d :: e :: bits' =>
      String (base32_char (quintet a b c d e)) (base32_chars bits')
  end.

Fixpoint srepeat (n : nat) (s : string) : string :=
  match n with O => EmptyString | S n' => s +:+ srepeat n' s end.

(** [base32.StdEncoding.EncodeToString]: padded to a multiple of eight. *)
Definition base32_encode (bs : list N) : string :=
  let s := base32_chars (flat_map byte_bits bs) in
  s +:+ srepeat ((8 - String.length s mod 8) mod 8) "=".

(** ** Facts *)

Definition is_base32 (c : ascii) : bool := bool_decide (c ∈ base32_alphabet).

Lemma base32_char_ok (n : N) : is_base32 (base32_char n) = true.
Proof.
  unfold is_base32, base32_char. apply bool_decide_eq_true.
  destruct (nth_in_or_default (N.to_nat n) base32_alphabet "A"%char) as [Hin| ->].
  - by apply list_elem_of_In.
  - unfold base32_alphabet. cbn. left.
Qed.

(** Induction on a list five elements at a time. *)
Lemma list_ind5 {A} (P : list A -> Prop) :
  (forall l, (length l < 5)%nat -> P l) ->
  (forall a b c d e l, P l -> P (a :: b :: c :: d :: e :: l)) -> forall l, P l.
Proof.
  intros Hs Hc. fix IH 1. intros l.
  do 5 (destruct l as [|? l]; [apply Hs; cbn [length]; lia|]). apply Hc, IH.
Qed.

Lemma base32_chars_ok (bits : list bool) : sforall is_base32 (base32_chars bits) = true.
Proof.
  induction bits as [l Hl|a b c d e l IH] using list_ind5.
  - do 5 (destruct l as [|? l]; [cbn [base32_chars sforall]; rewrite ?base32_char_ok; reflexivity|]). simpl in Hl. lia.
  - cbn [base32_chars sforall]. by rewrite base32_char_ok, IH.
Qed.

Lemma base32_chars_length (bits : list bool) :
  (length bits <= 5 * String.length (base32_chars bits) < length bits + 5)%nat.
Proof.
  induction bits as [l Hl|a b c d e l IH] using list_ind5.
  - do 5 (destruct l as [|? l]; [cbn [base32_chars length String.length]; lia|]). simpl in Hl. lia.
  - cbn [base32_chars length String.length]. lia.
Qed.

Lemma byte_bits_length (bs : list N) : length (flat_map byte_bits bs) = (8 * length bs)%nat.
Proof. induction bs as [|b bs IH]; [done|]. cbn [flat_map]. rewrite length_app, IH. simpl. lia. Qed.

Lemma sha256_length (s : string) : length (sha256 s) = 32%nat.
Proof. reflexivity. Qed.

(** A digest always encodes to 52 characters and four padding signs. *)
Lemma base32_sha256 (s : string) :
  exists body, base32_encode (sha256 s) = body +:+ "====" /\ String.length body = 52%nat
               /\ sforall is_base32 body = true.
Proof.
  pose proof (base32_chars_length (flat_map byte_bits (sha256 s))) as Hl.
  rewrite byte_bits_length, sha256_length in Hl. unfold base32_encode.
  exists (base32_chars (flat_map byte_bits (sha256 s))).
  assert (String.length (base32_chars (flat_map byte_bits (sha256 s))) = 52%nat) as E by lia.
  rewrite E. split; [done|]. split; [done|apply base32_chars_ok].
Qed.

(** The test vectors of FIPS 180-4 and RFC 4648. *)

Example sha256_abc :
  hex_of (sha256 "abc")
  = "ba7816bf8f01cfea414140de5dae2223b00361a396177a9cb410ff61f20015ad".
Proof. vm_compute. reflexivity. Qed.

Example sha256_two_blocks :
  hex_of (sha256 "abcdbcdecdefdefgefghfghighijhijkijkljklmklmnlmnomnopnopq")
  = "248d6a61d20638b8e5c026930c3e6039a33ce45964ff2167f6ecedd419db06c1".
Proof. vm_compute. reflexivity. Qed.

Example sha256_empty :
  hex_of (sha256 "") = "e3b0c44298fc1c149afbf4c8996fb92427ae41e4649b934ca495991b7852b855".
Proof. vm_compute. reflexivity. Qed.

Example base32_foobar :
  base32_encode (string_bytes "foobar") = "MZXW6YTBOI======"
  /\ base32_encode (string_bytes "fooba") = "MZXW6YTB".
Proof. by vm_compute. Qed.

Example sha_constants :
  length sha_K = 64%nat /\ length sha_H = 8%nat
  /\ head sha_K = Some 0x428a2f98 /\ last sha_K = Some 0xc67178f2.
Proof. by vm_compute. Qed.
