(* ===== verification/GoNet.v ===== *)
(** * GoNet: IP addresses of the standard library's package net

    [net.IP] as the byte slice it is, with the operations the program uses
    ([To4], [To16], [String], [JoinHostPort]), and the address families of
    k8s.io/utils/net. *)
From S2P Require Import Prelude.

(** A [net.IP]; nil is the empty slice. *)
Abbreviation IP := (list N).

Definition v4InV6Prefix : list N := [0; 0; 0; 0; 0; 0; 0; 0; 0; 0; 255; 255]%N.

Definition To4 (ip : IP) : option IP :=
  if Nat.eqb (length ip) 4 then Some ip
  else if Nat.eqb (length ip) 16 && bool_decide (take 12 ip = v4InV6Prefix)
  then Some (drop 12 ip)
  else None.

Definition To16 (ip : IP) : option IP :=
  if Nat.eqb (length ip) 4 then Some (v4InV6Prefix ++ ip)
  else if Nat.eqb (length ip) 16 then Some ip
  else None.

(** [utilnet.IsIPv6]. *)
Definition IsIPv6 (ip : IP) : bool :=
  match To4 ip with
  | Some _ => false
  | None => match To16 ip with Some _ => true | None => false end
  end.

(** ** Text *)

(** A number in hexadecimal, no leading zero. *)
Fixpoint hex_trim (s : string) : string :=
  match s with
  | String c (String _ _ as s') => if Ascii.eqb c "0" then hex_trim s' else s
  | _ => s
  end.
Definition append_hex (n : N) : string := hex_trim (hex_pad 4 n).

(** The eight groups of a 16-byte address. *)
Fixpoint v6_groups (ip : IP) : list N :=
  match ip with a :: b :: ip' => (256 * a + b)%N :: v6_groups ip' | _ => [] end.

Fixpoint leading_zeros (gs : list N) : nat :=
  match gs with 0%N :: gs' => S (leading_zeros gs') | _ => O end.

(** The leftmost longest run of at least two zero groups: start and length. *)
Fixpoint zero_run (i : nat) (gs : list N) (best : nat * nat) : nat * nat :=
  match gs with
  | [] => best
  | _ :: gs' =>
      let l := leading_zeros gs in
      zero_run (S i) gs' (if Nat.leb 2 l && Nat.ltb (snd best) l then (i, l) else best)
  end.

Definition v6_string (ip : IP) : string :=
  let gs := v6_groups ip in
  let '(start, len) := zero_run 0 gs (0, 0)%nat in
  if Nat.eqb len 0 then join (append_hex <$> gs) ":"
  else join (append_hex <$> take start gs) ":" +:+ "::"
       +:+ join (append_hex <$> drop (start + len) gs) ":".

(** [IP.String]. *)
Definition IP_String (ip : IP) : string :=
  match ip with
  | [] => "<nil>"
  | _ =>
      match To4 ip with
      | Some p4 => join (utoa <$> p4) "."
      | None =>
          if Nat.eqb (length ip) 16 then v6_string ip
          else "?" +:+ String.concat "" (hex_pad 2 <$> ip)
      end
  end.

(** [net.JoinHostPort]: a host with a colon is bracketed. *)
Definition JoinHostPort (host port : string) : string :=
  if lacks ":" host then host +:+ ":" +:+ port else "[" +:+ host +:+ "]:" +:+ port.

Example ip_strings :
  IP_String [10; 1; 2; 30]%N = "10.1.2.30"
  /\ IP_String (v4InV6Prefix ++ [127; 0; 0; 1])%N = "127.0.0.1"
  /\ IP_String [32; 1; 13; 184; 0; 0; 0; 0; 0; 0; 0; 0; 0; 0; 0; 1]%N = "2001:db8::1"
  /\ IP_String [0; 1; 0; 0; 0; 0; 0; 2; 0; 0; 0; 0; 0; 0; 0; 10]%N = "1:0:0:2::a"
  /\ IP_String (repeat 0%N 16) = "::"
  /\ IP_String [] = "<nil>" /\ IP_String [1; 171]%N = "?01ab".
Proof. by vm_compute. Qed.

Example join_host_port :
  JoinHostPort "10.0.0.1" "80" = "10.0.0.1:80" /\ JoinHostPort "::1" "80" = "[::1]:80"
  /\ JoinHostPort "" "8080" = ":8080".
Proof. by vm_compute. Qed.
