(* ===== verification/GoText.v ===== *)
(** * GoText: text, bytes and commands of the standard library

    The functions of packages strings, bufio and encoding/hex that the network
    code uses on the output of commands (text is ASCII), the masks of package
    net, and the interface behind which the commands are run. *)
From S2P Require Import Prelude GoErrors GoNet.

(** [utilexec.Interface]: run a command and collect its output, find one in
    the path. *)
Class Execer (W : Type) := {
  CombinedOutput : string -> list string -> M W (string * option error);
  LookPath : string -> M W (res string);
}.

(** An index or a slice is out of range. *)
Definition index_panic : error := Errorf "panic: index out of range".

(** ** Text *)

(** [unicode.IsSpace] on ASCII. *)
Definition is_space (c : ascii) : bool :=
  let n := Ascii.N_of_ascii c in ((9 <=? n) && (n <=? 13) || (n =? 32))%N.

Fixpoint trim_left (s : string) : string :=
  match s with
  | String c s' => if is_space c then trim_left s' else s
  | EmptyString => s
  end.
Fixpoint trim_right (s : string) : string :=
  match s with
  | EmptyString => EmptyString
  | String c s' =>
      match trim_right s' with
      | EmptyString => if is_space c then EmptyString else String c EmptyString
      | t => String c t
      end
  end.
Definition TrimSpace (s : string) : string := trim_right (trim_left s).

(** [strings.Fields]: the maximal runs of bytes that are not space; [word] is
    the run being read. *)
Fixpoint fields_go (word s : string) : list string :=
  match s with
  | EmptyString => if decide (word = "") then [] else [word]
  | String c s' =>
      if is_space c then
        if decide (word = "") then fields_go "" s' else word :: fields_go "" s'
      else fields_go (word +:+ String c EmptyString) s'
  end.
Definition Fields (s : string) : list string := fields_go "" s.

(** The lines a [bufio.Scanner] delivers: no line after a final newline, no
    carriage return at the end of one. *)
Definition drop_cr (s : string) : string := trim_suffix s (String (Ascii.ascii_of_N 13) EmptyString).
Definition scan_lines (s : string) : list string :=
  let ls := split s newline in
  drop_cr <$> (match reverse ls with "" :: rest => reverse rest | _ => ls end).

(** ** Bytes in hexadecimal *)

Definition hex_byte (b : N) : string :=
  String (hex_digit (b / 16)) (String (hex_digit (b mod 16)) EmptyString).
(** [hex.EncodeToString]. *)
Definition hex_encode (bs : list N) : string := String.concat "" (hex_byte <$> bs).

Definition hex_value (c : ascii) : option N :=
  let n := Ascii.N_of_ascii c in
  if ((48 <=? n) && (n <=? 57))%N then Some (n - 48)%N
  else if ((97 <=? n) && (n <=? 102))%N then Some (n - 87)%N
  else if ((65 <=? n) && (n <=? 70))%N then Some (n - 55)%N
  else None.
(** [hex.DecodeString]. *)
Fixpoint hex_decode (s : string) : res (list N) :=
  match s with
  | EmptyString => Ok []
  | String _ EmptyString => Err (Errorf "encoding/hex: odd length hex string")
  | String a (String b s') =>
      match hex_value a, hex_value b with
      | Some x, Some y =>
          match hex_decode s' with
          | Ok bs => Ok ((16 * x + y)%N :: bs)
          | Err e => Err e
          end
      | _, _ => Err (Errorf "encoding/hex: invalid byte")
      end
  end.

(** ** Masks *)

(** [net.CIDRMask(ones, 8 * bytes)]. *)
Fixpoint CIDRMask (ones : nat) (bytes : nat) : list N :=
  match bytes with
  | O => []
  | S bytes' => (255 - 255 / 2 ^ (N.of_nat (ones `min` 8)))%N :: CIDRMask (ones - 8) bytes'
  end.

(** The leading ones of a byte, if nothing but zeros follows. *)
Definition byte_ones (b : N) : option nat :=
  match b with
  | 0%N => Some 0%nat | 128%N => Some 1%nat | 192%N => Some 2%nat | 224%N => Some 3%nat
  | 240%N => Some 4%nat | 248%N => Some 5%nat | 252%N => Some 6%nat | 254%N => Some 7%nat
  | 255%N => Some 8%nat | _ => None
  end.
(** [simpleMaskLength]: the leading ones, if the rest is zero. *)
Fixpoint mask_length (mask : list N) : option nat :=
  match mask with
  | [] => Some 0%nat
  | b :: mask' =>
      if (b =? 255)%N then (fun n => 8 + n)%nat <$> mask_length mask'
      else match byte_ones b with
           | Some n => if forallb (N.eqb 0) mask' then Some n else None
           | None => None
           end
  end.
(** [IPMask.Size]: the ones and the bits, zeros for a mask that is no prefix. *)
Definition mask_Size (mask : list N) : nat * nat :=
  match mask_length mask with
  | Some n => (n, 8 * length mask)%nat
  | None => (0, 0)%nat
  end.
(** [IPMask.String]. *)
Definition mask_String (mask : list N) : string :=
  match mask with [] => "<nil>" | _ => hex_encode mask end.

(** [IP.Mask]; nil for lengths that do not agree. *)
Definition ip_Mask (ip : IP) (mask : list N) : IP :=
  let mask := if Nat.eqb (length mask) 16 && Nat.eqb (length ip) 4
                 && forallb (N.eqb 255) (take 12 mask) then drop 12 mask else mask in
  let ip := if Nat.eqb (length mask) 4 && Nat.eqb (length ip) 16
               && bool_decide (take 12 ip = v4InV6Prefix) then drop 12 ip else ip in
  if Nat.eqb (length ip) (length mask) then zip_with N.land ip mask else [].

(** [net.IPNet] with [String]. *)
Record IPNet := mkIPNet { ipn_IP : IP; ipn_Mask : list N }.
Definition IPNet_String (n : IPNet) : string :=
  IP_String (ipn_IP n) +:+ "/" +:+
  match mask_length (ipn_Mask n) with
  | Some l => utoa (N.of_nat l)
  | None => hex_encode (ipn_Mask n)
  end.

(** ** Theory *)

Definition is_byte (b : N) : Prop := (b < 256)%N.

Lemma hex_value_digit d : (d < 16)%N -> hex_value (hex_digit d) = Some d.
Proof.
  intros H. assert (d = 0 \/ d = 1 \/ d = 2 \/ d = 3 \/ d = 4 \/ d = 5 \/ d = 6 \/ d = 7 \/ d = 8
    \/ d = 9 \/ d = 10 \/ d = 11 \/ d = 12 \/ d = 13 \/ d = 14 \/ d = 15)%N as Hd by lia.
  by repeat destruct Hd as [-> | Hd]; [reflexivity..|subst].
Qed.

Lemma nibbles_small b : is_byte b -> (b / 16 < 16)%N /\ (b mod 16 < 16)%N.
Proof.
  unfold is_byte. intros H. split; [apply N.Div0.div_lt_upper_bound; lia|by apply N.mod_lt].
Qed.

Lemma hex_encode_cons b bs : hex_encode (b :: bs) = hex_byte b +:+ hex_encode bs.
Proof. unfold hex_encode. rewrite fmap_cons. by destruct (hex_byte <$> bs). Qed.

Lemma hex_decode_encode bs : Forall is_byte bs -> hex_decode (hex_encode bs) = Ok bs.
Proof.
  induction 1 as [|b bs Hb _ IH]; [done|]. rewrite hex_encode_cons.
  unfold hex_byte. change (String ?a (String ?b "") +:+ ?s) with (String a (String b s)).
  cbn [hex_decode]. destruct (nibbles_small b Hb). rewrite !hex_value_digit by done.
  rewrite IH. do 2 f_equal. pose proof (N.div_mod' b 16). lia.
Qed.

Lemma hex_encode_hex bs : Forall is_byte bs -> sforall is_hex (hex_encode bs) = true.
Proof.
  induction 1 as [|b bs Hb _ IH]; [done|]. rewrite hex_encode_cons, sforall_app, IH.
  cbn. destruct (nibbles_small b Hb). by rewrite !hex_digit_is_hex by done.
Qed.

Lemma CIDRMask_length ones bytes : length (CIDRMask ones bytes) = bytes.
Proof. revert ones. induction bytes; intros; cbn; auto. Qed.

Lemma CIDRMask_zero bytes : CIDRMask 0 bytes = repeat 0%N bytes.
Proof. induction bytes; cbn; [done|]. f_equal. exact IHbytes. Qed.

Lemma forallb_zero n : forallb (N.eqb 0) (repeat 0%N n) = true.
Proof. by induction n. Qed.

(** A prefix mask has the size it was made with. *)
Lemma mask_length_CIDRMask bytes : forall ones,
  (ones <= 8 * bytes)%nat -> mask_length (CIDRMask ones bytes) = Some ones.
Proof.
  induction bytes as [|bytes IH]; intros ones Ho; [cbn in *; f_equal; lia|].
  destruct (decide (8 <= ones)) as [H8|H8].
  - cbn [CIDRMask]. rewrite Nat.min_r by lia. cbn [mask_length].
    change (255 - 255 / 2 ^ N.of_nat 8 =? 255)%N with true. cbn iota.
    rewrite IH by lia. cbn. f_equal. lia.
  - cbn [CIDRMask]. rewrite Nat.min_l by lia. replace (ones - 8)%nat with 0%nat by lia.
    rewrite CIDRMask_zero. cbn [mask_length].
    destruct ones as [|[|[|[|[|[|[|[|]]]]]]]]; try lia; cbn; by rewrite forallb_zero.
Qed.

Lemma CIDRMask_bytes ones bytes : Forall is_byte (CIDRMask ones bytes).
Proof.
  revert ones. induction bytes; intros; cbn; [constructor|]. constructor; [|done].
  unfold is_byte. generalize (255 / 2 ^ N.of_nat (ones `min` 8))%N. lia.
Qed.

Lemma land_bytes a b : is_byte b -> is_byte (N.land a b).
Proof.
  unfold is_byte. intros H. apply (N.le_lt_trans _ b); [|exact H].
  apply N.land_le_r || (apply N.ldiff_le, N.bits_inj_0; intros n; rewrite N.ldiff_spec, N.land_spec;
  destruct (N.testbit a n), (N.testbit b n); reflexivity).
Qed.

Example text_examples :
  Fields "  a b	c " = ["a"; "b"; "c"] /\ TrimSpace "  x y " = "x y"
  /\ scan_lines ("a" +:+ newline +:+ newline +:+ "b" +:+ newline) = ["a"; ""; "b"]
  /\ CIDRMask 20 4 = [255; 255; 240; 0]%N /\ mask_Size [255; 255; 240; 0]%N = (20, 32)%nat
  /\ ip_Mask (v4InV6Prefix ++ [10; 1; 2; 3])%N (CIDRMask 16 4) = [10; 1; 0; 0]%N.
Proof. by vm_compute. Qed.
