(* ===== verification/GoCidr.v ===== *)
(** * GoCidr: parsing addresses and networks

    [net.ParseIP] and [net.ParseCIDR], and the [ParseIPSloppy] and
    [ParseCIDRSloppy] of k8s.io/utils/net, which still accept leading zeros in
    the octets of IPv4 addresses. *)
From S2P Require Import Prelude GoErrors GoNet GoText.

(** An octet in decimal; strictly, without a leading zero. *)
Definition octet (sloppy : bool) (s : string) : option N :=
  match parse_uint 8 s with
  | Err _ => None
  | Ok n => if negb sloppy && has_prefix s "0" && Nat.ltb 1 (String.length s) then None else Some n
  end.

Definition parse_ipv4 (sloppy : bool) (s : string) : option (list N) :=
  match split s "." with
  | [a; b; c; d] =>
      match octet sloppy a, octet sloppy b, octet sloppy c, octet sloppy d with
      | Some a, Some b, Some c, Some d => Some [a; b; c; d]
      | _, _, _, _ => None
      end
  | _ => None
  end.

(** The hexadecimal number at the start: its value, its length, the rest. *)
Fixpoint scan_hex (s : string) (n : N) (digits : nat) : N * nat * string :=
  match s with
  | String c s' =>
      match hex_value c with
      | Some d => scan_hex s' (16 * n + d) (S digits)
      | None => (n, digits, s)
      end
  | EmptyString => (n, digits, s)
  end.

(** The groups of an IPv6 address, with the place of the ellipsis.  A turn
    appends two bytes or ends, so eight turns are enough. *)
Fixpoint v6_loop (sloppy : bool) (fuel : nat) (s : string) (ip : list N) (ellipsis : option nat)
  : option (list N * option nat) :=
  match fuel with
  | O => None
  | S fuel' =>
      let '(n, c, rest) := scan_hex s 0 0 in
      if Nat.eqb c 0 || negb sloppy && Nat.ltb 4 c || (65535 <? n)%N then None
      else if has_prefix rest "." then
        if bool_decide (ellipsis = None) && negb (Nat.eqb (length ip) 12)
           || Nat.ltb 16 (length ip + 4) then None
        else match parse_ipv4 sloppy s with
             | Some ip4 => Some (ip ++ ip4, ellipsis)
             | None => None
             end
      else
        let ip := ip ++ [n / 256; n mod 256]%N in
        match rest with
        | EmptyString => Some (ip, ellipsis)
        | String c r =>
            if negb (Ascii.eqb c ":") || bool_decide (r = "") then None
            else match r with
                 | String c' r' =>
                     if Ascii.eqb c' ":" then
                       match ellipsis with
                       | Some _ => None
                       | None =>
                           if decide (r' = "") then Some (ip, Some (length ip))
                           else v6_loop sloppy fuel' r' ip (Some (length ip))
                       end
                     else v6_loop sloppy fuel' r ip ellipsis
                 | EmptyString => None
                 end
        end
  end.

Definition parse_ipv6 (sloppy : bool) (s : string) : option IP :=
  let r :=
    if has_prefix s "::" then
      let s' := sdrop 2 s in
      if decide (s' = "") then Some ([], Some 0%nat) else v6_loop sloppy 8 s' [] (Some 0%nat)
    else v6_loop sloppy 8 s [] None in
  match r with
  | None => None
  | Some (ip, ellipsis) =>
      if Nat.ltb (length ip) 16 then
        match ellipsis with
        | None => None
        | Some e => Some (take e ip ++ repeat 0%N (16 - length ip) ++ drop e ip)
        end
      else match ellipsis with Some _ => None | None => Some ip end
  end.

(** The 16-byte form, also of IPv4 addresses; None for a nil result. *)
Definition parse_ip (sloppy : bool) (s : string) : option IP :=
  match parse_ipv4 sloppy s with
  | Some ip4 => Some (v4InV6Prefix ++ ip4)
  | None => parse_ipv6 sloppy s
  end.
Definition ParseIP (s : string) : option IP := parse_ip false s.
Definition ParseIPSloppy (s : string) : option IP := parse_ip true s.

Definition parse_cidr (sloppy : bool) (s : string) : res (IP * IPNet) :=
  let error := Err (Errorf ("invalid CIDR address: " +:+ s)) in
  match cut "/" s with
  | None => error
  | Some (addr, mask) =>
      match parse_ip sloppy addr, parse_uint 64 mask with
      | Some ip, Ok n =>
          let bytes := if bool_decide (is_Some (parse_ipv4 sloppy addr)) then 4%nat else 16%nat in
          if (8 * N.of_nat bytes <? n)%N then error
          else let m := CIDRMask (N.to_nat n) bytes in Ok (ip, mkIPNet (ip_Mask ip m) m)
      | _, _ => error
      end
  end.
Definition ParseCIDR (s : string) : res (IP * IPNet) := parse_cidr false s.
Definition ParseCIDRSloppy (s : string) : res (IP * IPNet) := parse_cidr true s.

(** [netutils.IsIPv6String], [netutils.IsIPv6CIDRString]. *)
Definition IsIPv6String (s : string) : bool :=
  match ParseIPSloppy s with Some ip => IsIPv6 ip | None => false end.
Definition IsIPv6CIDRString (s : string) : bool :=
  match ParseCIDRSloppy s with
  | Ok (_, net) => IsIPv6 (ipn_IP net)
  | Err _ => false
  end.

(** ** Theory *)

Lemma octet_utoa sloppy n : (n < 256)%N -> octet sloppy (utoa n) = Some n.
Proof.
  intros H.
  assert (forallb (fun k => bool_decide (octet true (utoa (N.of_nat k)) = Some (N.of_nat k))
                         && bool_decide (octet false (utoa (N.of_nat k)) = Some (N.of_nat k))) (seq 0 256) = true)
    as Hall by (vm_compute; reflexivity).
  rewrite forallb_forall in Hall. specialize (Hall (N.to_nat n)).
  rewrite N2Nat.id in Hall. destruct sloppy;
  (eassert (_ && _ = true) as Hn by (apply Hall, in_seq; lia));
    apply andb_true_iff in Hn as [H1%bool_decide_eq_true H2%bool_decide_eq_true]; assumption.
Qed.

(** An IPv4 address survives being printed. *)
Lemma parse_ipv4_string sloppy a b c d :
  (a < 256)%N -> (b < 256)%N -> (c < 256)%N -> (d < 256)%N ->
  parse_ipv4 sloppy (IP_String [a; b; c; d]) = Some [a; b; c; d].
Proof.
  intros Ha Hb Hc Hd. unfold parse_ipv4, IP_String. cbn [To4 length Nat.eqb].
  change (join (utoa <$> [a; b; c; d]) ".") with (join [utoa a; utoa b; utoa c; utoa d] (String "." "")).
  rewrite split_join by (repeat constructor; apply utoa_lacks; done).
  by rewrite !octet_utoa.
Qed.

Lemma To4_prefix a b c d : To4 (v4InV6Prefix ++ [a; b; c; d]) = Some [a; b; c; d].
Proof. reflexivity. Qed.

(** The network of a parsed CIDR is the address under a prefix mask. *)
Lemma parse_cidr_net sloppy s ip net :
  parse_cidr sloppy s = Ok (ip, net) ->
  exists ones bytes, 0 < bytes /\ ones <= 8 * bytes
    /\ net = mkIPNet (ip_Mask ip (CIDRMask ones bytes)) (CIDRMask ones bytes).
Proof.
  unfold parse_cidr. destruct (cut "/" s) as [[addr mask]|]; [|done].
  destruct (parse_ip sloppy addr) as [ip'|]; [|done]. destruct (parse_uint 64 mask) as [n|]; [|done].
  set (bytes := if bool_decide _ then 4 else 16). assert (0 < bytes) as Hb by (unfold bytes; case_match; lia).
  destruct (N.ltb_spec (8 * N.of_nat bytes) n); [done|]. intros [= <- <-].
  exists (N.to_nat n), bytes. split; [done|]. split; [lia|done].
Qed.

Example cidr_examples :
  ParseIP "10.0.0.7" = Some (v4InV6Prefix ++ [10; 0; 0; 7])%N /\ ParseIP "10.0.0.07" = None
  /\ ParseIPSloppy "10.0.0.07" = Some (v4InV6Prefix ++ [10; 0; 0; 7])%N
  /\ ParseIP "2001:db8::1" = Some [32; 1; 13; 184; 0; 0; 0; 0; 0; 0; 0; 0; 0; 0; 0; 1]%N
  /\ ParseIP "::" = Some (repeat 0%N 16) /\ ParseIP "1:2:3:4:5:6:7:8::" = None
  /\ ParseIP "::ffff:10.0.0.7" = ParseIP "10.0.0.7" /\ ParseIP "fe80::1%eth0" = None
  /\ result_map (fun x => IPNet_String (snd x)) (ParseCIDR "10.1.2.3/16") = Ok "10.1.0.0/16"
  /\ result_map (fun x => IPNet_String (snd x)) (ParseCIDR "2001:db8:1::5/48") = Ok "2001:db8:1::/48"
  /\ ParseCIDR "10.1.2.3/33" = Err (Errorf "invalid CIDR address: 10.1.2.3/33").
Proof. by vm_compute. Qed.
