(* ===== verification/GoTime.v ===== *)
(** * GoTime: docker's timestamps

    [time.Time] as a count of nanoseconds since the Unix epoch, and
    [time.Parse] with the layout of [time.RFC3339Nano], which
    libdocker/helpers.go uses to read docker's timestamps: the
    parser of the standard library with its tolerances (one-digit hours, a
    comma before the fraction, any number of fraction digits) and its error
    texts. *)
From S2P Require Import Prelude GoErrors.

Definition RFC3339Nano : string := "2006-01-02T15:04:05.999999999Z07:00".

(** ** The calendar *)

Definition is_leap (y : Z) : bool :=
  ((y mod 4 =? 0) && (negb (y mod 100 =? 0) || (y mod 400 =? 0)))%Z.

Definition days_in (m y : Z) : Z :=
  if ((m =? 4) || (m =? 6) || (m =? 9) || (m =? 11))%Z then 30%Z
  else if (m =? 2)%Z then (if is_leap y then 29%Z else 28%Z) else 31%Z.

(** Days from the first of March of year 0 to a date of the proleptic
    Gregorian calendar (a year starting in March, so that a leap day is its
    last), and from the Unix epoch. *)
Definition days_from_civil (y m d : Z) : Z :=
  (let y' := if m <=? 2 then y - 1 else y in
   let mp := (m + 9) mod 12 in
   let doy := (153 * mp + 2) / 5 + d - 1 in
   365 * y' + y' / 4 - y' / 100 + y' / 400 + doy)%Z.
Definition unix_days (y m d : Z) : Z := (days_from_civil y m d - days_from_civil 1970 1 1)%Z.

Definition nanos : Z := 1000000000%Z.
Definition Date (y m d hh mm ss ns : Z) : Z :=
  ((unix_days y m d * 86400 + hh * 3600 + mm * 60 + ss) * nanos + ns)%Z.

(** The zero [time.Time] is January 1 of year 1, UTC. *)
Definition zero_time : Z := Date 1 1 1 0 0 0 0.
Definition IsZero (t : Z) : bool := (t =? zero_time)%Z.

(** [UnixNano] is an [int64]: it wraps for times outside 1678-2262. *)
Definition UnixNano (t : Z) : Z := int64 t.

(** ** [time.Parse] *)

Definition digit_at (s : string) (i : nat) : option Z :=
  match String.get i s with
  | Some c => if is_digit c then Some (Z.of_N (digit_val c)) else None
  | None => None
  end.

(** [getnum]: one or two digits; two when [fixed]. *)
Definition getnum (s : string) (fixed : bool) : option (Z * string) :=
  match digit_at s 0 with
  | None => None
  | Some a =>
      match digit_at s 1 with
      | None => if fixed then None else Some (a, sdrop 1 s)
      | Some b => Some ((a * 10 + b)%Z, sdrop 2 s)
      end
  end.

Fixpoint digits_prefix (s : string) : string :=
  match s with
  | String c s' => if is_digit c then String c (digits_prefix s') else EmptyString
  | EmptyString => EmptyString
  end.
Fixpoint digits_val (acc : Z) (s : string) : Z :=
  match s with
  | String c s' => digits_val (acc * 10 + Z.of_N (digit_val c))%Z s'
  | EmptyString => acc
  end.

(** The first nine digits of a fraction, as nanoseconds. *)
Definition parseNanoseconds (digits : string) : Z :=
  let d := stake 9 digits in
  (digits_val 0 d * 10 ^ (9 - Z.of_nat (String.length d)))%Z.

Section Parse.
Variable avalue : string.

(** [*time.ParseError]. *)
Definition cannot_parse (layoutElem valueElem : string) : error :=
  Errorf ("parsing time " +:+ quote avalue +:+ " as " +:+ quote RFC3339Nano
          +:+ ": cannot parse " +:+ quote valueElem +:+ " as " +:+ quote layoutElem).
Definition out_of_range (what : string) : error :=
  Errorf ("parsing time " +:+ quote avalue +:+ ": " +:+ what +:+ " out of range").

(** [skip] of one byte of the layout. *)
Definition skip1 (c : ascii) (s : string) : res string :=
  match s with
  | String c' s' => if Ascii.eqb c c' then Ok s' else Err (cannot_parse (String c "") s)
  | EmptyString => Err (cannot_parse (String c "") s)
  end.

(** A number of the layout element [elem], in range. *)
Definition num_elem (elem what : string) (fixed : bool) (lo hi : Z) (s : string)
  : res (Z * string) :=
  match getnum s fixed with
  | None => Err (cannot_parse elem s)
  | Some (n, s') => if ((n <? lo) || (hi <? n))%Z then Err (out_of_range what) else Ok (n, s')
  end.

Definition year_elem (s : string) : res (Z * string) :=
  match digit_at s 0, digit_at s 1, digit_at s 2, digit_at s 3 with
  | Some a, Some b, Some c, Some d => Ok ((a * 1000 + b * 100 + c * 10 + d)%Z, sdrop 4 s)
  | _, _, _, _ => Err (cannot_parse "2006" s)
  end.

Definition comma_or_period (c : ascii) : bool := Ascii.eqb c "," || Ascii.eqb c ".".

(** The optional fraction. *)
Definition frac_elem (s : string) : Z * string :=
  match s with
  | String c s' =>
      if comma_or_period c then
        match digits_prefix s' with
        | EmptyString => (0%Z, s)
        | ds => (parseNanoseconds ds, sdrop (String.length ds) s')
        end
      else (0%Z, s)
  | EmptyString => (0%Z, s)
  end.

(** The zone: [Z], or a signed [hh:mm]; its offset in seconds. *)
Definition zone_elem (s : string) : res (Z * string) :=
  let bad := Err (cannot_parse "Z07:00" s) in
  match s with
  | String c s' =>
      if Ascii.eqb c "Z" then Ok (0%Z, s')
      else
        if negb (bool_decide (6 <= String.length s)%nat) then bad
        else if negb (bool_decide (String.get 3 s = Some (Ascii.ascii_of_N 58))) then bad
        else
          match getnum (stake 2 s') true with
          | None => bad
          | Some (hr, _) =>
              match getnum (stake 2 (sdrop 4 s)) true with
              | None => if (24 <? hr)%Z then Err (out_of_range "time zone offset hour") else bad
              | Some (mm, _) =>
                  let off := ((hr * 60 + mm) * 60)%Z in
                  if (60 <? mm)%Z then Err (out_of_range "time zone offset minute")
                  else if (24 <? hr)%Z then Err (out_of_range "time zone offset hour")
                  else if Ascii.eqb c "+" then Ok (off, sdrop 6 s)
                  else if Ascii.eqb c "-" then Ok ((- off)%Z, sdrop 6 s)
                  else bad
              end
          end
  | EmptyString => bad
  end.

End Parse.

(** Sequencing of elements. *)
Definition then_ {A B} (r : res A) (k : A -> res B) : res B :=
  match r with Ok a => k a | Err e => Err e end.

Definition ParseDockerTimestamp (s : string) : res Z :=
  then_ (year_elem s s) (fun '(year, v) =>
  then_ (skip1 s "-" v) (fun v =>
  then_ (num_elem s "01" "month" true 1 12 v) (fun '(month, v) =>
  then_ (skip1 s "-" v) (fun v =>
  then_ (num_elem s "02" "day" true 0 99 v) (fun '(day, v) =>
  then_ (skip1 s "T" v) (fun v =>
  then_ (num_elem s "15" "hour" false 0 23 v) (fun '(hour, v) =>
  then_ (skip1 s ":" v) (fun v =>
  then_ (num_elem s "04" "minute" true 0 59 v) (fun '(minute, v) =>
  then_ (skip1 s ":" v) (fun v =>
  then_ (num_elem s "05" "second" true 0 59 v) (fun '(second, v) =>
  let '(nsec, v) := frac_elem v in
  then_ (zone_elem s v) (fun '(offset, v) =>
  match v with
  | String _ _ => Err (Errorf ("parsing time " +:+ quote s +:+ ": extra text: " +:+ quote v))
  | EmptyString =>
      if ((day <? 1) || (days_in month year <? day))%Z then Err (out_of_range s "day")
      else Ok (Date year month day hour minute second nsec - offset * nanos)%Z
  end)))))))))))).

Example parse_zero : ParseDockerTimestamp "0001-01-01T00:00:00Z" = Ok zero_time.
Proof. vm_compute. reflexivity. Qed.
Example parse_epoch : ParseDockerTimestamp "1970-01-01T01:00:00.5+01:00" = Ok 500000000%Z.
Proof. vm_compute. reflexivity. Qed.
Example parse_2024 : ParseDockerTimestamp "2024-02-29T12:34:56.789Z" = Ok 1709210096789000000%Z.
Proof. vm_compute. reflexivity. Qed.
Example parse_bad_day : is_ok (ParseDockerTimestamp "2023-02-29T12:34:56Z") = false.
Proof. vm_compute. reflexivity. Qed.
