(* ===== verification/Libdocker.v ===== *)
(** * Libdocker: helpers over docker data and the timeout-wrapping client

    libdocker/helpers.go (image reference matching, environment, mounts and
    ports) and libdocker/kube_docker_client.go (the client that adds timeouts
    and error classification to the docker API).  The image reference grammar
    (distribution/reference, go-digest) and the docker API are parameters. *)
From S2P Require Import Prelude GoErrors Cri.

(** ** Image references *)

Record Digest := mkDigest { dg_Algorithm : string; dg_Hex : string }.

#[export] Instance Digest_eq_dec : EqDecision Digest.
Proof. solve_decision. Defined.

(** A parsed reference: whether it is [Tagged], its digest if it is
    [Digested], its [String()], its tag and its [Name()]. *)
Record Named := mkNamed {
  nm_Tagged : bool;
  nm_Digest : option Digest;
  nm_String : string;
  nm_Tag : string;
  nm_Name : string;
}.

Class RefParser := {
  ParseNormalizedNamed : string -> res Named;
  RefParse : string -> option Named;
  DigestParse : string -> option Digest;
}.

(** [d.Algorithm().String() == d'.Algorithm().String() && d.Hex() == d'.Hex()]. *)
Definition digest_eqb (d d' : Digest) : bool :=
  String.eqb (dg_Algorithm d) (dg_Algorithm d') && String.eqb (dg_Hex d) (dg_Hex d').

Section Images.
Context `{RefParser}.

(** One repo tag against the image, directly or after normalization. *)
Definition tag_matches (image tag : string) : bool :=
  if has_suffix image tag || has_suffix tag image then true
  else
    match ParseNormalizedNamed tag with
    | Err _ => false
    | Ok initialName =>
        if nm_Tagged initialName then
          let normalizedTag := nm_String initialName in
          if decide (normalizedTag = "") then false
          else has_suffix image normalizedTag || has_suffix normalizedTag image
        else false
    end.

(** One repo digest against the image's digest. *)
Definition repo_digest_matches (digest : Digest) (repoDigest : string) : bool :=
  match ParseNormalizedNamed repoDigest with
  | Err _ => false
  | Ok named =>
      match nm_Digest named with
      | Some d => digest_eqb digest d
      | None => false
      end
  end.

Definition matchImageTagOrSHA (inspected : ImageInspect) (image : string) : bool :=
  match ParseNormalizedNamed image with
  | Err _ => false
  | Ok named =>
      let isTagged := nm_Tagged named in
      match isTagged, nm_Digest named with
      | false, None => true
      | _, od =>
          if isTagged && existsb (tag_matches image) (ii_RepoTags inspected) then true
          else
            match od with
            | None => false
            | Some digest =>
                if existsb (repo_digest_matches digest) (ii_RepoDigests inspected) then true
                else
                  match DigestParse (ii_ID inspected) with
                  | None => false
                  | Some id => digest_eqb digest id
                  end
            end
      end
  end.

Definition matchImageIDOnly (inspected : ImageInspect) (image : string) : bool :=
  if decide (ii_ID inspected = image) then true
  else
    match RefParse image with
    | None => false
    | Some ref =>
        match nm_Digest ref with
        | None => false
        | Some digest =>
            match DigestParse (ii_ID inspected) with
            | None => false
            | Some id => digest_eqb digest id
            end
        end
    end.

End Images.

(** ** Environment, mounts and ports *)

Definition GenerateEnvList (envs : list KeyValue) : list string :=
  (fun env => kv_Key env +:+ "=" +:+ kv_Value env) <$> envs.

Definition TypeBind : string := "bind".
Definition PropagationRShared : string := "rshared".
Definition PropagationRSlave : string := "rslave".

(** The checks of a recursive read-only mount, in the order of the code. *)
Definition rro_error (rroSupported : bool) (m : Mount) : option error :=
  if m_RecursiveReadOnly m then
    if negb rroSupported then
      Some (WrapError (sentinel_msg ErrRROUnsupported
              +:+ ": runtime handler does not support recursive read-only mounts (hostPath="
              +:+ quote (m_HostPath m) +:+ ")") (Sentinel ErrRROUnsupported))
    else if decide (m_Propagation m <> PROPAGATION_PRIVATE) then
      Some (Errorf ("recursive read-only mount needs private propagation, got "
              +:+ quote (propagation_string (m_Propagation m))
              +:+ " (hostPath=" +:+ quote (m_HostPath m) +:+ ")"))
    else if negb (m_Readonly m) then
      Some (Errorf ("recursive read-only mount conflicts with RW mount (hostPath="
              +:+ quote (m_HostPath m) +:+ ")"))
    else None
  else None.

(** The docker mount of a CRI mount that passed the checks (on Linux). *)
Definition bind_mount (m : Mount) : DockerMount :=
  mkDockerMount TypeBind (m_HostPath m) (m_ContainerPath m)
    (m_Readonly m)
    (mkBindOptions
       (match m_Propagation m with
        | PROPAGATION_BIDIRECTIONAL => PropagationRShared
        | PROPAGATION_HOST_TO_CONTAINER => PropagationRSlave
        | PROPAGATION_PRIVATE | PROPAGATION_Other _ => ""
        end)
       true
       (m_Readonly m && negb (m_RecursiveReadOnly m))).

Fixpoint mount_bindings (rroSupported : bool) (mounts : list Mount) : res (list DockerMount) :=
  match mounts with
  | [] => Ok []
  | m :: mounts' =>
      match rro_error rroSupported m with
      | Some err => Err err
      | None =>
          match mount_bindings rroSupported mounts' with
          | Ok result => Ok (bind_mount m :: result)
          | Err err => Err err
          end
      end
  end.

Definition GenerateMountBindings (mounts : list Mount) (terminationMessagePath : string)
  (rtHandler : option RuntimeHandler) : res (list DockerMount) :=
  mount_bindings (from_option rh_RecursiveReadOnlyMounts false rtHandler) mounts.

(** [nat.Port] of a mapping. *)
Definition docker_port (port : PortMapping) : string :=
  itoa (pm_ContainerPort port)
  +:+ match pm_Protocol port with
      | Protocol_UDP => "/udp"
      | Protocol_TCP => "/tcp"
      | Protocol_SCTP => "/sctp"
      | Protocol_Other _ => "/tcp"
      end.

Definition host_binding (port : PortMapping) : PortBinding :=
  mkPortBinding (pm_HostIp port) (itoa (pm_HostPort port)).

(** The body of the loop of [MakePortsAndBindings]. *)
Definition add_port (acc : gset string * gmap string (list PortBinding)) (port : PortMapping)
  : gset string * gmap string (list PortBinding) :=
  let '(exposedPorts, portBindings) := acc in
  if decide (pm_HostPort port = 0%Z) then acc
  else
    let dockerPort := docker_port port in
    let hostBinding := host_binding port in
    ({[ dockerPort ]} ∪ exposedPorts,
     match portBindings !! dockerPort with
     | Some existedBindings => <[dockerPort := existedBindings ++ [hostBinding]]> portBindings
     | None => <[dockerPort := [hostBinding]]> portBindings
     end).

Definition MakePortsAndBindings (pm : list PortMapping)
  : gset string * gmap string (list PortBinding) :=
  foldl add_port (∅, ∅) pm.

(** ** The docker API and the client over it *)

(** The state of the request's context after the call. *)
Inductive ctx_err := CtxNone | CtxDeadlineExceeded | CtxCanceled.

(** The docker API calls the client makes, each with the context's state after
    it; the second argument of a call with a deadline is its timeout. *)
Class DockerAPI (W : Type) := {
  ContainerList : Z -> ListOptions -> M W (res (list DockerContainer) * ctx_err);
  ContainerInspect : Z -> string -> M W (res ContainerJSON * ctx_err);
  ContainerCreate : Z -> ContainerCreateConfig -> M W (res string * ctx_err);
  ContainerStart : Z -> string -> M W (res unit * ctx_err);
  ContainerStop : Z -> string -> Z -> M W (res unit * ctx_err);
  ContainerRemove : Z -> string -> RemoveOptions -> M W (res unit * ctx_err);
  ContainerUpdate : Z -> string -> Resources -> M W (res unit * ctx_err);
  ImageInspectWithRaw : Z -> string -> M W (res ImageInspect * ctx_err);
  ImageList : Z -> ImageListOptions -> M W (res (list ImageSummary) * ctx_err);
  ImageRemove : Z -> string -> M W (res unit * ctx_err);
  ServerVersion : Z -> M W (res DockerVersion * ctx_err);
  ServerInfo : Z -> M W (res DockerInfo * ctx_err);
  ContainerExecCreate : Z -> string -> ExecOptions -> M W (res string * ctx_err);
  ContainerExecInspect : Z -> string -> M W (res ExecInspect * ctx_err);
  API_ImageHistory : Z -> string -> M W (res (list HistoryResponseItem) * ctx_err);
}.

(** [DockerClientInterface] (client.go), the calls the service makes outside
    of streaming: what the client promises the service. *)
Class DockerClient (W : Type) := {
  ListContainers : ListOptions -> M W (res (list DockerContainer));
  InspectContainer : string -> M W (res ContainerJSON);
  CreateContainer : ContainerCreateConfig -> M W (res string);
  StartContainer : string -> M W (res unit);
  StopContainer : string -> Z -> M W (res unit);
  UpdateContainerResources : string -> Resources -> M W (res unit);
  RemoveContainer : string -> RemoveOptions -> M W (res unit);
  InspectImageByRef : string -> M W (res ImageInspect);
  InspectImageByID : string -> M W (res ImageInspect);
  ListImages : ImageListOptions -> M W (res (list ImageSummary));
  PullImage : string -> AuthConfig -> M W (res unit);
  RemoveImage : string -> M W (res unit);
  ImageHistory : string -> M W (res (list HistoryResponseItem));
  Version : M W (res DockerVersion);
  Info : M W (res DockerInfo);
  CreateExec : string -> ExecOptions -> M W (res string);
  InspectExec : string -> M W (res ExecInspect);
}.

Definition MinimumDockerAPIVersion : string := "1.42.0".
Definition StatusRunningPrefix : string := "Up".
Definition StatusCreatedPrefix : string := "Created".
Definition StatusExitedPrefix : string := "Exited".

Definition Second_ns : Z := 1000000000%Z.
Definition defaultTimeout : Z := (119 * Second_ns)%Z.
Definition defaultShmSize : Z := 67108864%Z.

Record kubeDockerClient := mkKubeDockerClient {
  kc_timeout : Z;
  kc_imagePullProgressDeadline : Z;
}.

Definition newKubeDockerClient (requestTimeout imagePullProgressDeadline : Z) : kubeDockerClient :=
  mkKubeDockerClient (if (requestTimeout =? 0)%Z then defaultTimeout else requestTimeout)
    imagePullProgressDeadline.

(** [contextError]. *)
Definition contextError (c : ctx_err) : option error :=
  match c with
  | CtxNone => None
  | CtxDeadlineExceeded => Some (operationTimeout (Sentinel DeadlineExceeded))
  | CtxCanceled => Some (Sentinel Canceled)
  end.

(** [dockerapi.IsErrNotFound]. *)
Definition IsErrNotFound (e : error) : bool :=
  match e with DockerError nf _ => nf | _ => false end.

Section Client.
Context {W : Type} `{DockerAPI W} `{RefParser}.

(** [if ctxErr := contextError(ctx); ctxErr != nil { return nil, ctxErr };
    if err != nil { return nil, err }; return &resp, nil]. *)
Definition checked {A} (call : M W (res A * ctx_err)) : M W (res A) :=
  let* '(r, c) := call in
  ret (match contextError c with Some ctxErr => Err ctxErr | None => r end).

Variable d : kubeDockerClient.

Definition kc_ListContainers (options : ListOptions) : M W (res (list DockerContainer)) :=
  checked (ContainerList (kc_timeout d) options).
Definition kc_InspectContainer (id : string) : M W (res ContainerJSON) :=
  checked (ContainerInspect (kc_timeout d) id).

Definition set_ShmSize (opts : ContainerCreateConfig) (size : Z) : ContainerCreateConfig :=
  let hc := ccc_HostConfig opts in
  mkContainerCreateConfig (ccc_Name opts) (ccc_Config opts)
    (mkHostConfig (hc_Resources hc) (hc_IpcMode hc) (hc_NetworkMode hc) (hc_PidMode hc)
       (hc_UTSMode hc) (hc_Privileged hc) (hc_ReadonlyRootfs hc) (hc_CapAdd hc) (hc_CapDrop hc)
       (hc_GroupAdd hc) (hc_SecurityOpt hc) (hc_MaskedPaths hc) (hc_ReadonlyPaths hc)
       (hc_Sysctls hc) (hc_PortBindings hc) (hc_OomScoreAdj hc) (hc_Mounts hc)
       (hc_RestartPolicy hc) (hc_Runtime hc) size).

Definition kc_CreateContainer (opts : ContainerCreateConfig) : M W (res string) :=
  let opts' := if (hc_ShmSize (ccc_HostConfig opts) <=? 0)%Z
               then set_ShmSize opts defaultShmSize else opts in
  checked (ContainerCreate (kc_timeout d) opts').

Definition kc_StartContainer (id : string) : M W (res unit) :=
  checked (ContainerStart (kc_timeout d) id).

(** [getCustomTimeoutContext]: the larger of the two timeouts. *)
Definition getCustomTimeout (timeout : Z) : Z :=
  if (timeout <? kc_timeout d)%Z then kc_timeout d else timeout.

Definition kc_StopContainer (id : string) (timeout : Z) : M W (res unit) :=
  let timeoutSeconds := Z.quot timeout Second_ns in
  checked (ContainerStop (getCustomTimeout timeout) id timeoutSeconds).

Definition kc_RemoveContainer (id : string) (opts : RemoveOptions) : M W (res unit) :=
  checked (ContainerRemove (kc_timeout d) id opts).
Definition kc_UpdateContainerResources (id : string) (r : Resources) : M W (res unit) :=
  checked (ContainerUpdate (kc_timeout d) id r).

Definition kc_inspectImageRaw (ref : string) : M W (res ImageInspect) :=
  let* '(r, c) := ImageInspectWithRaw (kc_timeout d) ref in
  ret (match contextError c with
       | Some ctxErr => Err ctxErr
       | None =>
           match r with
           | Err err => if IsErrNotFound err then Err (ImageNotFoundError ref) else Err err
           | Ok resp => Ok resp
           end
       end).

Definition kc_InspectImageByID (imageID : string) : M W (res ImageInspect) :=
  let? resp := kc_inspectImageRaw imageID in
  ret (if matchImageIDOnly resp imageID then Ok resp else Err (ImageNotFoundError imageID)).

Definition kc_InspectImageByRef (imageRef : string) : M W (res ImageInspect) :=
  let? resp := kc_inspectImageRaw imageRef in
  ret (if matchImageTagOrSHA resp imageRef then Ok resp else Err (ImageNotFoundError imageRef)).

Definition kc_ListImages (opts : ImageListOptions) : M W (res (list ImageSummary)) :=
  checked (ImageList (kc_timeout d) opts).

Definition kc_RemoveImage (image : string) : M W (res unit) :=
  let* '(r, c) := ImageRemove (kc_timeout d) image in
  ret (match contextError c with
       | Some ctxErr => Err ctxErr
       | None =>
           match r with
           | Err err => if IsErrNotFound err then Err (ImageNotFoundError image) else Err err
           | Ok resp => Ok resp
           end
       end).

Definition kc_Version : M W (res DockerVersion) := checked (ServerVersion (kc_timeout d)).
Definition kc_Info : M W (res DockerInfo) := checked (ServerInfo (kc_timeout d)).
Definition kc_CreateExec (id : string) (opts : ExecOptions) : M W (res string) :=
  checked (ContainerExecCreate (kc_timeout d) id opts).
Definition kc_InspectExec (id : string) : M W (res ExecInspect) :=
  checked (ContainerExecInspect (kc_timeout d) id).

Definition kc_ImageHistory (id : string) : M W (res (list HistoryResponseItem)) :=
  checked (API_ImageHistory (kc_timeout d) id).

(** The client implements the interface; pulling, whose messages and timers
    are modelled as events below, is passed in. *)
Definition kube_DockerClient (pull : string -> AuthConfig -> M W (res unit)) : DockerClient W := {|
  ListContainers := kc_ListContainers;
  InspectContainer := kc_InspectContainer;
  CreateContainer := kc_CreateContainer;
  StartContainer := kc_StartContainer;
  StopContainer := kc_StopContainer;
  UpdateContainerResources := kc_UpdateContainerResources;
  RemoveContainer := kc_RemoveContainer;
  InspectImageByRef := kc_InspectImageByRef;
  InspectImageByID := kc_InspectImageByID;
  ListImages := kc_ListImages;
  PullImage := pull;
  RemoveImage := kc_RemoveImage;
  ImageHistory := kc_ImageHistory;
  Version := kc_Version;
  Info := kc_Info;
  CreateExec := kc_CreateExec;
  InspectExec := kc_InspectExec;
|}.

End Client.

(** ** Image pulling and its progress reporter *)

(** [jsonmessage.JSONMessage], with its progress already rendered. *)
Record JSONMessage := mkJSONMessage {
  jm_ID : string;
  jm_Status : string;
  jm_Progress : option string;
  jm_Error : option error;
}.

Record progress := mkProgress { pg_message : option JSONMessage; pg_timestamp : Z }.

Definition newProgress (now : Z) : progress := mkProgress None now.
Definition progress_set (msg : JSONMessage) (now : Z) : progress := mkProgress (Some msg) now.

Definition formatProgress (msg : option JSONMessage) : string :=
  match msg with
  | None => "No progress"
  | Some msg =>
      let prefix := if decide (jm_ID msg = "") then "" else jm_ID msg +:+ ": " in
      match jm_Progress msg with
      | None => prefix +:+ jm_Status msg
      | Some p => prefix +:+ jm_Status msg +:+ " " +:+ p
      end
  end.

(** What a tick of the reporter does: go on with [downloaded], cancel the
    pull, or dereference a nil message. *)
Inductive tick_result := TickContinue (downloaded : bool) | TickCancel | TickNilDereference.

Definition reporter_tick (p : progress) (downloaded : bool) (deadline now : Z) : tick_result :=
  match pg_message p with
  | None => TickNilDereference
  | Some msg =>
      let downloaded' := downloaded || String.eqb (jm_Status msg) "Extracting" in
      if negb downloaded' && (deadline <? now - pg_timestamp p)%Z then TickCancel
      else TickContinue downloaded'
  end.

(** The pull and its reporter as one machine.  [pl_reporter] is [None] once
    the reporter goroutine has ended. *)
Inductive pull_outcome := PullRunning | PullReturned (err : option error) | PullCrashed.
Record pull_state := mkPull {
  pl_progress : progress;
  pl_reporter : option bool;
  pl_cancelled : bool;
  pl_outcome : pull_outcome;
}.

(** What can happen next: the decoder yields a message, an error or the end
    of the stream, or the reporter's ticker fires; each at a time. *)
Inductive pull_event :=
| EvMessage (msg : JSONMessage) (now : Z)
| EvDecodeError (err : error)
| EvEOF
| EvTick (now : Z).

Definition pull_step (deadline : Z) (s : pull_state) (ev : pull_event) : pull_state :=
  match pl_outcome s with
  | PullRunning =>
      match ev with
      | EvEOF => mkPull (pl_progress s) None (pl_cancelled s) (PullReturned None)
      | EvDecodeError err => mkPull (pl_progress s) None (pl_cancelled s) (PullReturned (Some err))
      | EvMessage msg now =>
          match jm_Error msg with
          | Some err => mkPull (pl_progress s) None (pl_cancelled s) (PullReturned (Some err))
          | None => mkPull (progress_set msg now) (pl_reporter s) (pl_cancelled s) PullRunning
          end
      | EvTick now =>
          match pl_reporter s with
          | None => s
          | Some downloaded =>
              match reporter_tick (pl_progress s) downloaded deadline now with
              | TickContinue downloaded' =>
                  mkPull (pl_progress s) (Some downloaded') (pl_cancelled s) PullRunning
              | TickCancel => mkPull (pl_progress s) None true PullRunning
              | TickNilDereference => mkPull (pl_progress s) None (pl_cancelled s) PullCrashed
              end
          end
      end
  | _ => s
  end.

Definition pull_start (now : Z) : pull_state :=
  mkPull (newProgress now) (Some false) false PullRunning.

(** [PullImage] after [ImagePull] succeeded. *)
Definition PullImage_run (deadline now : Z) (evs : list pull_event) : pull_state :=
  foldl (pull_step deadline) (pull_start now) evs.

(** ** Theory *)

Lemma digest_eqb_eq d d' : digest_eqb d d' = true <-> d = d'.
Proof.
  unfold digest_eqb. rewrite andb_true_iff, !String.eqb_eq. destruct d, d'; simpl.
  split; [by intros [-> ->]|by intros [= -> ->]].
Qed.

(** The bindings a list of mappings asks for at a docker port. *)
Definition bindings_of (p : string) (pm : list PortMapping) : list PortBinding :=
  host_binding <$> filter (fun m => pm_HostPort m <> 0%Z /\ docker_port m = p) pm.

Lemma bindings_of_snoc p pm m :
  bindings_of p (pm ++ [m])
  = bindings_of p pm
    ++ (if decide (pm_HostPort m <> 0%Z /\ docker_port m = p) then [host_binding m] else []).
Proof.
  unfold bindings_of. rewrite filter_app, fmap_app. f_equal.
  rewrite filter_cons, filter_nil. by case_decide.
Qed.

Definition ports_spec (pm : list PortMapping)
  (r : gset string * gmap string (list PortBinding)) : Prop :=
  r.1 = dom r.2
  /\ forall p, r.2 !! p = match bindings_of p pm with [] => None | l => Some l end.

Lemma add_port_spec pm m r : ports_spec pm r -> ports_spec (pm ++ [m]) (add_port r m).
Proof.
  destruct r as [ex pb]. intros [Hd Hl]. simpl in Hd, Hl. unfold add_port.
  case_decide as Hz.
  - split; [done|]. intros p. simpl. rewrite bindings_of_snoc, decide_False by tauto.
    by rewrite app_nil_r.
  - assert (forall l, {[docker_port m]} ∪ ex = dom (<[docker_port m := l]> pb)) as Hdom.
    { intros l. rewrite dom_insert_L. by rewrite Hd. }
    split; simpl.
    + by destruct (pb !! docker_port m).
    + intros p. rewrite bindings_of_snoc. destruct (decide (docker_port m = p)) as [<-|Hne].
      * rewrite (decide_True (P := _ /\ _)) by done. rewrite Hl.
        destruct (bindings_of (docker_port m) pm) as [|b l]; by rewrite lookup_insert_eq.
      * rewrite (decide_False (P := _ /\ _)) by tauto. rewrite app_nil_r, <- Hl.
        destruct (pb !! docker_port m); by rewrite lookup_insert_ne.
Qed.

Lemma MakePortsAndBindings_spec pm : ports_spec pm (MakePortsAndBindings pm).
Proof.
  induction pm as [|m pm IH] using rev_ind.
  - split; [done|]. intros p. apply lookup_empty.
  - unfold MakePortsAndBindings. rewrite foldl_app. simpl. by apply add_port_spec.
Qed.

Lemma mount_bindings_spec b mounts :
  mount_bindings b mounts
  = match omap (rro_error b) mounts with
    | [] => Ok (bind_mount <$> mounts)
    | err :: _ => Err err
    end.
Proof.
  induction mounts as [|m mounts IH]; csimpl; [done|].
  destruct (rro_error b m); [done|]. rewrite IH. by destruct (omap (rro_error b) mounts).
Qed.

Lemma PullImage_run_snoc deadline now evs ev :
  PullImage_run deadline now (evs ++ [ev]) = pull_step deadline (PullImage_run deadline now evs) ev.
Proof. unfold PullImage_run. by rewrite foldl_app. Qed.

(** Once a message was received the machine never crashes. *)
Lemma pull_step_safe deadline s ev :
  pg_message (pl_progress s) <> None -> pl_outcome s <> PullCrashed ->
  pg_message (pl_progress (pull_step deadline s ev)) <> None
  /\ pl_outcome (pull_step deadline s ev) <> PullCrashed.
Proof.
  intros Hm Ho. unfold pull_step, reporter_tick. destruct s as [p r c o]; simpl in *.
  destruct o; simpl; auto. destruct ev; simpl; auto.
  - destruct (jm_Error msg); simpl; auto.
  - destruct r as [dl|]; simpl; auto. destruct (pg_message p) as [msg|] eqn:E; [|done].
    by destruct (negb _ && _); simpl; rewrite E.
Qed.

Lemma pull_steps_safe deadline s evs :
  pg_message (pl_progress s) <> None -> pl_outcome s <> PullCrashed ->
  pl_outcome (foldl (pull_step deadline) s evs) <> PullCrashed.
Proof.
  revert s. induction evs as [|ev evs IH]; intros s Hm Ho; simpl; [done|].
  destruct (pull_step_safe deadline s ev Hm Ho). by apply IH.
Qed.

(** ** Properties *)

(** Port mappings become exactly the docker bindings they ask for: the
    exposed ports are the bound ports, and a docker port is bound to the host
    address and port of every mapping with a host port for it, in the order
    given; mappings without a host port are left out. *)
Theorem ports_and_bindings_exact (pm : list PortMapping) :
  let '(exposedPorts, portBindings) := MakePortsAndBindings pm in
  exposedPorts = dom portBindings
  /\ (forall p, default [] (portBindings !! p) = bindings_of p pm)
  /\ (forall p, portBindings !! p <> Some [])
  /\ (forall p, p ∈ exposedPorts <->
        exists m, m ∈ pm /\ pm_HostPort m <> 0%Z /\ docker_port m = p).
Proof.
  pose proof (MakePortsAndBindings_spec pm) as Hs.
  destruct (MakePortsAndBindings pm) as [ex pb]. destruct Hs as [Hd Hl]. simpl in Hd, Hl.
  split_and!; [done|..]; intros p.
  - rewrite Hl. by destruct (bindings_of p pm).
  - rewrite Hl. by destruct (bindings_of p pm).
  - rewrite Hd, elem_of_dom, Hl. unfold bindings_of.
    destruct (filter _ pm) as [|m l] eqn:E; simpl.
    + split; [by intros [? ?]|]. intros (m & Hm & Hp).
      assert (m ∈ filter (fun m => pm_HostPort m <> 0%Z /\ docker_port m = p) pm) as Hin
        by by apply list_elem_of_filter.
      rewrite E in Hin. set_solver.
    + split; [|eauto]. intros _. exists m.
      assert (m ∈ filter (fun m => pm_HostPort m <> 0%Z /\ docker_port m = p) pm) as Hin
        by (rewrite E; set_solver).
      apply list_elem_of_filter in Hin. tauto.
Qed.

(** Mount bindings are generated for all mounts or for none: they fail
    exactly when some recursive read-only mount is not allowed, with the error
    of the first such mount; otherwise there is one bind mount per mount, in
    order, and each is recursive read-only only where that was asked for. *)
Theorem mount_bindings_exact (mounts : list Mount) (tmp : string) (h : option RuntimeHandler) :
  let rro := from_option rh_RecursiveReadOnlyMounts false h in
  (match GenerateMountBindings mounts tmp h with
   | Ok result => Forall (fun m => rro_error rro m = None) mounts
                  /\ Forall2 (fun m b => dm_Source b = m_HostPath m /\ dm_Target b = m_ContainerPath m
                       /\ dm_ReadOnly b = m_Readonly m
                       /\ (bo_ReadOnlyNonRecursive (dm_BindOptions b) = false /\ dm_ReadOnly b = true
                           <-> m_RecursiveReadOnly m = true)) mounts result
   | Err err => exists m ms ms', mounts = ms ++ m :: ms'
                  /\ Forall (fun m => rro_error rro m = None) ms /\ rro_error rro m = Some err
   end).
Proof.
  intros rro. unfold GenerateMountBindings. fold rro.
  induction mounts as [|m mounts IH]; simpl; [repeat constructor|].
  destruct (rro_error rro m) as [err|] eqn:E.
  - exists m, [], mounts. by split_and!.
  - destruct (mount_bindings rro mounts) as [result|err].
    + destruct IH as [H1 H2]. split; [by constructor|]. constructor; [|done].
      unfold rro_error in E. simpl. split_and!; try done.
      destruct (m_RecursiveReadOnly m); [|destruct (m_Readonly m); simpl; naive_solver].
      destruct (negb rro); [done|]. case_decide; [done|].
      destruct (m_Readonly m); simpl in *; done.
    + destruct IH as (m' & ms & ms' & -> & H1 & H2). exists m', (m :: ms), ms'.
      split_and!; try done. by constructor.
Qed.

(** A reference by digest alone matches an image exactly when the digest is
    that of one of the image's repo digests or of its ID; a reference with
    neither tag nor digest matches whatever was inspected; an unparsable one
    matches nothing. *)
Theorem match_digest_reference `{RefParser} (inspected : ImageInspect) (image : string) :
  match ParseNormalizedNamed image with
  | Err _ => matchImageTagOrSHA inspected image = false
  | Ok (mkNamed false None _ _ _) => matchImageTagOrSHA inspected image = true
  | Ok (mkNamed false (Some d) _ _ _) =>
      matchImageTagOrSHA inspected image = true
      <-> (exists rd n, rd ∈ ii_RepoDigests inspected /\ ParseNormalizedNamed rd = Ok n
                        /\ nm_Digest n = Some d)
          \/ DigestParse (ii_ID inspected) = Some d
  | Ok (mkNamed true _ _ _ _) => True
  end.
Proof.
  unfold matchImageTagOrSHA. destruct (ParseNormalizedNamed image) as [[[|] [d|] s tg nm]|]; try done.
  simpl. destruct (existsb (repo_digest_matches d) (ii_RepoDigests inspected)) eqn:E.
  - split; [|done]. intros _. left. apply existsb_exists in E as (rd & Hin & Hm).
    unfold repo_digest_matches in Hm. destruct (ParseNormalizedNamed rd) as [n|] eqn:En; [|done].
    destruct (nm_Digest n) as [d'|] eqn:Ed; [|done]. apply digest_eqb_eq in Hm as ->.
    exists rd, n. by rewrite list_elem_of_In.
  - split.
    + destruct (DigestParse (ii_ID inspected)); [|done]. intros ->%digest_eqb_eq. by right.
    + intros [(rd & n & Hin & Hn & Hd)| ->]; [|by apply digest_eqb_eq].
      assert (existsb (repo_digest_matches d) (ii_RepoDigests inspected) = true); [|congruence].
      apply existsb_exists. exists rd. split; [by apply list_elem_of_In|].
      unfold repo_digest_matches. rewrite Hn, Hd. by apply digest_eqb_eq.
Qed.

(** The client never hides a timeout behind an answer: a call whose context
    expired or was cancelled fails with that error even if docker answered, an
    image error that docker classifies as not found becomes
    ImageNotFoundError, and a container is never stopped with a deadline
    shorter than the requested grace period or the client's own timeout. *)
Theorem client_timeouts_win {W} `{DockerAPI W} `{RefParser} (d : kubeDockerClient)
  (id : string) (timeout : Z) (w : W) :
  (snd (fst (ContainerInspect (kc_timeout d) id w)) = CtxDeadlineExceeded ->
   fst (kc_InspectContainer d id w) = Err (operationTimeout (Sentinel DeadlineExceeded)))
  /\ (snd (fst (ImageInspectWithRaw (kc_timeout d) id w)) = CtxDeadlineExceeded ->
      fst (kc_InspectImageByRef d id w) = Err (operationTimeout (Sentinel DeadlineExceeded)))
  /\ (forall msg, fst (fst (ImageInspectWithRaw (kc_timeout d) id w)) = Err (DockerError true msg) ->
      snd (fst (ImageInspectWithRaw (kc_timeout d) id w)) = CtxNone ->
      fst (kc_InspectImageByRef d id w) = Err (ImageNotFoundError id)
      /\ IsImageNotFoundError (ImageNotFoundError id) = true)
  /\ (timeout <= getCustomTimeout d timeout)%Z
  /\ (kc_timeout d <= getCustomTimeout d timeout)%Z.
Proof.
  unfold kc_InspectContainer, kc_InspectImageByRef, kc_inspectImageRaw, checked, try, bind, ret.
  destruct (ContainerInspect (kc_timeout d) id w) as [[r1 c1] w1].
  destruct (ImageInspectWithRaw (kc_timeout d) id w) as [[r2 c2] w2]. simpl.
  split_and!.
  - by intros ->.
  - by intros ->.
  - by intros msg -> ->.
  - unfold getCustomTimeout. destruct (Z.ltb_spec timeout (kc_timeout d)); lia.
  - unfold getCustomTimeout. destruct (Z.ltb_spec timeout (kc_timeout d)); lia.
Qed.

(** The progress reporter of an image pull dereferences a nil message when
    its ticker fires before the first message of the stream, which takes the
    process down; from the first message on it cannot happen. *)
Theorem pull_tick_before_first_message (deadline now t : Z) (msg : JSONMessage)
  (evs : list pull_event) :
  pl_outcome (PullImage_run deadline now [EvTick t]) = PullCrashed
  /\ (jm_Error msg = None ->
      pl_outcome (PullImage_run deadline now (EvMessage msg t :: evs)) <> PullCrashed).
Proof.
  split; [done|]. intros Hm. unfold PullImage_run. simpl. unfold pull_step at 2. simpl. rewrite Hm.
  by apply pull_steps_safe.
Qed.

Lemma pull_tick_before_first_message_witness :
  let msg := mkJSONMessage "3f2a" "Downloading" None None in
  pl_outcome (PullImage_run 60 0 [EvTick 10]) = PullCrashed
  /\ pl_outcome (PullImage_run 60 0 [EvMessage msg 1; EvTick 100]) <> PullCrashed.
Proof.
  intros msg. destruct (pull_tick_before_first_message 60 0 10 msg []) as [H1 _].
  split; [exact H1|].
  exact (proj2 (pull_tick_before_first_message 60 0 1 msg [EvTick 100]) eq_refl).
Defined.

(** A docker engine that answers nothing in time, except about images it does
    not have. *)
#[local] Instance stuck_docker : DockerAPI unit :=
  let stuck A : M unit (res A * ctx_err) := fun w => ((Err (DockerError false "canceled"), CtxDeadlineExceeded), w) in
  {| ContainerList := fun _ _ => stuck _; ContainerInspect := fun _ _ => stuck _;
     ContainerCreate := fun _ _ => stuck _; ContainerStart := fun _ _ => stuck _;
     ContainerStop := fun _ _ _ => stuck _; ContainerRemove := fun _ _ _ => stuck _;
     ContainerUpdate := fun _ _ _ => stuck _;
     ImageInspectWithRaw := fun _ _ w => ((Err (DockerError true "No such image"), CtxNone), w);
     ImageList := fun _ _ => stuck _; ImageRemove := fun _ _ => stuck _;
     ServerVersion := fun _ => stuck _; ServerInfo := fun _ => stuck _;
     ContainerExecCreate := fun _ _ _ => stuck _; ContainerExecInspect := fun _ _ => stuck _; API_ImageHistory := fun _ _ => stuck _ |}.
#[local] Instance no_refs : RefParser :=
  {| ParseNormalizedNamed := fun _ => Err (Errorf "invalid reference format"); RefParse := fun _ => None; DigestParse := fun _ => None |}.

Lemma client_timeouts_win_witness :
  let d := newKubeDockerClient 0 60 in
  fst (kc_InspectContainer d "c1" tt) = Err (operationTimeout (Sentinel DeadlineExceeded))
  /\ fst (kc_InspectImageByRef d "c1" tt) = Err (ImageNotFoundError "c1")
  /\ (defaultTimeout <= getCustomTimeout d (10 * Second_ns))%Z.
Proof.
  intros d. destruct (client_timeouts_win d "c1" (10 * Second_ns) tt) as (H1 & _ & H3 & _ & H5).
  split; [exact (H1 eq_refl)|]. split; [exact (proj1 (H3 "No such image" eq_refl eq_refl))|exact H5].
Defined.
