(* ===== verification/PluginManager.v ===== *)
(** * PluginManager: network plugins behind per-pod locks

    network/plugins.go: the [NetworkPlugin] interface, the choice of a plugin,
    the no-op plugin, the pod IP lookup, and the [PluginManager], whose pod
    locks are modelled as the interleaved steps of any number of goroutines. *)
From S2P Require Import Prelude GoErrors Cri Naming.

(** ** The plugin interface *)

(** [PodNetworkStatus], IPs in their printed form. *)
Record PodNetworkStatus := mkPodNetworkStatus { pns_IP : string; pns_IPs : list string }.

Class NetworkPlugin (W : Type) := {
  Plugin_Name : string;
  Plugin_SetUpPod : string -> string -> ContainerID -> gmap string string -> gmap string string ->
    M W (res unit);
  Plugin_TearDownPod : string -> string -> ContainerID -> M W (res unit);
  Plugin_GetPodNetworkStatus : string -> string -> ContainerID -> M W (res (option PodNetworkStatus));
  Plugin_Status : M W (res unit);
  Plugin_Event : string -> gmap string string -> M W unit;
}.
#[global] Hint Mode NetworkPlugin + : typeclass_instances.
Arguments Plugin_Name W {_}.

Definition DefaultPluginName : string := "kubernetes.io/no-op".

(** The no-op plugin. *)
Definition NoopNetworkPlugin (W : Type) : NetworkPlugin W := {|
  Plugin_Name := DefaultPluginName;
  Plugin_SetUpPod := fun _ _ _ _ _ => ret (Ok tt);
  Plugin_TearDownPod := fun _ _ _ => ret (Ok tt);
  Plugin_GetPodNetworkStatus := fun _ _ _ => ret (Ok None);
  Plugin_Status := ret (Ok tt);
  Plugin_Event := fun _ _ => ret tt;
|}.

(** ** Choosing a plugin *)

(** The loop over the probed plugins, by name: the first index of each valid
    name and the errors met.  [IsQualifiedName] (apimachinery) returns the
    defects of a name. *)
Fixpoint register_plugins (IsQualifiedName : string -> list string) (i : nat) (names : list string)
  (pluginMap : gmap string nat) (allErrs : list error) : gmap string nat * list error :=
  match names with
  | [] => (pluginMap, allErrs)
  | name :: names' =>
      match IsQualifiedName name with
      | [] =>
          match pluginMap !! name with
          | Some _ =>
              register_plugins IsQualifiedName (S i) names' pluginMap
                (allErrs ++ [Errorf ("network plugin " +:+ quote name
                                     +:+ " was registered more than once")])
          | None =>
              register_plugins IsQualifiedName (S i) names' (<[name := i]> pluginMap) allErrs
          end
      | errs =>
          register_plugins IsQualifiedName (S i) names' pluginMap
            (allErrs ++ [Errorf ("network plugin has invalid name: " +:+ quote name
                                 +:+ ": " +:+ join errs ";")])
      end
  end.

(** The plugin returned (the no-op plugin or an index) and the error; the
    initialisations of the no-op plugin and of the probed ones act on what the
    plugins share. *)
Inductive chosen := ChosenNoop | ChosenPlugin (i : nat) | ChosenNone.

Definition InitNetworkPlugin {S} (IsQualifiedName : string -> list string) (names : list string)
  (noop_Init : M S (res unit)) (Init : nat -> M S (res unit)) (networkPluginName : string)
  : M S (chosen * option error) :=
  if decide (networkPluginName = "" \/ networkPluginName = "no-op") then
    let* r := noop_Init in
    ret (match r with Ok _ => (ChosenNoop, None) | Err err => (ChosenNone, Some err) end)
  else
    let '(pluginMap, allErrs) := register_plugins IsQualifiedName 0 names ∅ [] in
    match pluginMap !! networkPluginName with
    | Some i =>
        let* r := Init i in
        let allErrs' := match r with
                        | Ok _ => allErrs
                        | Err err => allErrs ++ [Errorf ("network plugin " +:+ quote networkPluginName
                                                         +:+ " failed init: " +:+ Error err)]
                        end in
        ret (ChosenPlugin i, NewAggregate (Some <$> allErrs'))
    | None =>
        ret (ChosenNone, NewAggregate (Some <$> (allErrs ++
           [Errorf ("network plugin " +:+ quote networkPluginName +:+ " not found")])))
    end.

(** ** Pod IPs *)

(** [GetPodIPs] over [getOnePodIP] for an address type. *)
Definition GetPodIPs {W} (IPv6DualStackEnabled : bool) (getOnePodIP : string -> M W (res string))
  : M W (res (list string)) :=
  if negb IPv6DualStackEnabled then
    let* r := getOnePodIP "-4" in
    let* r' := match r with Ok ip => ret (Ok ip) | Err _ => getOnePodIP "-6" end in
    ret (match r' with Ok ip => Ok [ip] | Err err => Err err end)
  else
    let* r4 := getOnePodIP "-4" in
    let* r6 := getOnePodIP "-6" in
    ret (match r4, r6 with
         | Ok a, Ok b => Ok [a; b]
         | Ok a, Err _ => Ok [a]
         | Err _, Ok b => Ok [b]
         | Err e4, Err e6 => Err (aggregate [e4; e6])
         end).

(** ** The manager's operations (the locks are below) *)

Definition buildPodFullName (name namespace : string) : string := name +:+ "_" +:+ namespace.

Section Manager.
Context {W : Type} `{NetworkPlugin W}.

Definition pm_PluginName : string := Plugin_Name W.

Definition pm_GetPodNetworkStatus (podNamespace podName : string) (id : ContainerID)
  : M W (res (option PodNetworkStatus)) :=
  let fullPodName := buildPodFullName podName podNamespace in
  let* r := Plugin_GetPodNetworkStatus podNamespace podName id in
  ret (match r with
       | Err err => Err (Errorf ("networkPlugin " +:+ Plugin_Name W
                                 +:+ " failed on the status hook for pod " +:+ quote fullPodName
                                 +:+ ": " +:+ Error err))
       | Ok netStatus => Ok netStatus
       end).

Definition pm_SetUpPod (podNamespace podName : string) (id : ContainerID)
  (annotations options : gmap string string) : M W (res unit) :=
  let fullPodName := buildPodFullName podName podNamespace in
  let* r := Plugin_SetUpPod podNamespace podName id annotations options in
  ret (match r with
       | Err err => Err (Errorf ("networkPlugin " +:+ Plugin_Name W
                                 +:+ " failed to set up pod " +:+ quote fullPodName
                                 +:+ " network: " +:+ Error err))
       | Ok _ => Ok tt
       end).

Definition pm_TearDownPod (podNamespace podName : string) (id : ContainerID) : M W (res unit) :=
  let fullPodName := buildPodFullName podName podNamespace in
  let* r := Plugin_TearDownPod podNamespace podName id in
  ret (match r with
       | Err err => Err (Errorf ("networkPlugin " +:+ Plugin_Name W
                                 +:+ " failed to teardown pod " +:+ quote fullPodName
                                 +:+ " network: " +:+ Error err))
       | Ok _ => Ok tt
       end).

Definition pm_Status : M W (res unit) := Plugin_Status.
Definition pm_Event (name : string) (details : gmap string string) : M W unit :=
  Plugin_Event name details.

End Manager.

(** ** Pod locks *)

(** A [podLock] in the heap: its reference count and whether its mutex is
    held.  Every operation on one pod runs [podLock(name).Lock()], the plugin
    call, and [podUnlock(name)]; a goroutine is before the first, between
    [podLock] and [Lock] (holding a pointer to the lock), inside the plugin
    call, or done. *)
Record podLockObj := mkPodLock { refcount : nat; mu_held : bool }.
Inductive pc := PStart | PWaiting (l : nat) | PRunning (l : nat) | PDone.

Record pm_state := mkPM {
  pm_pods : gmap string nat;
  pm_heap : gmap nat podLockObj;
  pm_next : nat;
  pm_threads : list (string * pc);
  pm_fatal : bool;
}.

(** [podLock]: under [podsLock], find or make the pod's lock and count one
    more reference; the pointer returned. *)
Definition podLock (fullPodName : string) (s : pm_state) : nat * pm_state :=
  match pm_pods s !! fullPodName with
  | Some l =>
      (l, mkPM (pm_pods s)
            (alter (fun k => mkPodLock (S (refcount k)) (mu_held k)) l (pm_heap s))
            (pm_next s) (pm_threads s) (pm_fatal s))
  | None =>
      let l := pm_next s in
      (l, mkPM (<[fullPodName := l]> (pm_pods s)) (<[l := mkPodLock 1 false]> (pm_heap s))
            (S l) (pm_threads s) (pm_fatal s))
  end.

(** [podUnlock]: under [podsLock], drop a reference to the lock the map has
    now, unlock it, and forget it when it was the last.  Unlocking a mutex
    that is not held is a fatal error of the Go runtime. *)
Definition podUnlock (fullPodName : string) (s : pm_state) : pm_state :=
  match pm_pods s !! fullPodName with
  | None => s
  | Some l =>
      match pm_heap s !! l with
      | None => s
      | Some lock =>
          match refcount lock with
          | O => mkPM (delete fullPodName (pm_pods s)) (pm_heap s) (pm_next s) (pm_threads s) (pm_fatal s)
          | S rc =>
              mkPM (if Nat.eqb rc 0 then delete fullPodName (pm_pods s) else pm_pods s)
                (<[l := mkPodLock rc false]> (pm_heap s)) (pm_next s) (pm_threads s)
                (pm_fatal s || negb (mu_held lock))
          end
      end
  end.

Definition set_pc (i : nat) (n : string) (p : pc) (s : pm_state) : pm_state :=
  mkPM (pm_pods s) (pm_heap s) (pm_next s) (<[i := (n, p)]> (pm_threads s)) (pm_fatal s).

(** The step of goroutine [i], if it can take one ([Lock] blocks while the
    mutex is held). *)
Definition pm_step_at (i : nat) (s : pm_state) : option pm_state :=
  match pm_threads s !! i with
  | Some (n, PStart) => let '(l, s') := podLock n s in Some (set_pc i n (PWaiting l) s')
  | Some (n, PWaiting l) =>
      match pm_heap s !! l with
      | Some (mkPodLock rc false) =>
          Some (set_pc i n (PRunning l)
                  (mkPM (pm_pods s) (<[l := mkPodLock rc true]> (pm_heap s)) (pm_next s)
                     (pm_threads s) (pm_fatal s)))
      | _ => None
      end
  | Some (n, PRunning _) => Some (set_pc i n PDone (podUnlock n s))
  | _ => None
  end.

Inductive pm_step : pm_state -> pm_state -> Prop :=
| pm_step_intro i s s' : pm_step_at i s = Some s' -> pm_step s s'.

(** A manager with no locks and one goroutine per operation to run. *)
Definition pm_init (names : list string) : pm_state :=
  mkPM ∅ ∅ 0 ((fun n => (n, PStart)) <$> names) false.

(** ** Theory of the pod locks *)

Definition b2n (b : bool) : nat := if b then 1 else 0.
Fixpoint count {A} (f : A -> bool) (l : list A) : nat :=
  match l with [] => 0 | x :: l' => b2n (f x) + count f l' end.

Lemma count_insert {A} (f : A -> bool) l i x y :
  l !! i = Some x -> (count f (<[i := y]> l) + b2n (f x) = count f l + b2n (f y))%nat.
Proof.
  revert i. induction l as [|z l IH]; intros [|i] Hi; simplify_eq/=; [lia|].
  specialize (IH i Hi). lia.
Qed.

Lemma count_pos {A} (f : A -> bool) l i x :
  l !! i = Some x -> f x = true -> (0 < count f l)%nat.
Proof.
  revert i. induction l as [|z l IH]; intros [|i] Hi Hf; simplify_eq/=.
  - rewrite Hf. simpl. lia.
  - specialize (IH i Hi Hf). lia.
Qed.

Lemma count_zero {A} (f : A -> bool) l :
  (forall i x, l !! i = Some x -> f x = false) -> count f l = 0%nat.
Proof.
  induction l as [|z l IH]; intros Hf; simpl; [done|].
  rewrite (Hf 0%nat z eq_refl). apply IH. intros i x. apply (Hf (S i)).
Qed.

Lemma count_witness {A} (f : A -> bool) l :
  (0 < count f l)%nat -> exists i x, l !! i = Some x /\ f x = true.
Proof.
  induction l as [|z l IH]; simpl; [lia|]. destruct (f z) eqn:E.
  - intros _. by exists 0%nat, z.
  - intros Hc. destruct IH as (i & x & Hi & Hx); [simpl in Hc; lia|]. by exists (S i), x.
Qed.

Lemma count_le_one {A} (f : A -> bool) l i j x y :
  (count f l <= 1)%nat -> l !! i = Some x -> l !! j = Some y -> f x = true -> f y = true -> i = j.
Proof.
  revert i j. induction l as [|z l IH]; intros [|i] [|j] Hc Hi Hj Hx Hy; simplify_eq/=; [done|..].
  - pose proof (count_pos f l j y Hj Hy). rewrite Hx in Hc. simpl in Hc. lia.
  - pose proof (count_pos f l i x Hi Hx). rewrite Hy in Hc. simpl in Hc. lia.
  - f_equal. eapply IH; eauto. lia.
Qed.

(** The goroutine uses lock [l]; it is inside the plugin call under [l]. *)
Definition on_lock (l : nat) (t : string * pc) : bool :=
  match t.2 with PWaiting l' | PRunning l' => Nat.eqb l' l | _ => false end.
Definition in_call (l : nat) (t : string * pc) : bool :=
  match t.2 with PRunning l' => Nat.eqb l' l | _ => false end.

Record pm_inv (s : pm_state) : Prop := {
  pi_ptr : forall i n p l, pm_threads s !! i = Some (n, p) -> on_lock l (n, p) = true ->
             pm_pods s !! n = Some l;
  pi_lock : forall n l, pm_pods s !! n = Some l ->
             exists k, pm_heap s !! l = Some k
               /\ refcount k = count (on_lock l) (pm_threads s) /\ refcount k <> 0%nat
               /\ b2n (mu_held k) = count (in_call l) (pm_threads s);
  pi_inj : forall n n' l, pm_pods s !! n = Some l -> pm_pods s !! n' = Some l -> n = n';
  pi_next : forall n l, pm_pods s !! n = Some l -> (l < pm_next s)%nat;
  pi_fatal : pm_fatal s = false;
}.

Lemma on_lock_waiting l n l' : on_lock l (n, PWaiting l') = true <-> l' = l.
Proof. unfold on_lock; simpl. apply Nat.eqb_eq. Qed.
Lemma on_lock_running l n l' : on_lock l (n, PRunning l') = true <-> l' = l.
Proof. unfold on_lock; simpl. apply Nat.eqb_eq. Qed.

Lemma b2n_eqb_ne l l' : l <> l' -> b2n (Nat.eqb l l') = 0%nat.
Proof. intros Hn. by rewrite (proj2 (Nat.eqb_neq _ _) Hn). Qed.

(** The reference held by a goroutine, after another one moved. *)
Lemma pm_threads_insert_cases s i n p j n' p' :
  <[i := (n, p)]> (pm_threads s) !! j = Some (n', p') ->
  (i = j /\ n = n' /\ p = p') \/ (i <> j /\ pm_threads s !! j = Some (n', p')).
Proof.
  destruct (decide (i = j)) as [->|Hne].
  - intros Hl. assert (is_Some (pm_threads s !! j)) as [x Hx].
    { apply lookup_lt_is_Some_2. rewrite <- (length_insert (pm_threads s) j (n, p)).
      apply lookup_lt_is_Some_1. eauto. }
    rewrite list_lookup_insert_eq in Hl by (eapply lookup_lt_Some; eauto). naive_solver.
  - rewrite list_lookup_insert_ne by done. auto.
Qed.

Lemma pm_inv_start i n s :
  pm_inv s -> pm_threads s !! i = Some (n, PStart) ->
  pm_inv (let '(l, s') := podLock n s in set_pc i n (PWaiting l) s').
Proof.
  intros Hinv Hi. unfold podLock. destruct (pm_pods s !! n) as [l|] eqn:En.
  - (* the pod's lock exists *)
    constructor; simpl.
    + intros j n' p' l' Hj Hon. apply pm_threads_insert_cases in Hj as [(-> & <- & <-)|(Hne & Hj)].
      * apply on_lock_waiting in Hon as <-. done.
      * by eapply (pi_ptr s Hinv).
    + intros n' l' Hn'. destruct (pi_lock s Hinv n' l' Hn') as (k & Hk & Hr & Hnz & Hm).
      pose proof (count_insert (on_lock l') _ i _ (n, PWaiting l) Hi) as Hc1.
      pose proof (count_insert (in_call l') _ i _ (n, PWaiting l) Hi) as Hc2.
      unfold on_lock at 2 4 in Hc1. unfold in_call at 2 4 in Hc2. simpl in Hc1, Hc2.
      destruct (decide (l' = l)) as [->|Hne].
      * eexists. split; [by rewrite lookup_alter_eq, Hk|]. simpl.
        rewrite Nat.eqb_refl in Hc1. simpl in Hc1. split_and!; [lia|lia|lia].
      * exists k. rewrite lookup_alter_ne by done. rewrite b2n_eqb_ne in Hc1 by done.
        split_and!; [done|lia|lia|lia].
    + apply Hinv.
    + apply Hinv.
    + apply Hinv.
  - (* a new lock *)
    assert (forall j x, pm_threads s !! j = Some x -> on_lock (pm_next s) x = false) as Hfree.
    { intros j [n' p'] Hj. destruct (on_lock (pm_next s) (n', p')) eqn:E; [|done].
      pose proof (pi_ptr s Hinv _ _ _ _ Hj E) as Hp. apply (pi_next s Hinv) in Hp. lia. }
    constructor; simpl.
    + intros j n' p' l' Hj Hon. apply pm_threads_insert_cases in Hj as [(-> & <- & <-)|(Hne & Hj)].
      * apply on_lock_waiting in Hon as <-. by rewrite lookup_insert_eq.
      * pose proof (pi_ptr s Hinv _ _ _ _ Hj Hon) as Hp.
        rewrite lookup_insert_ne; [done|]. congruence.
    + intros n' l'. rewrite lookup_insert. case_decide as Hd.
      * intros [= <-]. subst n'. eexists. split; [by rewrite lookup_insert_eq|]. simpl.
        pose proof (count_insert (on_lock (pm_next s)) _ i _ (n, PWaiting (pm_next s)) Hi) as Hc1.
        pose proof (count_insert (in_call (pm_next s)) _ i _ (n, PWaiting (pm_next s)) Hi) as Hc2.
        rewrite (count_zero (on_lock (pm_next s)) (pm_threads s)) in Hc1 by done.
        rewrite (count_zero (in_call (pm_next s)) (pm_threads s)) in Hc2.
        2: { intros j [n'' p''] Hj. specialize (Hfree j _ Hj). unfold on_lock, in_call in *.
             simpl in *. by destruct p''. }
        unfold on_lock at 2 3 in Hc1. unfold in_call at 2 3 in Hc2. simpl in Hc1, Hc2.
        rewrite Nat.eqb_refl in Hc1. simpl in Hc1. split_and!; lia.
      * intros Hn'. destruct (pi_lock s Hinv n' l' Hn') as (k & Hk & Hr & Hnz & Hm).
        pose proof (pi_next s Hinv _ _ Hn') as Hlt.
        pose proof (count_insert (on_lock l') _ i _ (n, PWaiting (pm_next s)) Hi) as Hc1.
        pose proof (count_insert (in_call l') _ i _ (n, PWaiting (pm_next s)) Hi) as Hc2.
        unfold on_lock at 2 4 in Hc1. unfold in_call at 2 4 in Hc2. simpl in Hc1, Hc2.
        rewrite b2n_eqb_ne in Hc1 by lia. exists k.
        rewrite lookup_insert_ne by lia. split_and!; [done|lia|lia|lia].
    + intros a b l'. rewrite !lookup_insert. repeat case_decide; intros; simplify_eq; try done.
      * match goal with Hp : pm_pods s !! _ = Some (pm_next s) |- _ => apply (pi_next s Hinv) in Hp; lia end.
      * match goal with Hp : pm_pods s !! _ = Some (pm_next s) |- _ => apply (pi_next s Hinv) in Hp; lia end.
      * by eapply (pi_inj s Hinv).
    + intros n' l'. rewrite lookup_insert. case_decide; intros; simplify_eq; [lia|].
      match goal with Hp : pm_pods s !! _ = Some _ |- _ => apply (pi_next s Hinv) in Hp; lia end.
    + apply Hinv.
Qed.

Lemma pm_inv_acquire i n l rc s :
  pm_inv s -> pm_threads s !! i = Some (n, PWaiting l) -> pm_heap s !! l = Some (mkPodLock rc false) ->
  pm_inv (set_pc i n (PRunning l)
            (mkPM (pm_pods s) (<[l := mkPodLock rc true]> (pm_heap s)) (pm_next s)
               (pm_threads s) (pm_fatal s))).
Proof.
  intros Hinv Hi Hl.
  assert (pm_pods s !! n = Some l) as Hn by (eapply (pi_ptr s Hinv); [done|by apply on_lock_waiting]).
  constructor; simpl; [..|apply Hinv|apply Hinv|apply Hinv].
  - intros j n' p' l' Hj Hon. apply pm_threads_insert_cases in Hj as [(-> & <- & <-)|(Hne & Hj)].
    + by apply on_lock_running in Hon as <-.
    + by eapply (pi_ptr s Hinv).
  - intros n' l' Hn'. destruct (pi_lock s Hinv n' l' Hn') as (k & Hk & Hr & Hnz & Hm).
    pose proof (count_insert (on_lock l') _ i _ (n, PRunning l) Hi) as Hc1.
    pose proof (count_insert (in_call l') _ i _ (n, PRunning l) Hi) as Hc2.
    unfold on_lock at 2 4 in Hc1. unfold in_call at 2 4 in Hc2. simpl in Hc1, Hc2.
    destruct (decide (l' = l)) as [->|Hne].
    + rewrite Hl in Hk. simplify_eq/=. eexists. split; [by rewrite lookup_insert_eq|]. simpl.
      rewrite Nat.eqb_refl in Hc1, Hc2. simpl in Hc1, Hc2. split_and!; lia.
    + exists k. rewrite lookup_insert_ne by done. rewrite b2n_eqb_ne in Hc1, Hc2 by done.
      split_and!; [done|lia|lia|lia].
Qed.

Lemma pm_inv_release i n l s :
  pm_inv s -> pm_threads s !! i = Some (n, PRunning l) -> pm_inv (set_pc i n PDone (podUnlock n s)).
Proof.
  intros Hinv Hi.
  assert (pm_pods s !! n = Some l) as Hn by (eapply (pi_ptr s Hinv); [done|by apply on_lock_running]).
  destruct (pi_lock s Hinv n l Hn) as ([rc held] & Hk & Hr & Hnz & Hm). simpl in *.
  assert (held = true) as ->.
  { pose proof (count_pos (in_call l) _ i _ Hi) as Hp. unfold in_call at 1 in Hp. simpl in Hp.
    rewrite Nat.eqb_refl in Hp. specialize (Hp eq_refl). destruct held; simpl in Hm; [done|lia]. }
  unfold podUnlock. rewrite Hn, Hk. simpl. destruct rc as [|rc]; [done|].
  assert (forall l', l' <> l -> count (on_lock l') (<[i := (n, PDone)]> (pm_threads s)) = count (on_lock l') (pm_threads s)
            /\ count (in_call l') (<[i := (n, PDone)]> (pm_threads s)) = count (in_call l') (pm_threads s)) as Hother.
  { intros l' Hne. pose proof (count_insert (on_lock l') _ i _ (n, PDone) Hi) as Hc1.
    pose proof (count_insert (in_call l') _ i _ (n, PDone) Hi) as Hc2.
    unfold on_lock at 2 4 in Hc1. unfold in_call at 2 4 in Hc2. simpl in Hc1, Hc2.
    rewrite b2n_eqb_ne in Hc1, Hc2 by done. lia. }
  assert (count (on_lock l) (<[i := (n, PDone)]> (pm_threads s)) = rc
          /\ count (in_call l) (<[i := (n, PDone)]> (pm_threads s)) = 0%nat) as [Hrc Hcall].
  { pose proof (count_insert (on_lock l) _ i _ (n, PDone) Hi) as Hc1.
    pose proof (count_insert (in_call l) _ i _ (n, PDone) Hi) as Hc2.
    unfold on_lock at 2 4 in Hc1. unfold in_call at 2 4 in Hc2. simpl in Hc1, Hc2.
    rewrite Nat.eqb_refl in Hc1, Hc2. simpl in *. lia. }
  constructor; simpl.
  - intros j n' p' l' Hj Hon.
    pose proof Hj as Hj0. apply pm_threads_insert_cases in Hj as [(-> & <- & <-)|(Hne & Hj)]; [done|].
    pose proof (pi_ptr s Hinv _ _ _ _ Hj Hon) as Hp.
    destruct (Nat.eqb_spec rc 0) as [->|_]; [|done].
    rewrite lookup_delete_ne; [done|]. intros <-. rewrite Hn in Hp. simplify_eq.
    pose proof (count_pos (on_lock l') _ j _ Hj0 Hon). lia.
  - intros n' l' Hn'.
    assert (pm_pods s !! n' = Some l') as Hn0.
    { destruct (Nat.eqb rc 0); [|done]. by apply lookup_delete_Some in Hn' as [_ ?]. }
    destruct (decide (l' = l)) as [->|Hne].
    + assert (n' = n) as -> by (by eapply (pi_inj s Hinv)).
      destruct (Nat.eqb_spec rc 0) as [->|Hnz']; [by rewrite lookup_delete_eq in Hn'|].
      eexists. split; [by rewrite lookup_insert_eq|]. simpl. split_and!; lia.
    + destruct (pi_lock s Hinv n' l' Hn0) as (k & Hk' & Hr' & Hnz' & Hm').
      destruct (Hother l' Hne) as [-> ->]. exists k. by rewrite lookup_insert_ne.
  - intros a b l' Ha Hb. apply (pi_inj s Hinv a b l').
    + destruct (Nat.eqb rc 0); [|done]. by apply lookup_delete_Some in Ha as [_ ?].
    + destruct (Nat.eqb rc 0); [|done]. by apply lookup_delete_Some in Hb as [_ ?].
  - intros n' l' Hn'. apply (pi_next s Hinv n').
    destruct (Nat.eqb rc 0); [|done]. by apply lookup_delete_Some in Hn' as [_ ?].
  - rewrite (pi_fatal s Hinv). done.
Qed.

Lemma pm_inv_step s s' : pm_step s s' -> pm_inv s -> pm_inv s'.
Proof.
  intros [i s0 s1 Hs] Hinv. unfold pm_step_at in Hs.
  destruct (pm_threads s0 !! i) as [[n p]|] eqn:Hi; [|done].
  destruct p as [|l|l|]; [| | |done].
  - pose proof (pm_inv_start i n s0 Hinv Hi) as Hn. destruct (podLock n s0) as [l s2].
    by simplify_eq.
  - destruct (pm_heap s0 !! l) as [[rc []]|] eqn:Hl; simplify_eq.
    by apply pm_inv_acquire.
  - simplify_eq. by eapply pm_inv_release.
Qed.

Lemma pm_inv_init names : pm_inv (pm_init names).
Proof.
  constructor; simpl; try done; try (intros *; by rewrite lookup_empty).
  intros i n p l Hi. rewrite list_lookup_fmap in Hi.
  destruct (names !! i); by simplify_eq/=.
Qed.

Lemma pm_inv_reachable names s : rtc pm_step (pm_init names) s -> pm_inv s.
Proof.
  intros Hr. pose proof (pm_inv_init names) as Hi. revert Hi.
  induction Hr as [|x y z Hxy _ IH]; [done|]. intros Hx. by apply IH, (pm_inv_step x).
Qed.

#[export] Instance pc_eq_dec : EqDecision pc.
Proof. solve_decision. Defined.

(** Progress: a goroutine that is not done can step, or it waits for a lock
    whose holder can. *)
Lemma pm_progress s :
  pm_inv s -> ~ Forall (fun t => t.2 = PDone) (pm_threads s) -> exists s', pm_step s s'.
Proof.
  intros Hinv Hnd. apply not_Forall_Exists in Hnd; [|intros ?; apply _].
  apply Exists_exists in Hnd as ([n p] & Hin & Hp). apply list_elem_of_lookup_1 in Hin as [i Hi].
  simpl in Hp. destruct p as [|l|l|]; [| | |done].
  - destruct (podLock n s) as [l s'] eqn:El. eexists. apply (pm_step_intro i).
    unfold pm_step_at. by rewrite Hi, El.
  - assert (pm_pods s !! n = Some l) as Hl by (eapply (pi_ptr s Hinv _ _ _ _ Hi); by apply on_lock_waiting).
    destruct (pi_lock s Hinv n l Hl) as ([rc held] & Hk & _ & _ & Hm). destruct held.
    + simpl in Hm. destruct (count_witness (in_call l) (pm_threads s)) as (j & [n' p'] & Hj & Hc); [lia|].
      unfold in_call in Hc. simpl in Hc. destruct p'; try done.
      eexists. apply (pm_step_intro j). unfold pm_step_at. by rewrite Hj.
    + eexists. apply (pm_step_intro i). unfold pm_step_at. by rewrite Hi, Hk.
  - eexists. apply (pm_step_intro i). unfold pm_step_at. by rewrite Hi.
Qed.

(** ** Properties *)

(** C8: The pod locks serialize the operations of each pod, for any number of
    goroutines in any interleaving: two goroutines are never inside plugin
    calls for the same pod, a mutex is never unlocked while free, some
    goroutine can always go on until all are done, and then no lock is left in
    the map. *)
Theorem pod_locks_serialize (names : list string) (s : pm_state) :
  rtc pm_step (pm_init names) s ->
  (forall i j n l l', pm_threads s !! i = Some (n, PRunning l) ->
     pm_threads s !! j = Some (n, PRunning l') -> i = j)
  /\ pm_fatal s = false
  /\ (Forall (fun t => t.2 = PDone) (pm_threads s) \/ exists s', pm_step s s')
  /\ (Forall (fun t => t.2 = PDone) (pm_threads s) -> pm_pods s = ∅).
Proof.
  intros Hr. pose proof (pm_inv_reachable _ _ Hr) as Hinv. split_and!.
  - intros i j n l l' Hi Hj.
    assert (pm_pods s !! n = Some l) as Hl by (eapply (pi_ptr s Hinv _ _ _ _ Hi); by apply on_lock_running).
    assert (pm_pods s !! n = Some l') as Hl' by (eapply (pi_ptr s Hinv _ _ _ _ Hj); by apply on_lock_running).
    rewrite Hl in Hl'. simplify_eq.
    destruct (pi_lock s Hinv n l' Hl) as (k & _ & _ & _ & Hm).
    eapply (count_le_one (in_call l') (pm_threads s)); eauto; try (unfold in_call; apply Nat.eqb_refl).
    destruct (mu_held k); simpl in Hm; lia.
  - apply Hinv.
  - destruct (decide (Forall (fun t => t.2 = PDone) (pm_threads s))) as [|Hnd]; [by left|right].
    by apply pm_progress.
  - intros Hd. apply map_empty. intros n. destruct (pm_pods s !! n) as [l|] eqn:E; [|done].
    destruct (pi_lock s Hinv n l E) as (k & _ & Hc & Hnz & _). destruct Hnz. rewrite Hc.
    apply count_zero. intros i [n' p] Hi. rewrite Forall_forall in Hd.
    apply list_elem_of_lookup_2 in Hi. apply Hd in Hi. simpl in Hi. by rewrite Hi.
Qed.

(** A schedule run by hand. *)
Fixpoint pm_run (sched : list nat) (s : pm_state) : option pm_state :=
  match sched with
  | [] => Some s
  | i :: sched' => match pm_step_at i s with Some s' => pm_run sched' s' | None => None end
  end.

Lemma pm_run_steps sched s s' : pm_run sched s = Some s' -> rtc pm_step s s'.
Proof.
  revert s. induction sched as [|i sched IH]; intros s; simpl.
  - intros [= ->]. apply rtc_refl.
  - destruct (pm_step_at i s) as [s1|] eqn:E; [|done]. intros Hr.
    eapply rtc_l; [by eapply pm_step_intro|]. by apply IH.
Qed.

Lemma pod_locks_serialize_witness :
  let names := ["web_default"; "web_default"; "db_default"] in
  let s := default (pm_init names) (pm_run [0; 1; 2; 0; 2; 0; 1; 2; 1]%nat (pm_init names)) in
  pm_step_at 1 (default (pm_init names) (pm_run [0; 1; 0]%nat (pm_init names))) = None
  /\ Forall (fun t => t.2 = PDone) (pm_threads s)
  /\ pm_fatal s = false /\ pm_pods s = ∅.
Proof.
  intros names s. split; [vm_compute; reflexivity|].
  assert (Forall (fun t => t.2 = PDone) (pm_threads s)) as Hd
    by (vm_compute; repeat constructor).
  destruct (pod_locks_serialize names s) as (_ & Hf & _ & He).
  { apply (pm_run_steps [0; 1; 2; 0; 2; 0; 1; 2; 1]%nat). vm_compute. reflexivity. }
  split; [exact Hd|]. split; [exact Hf|]. exact (He Hd).
Defined.
