(* ===== verification/Hostport.v ===== *)
(** * Hostport: host ports

    network/hostport/hostport.go and network/hostport/hostport_manager.go: the
    sockets that reserve the host ports of a pod and the iptables chains that
    forward them.  The iptables runner, the sockets and conntrack are calls on
    a world; the lock [mu], which [Add] and [Remove] hold over the whole of
    what they do with the manager, makes each of them one step. *)
From S2P Require Import Prelude GoErrors GoHash GoNet.

(** ** Data *)

Definition ProtocolTCP : string := "TCP".
Definition ProtocolUDP : string := "UDP".
Definition ProtocolSCTP : string := "SCTP".

Definition kubeHostportsChain : string := "KUBE-HOSTPORTS".
Definition kubeHostportChainPrefix : string := "KUBE-HP-".
Definition kubeMarkMasqChain : string := "KUBE-MARK-MASQ".

(** The names of k8s.io/kubernetes/pkg/util/iptables the code uses. *)
Definition TableNAT : string := "nat".
Definition ChainOutput : string := "OUTPUT".
Definition ChainPrerouting : string := "PREROUTING".
Definition ChainPostrouting : string := "POSTROUTING".
Inductive RulePosition := Prepend | Append.
Definition MakeChainLine (chain : string) : string := ":" +:+ chain +:+ " - [0:0]".

(** The package's [PortMapping] (not the one of the CRI). *)
Record HostPortMapping := mkHostPortMapping {
  hpm_HostPort : Z;
  hpm_ContainerPort : Z;
  hpm_Protocol : string;
  hpm_HostIP : string;
}.

Record PodPortMapping := mkPodPortMapping {
  ppm_Namespace : string;
  ppm_Name : string;
  ppm_PortMappings : list HostPortMapping;
  ppm_HostNetwork : bool;
  ppm_IP : IP;
}.

Definition IPv4 : string := "4".
Definition IPv6 : string := "6".

Record hostport := mkHostport {
  hp_ipFamily : string;
  hp_ip : string;
  hp_port : Z;
  hp_protocol : string;
}.

#[export] Instance hostport_eq_dec : EqDecision hostport.
Proof. solve_decision. Defined.
#[export] Instance hostport_countable : Countable hostport.
Proof.
  apply (inj_countable' (fun h => (hp_ipFamily h, hp_ip h, hp_port h, hp_protocol h))
           (fun '(a, b, c, d) => mkHostport a b c d)). by intros [].
Defined.

Definition hostport_String (hp : hostport) : string :=
  hp_protocol hp +:+ ":" +:+ itoa (hp_port hp).

(** ** What the manager relies on *)

(** [utiliptables.Interface]; the protocol of a runner never changes. *)
Class IPTables (W : Type) := {
  ipt_IsIPv6 : bool;
  ipt_EnsureChain : string -> string -> M W (res bool);
  ipt_EnsureRule : RulePosition -> string -> string -> list string -> M W (res bool);
  (** the text written into the buffer *)
  ipt_SaveInto : string -> M W (res string);
  (** with the flags [NoFlushTables] and [RestoreCounters] *)
  ipt_RestoreAll : string -> M W (res unit);
}.
#[global] Hint Mode IPTables + : typeclass_instances.
Arguments ipt_IsIPv6 W {_}.

(** The sockets of package net, by handle. *)
Class Sockets (W : Type) := {
  net_Listen : string -> string -> M W (res nat);
  net_ResolveUDPAddr : string -> string -> M W (res string);
  net_ListenUDP : string -> string -> M W (res nat);
}.
#[global] Hint Mode Sockets + : typeclass_instances.

(** The [hostportOpener] of a manager and [Close] on what it opens. *)
Class PortOpener (W : Type) := {
  portOpener : hostport -> M W (res nat);
  socket_Close : nat -> M W (res unit);
}.
#[global] Hint Mode PortOpener + : typeclass_instances.

(** [conntrack.ClearEntriesForPort] for UDP. *)
Class Conntrack (W : Type) := ClearEntriesForPort : Z -> bool -> M W (res unit).
#[global] Hint Mode Conntrack + : typeclass_instances.

(** ** Opening a port *)

Definition openLocalPort {W} `{Sockets W} (hp : hostport) : M W (res nat) :=
  let address := JoinHostPort (hp_ip hp) (itoa (hp_port hp)) in
  if decide (hp_protocol hp = "tcp") then net_Listen ("tcp" +:+ hp_ipFamily hp) address
  else if decide (hp_protocol hp = "udp") then
    let network := "udp" +:+ hp_ipFamily hp in
    let? addr := net_ResolveUDPAddr network address in
    net_ListenUDP network addr
  else ret (Err (Errorf ("unknown protocol " +:+ quote (hp_protocol hp)))).

Definition portMappingToHostport (pm : HostPortMapping) (family : string) : hostport :=
  mkHostport family (hpm_HostIP pm) (hpm_HostPort pm) (to_lower (hpm_Protocol pm)).

(** The opener [NewHostportManager] installs. *)
Definition local_PortOpener {W} `{Sockets W} (Close : nat -> M W (res unit)) : PortOpener W := {|
  portOpener := openLocalPort;
  socket_Close := Close;
|}.

(** ** Chains, rules and mappings *)

(** [getHostportChain]: the first 16 characters of the digest in base32. *)
Definition getHostportChain (id : string) (pm : HostPortMapping) : string :=
  let hash := sha256 (id +:+ itoa (hpm_HostPort pm) +:+ hpm_Protocol pm +:+ hpm_HostIP pm) in
  kubeHostportChainPrefix +:+ stake 16 (base32_encode hash).

Definition getPodFullName (pod : PodPortMapping) : string :=
  ppm_Name pod +:+ "_" +:+ ppm_Namespace pod.

Definition writeLine (words : list string) : string := join words " " +:+ newline.

Definition concat_lines (ls : list string) : string := String.concat "" ls.

Definition filterRules (rules filters : list string) : list string :=
  base.filter (fun rule => existsb (contains rule) filters = false) rules.

Definition filterChains (chains : gmap string string) (filters : list string) : gmap string string :=
  foldl (fun m chain => delete chain m) chains filters.

(** ** Setting up the chains *)

Section Ensure.
Context {W : Type} `{IPTables W}.

Definition jump_args : list string :=
  ["-m"; "comment"; "--comment"; "kube hostport portals";
   "-m"; "addrtype"; "--dst-type"; "LOCAL"; "-j"; kubeHostportsChain].

Definition snat_args (natInterfaceName : string) : list string :=
  ["-m"; "comment"; "--comment"; "SNAT for localhost access to hostports";
   "-o"; natInterfaceName; "-s"; if ipt_IsIPv6 W then "::1/128" else "127.0.0.0/8";
   "-j"; "MASQUERADE"].

Definition jump_error (table chain target : string) (e : error) : error :=
  Errorf ("failed to ensure that " +:+ table +:+ " chain " +:+ chain +:+ " jumps to " +:+ target
          +:+ ": " +:+ Error e).

Definition ensureKubeHostportChains (natInterfaceName : string) : M W (res unit) :=
  let* r := ipt_EnsureChain TableNAT kubeHostportsChain in
  match r with
  | Err err =>
      ret (Err (Errorf ("failed to ensure that " +:+ TableNAT +:+ " chain " +:+ kubeHostportsChain
                        +:+ " exists: " +:+ Error err)))
  | Ok _ =>
      let? _ := for_try [(TableNAT, ChainOutput); (TableNAT, ChainPrerouting)] (fun tc =>
        let* r := ipt_EnsureRule Append tc.1 tc.2 jump_args in
        ret (match r with
             | Err err => Err (jump_error tc.1 tc.2 kubeHostportsChain err)
             | Ok _ => Ok tt
             end)) in
      if bool_decide (natInterfaceName <> "" /\ natInterfaceName <> "lo") then
        let* r := ipt_EnsureRule Append TableNAT ChainPostrouting (snat_args natInterfaceName) in
        ret (match r with
             | Err err => Err (jump_error TableNAT ChainPostrouting "MASQUERADE" err)
             | Ok _ => Ok tt
             end)
      else ret (Ok tt)
  end.

End Ensure.

(** ** The manager *)

(** [hostportManager] with the world its calls share; [hm_execer] tells
    whether [execer] is set. *)
Record hostportManager (W : Type) := mkHostportManager {
  hm_world : W;
  hm_hostPortMap : gmap hostport nat;
  hm_execer : bool;
  hm_conntrackFound : bool;
}.
Arguments mkHostportManager {W}.
Arguments hm_world {W}.
Arguments hm_hostPortMap {W}.
Arguments hm_execer {W}.
Arguments hm_conntrackFound {W}.

(** [NewHostportManager]: looking [conntrack] up only logs. *)
Definition NewHostportManager {W} (w : W) : hostportManager W := mkHostportManager w ∅ true false.

Definition hm_lift {W A} (m : M W A) : M (hostportManager W) A := fun st =>
  let '(a, w) := m (hm_world st) in
  (a, mkHostportManager w (hm_hostPortMap st) (hm_execer st) (hm_conntrackFound st)).

Definition hm_set_map {W} (f : gmap hostport nat -> gmap hostport nat) : M (hostportManager W) unit :=
  modify (fun st => mkHostportManager (hm_world st) (f (hm_hostPortMap st)) (hm_execer st)
                      (hm_conntrackFound st)).

Section HostportManager.
Context {W : Type} `{IPTables W} `{PortOpener W} `{Conntrack W}.
(** [utilnet.IsIPv6String] and [utiliptables.GetChainsFromTable]. *)
Context (IsIPv6String : string -> bool) (GetChainsFromTable : string -> gset string).
(** The orders in which Go visits the map of opened ports and the map of
    existing chains. *)
Context (port_order : gmap hostport nat -> list (hostport * nat)).
Context (chain_order : gmap string string -> list (string * string)).

Definition getIPFamily : string := if ipt_IsIPv6 W then IPv6 else IPv4.

Definition to_hostport (pm : HostPortMapping) : hostport := portMappingToHostport pm getIPFamily.

Definition gatherHostportMappings (pod : PodPortMapping) (isIPv6 : bool) : list HostPortMapping :=
  base.filter (fun pm => ~ (hpm_HostPort pm <= 0)%Z
                    /\ ~ (hpm_HostIP pm <> "" /\ IsIPv6String (hpm_HostIP pm) <> isIPv6))
    (ppm_PortMappings pod).

(** *** Opening and closing *)

(** The loop of [openHostports]: the error it breaks with and the ports
    opened so far. *)
Fixpoint open_loop (pod : PodPortMapping) (pms : list HostPortMapping) (ports : gmap hostport nat)
  : M W (option error * gmap hostport nat) :=
  match pms with
  | [] => ret (None, ports)
  | pm :: pms' =>
      if decide (hpm_HostPort pm <= 0)%Z then open_loop pod pms' ports
      else if decide (hpm_Protocol pm = ProtocolSCTP) then open_loop pod pms' ports
      else if decide (hpm_HostIP pm <> "" /\ IsIPv6String (hpm_HostIP pm) <> ipt_IsIPv6 W)
      then open_loop pod pms' ports
      else
        let hp := to_hostport pm in
        let* r := portOpener hp in
        match r with
        | Err err =>
            ret (Some (Errorf ("cannot open hostport " +:+ itoa (hpm_HostPort pm) +:+ " for pod "
                               +:+ getPodFullName pod +:+ ": " +:+ Error err)), ports)
        | Ok socket => open_loop pod pms' (<[hp := socket]> ports)
        end
  end.

Definition openHostports (pod : PodPortMapping) : M W (res (gmap hostport nat)) :=
  let* r := open_loop pod (ppm_PortMappings pod) ∅ in
  match r with
  | (Some retErr, ports) =>
      do* for_each (port_order ports) (fun kv => let* _ := socket_Close kv.2 in ret tt) in
      ret (Err retErr)
  | (None, ports) => ret (Ok ports)
  end.

(** The loop of [closeHostports]: the errors met. *)
Fixpoint close_loop (pms : list HostPortMapping) : M (hostportManager W) (list error) :=
  match pms with
  | [] => ret []
  | pm :: pms' =>
      let hp := to_hostport pm in
      let* st := get in
      match hm_hostPortMap st !! hp with
      | None => close_loop pms'
      | Some socket =>
          let* r := hm_lift (socket_Close socket) in
          match r with
          | Err err =>
              let* errs := close_loop pms' in
              ret (Errorf ("failed to close host port " +:+ hostport_String hp +:+ ": "
                           +:+ Error err) :: errs)
          | Ok _ => do* hm_set_map (delete hp) in close_loop pms'
          end
      end
  end.

Definition closeHostports (pms : list HostPortMapping) : M (hostportManager W) (option error) :=
  let* errList := close_loop pms in ret (NewAggregate (Some <$> errList)).

(** *** The text exchanged with iptables *)

Definition is_hostport_chain (chain : string) : bool :=
  has_prefix chain kubeHostportsChain || has_prefix chain kubeHostportChainPrefix.

Definition is_hostport_rule (line : string) : bool :=
  has_prefix line ("-A " +:+ kubeHostportChainPrefix) || has_prefix line ("-A " +:+ kubeHostportsChain).

(** [json.Marshal(struct{}{})], the value kept for every existing chain. *)
Definition marshalled_chain : string := "{}".

Definition getExistingHostportIPTablesRules : M W (res (gmap string string * list string)) :=
  let* r := ipt_SaveInto TableNAT in
  ret (match r with
       | Err err => Err (Errorf ("failed to execute iptables-save: " +:+ Error err))
       | Ok data =>
           Ok (gset_to_gmap marshalled_chain
                 (base.filter (fun c => is_hostport_chain c = true) (GetChainsFromTable data)),
               base.filter (fun line => is_hostport_rule line = true) (split data newline))
       end).

Definition syncIPTables (lines : string) : M W (res unit) :=
  let* r := ipt_RestoreAll lines in
  ret (match r with
       | Err err => Err (Errorf ("failed to execute iptables-restore: " +:+ Error err))
       | Ok _ => Ok tt
       end).

Definition hostport_comment (pod : PodPortMapping) (pm : HostPortMapping) : string :=
  dquote +:+ getPodFullName pod +:+ " hostport " +:+ itoa (hpm_HostPort pm) +:+ dquote.

(** The three rules of one mapping: jump to its chain, mark the pod's own
    traffic for masquerading, and translate the destination. *)
Definition mapping_rules (id : string) (pod : PodPortMapping) (podIP : string) (pm : HostPortMapping)
  : string :=
  let protocol := to_lower (hpm_Protocol pm) in
  let chain := getHostportChain id pm in
  let comment := ["-m"; "comment"; "--comment"; hostport_comment pod pm] in
  let hostPortBinding := JoinHostPort podIP (itoa (hpm_ContainerPort pm)) in
  let dnat := ["-j"; "DNAT"; "--to-destination=" +:+ hostPortBinding] in
  writeLine (["-I"; kubeHostportsChain] ++ comment
             ++ ["-m"; protocol; "-p"; protocol; "--dport"; itoa (hpm_HostPort pm); "-j"; chain])
  +:+ writeLine (["-A"; chain] ++ comment ++ ["-s"; podIP; "-j"; kubeMarkMasqChain])
  +:+ (if decide (hpm_HostIP pm = "" \/ hpm_HostIP pm = "0.0.0.0" \/ hpm_HostIP pm = "::")
       then writeLine (["-A"; chain] ++ comment ++ ["-m"; protocol; "-p"; protocol] ++ dnat)
       else writeLine (["-A"; chain] ++ comment
                       ++ ["-m"; protocol; "-p"; protocol; "-d"; hpm_HostIP pm] ++ dnat)).

Definition add_text (id : string) (pod : PodPortMapping) (podIP : string)
  (pms : list HostPortMapping) (existingChains : gmap string string) (existingRules : list string)
  : string :=
  let newChains := getHostportChain id <$> pms in
  concat_lines
    ([writeLine ["*nat"]]
     ++ ((fun pm => writeLine [MakeChainLine (getHostportChain id pm)]) <$> pms)
     ++ ((fun kv => writeLine [kv.2]) <$> chain_order (filterChains existingChains newChains))
     ++ (mapping_rules id pod podIP <$> pms)
     ++ ((fun rule => writeLine [rule]) <$> filterRules existingRules newChains)
     ++ [writeLine ["COMMIT"]]).

Definition remove_text (existingChains : gmap string string) (remainingRules chains : list string)
  : string :=
  concat_lines
    ([writeLine ["*nat"]]
     ++ ((fun kv => writeLine [kv.2]) <$> chain_order existingChains)
     ++ ((fun rule => writeLine [rule]) <$> remainingRules)
     ++ ((fun chain => writeLine ["-X"; chain]) <$> chains)
     ++ [writeLine ["COMMIT"]]).

(** *** Add and Remove *)

(** [return utilerrors.NewAggregate([]error{err, hm.closeHostports(mappings)})]. *)
Definition fail_closing (err : error) (pms : list HostPortMapping) : M (hostportManager W) (res unit) :=
  let* c := closeHostports pms in
  ret (match NewAggregate [Some err; c] with Some e => Err e | None => Ok tt end).

Definition conntrack_ports (pms : list HostPortMapping) : list Z :=
  hpm_HostPort <$> base.filter (fun pm => hpm_Protocol pm = ProtocolUDP) pms.

Definition clear_conntrack (pms : list HostPortMapping) (isIPv6 : bool)
  : M (hostportManager W) unit :=
  let* st := get in
  if hm_execer st && hm_conntrackFound st then
    for_each (conntrack_ports pms) (fun port =>
      let* _ := hm_lift (ClearEntriesForPort port isIPv6) in ret tt)
  else ret tt.

Definition bool_str (b : bool) : string := if b then "true" else "false".

(** From opening the ports on: what [Add] does under the lock. *)
Definition add_locked (id : string) (pod : PodPortMapping) (podIP : string) (isIPv6 : bool)
  (pms : list HostPortMapping) : M (hostportManager W) (res unit) :=
  let? ports := hm_lift (openHostports pod) in
  do* hm_set_map (fun m => ports ∪ m) in
  let* r := hm_lift getExistingHostportIPTablesRules in
  match r with
  | Err err => fail_closing err pms
  | Ok (existingChains, existingRules) =>
      let* r := hm_lift (syncIPTables (add_text id pod podIP pms existingChains existingRules)) in
      match r with
      | Err err => fail_closing err pms
      | Ok _ => do* clear_conntrack pms isIPv6 in ret (Ok tt)
      end
  end.

Definition hm_Add (id : string) (podPortMapping : option PodPortMapping) (natInterfaceName : string)
  : M (hostportManager W) (res unit) :=
  match podPortMapping with
  | None => ret (Ok tt)
  | Some pod =>
      if ppm_HostNetwork pod then ret (Ok tt)
      else match To16 (ppm_IP pod) with
      | None => ret (Err (Errorf ("invalid or missing IP of pod " +:+ getPodFullName pod)))
      | Some _ =>
          let podIP := IP_String (ppm_IP pod) in
          let isIPv6 := IsIPv6 (ppm_IP pod) in
          let hostportMappings := gatherHostportMappings pod isIPv6 in
          if decide (hostportMappings = []) then ret (Ok tt)
          else if decide (isIPv6 <> ipt_IsIPv6 W) then
            ret (Err (Errorf ("HostPortManager IP family mismatch: " +:+ podIP +:+ ", isIPv6 - "
                              +:+ bool_str isIPv6)))
          else
            let? _ := hm_lift (ensureKubeHostportChains natInterfaceName) in
            add_locked id pod podIP isIPv6 hostportMappings
      end
  end.

(** [return hm.closeHostports(mappings)]. *)
Definition close_result (pms : list HostPortMapping) : M (hostportManager W) (res unit) :=
  let* c := closeHostports pms in
  ret (match c with Some e => Err e | None => Ok tt end).

Definition hm_Remove (id : string) (podPortMapping : option PodPortMapping)
  : M (hostportManager W) (res unit) :=
  match podPortMapping with
  | None => ret (Ok tt)
  | Some pod =>
      if ppm_HostNetwork pod then ret (Ok tt)
      else
        let hostportMappings := gatherHostportMappings pod (ipt_IsIPv6 W) in
        if decide (hostportMappings = []) then ret (Ok tt)
        else
          let? '(existingChains, existingRules) := hm_lift getExistingHostportIPTablesRules in
          let chainsToRemove := getHostportChain id <$> hostportMappings in
          let remainingRules := filterRules existingRules chainsToRemove in
          let existingChainsToRemove :=
            base.filter (fun c => is_Some (existingChains !! c)) chainsToRemove in
          if decide (existingChainsToRemove = []) then close_result hostportMappings
          else
            let? _ := hm_lift (syncIPTables (remove_text existingChains remainingRules
                                               existingChainsToRemove)) in
            close_result hostportMappings
  end.

End HostportManager.

Arguments getIPFamily W {_}.
Arguments to_hostport W {_} pm.
