(* ===== verification/HostportSpec.v ===== *)
(** * HostportSpec: what the host port manager promises

    Against any iptables runner and any opener that behaves like the socket
    calls of the operating system ([SocketLaws]): the table of the manager is
    exactly the set of sockets it holds, an [Add] holds all the ports of its
    pod or none, a [Remove] releases them; what is read from and written to
    iptables; and where the code does not do what it means to. *)
From S2P Require Import Prelude GoErrors GoHash GoNet Hostport.

(** ** The laws of sockets *)

(** [bound w]: the socket that holds each host port, whoever opened it.  A
    port is bound at most once; a failed call changes nothing; closing a
    socket frees its port; the calls to iptables and conntrack leave sockets
    alone; only TCP and UDP ports are opened. *)
Class SocketLaws (W : Type) `{IPTables W} `{PortOpener W} `{Conntrack W}
  (bound : W -> gmap hostport nat) : Prop := {
  open_ok : forall hp w s w', portOpener hp w = (Ok s, w') ->
    bound w !! hp = None /\ (forall hp', bound w !! hp' <> Some s)
    /\ bound w' = <[hp := s]> (bound w)
    /\ (hp_protocol hp = "tcp" \/ hp_protocol hp = "udp");
  open_err : forall hp w e w', portOpener hp w = (Err e, w') -> bound w' = bound w;
  close_ok : forall s w w', socket_Close s w = (Ok tt, w') ->
    bound w' = base.filter (fun kv => kv.2 <> s) (bound w);
  close_err : forall s w e w', socket_Close s w = (Err e, w') -> bound w' = bound w;
  frame_EnsureChain : forall t c w r w', ipt_EnsureChain t c w = (r, w') -> bound w' = bound w;
  frame_EnsureRule : forall p t c l w r w', ipt_EnsureRule p t c l w = (r, w') -> bound w' = bound w;
  frame_SaveInto : forall t w r w', ipt_SaveInto t w = (r, w') -> bound w' = bound w;
  frame_RestoreAll : forall x w r w', ipt_RestoreAll x w = (r, w') -> bound w' = bound w;
  frame_ClearEntries : forall p b w r w', ClearEntriesForPort p b w = (r, w') -> bound w' = bound w;
}.

(** Sockets have one port each. *)
Definition sockets_distinct (m : gmap hostport nat) : Prop :=
  forall k1 k2 s, m !! k1 = Some s -> m !! k2 = Some s -> k1 = k2.

Lemma filter_socket_delete m hp s :
  sockets_distinct m -> m !! hp = Some s -> base.filter (fun kv => kv.2 <> s) m = delete hp m.
Proof.
  intros Hd Hs. apply map_eq. intros k. rewrite map_lookup_filter.
  destruct (decide (k = hp)) as [->|Hk].
  - rewrite Hs, lookup_delete_eq. simpl. by rewrite option_guard_False by (by intros []).
  - rewrite lookup_delete_ne by done. destruct (m !! k) as [s'|] eqn:E; [|done]. simpl.
    rewrite option_guard_True; [done|]. simpl. intros ->. by apply Hk, (Hd _ _ s).
Qed.

Lemma sockets_distinct_insert m hp s :
  sockets_distinct m -> (forall hp', m !! hp' <> Some s) -> sockets_distinct (<[hp := s]> m).
Proof.
  intros Hd Hf k1 k2 s' H1 H2. rewrite lookup_insert in H1, H2.
  repeat case_decide; simplify_eq; try done; try (by exfalso; eapply Hf).
  by eapply Hd.
Qed.

Lemma sockets_distinct_sub m m' : sockets_distinct m -> m' ⊆ m -> sockets_distinct m'.
Proof. intros Hd Hs k1 k2 s H1 H2. eapply Hd; by eapply lookup_weaken. Qed.

Section Spec.
Context {W : Type} `{HI : IPTables W} `{HO : PortOpener W} `{HC : Conntrack W}.
Context (bound : W -> gmap hostport nat) `{HL : !SocketLaws W bound}.
Context (IsIPv6String : string -> bool) (GetChainsFromTable : string -> gset string).
Context (port_order : gmap hostport nat -> list (hostport * nat)).
Context (chain_order : gmap string string -> list (string * string)).
Hypothesis port_order_perm : forall m, port_order m ≡ₚ map_to_list m.

Local Abbreviation gather := (gatherHostportMappings IsIPv6String).
Local Abbreviation manager := (hostportManager W).

(** ** Ownership *)

(** [ports] are exactly the sockets bound, apart from those of [base], one
    port per socket, all TCP or UDP. *)
Definition holds (base : gmap hostport nat) (w : W) (ports : gmap hostport nat) : Prop :=
  bound w = ports ∪ base /\ ports ##ₘ base /\ sockets_distinct (bound w)
  /\ map_Forall (fun hp _ => hp_protocol hp = "tcp" \/ hp_protocol hp = "udp") ports.

(** The table of the manager is exactly the set of sockets it holds, apart
    from the sockets [others] of the rest of the world. *)
Definition owns (others : gmap hostport nat) (st : manager) : Prop :=
  holds others (hm_world st) (hm_hostPortMap st).

Lemma holds_open base w ports hp s w' :
  holds base w ports -> portOpener hp w = (Ok s, w') -> holds base w' (<[hp := s]> ports).
Proof.
  intros (Hb & Hdj & Hd & Hp) Ho. apply open_ok in Ho as (Hn & Hf & Hb' & Hpr).
  rewrite Hb in Hn. apply lookup_union_None in Hn as [Hn1 Hn2].
  split; [|split; [|split]].
  - by rewrite Hb', Hb, insert_union_l.
  - by apply map_disjoint_insert_l_2.
  - rewrite Hb'. by apply sockets_distinct_insert.
  - by apply map_Forall_insert_2.
Qed.

Lemma holds_close base w ports hp s w' :
  holds base w ports -> ports !! hp = Some s -> socket_Close s w = (Ok tt, w') ->
  holds base w' (delete hp ports).
Proof.
  intros (Hb & Hdj & Hd & Hp) Hs Hc. apply close_ok in Hc.
  assert (bound w !! hp = Some s) as Hs' by (rewrite Hb; by apply lookup_union_Some_l).
  rewrite (filter_socket_delete _ _ _ Hd Hs') in Hc.
  assert (base !! hp = None) as Hn by (by eapply map_disjoint_Some_l).
  split; [|split; [|split]].
  - rewrite Hc, Hb, delete_union. f_equal. by apply delete_id.
  - by apply map_disjoint_delete_l.
  - rewrite Hc. eapply sockets_distinct_sub; [exact Hd|]. apply delete_subseteq.
  - by apply map_Forall_delete.
Qed.

Lemma holds_frame base w w' ports :
  bound w' = bound w -> holds base w ports -> holds base w' ports.
Proof. intros E H. unfold holds. by rewrite E. Qed.

(** ** Opening *)

(** The ports [openHostports] opens. *)
Definition opened_ports (pms : list HostPortMapping) : list hostport :=
  to_hostport W <$> base.filter (fun pm => ~ (hpm_HostPort pm <= 0)%Z /\ hpm_Protocol pm <> ProtocolSCTP
    /\ ~ (hpm_HostIP pm <> "" /\ IsIPv6String (hpm_HostIP pm) <> ipt_IsIPv6 W)) pms.

Lemma open_loop_holds base pod pms ports w e ports' w' :
  holds base w ports ->
  open_loop IsIPv6String pod pms ports w = ((e, ports'), w') ->
  holds base w' ports'
  /\ (e = None -> dom ports' = dom ports ∪ list_to_set (opened_ports pms)).
Proof.
  revert ports w. induction pms as [|pm pms IH]; intros ports w Hh Hr; cbn [open_loop] in Hr.
  - inversion Hr; subst. split; [done|]. intros _. unfold opened_ports. set_solver.
  - unfold opened_ports. rewrite filter_cons. fold (opened_ports pms).
    case_decide as H1; [rewrite decide_False by tauto; by apply (IH _ w)|].
    case_decide as H2; [rewrite decide_False by tauto; by apply (IH _ w)|].
    case_decide as H3; [rewrite decide_False by tauto; by apply (IH _ w)|].
    rewrite decide_True by tauto. unfold bind in Hr.
    destruct (portOpener (to_hostport W pm) w) as [[s|err] w1] eqn:Ho.
    + destruct (IH _ w1 (holds_open _ _ _ _ _ _ Hh Ho) Hr) as [Hh' Hd].
      split; [done|]. intros He. rewrite (Hd He), dom_insert_L. rewrite fmap_cons.
      unfold opened_ports. set_solver.
    + inversion Hr; subst. split; [|done].
      eapply holds_frame; [by eapply open_err|done].
Qed.

(** Closing a socket never fails. *)
Definition closing_works : Prop :=
  forall s (w : W) r w', socket_Close s w = (r, w') -> is_ok r = true.

(** Closing the ports of a table in any order. *)
Lemma close_all_holds base l ports w w' :
  closing_works ->
  l ≡ₚ map_to_list ports -> holds base w ports ->
  for_each l (fun kv : hostport * nat => let* _ := socket_Close kv.2 in ret tt) w = (tt, w') ->
  holds base w' ∅.
Proof.
  intros Hclose. revert ports w. induction l as [|[hp s] l IH]; intros ports w Hl Hh Hr.
  - cbn in Hr. inversion Hr; subst. apply Permutation_nil_l in Hl.
    symmetry in Hl. apply map_to_list_empty_iff in Hl. by subst.
  - cbn [for_each] in Hr. unfold bind in Hr at 1 2. cbn [snd] in Hr.
    destruct (socket_Close s w) as [r w1] eqn:Hc.
    pose proof (Hclose _ _ _ _ Hc) as Hok. destruct r as [[]|]; [|done].
    assert (ports !! hp = Some s) as Hs.
    { apply elem_of_map_to_list. rewrite <- Hl. left. }
    eapply (IH (delete hp ports) w1); [|by eapply holds_close|exact Hr].
    eapply (Permutation_cons_inv (a := (hp, s))). rewrite Hl.
    rewrite <- (insert_delete_id ports hp s Hs) at 1.
    apply map_to_list_insert. apply lookup_delete_eq.
Qed.

(** [openHostports] opens all the ports or, provided closing works, none. *)
Lemma openHostports_holds base pod w r w' :
  closing_works ->
  holds base w ∅ -> openHostports IsIPv6String port_order pod w = (r, w') ->
  match r with
  | Ok ports => holds base w' ports
                /\ dom ports = list_to_set (opened_ports (ppm_PortMappings pod))
  | Err _ => holds base w' ∅
  end.
Proof.
  intros Hclose Hh Hr. unfold openHostports, bind in Hr.
  destruct (open_loop _ pod _ ∅ w) as [[e ports] w1] eqn:Ho.
  destruct (open_loop_holds _ _ _ _ _ _ _ _ Hh Ho) as [Hh1 Hd].
  destruct e as [err|].
  - destruct (for_each _ _ w1) as [[] w2] eqn:Hf. inversion Hr; subst.
    eapply close_all_holds; [exact Hclose|apply port_order_perm|exact Hh1|exact Hf].
  - inversion Hr; subst. split; [done|]. rewrite (Hd eq_refl). set_solver.
Qed.

(** ** Closing *)

Local Abbreviation hostports_of pms := (to_hostport W <$> pms).

(** What closing the ports of [pms] makes of the table. *)
Definition closed (pms : list HostPortMapping) (m m' : gmap hostport nat) : Prop :=
  m' ⊆ m /\ forall hp, hp ∉ hostports_of pms -> m' !! hp = m !! hp.

Lemma closed_cons pm pms m1 m m' :
  m1 = m \/ m1 = delete (to_hostport W pm) m -> closed pms m1 m' -> closed (pm :: pms) m m'.
Proof.
  intros Hm [Hs Hl]. split.
  - etransitivity; [exact Hs|]. destruct Hm as [-> | ->]; [done|apply delete_subseteq].
  - intros hp Hhp. rewrite fmap_cons, not_elem_of_cons in Hhp. rewrite Hl by tauto.
    destruct Hm as [-> | ->]; [done|]. by rewrite lookup_delete_ne by naive_solver.
Qed.

Lemma close_loop_owns others pms st errs st' :
  owns others st -> close_loop pms st = (errs, st') ->
  owns others st' /\ closed pms (hm_hostPortMap st) (hm_hostPortMap st')
  /\ (errs = [] -> forall hp, hp ∈ hostports_of pms -> hm_hostPortMap st' !! hp = None)
  /\ (closing_works -> errs = []).
Proof.
  revert st errs. induction pms as [|pm pms IH]; intros st errs Ho Hr; cbn [close_loop] in Hr.
  { inversion Hr; subst. split; [done|]. split; [by split|]. split; [set_solver|done]. }
  unfold bind at 1, get in Hr.
  destruct (hm_hostPortMap st !! to_hostport W pm) as [s|] eqn:Hs.
  - unfold bind at 1, hm_lift in Hr.
    destruct (socket_Close s (hm_world st)) as [[[]|e] w1] eqn:Hc; unfold bind at 1 in Hr.
    + cbn [hm_set_map modify] in Hr.
      eapply IH in Hr as (Ho' & Hcl & Hn & Hok); [|by eapply holds_close].
      cbn [hm_hostPortMap] in Hcl.
      split; [done|]. split; [eapply closed_cons; [by right|done]|]. split; [|done].
      intros He hp. rewrite fmap_cons, elem_of_cons. intros [->|Hin]; [|by apply Hn].
      destruct Hcl as [Hsub _]. destruct (hm_hostPortMap st' !! _) as [s'|] eqn:E; [|done].
      eapply lookup_weaken in E; [|exact Hsub]. by rewrite lookup_delete_eq in E.
    + destruct (close_loop pms _) as [errs' st1] eqn:Hr'. inversion Hr; subst.
      eapply IH in Hr' as (Ho' & Hcl & _ & _); [|by eapply holds_frame; [eapply close_err|]].
      split; [done|]. split; [eapply closed_cons; [by left|done]|]. split; [done|].
      intros Hcw. by specialize (Hcw _ _ _ _ Hc).
  - eapply IH in Hr as (Ho' & Hcl & Hn & Hok); [|done].
    split; [done|]. split; [eapply closed_cons; [by left|done]|]. split; [|done].
    intros He hp. rewrite fmap_cons, elem_of_cons. intros [->|Hin]; [|by apply Hn].
    destruct Hcl as [Hsub _]. by eapply lookup_weaken_None in Hs.
Qed.

Lemma closeHostports_owns others pms st c st' :
  owns others st -> closeHostports pms st = (c, st') ->
  owns others st' /\ closed pms (hm_hostPortMap st) (hm_hostPortMap st')
  /\ (c = None -> forall hp, hp ∈ hostports_of pms -> hm_hostPortMap st' !! hp = None)
  /\ (closing_works -> c = None).
Proof.
  intros Ho Hr. unfold closeHostports, bind in Hr.
  destruct (close_loop pms st) as [errs st1] eqn:Hc. inversion Hr; subst.
  destruct (close_loop_owns _ _ _ _ _ Ho Hc) as (? & ? & Hn & Hok).
  split; [done|]. split; [done|]. split.
  - intros He. apply Hn. destruct errs as [|e errs]; [done|]. by rewrite NewAggregate_Some in He.
  - intros Hcw. by rewrite (Hok Hcw).
Qed.

(** ** Calls that leave the sockets alone *)

Definition keeps {A} (m : M W A) : Prop := forall w r w', m w = (r, w') -> bound w' = bound w.

Lemma keeps_ret {A} (a : A) : keeps (ret a).
Proof. intros w r w' Hr. by inversion Hr. Qed.

Lemma keeps_bind {A B} (m : M W A) (k : A -> M W B) :
  keeps m -> (forall a, keeps (k a)) -> keeps (bind m k).
Proof.
  intros Hm Hk w r w' Hr. unfold bind in Hr. destruct (m w) as [a w1] eqn:E.
  apply Hm in E as <-. by eapply Hk.
Qed.

Lemma keeps_try {A B} (m : M W (res A)) (k : A -> M W (res B)) :
  keeps m -> (forall a, keeps (k a)) -> keeps (try m k).
Proof. intros Hm Hk. apply keeps_bind; [done|]. intros [a|e]; [apply Hk|apply keeps_ret]. Qed.

Lemma keeps_for_try {A} (l : list A) (f : A -> M W (res unit)) :
  (forall x, keeps (f x)) -> keeps (for_try l f).
Proof.
  intros Hf. induction l as [|x l IH]; cbn [for_try]; [apply keeps_ret|].
  by apply keeps_try.
Qed.

Ltac solve_keeps :=
  repeat first
    [ apply keeps_ret | apply keeps_try | apply keeps_for_try | apply keeps_bind
    | exact (frame_EnsureChain _ _) | exact (frame_EnsureRule _ _ _ _) | exact (frame_SaveInto _)
    | exact (frame_RestoreAll _) | exact (frame_ClearEntries _ _)
    | case_match | intro ].

Lemma keeps_ensure n : keeps (ensureKubeHostportChains n).
Proof. unfold ensureKubeHostportChains. solve_keeps. Qed.

Lemma keeps_existing : keeps (getExistingHostportIPTablesRules GetChainsFromTable).
Proof. unfold getExistingHostportIPTablesRules. solve_keeps. Qed.

Lemma keeps_sync x : keeps (syncIPTables x).
Proof. unfold syncIPTables. solve_keeps. Qed.

Lemma lift_owns {A} others (m : M W A) st a st' :
  keeps m -> owns others st -> hm_lift m st = (a, st') ->
  owns others st' /\ hm_hostPortMap st' = hm_hostPortMap st.
Proof.
  intros Hm Ho Hr. unfold hm_lift in Hr. destruct (m (hm_world st)) as [a' w'] eqn:E.
  inversion Hr; subst. split; [|done]. eapply holds_frame; [by eapply Hm|exact Ho].
Qed.

Lemma clear_conntrack_owns others pms b st u st' :
  owns others st -> clear_conntrack pms b st = (u, st') ->
  owns others st' /\ hm_hostPortMap st' = hm_hostPortMap st.
Proof.
  intros Ho Hr. unfold clear_conntrack, bind at 1, get in Hr.
  destruct (hm_execer st && hm_conntrackFound st); [|by inversion Hr; subst].
  revert st Ho Hr. induction (conntrack_ports pms) as [|p l IH]; intros st Ho Hr; cbn [for_each] in Hr.
  - by inversion Hr; subst.
  - unfold bind in Hr. destruct (hm_lift _ st) as [r st1] eqn:E.
    apply (lift_owns others) in E as [Ho1 Hm1]; [|solve_keeps|done].
    rewrite <- Hm1. by eapply IH.
Qed.

(** ** Adding and removing *)

(** The mappings of a pod the code acts on. *)
Definition mappings_of (pod : option PodPortMapping) (isIPv6 : PodPortMapping -> bool)
  : list HostPortMapping :=
  match pod with
  | None => []
  | Some pod => if ppm_HostNetwork pod then [] else gather pod (isIPv6 pod)
  end.

(** The host ports a pod needs held: those of its mappings but SCTP. *)
Definition wanted (pod : option PodPortMapping) : gset hostport :=
  list_to_set (hostports_of (base.filter (fun pm => hpm_Protocol pm <> ProtocolSCTP)
                               (mappings_of pod (fun p => IsIPv6 (ppm_IP p))))).

Lemma opened_ports_gather pod :
  opened_ports (ppm_PortMappings pod)
  = hostports_of (base.filter (fun pm => hpm_Protocol pm <> ProtocolSCTP)
                    (gather pod (ipt_IsIPv6 W))).
Proof.
  unfold opened_ports, gatherHostportMappings. rewrite list_filter_filter. f_equal.
  apply list_filter_iff. tauto.
Qed.

(** Opening the ports of a pod makes them the manager's. *)
Lemma owns_opened others st w ports :
  owns others st -> holds (bound (hm_world st)) w ports ->
  owns others (mkHostportManager w (ports ∪ hm_hostPortMap st) (hm_execer st) (hm_conntrackFound st))
  /\ ports ##ₘ hm_hostPortMap st.
Proof.
  intros (Hb & Hdj & Hd & Hp) (Hb' & Hdj' & Hd' & Hp'). rewrite Hb in Hb', Hdj'.
  apply map_disjoint_union_r in Hdj' as [Hdj1 Hdj2]. split; [|done].
  split; [|split; [|split]]; cbn.
  - by rewrite Hb', (assoc_L (∪)).
  - by apply map_disjoint_union_l_2.
  - done.
  - by apply map_Forall_union_2.
Qed.

(** Closing the pod's ports again gives the table before. *)
Lemma closed_restores m ports pms m' :
  ports ##ₘ m -> dom ports = list_to_set (hostports_of (base.filter
    (fun pm => hpm_Protocol pm <> ProtocolSCTP) pms)) ->
  map_Forall (fun hp _ => hp_protocol hp = "tcp" \/ hp_protocol hp = "udp") m ->
  closed pms (ports ∪ m) m' -> (forall hp, hp ∈ hostports_of pms -> m' !! hp = None) -> m' = m.
Proof.
  intros Hdj Hd Hp [Hs Hc] Hn. apply map_eq. intros hp.
  destruct (decide (hp ∈ hostports_of pms)) as [Hin|Hin].
  - rewrite (Hn _ Hin). symmetry. destruct (m !! hp) as [s|] eqn:E; [exfalso|done].
    apply list_elem_of_fmap in Hin as (pm & -> & Hin).
    destruct (decide (hpm_Protocol pm = ProtocolSCTP)) as [Hpr|Hpr].
    + specialize (Hp _ _ E). cbn in Hp. rewrite Hpr in Hp. by destruct Hp.
    + assert (to_hostport W pm ∈ dom ports) as [s' Hs']%elem_of_dom.
      { rewrite Hd. apply elem_of_list_to_set, list_elem_of_fmap. exists pm.
        by rewrite list_elem_of_filter. }
      by eapply map_disjoint_spec.
  - rewrite (Hc _ Hin). apply lookup_union_r. apply not_elem_of_dom. rewrite Hd.
    rewrite elem_of_list_to_set. intros Hin'. apply Hin.
    apply list_elem_of_fmap in Hin' as (pm & -> & Hin'). apply list_elem_of_filter in Hin' as [_ Hin'].
    by apply list_elem_of_fmap_2.
Qed.

(** What [Add] leaves: all the ports [dom ports], or nothing. *)
Definition added (others : gmap hostport nat) (hps : gset hostport) (m : gmap hostport nat)
  (r : res unit) (st' : manager) : Prop :=
  owns others st' /\
  match r with
  | Ok _ => exists ports, hm_hostPortMap st' = ports ∪ m /\ ports ##ₘ m /\ dom ports = hps
  | Err _ => hm_hostPortMap st' = m
  end.

Lemma added_nothing others st r :
  owns others st -> added others ∅ (hm_hostPortMap st) r st.
Proof.
  intros Ho. split; [done|]. destruct r; [|done]. exists ∅.
  rewrite (left_id_L ∅ (∪)). split; [done|]. split; [apply map_disjoint_empty_l|apply dom_empty_L].
Qed.

Lemma fail_closing_added others err pms ports m st r st' hps :
  closing_works -> owns others st -> hm_hostPortMap st = ports ∪ m -> ports ##ₘ m ->
  dom ports = list_to_set (hostports_of (base.filter
    (fun pm => hpm_Protocol pm <> ProtocolSCTP) pms)) ->
  map_Forall (fun hp _ => hp_protocol hp = "tcp" \/ hp_protocol hp = "udp") m ->
  fail_closing err pms st = (r, st') -> added others hps m r st'.
Proof.
  intros Hcw Ho Hm Hdj Hd Hp Hr. unfold fail_closing, bind in Hr.
  destruct (closeHostports pms st) as [c st1] eqn:Hc.
  destruct (closeHostports_owns _ _ _ _ _ Ho Hc) as (Ho1 & Hcl & Hn & Hok).
  rewrite (Hok Hcw) in Hr. inversion Hr; subst. split; [done|]. cbn.
  rewrite Hm in Hcl. eapply closed_restores; [exact Hdj|exact Hd|exact Hp|exact Hcl|].
  exact (Hn (Hok Hcw)).
Qed.

Lemma add_locked_added others id pod podIP b st r st' :
  let pms := gather pod (ipt_IsIPv6 W) in
  closing_works -> owns others st ->
  add_locked IsIPv6String GetChainsFromTable port_order chain_order id pod podIP b pms st = (r, st') ->
  added others (list_to_set (hostports_of (base.filter
    (fun pm => hpm_Protocol pm <> ProtocolSCTP) pms))) (hm_hostPortMap st) r st'.
Proof.
  intros pms Hcw Ho Hr. unfold add_locked, try at 1, bind at 1, hm_lift at 1 in Hr.
  destruct (openHostports _ _ pod (hm_world st)) as [ro w1] eqn:Hop.
  eapply (openHostports_holds (bound (hm_world st))) in Hop; [|done|].
  2:{ split; [by rewrite (left_id_L ∅ (∪))|]. split; [apply map_disjoint_empty_l|].
      split; [apply Ho|apply map_Forall_empty]. }
  destruct ro as [ports|e].
  - destruct Hop as [Hh Hd]. rewrite opened_ports_gather in Hd.
    destruct (owns_opened _ _ _ _ Ho Hh) as [Ho1 Hdj].
    assert (Hp := proj2 (proj2 (proj2 Ho))).
    unfold bind at 1 in Hr. cbn [hm_set_map modify] in Hr. unfold bind at 1 in Hr.
    destruct (hm_lift _ _) as [re st2] eqn:He in Hr.
    apply (lift_owns others) in He as [Ho2 Hm2]; [|apply keeps_existing|exact Ho1].
    cbn [hm_hostPortMap] in Hm2. destruct re as [[ec er]|e].
    + unfold bind at 1 in Hr. destruct (hm_lift _ st2) as [rs st3] eqn:Hs in Hr.
      apply (lift_owns others) in Hs as [Ho3 Hm3]; [|apply keeps_sync|exact Ho2].
      destruct rs as [[]|e].
      * unfold bind at 1 in Hr. destruct (clear_conntrack pms b st3) as [[] st4] eqn:Hct.
        apply (clear_conntrack_owns others) in Hct as [Ho4 Hm4]; [|done].
        inversion Hr; subst. split; [done|]. exists ports. rewrite Hm4, Hm3, Hm2. done.
      * eapply fail_closing_added; [done|exact Ho3| |exact Hdj|exact Hd|exact Hp|exact Hr].
        by rewrite Hm3, Hm2.
    + eapply fail_closing_added; [done|exact Ho2|exact Hm2|exact Hdj|exact Hd|exact Hp|exact Hr].
  - inversion Hr; subst. split; [|done]. destruct Hop as (Hb & _ & _ & _).
    rewrite (left_id_L ∅ (∪)) in Hb. by eapply holds_frame.
Qed.

Lemma hm_Add_added others id pod natIf st r st' :
  closing_works -> owns others st ->
  hm_Add IsIPv6String GetChainsFromTable port_order chain_order id pod natIf st = (r, st') ->
  added others (wanted pod) (hm_hostPortMap st) r st'.
Proof.
  intros Hcw Ho Hr. destruct pod as [pod|]; cbn [hm_Add] in Hr.
  2:{ inversion Hr; subst. exact (added_nothing _ _ (Ok tt) Ho). }
  unfold wanted, mappings_of. destruct (ppm_HostNetwork pod).
  { inversion Hr; subst. exact (added_nothing _ _ (Ok tt) Ho). }
  destruct (To16 (ppm_IP pod)); [|by inversion Hr; subst].
  case_decide as Hg; [inversion Hr; subst; cbn; rewrite Hg; exact (added_nothing _ _ (Ok tt) Ho)|].
  case_decide as Hv; [by inversion Hr; subst|].
  rewrite Hv in Hr |- *. unfold try, bind in Hr.
  destruct (hm_lift _ st) as [re st1] eqn:He.
  apply (lift_owns others) in He as [Ho1 Hm1]; [|apply keeps_ensure|done].
  rewrite <- Hm1. destruct re as [[]|e]; [|by inversion Hr; subst].
  by eapply add_locked_added.
Qed.

(** C12: a pod's host ports are held all or none.  When [Add] succeeds the
    table has grown by exactly the ports the pod wants, each held by one
    socket of its own; when it fails, whatever failed (a port in use, the
    chains, reading or writing iptables), the table and the sockets are what
    they were.  In both cases no socket is held outside the table, provided
    closing sockets works. *)
Theorem add_all_or_nothing others id pod natIf st r st' :
  closing_works -> owns others st ->
  hm_Add IsIPv6String GetChainsFromTable port_order chain_order id pod natIf st = (r, st') ->
  owns others st' /\
  match r with
  | Ok _ => exists ports, hm_hostPortMap st' = ports ∪ hm_hostPortMap st
              /\ ports ##ₘ hm_hostPortMap st /\ dom ports = wanted pod
  | Err _ => hm_hostPortMap st' = hm_hostPortMap st
  end.
Proof. exact (hm_Add_added others id pod natIf st r st'). Qed.

(** What [Remove] leaves. *)
Definition removed (others : gmap hostport nat) (pms : list HostPortMapping)
  (m : gmap hostport nat) (r : res unit) (st' : manager) : Prop :=
  owns others st' /\ closed pms m (hm_hostPortMap st')
  /\ (is_ok r = true -> forall hp, hp ∈ hostports_of pms ->
       hm_hostPortMap st' !! hp = None /\ bound (hm_world st') !! hp = others !! hp)
  /\ (closing_works -> is_ok r = false -> hm_hostPortMap st' = m).

Lemma closed_refl pms m : closed pms m m.
Proof. by split. Qed.

Lemma removed_nothing others st r : owns others st -> removed others [] (hm_hostPortMap st) r st.
Proof.
  intros Ho. split; [done|]. split; [apply closed_refl|]. split; [|done].
  intros _ hp. cbn. by intros ?%not_elem_of_nil.
Qed.

Lemma removed_err others pms st e :
  owns others st -> removed others pms (hm_hostPortMap st) (Err e) st.
Proof. intros Ho. split; [done|]. by split; [apply closed_refl|]. Qed.

Lemma close_result_removed others pms st r st' :
  owns others st -> close_result pms st = (r, st') ->
  removed others pms (hm_hostPortMap st) r st'.
Proof.
  intros Ho Hr. unfold close_result, bind in Hr.
  destruct (closeHostports pms st) as [c st1] eqn:Hc. inversion Hr; subst.
  destruct (closeHostports_owns _ _ _ _ _ Ho Hc) as (Ho1 & Hcl & Hn & Hok).
  split; [done|]. split; [done|]. destruct c as [e|].
  { split; [done|]. intros Hcw. by specialize (Hok Hcw). }
  split; [|done]. intros _ hp Hin.
  pose proof (Hn eq_refl _ Hin) as Hhp. split; [done|]. destruct Ho1 as (Hb & _).
  rewrite Hb. by apply lookup_union_r.
Qed.

Lemma hm_Remove_removed others id pod st r st' :
  owns others st ->
  hm_Remove IsIPv6String GetChainsFromTable chain_order id pod st = (r, st') ->
  removed others (mappings_of pod (fun _ => ipt_IsIPv6 W)) (hm_hostPortMap st) r st'.
Proof.
  intros Ho Hr. destruct pod as [pod|]; cbn [hm_Remove mappings_of] in *.
  2:{ inversion Hr; subst. exact (removed_nothing _ _ _ Ho). }
  destruct (ppm_HostNetwork pod).
  { inversion Hr; subst. exact (removed_nothing _ _ _ Ho). }
  case_decide as Hg; [inversion Hr; subst; rewrite Hg; exact (removed_nothing _ _ _ Ho)|].
  unfold try at 1, bind at 1 in Hr. destruct (hm_lift _ st) as [re st1] eqn:He in Hr.
  apply (lift_owns others) in He as [Ho1 Hm1]; [|apply keeps_existing|done]. rewrite <- Hm1.
  destruct re as [[ec er]|e]; [|inversion Hr; subst; by apply removed_err].
  case_decide; [by apply close_result_removed|].
  unfold try, bind in Hr. destruct (hm_lift _ st1) as [rs st2] eqn:Hs in Hr.
  apply (lift_owns others) in Hs as [Ho2 Hm2]; [|apply keeps_sync|done]. rewrite <- Hm2.
  destruct rs as [[]|e]; [by apply close_result_removed|inversion Hr; subst; by apply removed_err].
Qed.

(** [Remove] only ever touches the pod's own port numbers: other ports
    stay held by the same sockets, and no socket leaks.  When it succeeds none
    of the pod's ports is held by the manager any more; when reading or
    writing iptables fails nothing is closed. *)
Theorem remove_releases_ports others id pod st r st' :
  owns others st ->
  hm_Remove IsIPv6String GetChainsFromTable chain_order id pod st = (r, st') ->
  owns others st' /\
  closed (mappings_of pod (fun _ => ipt_IsIPv6 W)) (hm_hostPortMap st) (hm_hostPortMap st')
  /\ (is_ok r = true -> forall hp, hp ∈ hostports_of (mappings_of pod (fun _ => ipt_IsIPv6 W)) ->
       hm_hostPortMap st' !! hp = None /\ bound (hm_world st') !! hp = others !! hp)
  /\ (closing_works -> is_ok r = false -> hm_hostPortMap st' = hm_hostPortMap st).
Proof. exact (hm_Remove_removed others id pod st r st'). Qed.

(** The table does not say which pod a port is held for.  A pod that asks
    for a host port another pod holds is refused, and the table is unchanged;
    but removing the refused pod, as tearing its network down does, closes the
    other pod's socket, and the port is free for any process while the other
    pod still relies on it. *)
Theorem refused_pod_releases_port others id pod natIf hp st r st1 r' st2 :
  closing_works -> owns others st ->
  is_Some (hm_hostPortMap st !! hp) -> hp ∈ wanted pod ->
  hp ∈ hostports_of (mappings_of pod (fun _ => ipt_IsIPv6 W)) ->
  hm_Add IsIPv6String GetChainsFromTable port_order chain_order id pod natIf st = (r, st1) ->
  hm_Remove IsIPv6String GetChainsFromTable chain_order id pod st1 = (Ok r', st2) ->
  is_ok r = false /\ hm_hostPortMap st1 = hm_hostPortMap st
  /\ hm_hostPortMap st2 !! hp = None /\ bound (hm_world st2) !! hp = None.
Proof.
  intros Hcw Ho [s Hs] Hw Hin Ha Hr.
  apply (hm_Add_added others) in Ha as [Ho1 Ha]; [|done..].
  apply (hm_Remove_removed others) in Hr as (Ho2 & _ & Hn & _); [|done].
  destruct (Hn eq_refl _ Hin) as [Hn1 Hn2].
  destruct r as [u|e].
  - destruct Ha as (ports & _ & Hdj & Hd). exfalso. rewrite <- Hd in Hw.
    apply elem_of_dom in Hw as [s' Hs']. by eapply map_disjoint_spec.
  - split; [done|]. split; [done|]. split; [done|]. rewrite Hn2.
    destruct Ho as (_ & Hdj & _). by eapply map_disjoint_Some_l.
Qed.

End Spec.

(** ** The names of chains *)

Lemma sforall_stake p n (s : string) : sforall p s = true -> sforall p (stake n s) = true.
Proof.
  revert s. induction n as [|n IH]; intros [|c s]; cbn; try done.
  rewrite !andb_true_iff. intros []. auto.
Qed.

Lemma stake_app_le n (a b : string) :
  (n <= String.length a)%nat -> stake n (a +:+ b) = stake n a.
Proof.
  revert a. induction n as [|n IH]; intros [|c a]; cbn; intros Hn; try done; try lia.
  f_equal. apply IH. lia.
Qed.

Lemma stake_length n (s : string) :
  (n <= String.length s)%nat -> String.length (stake n s) = n.
Proof.
  revert s. induction n as [|n IH]; intros [|c s]; cbn; intros Hn; try done; try lia.
  f_equal. apply IH. lia.
Qed.

Lemma encoded_prefix (s : string) :
  let e := stake 16 (base32_encode (sha256 s)) in
  String.length e = 16%nat /\ sforall is_base32 e = true.
Proof.
  destruct (base32_sha256 s) as (body & -> & Hl & Hb). cbv zeta.
  rewrite stake_app_le by lia. split; [apply stake_length; lia|by apply sforall_stake].
Qed.

(** The chain of a host port is a valid iptables chain name: 24 bytes long
    (28 is the limit), made of the prefix and of base32 letters and digits,
    so without spaces or line ends, and it is recognised as one of the
    manager's chains when iptables is read back. *)
Theorem hostport_chain_name (id : string) (pm : HostPortMapping) :
  let c := getHostportChain id pm in
  String.length c = 24%nat /\ is_hostport_chain c = true
  /\ lacks " " c = true /\ lacks (Ascii.ascii_of_N 10) c = true
  /\ sforall is_base32 (sdrop 8 c) = true.
Proof.
  unfold getHostportChain, is_hostport_chain.
  destruct (encoded_prefix (id +:+ itoa (hpm_HostPort pm) +:+ hpm_Protocol pm +:+ hpm_HostIP pm))
    as [Hl Hb].
  set (e := stake 16 _) in *. cbv zeta. rewrite slength_app, Hl. split; [done|].
  split; [rewrite has_prefix_app; apply orb_true_r|].
  assert (forall c, is_base32 c = false -> lacks c e = true) as Hlk.
  { intros c Hc. unfold lacks. eapply sforall_impl; [|exact Hb].
    intros d Hd. destruct (Ascii.eqb_spec d c) as [->|]; [congruence|done]. }
  unfold lacks in *.
  split; [|split; [|exact Hb]]; rewrite sforall_app; by rewrite Hlk.
Qed.

(** The names the unit tests of the source expect. *)
Example hostport_chain_names :
  getHostportChain "id" (mkHostPortMapping 8443 443 "TCP" "") = "KUBE-HP-WFBOALXEP42XEMJK"
  /\ getHostportChain "id" (mkHostPortMapping 8888 443 "TCP" "127.0.0.1") = "KUBE-HP-TUKTZ736U5JD5UTK"
  /\ getHostportChain "id" (mkHostPortMapping 8083 83 "SCTP" "") = "KUBE-HP-XU6AWMMJYOZOFTFZ".
Proof. by vm_compute. Qed.

(** ** What is read from and written to iptables *)

(** The output of iptables-save for one table. *)
Definition save_text (chains rules : list string) : string :=
  join ("*nat" :: (MakeChainLine <$> chains) ++ rules ++ ["COMMIT"; ""]) newline.

Abbreviation one_line s := (lacks (Ascii.ascii_of_N 10) s = true).

Lemma split_save_text chains rules :
  Forall (fun c => one_line c) chains -> Forall (fun r => one_line r) rules ->
  split (save_text chains rules) newline
  = "*nat" :: (MakeChainLine <$> chains) ++ rules ++ ["COMMIT"; ""].
Proof.
  intros Hc Hr. apply split_join. constructor; [done|].
  apply Forall_app. split; [|apply Forall_app; split; [done|by repeat constructor]].
  apply Forall_fmap. eapply Forall_impl; [exact Hc|]. intros c Hl. unfold compose, MakeChainLine, lacks in *.
  cbn [sforall]. rewrite !sforall_app, Hl. done.
Qed.

Lemma chain_lines_no_rules chains :
  base.filter (fun line => is_hostport_rule line = true) (MakeChainLine <$> chains) = [].
Proof. induction chains as [|c chains IH]; [done|]. rewrite fmap_cons, filter_cons. by rewrite decide_False. Qed.

Lemma filterChains_set (x : string) (X : gset string) (fs : list string) :
  filterChains (gset_to_gmap x X) fs = gset_to_gmap x (X ∖ list_to_set fs).
Proof.
  unfold filterChains. revert X. induction fs as [|f fs IH]; intros X; cbn [foldl].
  - f_equal. set_solver.
  - rewrite <- gset_to_gmap_difference_singleton. rewrite IH. f_equal. set_solver.
Qed.

Lemma filter_filter_and {A} (P Q : A -> Prop) `{forall x, Decision (P x)} `{forall x, Decision (Q x)}
  (l : list A) : base.filter P (base.filter Q l) = base.filter (fun r => Q r /\ P r) l.
Proof. rewrite list_filter_filter. apply list_filter_iff. tauto. Qed.

Section Text.
Context {W : Type} `{HI : IPTables W}.
Context (GetChainsFromTable : string -> gset string).
Context (chain_order : gmap string string -> list (string * string)).
Hypothesis chain_order_perm : forall m, chain_order m ≡ₚ map_to_list m.

Local Abbreviation hostport_chains chains := (base.filter (fun c => is_hostport_chain c = true) chains).
Local Abbreviation hostport_rules rules := (base.filter (fun r => is_hostport_rule r = true) rules).

(** Every existing chain is written as the line [{}]. *)
Lemma existing_lines (X : gset string) :
  (fun kv : string * string => writeLine [kv.2]) <$> chain_order (gset_to_gmap marshalled_chain X)
  = replicate (size X) (writeLine [marshalled_chain]).
Proof.
  symmetry. apply replicate_as_Forall_2.
  - rewrite length_fmap, (Permutation_length (chain_order_perm _)), length_map_to_list.
    by rewrite <- size_dom, dom_gset_to_gmap.
  - apply Forall_fmap, Forall_forall. intros [k v] Hin. rewrite chain_order_perm in Hin.
    apply elem_of_map_to_list, lookup_gset_to_gmap_Some in Hin as [_ <-]. done.
Qed.

(** The chains and rules of a saved table, as the manager reads them. *)
Lemma existing_read (w w' : W) chains rules :
  ipt_SaveInto TableNAT w = (Ok (save_text chains rules), w') ->
  GetChainsFromTable (save_text chains rules) = list_to_set chains ->
  Forall (fun c => one_line c) chains -> Forall (fun r => one_line r) rules ->
  getExistingHostportIPTablesRules GetChainsFromTable w
  = (Ok (gset_to_gmap marshalled_chain (list_to_set (hostport_chains chains)),
         hostport_rules rules), w').
Proof.
  intros Hs Hg Hc Hr. unfold getExistingHostportIPTablesRules, bind, ret. rewrite Hs, Hg.
  rewrite split_save_text by done. f_equal. f_equal. f_equal; [f_equal|].
  - apply set_eq. intros c. rewrite elem_of_filter, !elem_of_list_to_set, list_elem_of_filter. done.
  - rewrite filter_cons, decide_False by done. rewrite !filter_app, chain_lines_no_rules.
    cbn. by rewrite app_nil_r.
Qed.

(** What the manager reads from iptables and what it writes back.  Of a
    saved table it reads exactly the chains and rules of host ports, in order;
    [Add] then writes its own chains and rules before the existing rules that
    mention none of its chains, still in order, so nothing of another pod is
    lost; [Remove] writes back the rules that do not mention the pod's chains
    and deletes the chains it found.  But neither declares any existing chain:
    for each of them, the chains to be deleted included, the text has a line
    of two braces, which iptables-restore does not know, in place of the
    [:chain - [0:0]] line that would flush it. *)
Theorem restore_text_exact (w w' : W) chains rules id pod podIP pms :
  ipt_SaveInto TableNAT w = (Ok (save_text chains rules), w') ->
  GetChainsFromTable (save_text chains rules) = list_to_set chains ->
  NoDup chains -> Forall (fun c => one_line c) chains -> Forall (fun r => one_line r) rules ->
  let mine := getHostportChain id <$> pms in
  let braces n := replicate n ("{}" +:+ newline) in
  let line (s : string) := s +:+ newline in
  exists ec er, getExistingHostportIPTablesRules GetChainsFromTable w = (Ok (ec, er), w')
    /\ (forall c, is_Some (ec !! c) <-> c ∈ chains /\ is_hostport_chain c = true)
    /\ add_text chain_order id pod podIP pms ec er
       = concat_lines ([line "*nat"]
           ++ ((fun c => line (MakeChainLine c)) <$> mine)
           ++ braces (length (base.filter (fun c => is_hostport_chain c = true /\ c ∉ mine) chains))
           ++ (mapping_rules id pod podIP <$> pms)
           ++ (line <$> base.filter (fun r => is_hostport_rule r = true
                                        /\ existsb (contains r) mine = false) rules)
           ++ [line "COMMIT"])
    /\ forall gone, remove_text chain_order ec (filterRules er mine) gone
       = concat_lines ([line "*nat"]
           ++ braces (length (hostport_chains chains))
           ++ (line <$> base.filter (fun r => is_hostport_rule r = true
                                        /\ existsb (contains r) mine = false) rules)
           ++ ((fun c => line ("-X " +:+ c)) <$> gone)
           ++ [line "COMMIT"]).
Proof.
  intros Hs Hg Hn Hc Hr mine braces line. eexists _, _. split; [by apply existing_read|].
  split; [|split].
  - intros c. rewrite <- elem_of_dom, dom_gset_to_gmap, elem_of_list_to_set, list_elem_of_filter. tauto.
  - unfold add_text. rewrite filterChains_set, existing_lines. fold mine.
    unfold filterRules. rewrite filter_filter_and. f_equal. f_equal. f_equal; [by unfold mine; rewrite <- list_fmap_compose|].
    f_equal. unfold braces. f_equal.
    rewrite <- (size_list_to_set (C := gset string)) by by apply NoDup_filter.
    f_equal. apply set_eq. intros c. rewrite elem_of_difference, !elem_of_list_to_set.
    rewrite !list_elem_of_filter. tauto.
  - intros gone. unfold remove_text. rewrite existing_lines. unfold filterRules. rewrite filter_filter_and.
    do 3 f_equal. unfold braces. f_equal.
    by rewrite (size_list_to_set (C := gset string)) by by apply NoDup_filter.
Qed.

End Text.

(** ** A concrete world *)

(** Bound ports, the text iptables-save prints, the texts given to
    iptables-restore (last first). *)
Record hsim := mkHsim {
  hs_bound : gmap hostport nat;
  hs_save : string;
  hs_restored : list string;
}.

#[export] Instance hsim_iptables : IPTables hsim := {|
  ipt_IsIPv6 := false;
  ipt_EnsureChain := fun _ _ => ret (Ok true);
  ipt_EnsureRule := fun _ _ _ _ => ret (Ok true);
  ipt_SaveInto := fun _ w => (Ok (hs_save w), w);
  ipt_RestoreAll := fun x w => (Ok tt, mkHsim (hs_bound w) (hs_save w) (x :: hs_restored w));
|}.

Definition hsim_fresh (m : gmap hostport nat) : nat :=
  fresh (list_to_set (map_to_list m).*2 : gset nat).

Definition hsim_open (hp : hostport) : M hsim (res nat) := fun w =>
  if decide (hp_protocol hp = "tcp" \/ hp_protocol hp = "udp") then
    match hs_bound w !! hp with
    | Some _ => (Err (Errorf "address already in use"), w)
    | None =>
        let s := hsim_fresh (hs_bound w) in
        (Ok s, mkHsim (<[hp := s]> (hs_bound w)) (hs_save w) (hs_restored w))
    end
  else (Err (Errorf ("unknown protocol " +:+ quote (hp_protocol hp))), w).

#[export] Instance hsim_opener : PortOpener hsim := {|
  portOpener := hsim_open;
  socket_Close := fun s w =>
    (Ok tt, mkHsim (base.filter (fun kv => kv.2 <> s) (hs_bound w)) (hs_save w) (hs_restored w));
|}.

#[export] Instance hsim_conntrack : Conntrack hsim := fun _ _ => ret (Ok tt).

#[export] Instance hsim_laws : SocketLaws hsim hs_bound.
Proof.
  split; try (intros; simplify_eq/=; done);
    try (intros until w'; cbn; unfold ClearEntriesForPort, hsim_conntrack, ret; by intros [= <- <-]).
  - intros hp w s w' Hr. cbn in Hr. unfold hsim_open in Hr.
    case_decide; [|done]. destruct (hs_bound w !! hp) eqn:E; [done|]. simplify_eq.
    split; [done|]. split; [|done]. intros hp' Hs.
    apply (is_fresh (list_to_set (map_to_list (hs_bound w)).*2 : gset nat)).
    apply elem_of_list_to_set, list_elem_of_fmap. eexists (hp', _).
    split; [|by apply elem_of_map_to_list]. done.
  - intros hp w e w' Hr. cbn in Hr. unfold hsim_open in Hr.
    case_decide; [|by simplify_eq]. by destruct (hs_bound w !! hp); simplify_eq.
Qed.

(** The text between a line end with a colon and the next space, for every
    one; each makes the rest shorter. *)
Fixpoint chains_go (fuel : nat) (s : string) : gset string :=
  match fuel with
  | O => ∅
  | S fuel' =>
      match cut (newline +:+ ":") s with
      | None => ∅
      | Some (_, rest) =>
          match cut " " rest with
          | None => ∅
          | Some (c, rest') => {[c]} ∪ chains_go fuel' (" " +:+ rest')
          end
      end
  end.
Definition hsim_chains (s : string) : gset string := chains_go (String.length s) s.

Definition hsim_is_v6 (ip : string) : bool := negb (lacks ":" ip).

Definition hsim_start : hostportManager hsim := NewHostportManager (mkHsim ∅
  (save_text ["PREROUTING"; "KUBE-HOSTPORTS"; "KUBE-HP-OLD"] ["-A KUBE-HP-OLD -j DNAT"]) []).

Definition pod_a : PodPortMapping :=
  mkPodPortMapping "ns" "a" [mkHostPortMapping 8080 80 "tcp" ""; mkHostPortMapping 53 53 "udp" "10.0.0.1";
                             mkHostPortMapping 0 9 "tcp" ""; mkHostPortMapping 7 7 "tcp" "::1"]
    false [10; 0; 0; 7]%N.
Definition pod_b : PodPortMapping :=
  mkPodPortMapping "ns" "b" [mkHostPortMapping 9090 80 "tcp" ""; mkHostPortMapping 8080 80 "tcp" ""]
    false [10; 0; 0; 8]%N.
Definition port_8080 : hostport := mkHostport "4" "" 8080 "tcp".

Definition hsim_add id pod : M (hostportManager hsim) (res unit) :=
  hm_Add hsim_is_v6 hsim_chains map_to_list map_to_list id (Some pod) "cbr0".
Definition hsim_remove id pod : M (hostportManager hsim) (res unit) :=
  hm_Remove hsim_is_v6 hsim_chains map_to_list id (Some pod).

Lemma hsim_closing : closing_works (W := hsim).
Proof. by intros s w r w' [= <- <-]. Qed.

Lemma hsim_owns : owns hs_bound ∅ hsim_start.
Proof.
  split; [done|]. split; [apply map_disjoint_empty_r|]. split; [|apply map_Forall_empty].
  intros k1 k2 s H1 _. change ((∅ : gmap hostport nat) !! k1 = Some s) in H1.
  by rewrite lookup_empty in H1.
Qed.

(** Run the manager: the first pod gets its ports, the second is refused. *)
Example hsim_runs :
  let '(r1, st1) := hsim_add "a" pod_a hsim_start in
  let '(r2, st2) := hsim_add "b" pod_b st1 in
  let '(r3, st3) := hsim_remove "b" pod_b st2 in
  let held st := (map_to_list (hm_hostPortMap st)).*1 in
  (r1, held st1, r2, held st2, r3, held st3)
  = (Ok tt, [mkHostport "4" "10.0.0.1" 53 "udp"; port_8080],
     Err (Errorf "cannot open hostport 8080 for pod b_ns: address already in use"),
     [mkHostport "4" "10.0.0.1" 53 "udp"; port_8080],
     Ok tt, [mkHostport "4" "10.0.0.1" 53 "udp"]).
Proof. vm_compute. reflexivity. Qed.

Definition sp (words : list string) : string := join words " ".

(** What the first pod's [Add] gives to iptables-restore: the two lines of
    braces stand for the chains that were there. *)
Example hsim_restored :
  split (default "" (head (hs_restored (hm_world (hsim_add "a" pod_a hsim_start).2)))) newline
  = ["*nat"; ":KUBE-HP-DY2DRJYQ4HZEQJNC - [0:0]"; ":KUBE-HP-BAN7SHLKUSKDC34D - [0:0]"; "{}"; "{}";
     sp ["-I KUBE-HOSTPORTS -m comment --comment"; quote "a_ns hostport 8080";
         "-m tcp -p tcp --dport 8080 -j KUBE-HP-DY2DRJYQ4HZEQJNC"];
     sp ["-A KUBE-HP-DY2DRJYQ4HZEQJNC -m comment --comment"; quote "a_ns hostport 8080";
         "-s 10.0.0.7 -j KUBE-MARK-MASQ"];
     sp ["-A KUBE-HP-DY2DRJYQ4HZEQJNC -m comment --comment"; quote "a_ns hostport 8080";
         "-m tcp -p tcp -j DNAT --to-destination=10.0.0.7:80"];
     sp ["-I KUBE-HOSTPORTS -m comment --comment"; quote "a_ns hostport 53";
         "-m udp -p udp --dport 53 -j KUBE-HP-BAN7SHLKUSKDC34D"];
     sp ["-A KUBE-HP-BAN7SHLKUSKDC34D -m comment --comment"; quote "a_ns hostport 53";
         "-s 10.0.0.7 -j KUBE-MARK-MASQ"];
     sp ["-A KUBE-HP-BAN7SHLKUSKDC34D -m comment --comment"; quote "a_ns hostport 53";
         "-m udp -p udp -d 10.0.0.1 -j DNAT --to-destination=10.0.0.7:53"];
     "-A KUBE-HP-OLD -j DNAT"; "COMMIT"; ""].
Proof. vm_compute. reflexivity. Qed.

(** ** Witnesses *)

Lemma hsim_added : (hsim_add "a" pod_a hsim_start).1 = Ok tt.
Proof. vm_compute. reflexivity. Qed.

Lemma add_all_or_nothing_witness :
  let st := (hsim_add "a" pod_a hsim_start).2 in
  owns hs_bound ∅ st /\ exists ports, hm_hostPortMap st = ports ∪ ∅ /\ ports ##ₘ ∅
    /\ dom ports = wanted (W := hsim) hsim_is_v6 (Some pod_a).
Proof.
  pose proof (add_all_or_nothing hs_bound hsim_is_v6 hsim_chains map_to_list map_to_list
    (fun m => reflexivity _) ∅ "a" (Some pod_a) "cbr0" hsim_start _ _ hsim_closing hsim_owns
    (surjective_pairing _)) as H.
  fold (hsim_add "a" pod_a) in H. rewrite hsim_added in H. exact H.
Defined.

(** After the first pod's [Add]. *)
Definition hsim_a : hostportManager hsim := (hsim_add "a" pod_a hsim_start).2.

Lemma hsim_a_owns : owns hs_bound ∅ hsim_a.
Proof.
  eapply (hm_Add_added hs_bound hsim_is_v6 hsim_chains map_to_list map_to_list
    (fun m => reflexivity _) ∅ "a" (Some pod_a) "cbr0" hsim_start);
    [exact hsim_closing|exact hsim_owns|apply surjective_pairing].
Qed.

Lemma remove_releases_ports_witness :
  hm_hostPortMap (hsim_remove "a" pod_a hsim_a).2 !! port_8080 = None.
Proof.
  destruct (remove_releases_ports hs_bound hsim_is_v6 hsim_chains map_to_list map_to_list
    (fun m => reflexivity _) ∅ "a" (Some pod_a) hsim_a _ _ hsim_a_owns (surjective_pairing _))
    as (_ & _ & H & _).
  destruct (H eq_refl port_8080
    ltac:(apply (bool_decide_unpack _); vm_compute; exact I)) as [Hn _].
  exact Hn.
Defined.

Lemma hsim_b_removed : (hsim_remove "b" pod_b (hsim_add "b" pod_b hsim_a).2).1 = Ok tt.
Proof. vm_compute. reflexivity. Qed.

Lemma refused_pod_releases_port_witness :
  let st := (hsim_add "b" pod_b hsim_a).2 in
  hm_hostPortMap st = hm_hostPortMap hsim_a
  /\ hm_hostPortMap (hsim_remove "b" pod_b st).2 !! port_8080 = None.
Proof.
  assert (hsim_remove "b" pod_b (hsim_add "b" pod_b hsim_a).2
          = (Ok tt, (hsim_remove "b" pod_b (hsim_add "b" pod_b hsim_a).2).2)) as Hr.
  { rewrite <- hsim_b_removed. apply surjective_pairing. }
  destruct (refused_pod_releases_port hs_bound hsim_is_v6 hsim_chains map_to_list map_to_list
    (fun m => reflexivity _) ∅ "b" (Some pod_b) "cbr0" port_8080 hsim_a _ _ _ _
    hsim_closing hsim_a_owns ltac:(vm_compute; eexists; reflexivity)
    ltac:(apply (bool_decide_unpack _); vm_compute; exact I)
    ltac:(apply (bool_decide_unpack _); vm_compute; exact I)
    (surjective_pairing _) Hr) as (_ & H1 & H2 & _).
  split; [exact H1|exact H2].
Defined.

Definition saved_chains : list string := ["PREROUTING"; "KUBE-HOSTPORTS"; "KUBE-HP-OLD"].
Definition saved_rules : list string := ["-A KUBE-HP-OLD -j DNAT"; "-A PREROUTING -j ACCEPT"].

Lemma restore_text_exact_witness :
  exists ec er, forall gone, remove_text map_to_list ec (filterRules er []) gone
    = concat_lines (["*nat" +:+ newline; "{}" +:+ newline; "{}" +:+ newline;
                     "-A KUBE-HP-OLD -j DNAT" +:+ newline]
        ++ ((fun c => "-X " +:+ c +:+ newline) <$> gone) ++ ["COMMIT" +:+ newline]).
Proof.
  destruct (restore_text_exact (HI := hsim_iptables) hsim_chains map_to_list (fun m => reflexivity _)
    (mkHsim ∅ (save_text saved_chains saved_rules) []) _ saved_chains saved_rules "a" pod_a
    "10.0.0.7" [] ltac:(reflexivity) ltac:(vm_compute; reflexivity)
    ltac:(apply (bool_decide_unpack _); vm_compute; exact I)
    ltac:(apply (bool_decide_unpack _); vm_compute; exact I)
    ltac:(apply (bool_decide_unpack _); vm_compute; exact I)) as (ec & er & _ & _ & _ & H).
  exists ec, er. exact H.
Defined.
