(* ===== verification/FakeIptables.v ===== *)
(** * FakeIptables: the iptables of the repository's tests

    network/hostport/fake_iptables.go: tables of chains of rules that live in
    memory and understand the text of iptables-save and iptables-restore, and
    [GetChainsFromTable] of the vendored util/iptables.  It is a concrete
    [IPTables]: the host port manager of [Hostport] runs on it, so that what
    its text does to the rules of a node can be stated. *)
From S2P Require Import Prelude GoErrors GoNet GoText GoCidr GoHash Hostport HostportSpec.

(** ** State *)

Record fakeChain := mkFakeChain { fc_name : string; fc_rules : list string }.
Record fakeTable := mkFakeTable { ft_name : string; ft_chains : gmap string fakeChain }.
Record fakeIPTables := mkFakeIPTables {
  fi_tables : gmap string fakeTable;
  fi_builtinChains : gmap string (gset string);
  fi_IPv6 : bool;
}.

Definition NewFakeIPTables : fakeIPTables :=
  mkFakeIPTables ∅
    {[ "filter" := {[ "INPUT"; "FORWARD"; "OUTPUT" ]};
       "nat" := {[ "PREROUTING"; "INPUT"; "OUTPUT"; "POSTROUTING" ]};
       "mangle" := {[ "PREROUTING"; "INPUT"; "FORWARD"; "OUTPUT"; "POSTROUTING" ]} ]} false.

(** A table, or the chains of a table, replaced in place. *)
Definition fi_update (g : gmap string fakeTable -> gmap string fakeTable) (f : fakeIPTables) : fakeIPTables :=
  mkFakeIPTables (g (fi_tables f)) (fi_builtinChains f) (fi_IPv6 f).
Definition update_chains (tableName : string) (g : gmap string fakeChain -> gmap string fakeChain)
  : fakeIPTables -> fakeIPTables :=
  fi_update (alter (fun t => mkFakeTable (ft_name t) (g (ft_chains t))) tableName).
Definition set_rules (tableName chainName : string) (g : list string -> list string)
  : fakeIPTables -> fakeIPTables :=
  update_chains tableName (alter (fun c => mkFakeChain (fc_name c) (g (fc_rules c))) chainName).

(** ** Tables and chains *)

Definition getTable (tableName : string) (f : fakeIPTables) : res fakeTable :=
  match fi_tables f !! tableName with
  | None => Err (Errorf ("table " +:+ tableName +:+ " does not exist"))
  | Some table => Ok table
  end.

Definition getChain (tableName chainName : string) (f : fakeIPTables) : res fakeChain :=
  match getTable tableName f with
  | Err err => Err err
  | Ok table =>
      match ft_chains table !! chainName with
      | None => Err (Errorf ("chain " +:+ tableName +:+ "/" +:+ chainName +:+ " does not exist"))
      | Some chain => Ok chain
      end
  end.

Definition ensureChain (tableName chainName : string) : M fakeIPTables bool := fun f =>
  match getChain tableName chainName f with
  | Ok _ => (true, f)
  | Err _ =>
      let f := match fi_tables f !! tableName with
               | None => fi_update <[tableName := mkFakeTable tableName ∅]> f
               | Some _ => f
               end in
      (false, update_chains tableName <[chainName := mkFakeChain chainName []]> f)
  end.

Definition fi_EnsureChain (tableName chainName : string) : M fakeIPTables (res bool) :=
  let* existed := ensureChain tableName chainName in ret (Ok existed).

Definition fi_FlushChain (tableName chainName : string) : M fakeIPTables (res unit) := fun f =>
  match getChain tableName chainName f with
  | Err err => (Err err, f)
  | Ok _ => (Ok tt, set_rules tableName chainName (fun _ => []) f)
  end.

Definition fi_DeleteChain (tableName chainName : string) : M fakeIPTables (res unit) := fun f =>
  match getChain tableName chainName f with
  | Err err => (Err err, f)
  | Ok _ => (Ok tt, update_chains tableName (delete chainName) f)
  end.

Definition fi_ChainExists (tableName chainName : string) (f : fakeIPTables) : res bool :=
  match getChain tableName chainName f with Err err => Err err | Ok _ => Ok true end.

Definition isBuiltinChain (tableName chainName : string) (f : fakeIPTables) : bool :=
  match fi_builtinChains f !! tableName with
  | Some builtinChains => bool_decide (chainName ∈ builtinChains)
  | None => false
  end.

(** ** Rules *)

(** The index of a rule in a chain. *)
Fixpoint findRule (rules : list string) (rule : string) : option nat :=
  match rules with
  | [] => None
  | candidate :: rules' =>
      if String.eqb rule candidate then Some 0%nat else S <$> findRule rules' rule
  end.

(** [strings.Replace(s, "=", " ", 1)]. *)
Definition replace_equals (s : string) : string :=
  match cut "=" s with Some (a, b) => a +:+ " " +:+ b | None => s end.

Definition mismatched_quotes : error := Errorf "invalid rule syntax: mismatched quotes".

(** The next argument, with its quotes if it has any, and what follows the
    byte after it; None at the end of the text. *)
Definition next_arg (remaining : string) : res (string * option string) :=
  match remaining with
  | EmptyString => Err index_panic
  | String c tail =>
      if Ascii.eqb c (Ascii.ascii_of_N 34) then
        match cut dquote tail with
        | None => Err mismatched_quotes
        | Some (body, EmptyString) => Ok (dquote +:+ body +:+ dquote, None)
        | Some (body, String _ rest) => Ok (dquote +:+ body +:+ dquote, Some rest)
        end
      else match cut " " remaining with
           | None => Ok (remaining, None)
           | Some (arg, rest) => Ok (arg, Some rest)
           end
  end.

Definition add_arg (normalized arg : string) : string :=
  let arg := if ParseIP arg is Some _ then arg +:+ "/32" else arg in
  (if decide (normalized = "") then "" else normalized +:+ " ") +:+ TrimSpace arg.

Definition out_of_fuel : error := Errorf "out of fuel".

(** The loop of [normalizeRule]; every turn takes a byte at least. *)
Fixpoint normalize_loop (fuel : nat) (normalized remaining : string) : res string :=
  match fuel with
  | O => Err out_of_fuel
  | S fuel' =>
      let remaining :=
        if has_prefix remaining "--to-destination=" then replace_equals remaining else remaining in
      match next_arg remaining with
      | Err err => Err err
      | Ok (arg, None) => Ok (add_arg normalized arg)
      | Ok (arg, Some rest) => normalize_loop fuel' (add_arg normalized arg) rest
      end
  end.

Definition normalizeRule (rule : string) : res string :=
  let remaining := TrimSpace rule in
  normalize_loop (S (String.length remaining)) "" remaining.

Definition add_rule (position : RulePosition) (rule : string) (rules : list string) : list string :=
  match findRule rules rule with
  | Some _ => rules
  | None => match position with Prepend => rule :: rules | Append => rules ++ [rule] end
  end.

(** Whether the rule existed. *)
Definition ensureRule (position : RulePosition) (tableName chainName rule : string)
  : M fakeIPTables (res bool) :=
  let* _ := ensureChain tableName chainName in
  match normalizeRule rule with
  | Err err => ret (Err err)
  | Ok rule =>
      let* f := get in
      let found :=
        match getChain tableName chainName f with
        | Ok chain => bool_decide (is_Some (findRule (fc_rules chain) rule))
        | Err _ => false
        end in
      do* modify (set_rules tableName chainName (add_rule position rule)) in
      ret (Ok found)
  end.

Definition quote_arg (arg : string) : string :=
  if contains arg " " then dquote +:+ arg +:+ dquote else arg.

Definition fi_EnsureRule (position : RulePosition) (tableName chainName : string) (args : list string)
  : M fakeIPTables (res bool) :=
  ensureRule position tableName chainName (join (quote_arg <$> args) " ").

(** The rule is compared as it was given. *)
Definition fi_DeleteRule (tableName chainName : string) (args : list string)
  : M fakeIPTables (res unit) := fun f =>
  match getChain tableName chainName f with
  | Err _ => (Ok tt, f)
  | Ok chain =>
      match findRule (fc_rules chain) (join args " ") with
      | None => (Ok tt, f)
      | Some i => (Ok tt, set_rules tableName chainName (fun rules => take i rules ++ drop (S i) rules) f)
      end
  end.

(** ** Saving *)

Definition saveChain (chain : fakeChain) : string :=
  concat_lines ((fun rule => "-A " +:+ fc_name chain +:+ " " +:+ rule +:+ newline) <$> fc_rules chain).

(** The order in which Go visits the map of chains is given. *)
Definition fi_SaveInto (chain_list : gmap string fakeChain -> list fakeChain) (tableName : string)
  (f : fakeIPTables) : res string :=
  match getTable tableName f with
  | Err err => Err err
  | Ok table =>
      let chains := chain_list (ft_chains table) in
      Ok ("*" +:+ ft_name table +:+ newline
          +:+ concat_lines ((fun chain => MakeChainLine (fc_name chain) +:+ newline) <$> chains)
          +:+ concat_lines (saveChain <$> chains) +:+ "COMMIT" +:+ newline)
  end.

(** ** Restoring *)

(** What a line does: go on, in the given table, or return. *)
Inductive line_result :=
| Next (tableName : string)
| Return (r : res unit).

Definition then_next (tableName : string) {A} (m : M fakeIPTables (res A)) : M fakeIPTables line_result :=
  let* r := m in ret (match r with Err err => Return (Err err) | Ok _ => Next tableName end).

(** [:chain policy counters]. *)
Definition declare_chain (flush : bool) (allLines tableName chainName : string) : M fakeIPTables (res unit) :=
  let? _ := (if flush then fi_DeleteChain tableName chainName else ret (Ok tt)) in
  let* _ := ensureChain tableName chainName in
  let* f := get in
  if negb (isBuiltinChain tableName chainName f) && negb (contains allLines ("-X " +:+ chainName))
  then fi_FlushChain tableName chainName
  else ret (Ok tt).

Definition invalid_rule (line : string) : error := Errorf ("invalid iptables rule '" +:+ line +:+ "'").

(** [-A chain rule] and [-I chain rule], of which [flag] is the first word. *)
Definition rule_line (position : RulePosition) (flag tableName line : string) : M fakeIPTables (res bool) :=
  match split line " " with
  | _ :: chainName :: _ :: _ =>
      ensureRule position tableName chainName (trim_prefix line (flag +:+ " " +:+ chainName +:+ " "))
  | _ => ret (Err (invalid_rule line))
  end.

Definition delete_line (tableName line : string) : M fakeIPTables (res unit) :=
  match split line " " with
  | _ :: chainName :: _ => fi_DeleteChain tableName chainName
  | _ => ret (Err (invalid_rule line))
  end.

(** One line, without its end, given the table the text is in. *)
Definition restore_line (restoreTableName : string) (flush : bool) (allLines tableName line : string)
  : M fakeIPTables line_result :=
  if has_prefix line "#" then ret (Next tableName)
  else
    let tableName := if has_prefix line "*" then sdrop 1 line else tableName in
    if decide (tableName = "") then ret (Next tableName)
    else if decide (restoreTableName <> "" /\ restoreTableName <> tableName) then ret (Next tableName)
    else if has_prefix line ":" then
      then_next tableName (declare_chain flush allLines tableName (default "" (head (split (sdrop 1 line) " "))))
    else if has_prefix line "-A" then then_next tableName (rule_line Append "-A" tableName line)
    else if has_prefix line "-I" then then_next tableName (rule_line Prepend "-I" tableName line)
    else if has_prefix line "-X" then then_next tableName (delete_line tableName line)
    else if decide (line = "COMMIT") then
      if decide (restoreTableName = tableName) then ret (Return (Ok tt)) else ret (Next "")
    else ret (Next tableName).

Fixpoint restore_lines (restoreTableName : string) (flush : bool) (allLines tableName : string)
  (lines : list string) : M fakeIPTables (res unit) :=
  match lines with
  | [] => ret (Ok tt)
  | line :: lines' =>
      let* r := restore_line restoreTableName flush allLines tableName line in
      match r with
      | Return r => ret r
      | Next tableName => restore_lines restoreTableName flush allLines tableName lines'
      end
  end.

(** The lines of the text that are ended. *)
Definition ended_lines (data : string) : list string := removelast (split data newline).

Definition restore (restoreTableName data : string) (flush : bool) : M fakeIPTables (res unit) :=
  restore_lines restoreTableName flush data "" (ended_lines data).
Definition fi_Restore (tableName data : string) (flush : bool) : M fakeIPTables (res unit) :=
  restore tableName data flush.
Definition fi_RestoreAll (data : string) (flush : bool) : M fakeIPTables (res unit) := restore "" data flush.

(** ** The chains of a saved table (vendored) *)

Fixpoint chains_go (fuel : nat) (save : string) : list string :=
  match fuel with
  | O => []
  | S fuel' =>
      match cut (newline +:+ ":") save with
      | None => []
      | Some (_, save) =>
          match cut " " save with
          | None => []
          | Some (chain, rest) => chain :: chains_go fuel' (" " +:+ rest)
          end
      end
  end.
Definition GetChainsFromTable (save : string) : gset string :=
  list_to_set (chains_go (String.length save) save).

(** ** A node: these tables beside everything else the manager uses *)

Section Node.
Context {V : Type} `{IP : PortOpener V} `{IC : Conntrack V}.
Context (chain_list : gmap string fakeChain -> list fakeChain) (isIPv6 : bool).
Abbreviation W := (fakeIPTables * V)%type.

Definition onTables {A} (m : M fakeIPTables A) : M W A := fun '(f, v) =>
  let '(a, f') := m f in (a, (f', v)).
Definition onRest {A} (m : M V A) : M W A := fun '(f, v) =>
  let '(a, v') := m v in (a, (f, v')).

Definition fake_IPTables : IPTables W := {|
  ipt_IsIPv6 := isIPv6;
  ipt_EnsureChain := fun table chain => onTables (fi_EnsureChain table chain);
  ipt_EnsureRule := fun position table chain args => onTables (fi_EnsureRule position table chain args);
  ipt_SaveInto := fun table => fun '(f, v) => (fi_SaveInto chain_list table f, (f, v));
  ipt_RestoreAll := fun data => onTables (fi_RestoreAll data false);
|}.
Definition node_PortOpener : PortOpener W := {|
  portOpener := fun hp => onRest (portOpener hp);
  socket_Close := fun socket => onRest (socket_Close socket);
|}.
Definition node_Conntrack : Conntrack W := fun port v6 => onRest (ClearEntriesForPort port v6).

End Node.

(** ** Theory *)

(** *** The rules of a chain of the nat table *)

Definition nat_rules (f : fakeIPTables) (chainName : string) : option (list string) :=
  match getChain TableNAT chainName f with Ok chain => Some (fc_rules chain) | Err _ => None end.

Lemma nat_rules_lookup f c :
  nat_rules f c = fc_rules <$> (fi_tables f !! TableNAT ≫= fun t => ft_chains t !! c).
Proof.
  unfold nat_rules, getChain, getTable. destruct (fi_tables f !! TableNAT) as [t|]; [|done]. cbn.
  by destruct (ft_chains t !! c).
Qed.

Lemma nat_rules_update g f c :
  is_Some (fi_tables f !! TableNAT) ->
  nat_rules (update_chains TableNAT g f) c
  = fc_rules <$> (fi_tables f !! TableNAT ≫= fun t => g (ft_chains t) !! c).
Proof.
  intros [t Ht]. rewrite nat_rules_lookup. unfold update_chains, fi_update. cbn [fi_tables].
  by rewrite lookup_alter_eq, Ht.
Qed.

Lemma nat_rules_some f c rules : nat_rules f c = Some rules -> is_Some (fi_tables f !! TableNAT).
Proof. rewrite nat_rules_lookup. by destruct (fi_tables f !! TableNAT). Qed.

Lemma nat_rules_set g f c c' :
  nat_rules (set_rules TableNAT c' g f) c
  = if decide (c = c') then g <$> nat_rules f c else nat_rules f c.
Proof.
  rewrite !nat_rules_lookup. unfold set_rules, update_chains, fi_update. cbn [fi_tables].
  rewrite lookup_alter_eq. destruct (fi_tables f !! TableNAT) as [t|]; cbn; [|by case_decide].
  case_decide as Hc; [subst; rewrite lookup_alter_eq|by rewrite lookup_alter_ne by done].
  by destruct (ft_chains t !! c').
Qed.

Lemma nat_rules_ensureChain f c c' :
  nat_rules (snd (ensureChain TableNAT c' f)) c
  = if decide (c = c') then Some (default [] (nat_rules f c)) else nat_rules f c.
Proof.
  unfold ensureChain, getChain, getTable. rewrite (nat_rules_lookup f).
  destruct (fi_tables f !! TableNAT) as [t|] eqn:Et; cbn [snd].
  - destruct (ft_chains t !! c') as [ch|] eqn:Ec; cbn [snd].
    + rewrite nat_rules_lookup, Et. cbn. case_decide; [by subst; rewrite Ec|done].
    + rewrite nat_rules_update by by rewrite Et. rewrite Et. cbn.
      case_decide; [subst; by rewrite lookup_insert_eq, Ec|by rewrite lookup_insert_ne by done].
  - rewrite nat_rules_update by (cbn; by rewrite lookup_insert_eq). cbn. rewrite lookup_insert_eq. cbn.
    case_decide; [subst; by rewrite lookup_insert_eq|by rewrite lookup_insert_ne, lookup_empty by done].
Qed.

Lemma nat_rules_delete f c c' :
  nat_rules (update_chains TableNAT (delete c') f) c = if decide (c = c') then None else nat_rules f c.
Proof.
  rewrite !nat_rules_lookup. unfold update_chains, fi_update. cbn [fi_tables].
  rewrite lookup_alter_eq. destruct (fi_tables f !! TableNAT) as [t|]; cbn; [|by case_decide].
  case_decide; [subst; by rewrite lookup_delete_eq|by rewrite lookup_delete_ne by done].
Qed.

Lemma nat_rules_ensureRule pos c' rule f c :
  nat_rules (snd (ensureRule pos TableNAT c' rule f)) c
  = if decide (c = c') then
      Some (match normalizeRule rule with
            | Ok n => add_rule pos n (default [] (nat_rules f c))
            | Err _ => default [] (nat_rules f c)
            end)
    else nat_rules f c.
Proof.
  unfold ensureRule, bind. pose proof (nat_rules_ensureChain f c c') as He.
  destruct (ensureChain TableNAT c' f) as [b f1]. cbn in He.
  destruct (normalizeRule rule) as [n|e]; cbn; [|exact He].
  rewrite nat_rules_set, He. by case_decide.
Qed.

Lemma ensureRule_result pos t c rule f :
  is_ok (fst (ensureRule pos t c rule f)) = is_ok (normalizeRule rule).
Proof.
  unfold ensureRule, bind. destruct (ensureChain t c f) as [b f1]. by destruct (normalizeRule rule).
Qed.

Lemma elem_of_add_rule pos n rules r : r ∈ add_rule pos n rules <-> r = n \/ r ∈ rules.
Proof.
  unfold add_rule. destruct (findRule rules n) as [i|] eqn:E.
  - split; [by right|]. intros [->|]; [|done]. revert i E. induction rules as [|x rules IH]; [done|].
    intros i. cbn. destruct (String.eqb_spec n x) as [->|]; [left|].
    destruct (findRule rules n) as [j|]; [|done]. right. by eapply IH.
  - destruct pos; set_solver.
Qed.

Lemma add_rule_append n rules : exists extra, add_rule Append n rules = rules ++ extra.
Proof.
  unfold add_rule. destruct (findRule rules n); [exists []; by rewrite app_nil_r|by exists [n]].
Qed.

(** *** Lines *)

Lemma split_go_fuel c n m s :
  (String.length s <= n)%nat -> (String.length s <= m)%nat ->
  split_go n (String c "") s = split_go m (String c "") s.
Proof.
  revert m s. induction n as [|n IH]; intros m s Hn Hm.
  - destruct s; [|cbn in Hn; lia]. by destruct m.
  - destruct m as [|m]; [destruct s; [done|cbn in Hm; lia]|]. cbn [split_go].
    destruct (cut (String c "") s) as [[a b]|] eqn:E; [|done]. f_equal. apply cut_char_some in E.
    assert (String.length b < String.length s)%nat
      by (destruct E as [-> _]; rewrite slength_app; cbn; lia).
    apply IH; lia.
Qed.

Lemma split_char_app c a b :
  lacks c a = true -> split (a +:+ String c b) (String c "") = a :: split b (String c "").
Proof.
  intros Ha. unfold split. rewrite slength_app. cbn [String.length].
  rewrite Nat.add_succ_r. cbn [split_go]. rewrite cut_char_app by done.
  f_equal. apply split_go_fuel; lia.
Qed.

Lemma split_nonempty s c : exists a l, split s (String c "") = a :: l.
Proof. unfold split. destruct (String.length s); cbn; [by eexists _, _|]. destruct (cut _ s) as [[]|]; by eexists _, _. Qed.

(** A text made of ended lines is read back as these lines. *)
Lemma ended_lines_concat ls :
  Forall (fun l => one_line l) ls ->
  ended_lines (concat_lines ((fun l => l +:+ newline) <$> ls)) = ls.
Proof.
  unfold ended_lines. intros Hl. induction Hl as [|l ls Hl _ IH]; [done|].
  assert (concat_lines ((fun l => l +:+ newline) <$> l :: ls)
          = l +:+ String (Ascii.ascii_of_N 10) (concat_lines ((fun l => l +:+ newline) <$> ls))) as ->.
  { unfold concat_lines. rewrite fmap_cons. destruct ls as [|l' ls]; [done|].
    change ((l +:+ newline) +:+ concat_lines ((fun l => l +:+ newline) <$> l' :: ls)
            = l +:+ newline +:+ concat_lines ((fun l => l +:+ newline) <$> l' :: ls)).
    by rewrite sapp_assoc. }
  unfold newline in *. rewrite split_char_app by done.
  destruct (split_nonempty (concat_lines ((fun l => l +:+ String (Ascii.ascii_of_N 10) "") <$> ls))
              (Ascii.ascii_of_N 10)) as (a & l' & E).
  rewrite E in *. change (l :: removelast (a :: l') = l :: ls). by rewrite IH.
Qed.

Lemma rule_line_app pos flag t c rest f :
  lacks " " flag = true -> lacks " " c = true ->
  rule_line pos flag t (flag +:+ " " +:+ c +:+ " " +:+ rest) f = ensureRule pos t c rest f.
Proof.
  intros Hf Hc. unfold rule_line.
  assert (split (flag +:+ " " +:+ c +:+ " " +:+ rest) " " = flag :: c :: split rest " ") as ->.
  { change (split (flag +:+ String " " (c +:+ String " " rest)) " " = flag :: c :: split rest " ").
    by rewrite !split_char_app. }
  destruct (split_nonempty rest " ") as (a & l & ->).
  assert (flag +:+ " " +:+ c +:+ " " +:+ rest = (flag +:+ " " +:+ c +:+ " ") +:+ rest) as ->
    by by rewrite !sapp_assoc.
  by rewrite trim_prefix_app.
Qed.

(** *** What a line does *)

Abbreviation restore_all := (restore_line "" false).
Abbreviation restores := (restore_lines "" false).

Lemma braces_line all f : restore_all all TableNAT marshalled_chain f = (Next TableNAT, f).
Proof. reflexivity. Qed.
Lemma table_line all t f : restore_all all t "*nat" f = (Next TableNAT, f).
Proof. reflexivity. Qed.
Lemma commit_line all f : restore_all all TableNAT "COMMIT" f = (Next "", f).
Proof. reflexivity. Qed.

Lemma chain_line all c f :
  lacks " " c = true ->
  restore_all all TableNAT (MakeChainLine c) f = then_next TableNAT (declare_chain false all TableNAT c) f.
Proof.
  intros Hc. unfold MakeChainLine.
  change (":" +:+ c +:+ " - [0:0]") with (String ":" (c +:+ String " " "- [0:0]")).
  assert (forall s, has_prefix (String ":" s) ":" = true) as Hp by (intros s; apply (has_prefix_app ":")).
  unfold restore_line. rewrite Hp. cbn [sdrop]. rewrite split_char_app by done. reflexivity.
Qed.

Lemma flag_line all pos flag line f :
  (pos = Append /\ flag = "-A" \/ pos = Prepend /\ flag = "-I") -> has_prefix line flag = true ->
  restore_all all TableNAT line f = then_next TableNAT (rule_line pos flag TableNAT line) f.
Proof.
  intros [[-> ->]|[-> ->]] Hl; unfold restore_line; rewrite Hl;
    apply has_prefix_spec in Hl as [rest ->]; reflexivity.
Qed.

Lemma delete_chain_line all c f :
  lacks " " c = true ->
  restore_all all TableNAT ("-X " +:+ c) f = then_next TableNAT (fi_DeleteChain TableNAT c) f.
Proof.
  intros Hc. assert (split ("-X " +:+ c) " " = ["-X"; c]) as E.
  { change ("-X " +:+ c) with ("-X" +:+ String " " c). rewrite split_char_app by done.
    unfold split. destruct c as [|x c]; [done|]. cbn [String.length split_go]. by rewrite cut_char_none. }
  assert (has_prefix ("-X " +:+ c) "-X" = true) as Hp by apply (has_prefix_app "-X" (" " +:+ c)).
  unfold restore_line. rewrite Hp. unfold delete_line. by rewrite E.
Qed.

Lemma declare_chain_spec all c f :
  let '(r, f') := declare_chain false all TableNAT c f in
  r = Ok tt /\ (forall c', c' <> c -> nat_rules f' c' = nat_rules f c')
  /\ (nat_rules f c = None -> nat_rules f' c = Some []).
Proof.
  unfold declare_chain, try, bind, ret, get. pose proof (nat_rules_ensureChain f) as He.
  specialize (fun c0 => He c0 c). destruct (ensureChain TableNAT c f) as [b f1]. cbn in He.
  assert (exists rules, nat_rules f1 c = Some rules) as [rules Hr]
    by (rewrite He, decide_True by done; by eexists).
  destruct (_ && _).
  - unfold fi_FlushChain. unfold nat_rules in Hr. destruct (getChain TableNAT c f1) as [ch|e] eqn:Eg; [|done].
    split; [done|]. split; intros; rewrite nat_rules_set.
    + rewrite decide_False, He, decide_False by done. done.
    + rewrite decide_True by done. unfold nat_rules. by rewrite Eg.
  - split; [done|]. split; intros.
    + by rewrite He, decide_False.
    + rewrite He, decide_True by done. by rewrite H.
Qed.

(** The rules of every chain only grow at their end. *)
Definition grows (f f' : fakeIPTables) : Prop :=
  forall c rules, nat_rules f c = Some rules -> exists extra, nat_rules f' c = Some (rules ++ extra).

Lemma grows_refl f : grows f f.
Proof. intros c rules Hr. exists []. by rewrite app_nil_r. Qed.
Lemma grows_trans f1 f2 f3 : grows f1 f2 -> grows f2 f3 -> grows f1 f3.
Proof.
  intros H1 H2 c rules [e1 H]%H1. apply H2 in H as [e2 ->]. exists (e1 ++ e2). by rewrite app_assoc.
Qed.

Lemma append_grows c rule f : grows f (snd (ensureRule Append TableNAT c rule f)).
Proof.
  intros c' rules Hr. rewrite nat_rules_ensureRule, Hr. case_decide; [|exists []; by rewrite app_nil_r].
  destruct (normalizeRule rule) as [n|e]; cbn; [|exists []; by rewrite app_nil_r].
  destruct (add_rule_append n rules) as [extra ->]. by eexists.
Qed.

(** A chain named in a line is a part of it. *)
Lemma has_prefix_trans s p q : has_prefix s p = true -> has_prefix (s +:+ q) p = true.
Proof. intros Hp. apply has_prefix_spec in Hp as [r ->]. rewrite sapp_assoc. apply has_prefix_app. Qed.

Lemma contains_app a b c : contains (a +:+ b +:+ c) b = true.
Proof.
  unfold contains. induction a as [|x a IH].
  - assert (has_prefix (b +:+ c) b = true) as Hp by apply has_prefix_app.
    change ("" +:+ b +:+ c) with (b +:+ c). destruct (b +:+ c); cbn [cut]; by rewrite Hp.
  - change (String x a +:+ b +:+ c) with (String x (a +:+ b +:+ c)). cbn [cut].
    destruct (has_prefix _ b); [done|]. by destruct (cut b (a +:+ b +:+ c)) as [[]|].
Qed.

Lemma split_contains s x p : p ∈ split s (String x "") -> contains s p = true.
Proof.
  unfold split. generalize (String.length s) as n. intros n. revert s.
  assert (forall n s p, p ∈ split_go n (String x "") s -> exists a b, s = a +:+ p +:+ b) as H.
  { induction n0 as [|n0 IH]; intros s q; cbn [split_go].
    - rewrite elem_of_cons. intros [->|[]%elem_of_nil]. exists "", "". by rewrite sapp_nil_r.
    - destruct (cut (String x "") s) as [[a b]|] eqn:E.
      + apply cut_char_some in E as [-> _]. rewrite elem_of_cons. intros [->|Hin].
        * exists "", (String x b). done.
        * apply IH in Hin as (a' & b' & ->). exists (a +:+ String x a'), b'.
          rewrite sapp_assoc. done.
      + rewrite elem_of_cons. intros [->|[]%elem_of_nil]. exists "", "". by rewrite sapp_nil_r. }
  intros s Hin. apply H in Hin as (a & b & ->). apply contains_app.
Qed.

(** A rule line either fails or adds at the end of one chain it names. *)
Lemma append_line all line f :
  has_prefix line "-A" = true ->
  exists r f', restore_all all TableNAT line f = (r, f') /\ grows f f'
  /\ (r = Next TableNAT \/ exists e, r = Return (Err e))
  /\ forall c, contains line c = false -> nat_rules f' c = nat_rules f c.
Proof.
  intros Hl. rewrite (flag_line all Append "-A") by auto. unfold then_next, rule_line, bind, ret.
  destruct (split line " ") as [|w1 [|c [|w3 ws]]] eqn:Es;
    try by (eexists _, f; split; [done|]; split; [apply grows_refl|]; split; [by right; eexists|done]).
  set (rule := trim_prefix line _). pose proof (append_grows c rule f) as Hg.
  pose proof (nat_rules_ensureRule Append c rule f) as Hn.
  destruct (ensureRule Append TableNAT c rule f) as [[b|e] f']; cbn in Hg, Hn;
    (eexists _, f'; split; [done|]; split; [done|]; split; [by (left; reflexivity) || by (right; eexists)|]);
    intros c' Hc'; rewrite Hn; rewrite decide_False; [done| |done|]; intros ->;
    rewrite (split_contains line " " c) in Hc' by (rewrite Es; right; left); done.
Qed.

(** *** What blocks of lines do *)

Lemma restores_braces all n ls f :
  restores all TableNAT (replicate n marshalled_chain ++ ls) f = restores all TableNAT ls f.
Proof. induction n as [|n IH]; [done|]. cbn [replicate app restore_lines]. unfold bind. by rewrite braces_line. Qed.

Lemma restores_commit all f : restores all TableNAT ["COMMIT"] f = (Ok tt, f).
Proof. reflexivity. Qed.

Lemma restores_appends all lines ls f :
  Forall (fun l => has_prefix l "-A" = true) lines ->
  exists f', grows f f' /\ (forall c, Forall (fun l => contains l c = false) lines -> nat_rules f' c = nat_rules f c)
  /\ (restores all TableNAT (lines ++ ls) f = restores all TableNAT ls f'
      \/ exists e, restores all TableNAT (lines ++ ls) f = (Err e, f')).
Proof.
  intros Hl. revert f. induction Hl as [|l lines Hl _ IH]; intros f.
  { exists f. split; [apply grows_refl|]. split; [done|by left]. }
  cbn [app restore_lines]. unfold bind.
  destruct (append_line all l f Hl) as (r & f1 & -> & Hg & [->|[e ->]] & Hc).
  - destruct (IH f1) as (f' & Hg' & Hc' & Hr). exists f'. split; [by eapply grows_trans|].
    split; [|exact Hr]. intros c [? ?]%Forall_cons. rewrite Hc' by done. by apply Hc.
  - exists f1. split; [done|]. split; [|by right; exists e]. intros c [? _]%Forall_cons. by apply Hc.
Qed.

Lemma restores_deletes all gone ls f :
  Forall (fun c => lacks " " c = true) gone ->
  exists f', (forall c, c ∉ gone -> nat_rules f' c = nat_rules f c)
  /\ (restores all TableNAT (((fun c => "-X " +:+ c) <$> gone) ++ ls) f = restores all TableNAT ls f'
        /\ (forall c, c ∈ gone -> nat_rules f' c = None)
      \/ exists e, restores all TableNAT (((fun c => "-X " +:+ c) <$> gone) ++ ls) f = (Err e, f')).
Proof.
  intros Hl. revert f. induction Hl as [|g gone Hg _ IH]; intros f.
  { exists f. split; [done|]. left. split; [done|]. by intros c ?%elem_of_nil. }
  rewrite fmap_cons. cbn [app restore_lines]. unfold bind. rewrite delete_chain_line by done.
  unfold then_next, fi_DeleteChain, bind, ret. destruct (getChain TableNAT g f) as [ch|e] eqn:Ec.
  - set (f1 := update_chains TableNAT (delete g) f). destruct (IH f1) as (f' & Hk & Hr). exists f'. split.
    + intros c [Hne Hc]%not_elem_of_cons. rewrite Hk by done. subst f1.
      rewrite nat_rules_delete. by rewrite decide_False.
    + destruct Hr as [[Hr Hn]|Hr]; [left|by right]. split; [done|]. intros c Hc.
      destruct (decide (c ∈ gone)) as [Hin|Hin]; [by apply Hn|].
      apply elem_of_cons in Hc as [->|]; [|done]. rewrite Hk by done. subst f1.
      rewrite nat_rules_delete. by rewrite decide_True.
  - exists f. split; [done|]. right. by exists e.
Qed.

Lemma restores_decls all cs ls f :
  Forall (fun c => lacks " " c = true) cs -> NoDup cs ->
  exists f', restores all TableNAT ((MakeChainLine <$> cs) ++ ls) f = restores all TableNAT ls f'
  /\ (forall c, c ∉ cs -> nat_rules f' c = nat_rules f c)
  /\ (forall c, c ∈ cs -> nat_rules f c = None -> nat_rules f' c = Some []).
Proof.
  intros Hl Hd. revert f. induction cs as [|c cs IH]; intros f.
  { exists f. split; [done|]. split; [done|]. by intros c ?%elem_of_nil. }
  apply Forall_cons in Hl as [Hc Hl]. apply NoDup_cons in Hd as [Hnin Hd].
  rewrite fmap_cons. cbn [app restore_lines]. unfold bind. rewrite chain_line by done.
  pose proof (declare_chain_spec all c f) as Hs. unfold then_next, bind, ret.
  destruct (declare_chain false all TableNAT c f) as [r f1]. destruct Hs as (-> & Hk & Hn).
  destruct (IH Hl Hd f1) as (f' & Hr & Hk' & Hn'). exists f'. split; [exact Hr|]. split.
  - intros c' [? ?]%not_elem_of_cons. rewrite Hk' by done. by apply Hk.
  - intros c' [->|Hin]%elem_of_cons Hf; [rewrite Hk' by done; by apply Hn|].
    apply Hn'; [done|]. rewrite Hk; [done|]. by intros ->.
Qed.

(** *** The lines of one mapping *)

Definition mapping_comment (pod : PodPortMapping) (pm : HostPortMapping) : list string :=
  ["-m"; "comment"; "--comment"; hostport_comment pod pm].

(** The rules without their chains: the jump from KUBE-HOSTPORTS, and the two
    rules of the mapping's own chain. *)
Definition jump_rule (id : string) (pod : PodPortMapping) (pm : HostPortMapping) : string :=
  let protocol := to_lower (hpm_Protocol pm) in
  join (mapping_comment pod pm ++ ["-m"; protocol; "-p"; protocol; "--dport"; itoa (hpm_HostPort pm);
                                   "-j"; getHostportChain id pm]) " ".
Definition masq_rule (pod : PodPortMapping) (podIP : string) (pm : HostPortMapping) : string :=
  join (mapping_comment pod pm ++ ["-s"; podIP; "-j"; kubeMarkMasqChain]) " ".
Definition dnat_rule (pod : PodPortMapping) (podIP : string) (pm : HostPortMapping) : string :=
  let protocol := to_lower (hpm_Protocol pm) in
  let dnat := ["-j"; "DNAT"; "--to-destination=" +:+ JoinHostPort podIP (itoa (hpm_ContainerPort pm))] in
  join (if decide (hpm_HostIP pm = "" \/ hpm_HostIP pm = "0.0.0.0" \/ hpm_HostIP pm = "::")
        then mapping_comment pod pm ++ ["-m"; protocol; "-p"; protocol] ++ dnat
        else mapping_comment pod pm ++ ["-m"; protocol; "-p"; protocol; "-d"; hpm_HostIP pm] ++ dnat) " ".

Definition mapping_lines (id : string) (pod : PodPortMapping) (podIP : string) (pm : HostPortMapping)
  : list string :=
  ["-I" +:+ " " +:+ kubeHostportsChain +:+ " " +:+ jump_rule id pod pm;
   "-A" +:+ " " +:+ getHostportChain id pm +:+ " " +:+ masq_rule pod podIP pm;
   "-A" +:+ " " +:+ getHostportChain id pm +:+ " " +:+ dnat_rule pod podIP pm].

Lemma concat_lines_app l1 l2 : concat_lines (l1 ++ l2) = concat_lines l1 +:+ concat_lines l2.
Proof.
  assert (forall x l, concat_lines (x :: l) = x +:+ concat_lines l) as Hc.
  { intros x [|y l]; [by rewrite sapp_nil_r|done]. }
  induction l1 as [|x l1 IH]; [done|]. rewrite <- app_comm_cons, !Hc, IH. by rewrite sapp_assoc.
Qed.

Lemma mapping_rules_lines id pod podIP pm :
  mapping_rules id pod podIP pm = concat_lines ((fun l => l +:+ newline) <$> mapping_lines id pod podIP pm).
Proof.
  unfold mapping_rules, mapping_lines, jump_rule, masq_rule, dnat_rule, mapping_comment, writeLine, concat_lines.
  case_decide; cbn [fmap list_fmap String.concat app]; by rewrite !join_cons, !sapp_assoc.
Qed.

Lemma chain_name_plain id pm :
  lacks " " (getHostportChain id pm) = true /\ one_line (getHostportChain id pm)
  /\ getHostportChain id pm <> kubeHostportsChain.
Proof.
  unfold getHostportChain.
  destruct (encoded_prefix (id +:+ itoa (hpm_HostPort pm) +:+ hpm_Protocol pm +:+ hpm_HostIP pm)) as [_ Hb].
  set (e := stake 16 _) in *.
  assert (forall c, is_base32 c = false -> lacks c e = true) as Hlk.
  { intros c Hc. unfold lacks. eapply sforall_impl; [|exact Hb].
    intros d Hd. destruct (Ascii.eqb_spec d c) as [->|]; [congruence|done]. }
  unfold lacks in *. rewrite !sforall_app, !Hlk by done. done.
Qed.

(** What the three lines of a mapping do when they succeed: the rules, as
    normalized, go to the mapping's chain and before those of KUBE-HOSTPORTS. *)
Definition installed (id : string) (pod : PodPortMapping) (podIP : string) (pm : HostPortMapping)
  (f f' : fakeIPTables) (jump masq dnat : string) : Prop :=
  normalizeRule (jump_rule id pod pm) = Ok jump /\ normalizeRule (masq_rule pod podIP pm) = Ok masq
  /\ normalizeRule (dnat_rule pod podIP pm) = Ok dnat
  /\ forall c, nat_rules f' c
     = if decide (c = getHostportChain id pm)
       then Some (add_rule Append dnat (add_rule Append masq (default [] (nat_rules f c))))
       else if decide (c = kubeHostportsChain) then Some (add_rule Prepend jump (default [] (nat_rules f c)))
       else nat_rules f c.

Lemma rule_line_runs all pos flag c rest ls f :
  (pos = Append /\ flag = "-A" \/ pos = Prepend /\ flag = "-I") -> lacks " " c = true ->
  restores all TableNAT ((flag +:+ " " +:+ c +:+ " " +:+ rest) :: ls) f
  = let '(r, f') := ensureRule pos TableNAT c rest f in
    match r with Err e => (Err e, f') | Ok _ => restores all TableNAT ls f' end.
Proof.
  intros Hp Hc. cbn [restore_lines]. unfold bind.
  rewrite (flag_line all pos flag) by (done || apply has_prefix_app).
  unfold then_next, bind, ret. rewrite rule_line_app by (done || by destruct Hp as [[_ ->]|[_ ->]]).
  by destruct (ensureRule pos TableNAT c rest f) as [[b|e] f'].
Qed.

Lemma ensureRule_runs pos c rest f :
  exists r f', ensureRule pos TableNAT c rest f = (r, f')
  /\ (forall c', nat_rules f' c' = if decide (c' = c) then
        Some (match normalizeRule rest with
              | Ok n => add_rule pos n (default [] (nat_rules f c'))
              | Err _ => default [] (nat_rules f c')
              end) else nat_rules f c')
  /\ is_ok r = is_ok (normalizeRule rest).
Proof.
  destruct (ensureRule pos TableNAT c rest f) as [r f'] eqn:E. exists r, f'. split; [done|].
  pose proof (nat_rules_ensureRule pos c rest f) as H1. pose proof (ensureRule_result pos TableNAT c rest f) as H2.
  rewrite E in H1, H2. split; [intros c'; apply H1|done].
Qed.

Lemma restores_mapping all id pod podIP pm ls f :
  (exists f' jump masq dnat, restores all TableNAT (mapping_lines id pod podIP pm ++ ls) f = restores all TableNAT ls f'
     /\ installed id pod podIP pm f f' jump masq dnat)
  \/ exists e f', restores all TableNAT (mapping_lines id pod podIP pm ++ ls) f = (Err e, f').
Proof.
  destruct (chain_name_plain id pm) as (Hs & _ & Hne). unfold mapping_lines, installed. cbn [app].
  rewrite (rule_line_runs all Prepend) by (done || by right).
  destruct (ensureRule_runs Prepend kubeHostportsChain (jump_rule id pod pm) f) as (r1 & f1 & -> & H1 & E1).
  destruct r1 as [b1|e]; [|by right; eexists _, _].
  destruct (normalizeRule (jump_rule id pod pm)) as [jump|]; [|done].
  rewrite (rule_line_runs all Append) by (done || by left).
  destruct (ensureRule_runs Append (getHostportChain id pm) (masq_rule pod podIP pm) f1) as (r2 & f2 & -> & H2 & E2).
  destruct r2 as [b2|e]; [|by right; eexists _, _].
  destruct (normalizeRule (masq_rule pod podIP pm)) as [masq|]; [|done].
  rewrite (rule_line_runs all Append) by (done || by left).
  destruct (ensureRule_runs Append (getHostportChain id pm) (dnat_rule pod podIP pm) f2) as (r3 & f3 & -> & H3 & E3).
  destruct r3 as [b3|e]; [|by right; eexists _, _].
  destruct (normalizeRule (dnat_rule pod podIP pm)) as [dnat|]; [|done].
  left. exists f3, jump, masq, dnat. do 4 (split; [done|]). intros c. rewrite H3, H2, H1.
  repeat case_decide; subst; done.
Qed.

(** The lines of all mappings, for chains that are new and distinct. *)
Lemma restores_mappings all id pod podIP pms ls f :
  NoDup (getHostportChain id <$> pms) ->
  (exists f', restores all TableNAT (flat_map (mapping_lines id pod podIP) pms ++ ls) f = restores all TableNAT ls f'
     /\ (forall pm, pm ∈ pms -> nat_rules f (getHostportChain id pm) = Some [] ->
         exists jump masq dnat, normalizeRule (jump_rule id pod pm) = Ok jump
         /\ normalizeRule (masq_rule pod podIP pm) = Ok masq /\ normalizeRule (dnat_rule pod podIP pm) = Ok dnat
         /\ nat_rules f' (getHostportChain id pm) = Some (add_rule Append dnat [masq])
         /\ exists rules, nat_rules f' kubeHostportsChain = Some rules /\ jump ∈ rules)
     /\ (forall c, c <> kubeHostportsChain -> c ∉ getHostportChain id <$> pms -> nat_rules f' c = nat_rules f c)
     /\ (forall rules r, nat_rules f kubeHostportsChain = Some rules -> r ∈ rules ->
         exists rules', nat_rules f' kubeHostportsChain = Some rules' /\ r ∈ rules'))
  \/ exists e f', restores all TableNAT (flat_map (mapping_lines id pod podIP) pms ++ ls) f = (Err e, f').
Proof.
  revert f. induction pms as [|pm pms IH]; intros f Hd.
  { left. exists f. split; [done|]. split; [by intros pm ?%elem_of_nil|]. split; [done|]. by eauto. }
  rewrite fmap_cons in Hd. apply NoDup_cons in Hd as [Hnin Hd].
  destruct (chain_name_plain id pm) as (_ & _ & Hne).
  cbn [flat_map]. rewrite <- app_assoc.
  destruct (restores_mapping all id pod podIP pm (flat_map (mapping_lines id pod podIP) pms ++ ls) f)
    as [(f1 & jump & masq & dnat & -> & H1 & H2 & H3 & Hc)|(e & f1 & ->)]; [|by right; eexists _, _].
  destruct (IH f1 Hd) as [(f' & -> & Hin & Hk & Hh)|(e & f' & ->)]; [|by right; eexists _, _].
  left. exists f'. split; [done|].
  assert (exists rules, nat_rules f1 kubeHostportsChain = Some rules /\ jump ∈ rules) as (rules1 & Hr1 & Hj1).
  { rewrite Hc, decide_False, decide_True by done. eexists. split; [done|]. apply elem_of_add_rule. by left. }
  split; [|split].
  - intros pm' [->|Hpm]%elem_of_cons Hf.
    + exists jump, masq, dnat. do 3 (split; [done|]). split; [|by eapply Hh].
      rewrite Hk by done. rewrite Hc, decide_True, Hf by done. done.
    + destruct (chain_name_plain id pm') as (_ & _ & Hne'). apply Hin; [done|].
      rewrite Hc, decide_False, decide_False; [done|done|]. intros He. apply Hnin. rewrite <- He.
      by apply list_elem_of_fmap_2.
  - intros c Hch. rewrite fmap_cons. intros [? ?]%not_elem_of_cons. rewrite Hk by done.
    rewrite Hc, decide_False by done. by rewrite decide_False.
  - intros rules r Hr Hin'. eapply Hh.
    + rewrite Hc, decide_False, decide_True by done. done.
    + rewrite Hr. apply elem_of_add_rule. by right.
Qed.

(** *** The texts of the manager, line by line *)

Lemma concat_mapping_rules id pod podIP pms :
  concat_lines (mapping_rules id pod podIP <$> pms)
  = concat_lines ((fun l => l +:+ newline) <$> flat_map (mapping_lines id pod podIP) pms).
Proof.
  induction pms as [|pm pms IH]; [done|]. cbn [flat_map]. rewrite fmap_app, concat_lines_app, <- IH.
  rewrite <- mapping_rules_lines, fmap_cons. apply (concat_lines_app [_]).
Qed.

Lemma split_one_line c s p : p ∈ split s (String c "") -> lacks c p = true.
Proof.
  unfold split. enough (forall n, (String.length s <= n)%nat -> forall p, p ∈ split_go n (String c "") s ->
    lacks c p = true) as H by by apply H. clear p. intros n. revert s.
  induction n as [|n IH]; intros s Hn p; cbn [split_go].
  { destruct s; [|cbn in Hn; lia]. by intros [->|[]%elem_of_nil]%elem_of_cons. }
  destruct (cut (String c "") s) as [[a b]|] eqn:E.
  - apply cut_char_some in E as [-> Ha]. intros [->|Hin]%elem_of_cons; [done|].
    eapply IH; [|exact Hin]. rewrite slength_app in Hn. cbn in Hn. lia.
  - intros [->|[]%elem_of_nil]%elem_of_cons. clear IH Hn. induction s as [|d s IH]; [done|].
    cbn [cut] in E. rewrite has_prefix_char in E. destruct (Ascii.eqb_spec d c) as [->|Hne]; [done|].
    destruct (cut (String c "") s) as [[]|]; [done|]. unfold lacks in *. cbn. rewrite IH by done.
    apply Ascii.eqb_neq in Hne. by rewrite Hne.
Qed.

Lemma hostport_rule_append l : is_hostport_rule l = true -> has_prefix l "-A" = true.
Proof.
  unfold is_hostport_rule. intros [H|H]%orb_true_iff; apply has_prefix_spec in H as [r ->];
    rewrite sapp_assoc; apply (has_prefix_app "-A").
Qed.

(** The rules the manager reads back: lines that append a rule. *)
Definition rule_lines (rules : list string) : Prop :=
  Forall (fun l => has_prefix l "-A" = true) rules /\ Forall (fun l => one_line l) rules.

Lemma rule_lines_read data :
  rule_lines (base.filter (fun line => is_hostport_rule line = true) (split data newline)).
Proof.
  split; apply Forall_forall; intros l [Hr Hl]%list_elem_of_filter;
    [by apply hostport_rule_append|by eapply split_one_line].
Qed.

Lemma rule_lines_filter rules filters : rule_lines rules -> rule_lines (filterRules rules filters).
Proof.
  unfold rule_lines. rewrite !Forall_forall. intros [H1 H2].
  split; intros l [_ Hin]%list_elem_of_filter; auto.
Qed.

Section Manager.
Context {V : Type} `{IP : PortOpener V} `{IC : Conntrack V}.
Context (chain_list : gmap string fakeChain -> list fakeChain) (isIPv6 : bool).
Context (port_order : gmap hostport nat -> list (hostport * nat)).
Context (chain_order : gmap string string -> list (string * string)).
Hypothesis chain_order_perm : forall m, chain_order m ≡ₚ map_to_list m.
Abbreviation W := (fakeIPTables * V)%type.
#[local] Instance nodeI : IPTables W := fake_IPTables chain_list isIPv6.
#[local] Instance nodeP : PortOpener W := node_PortOpener.
#[local] Instance nodeC : Conntrack W := node_Conntrack.

Abbreviation lines_text ls := (concat_lines ((fun l => l +:+ newline) <$> ls)).

Lemma add_text_lines id pod podIP pms X rules :
  exists n, add_text chain_order id pod podIP pms (gset_to_gmap marshalled_chain X) rules
  = lines_text (["*nat"] ++ (MakeChainLine <$> (getHostportChain id <$> pms)) ++ replicate n marshalled_chain
      ++ flat_map (mapping_lines id pod podIP) pms ++ filterRules rules (getHostportChain id <$> pms) ++ ["COMMIT"]).
Proof.
  eexists. unfold add_text. rewrite filterChains_set, (existing_lines chain_order chain_order_perm).
  rewrite !fmap_app, !concat_lines_app, concat_mapping_rules, fmap_replicate, <- !list_fmap_compose.
  reflexivity.
Qed.

Lemma remove_text_lines X rules gone :
  exists n, remove_text chain_order (gset_to_gmap marshalled_chain X) rules gone
  = lines_text (["*nat"] ++ replicate n marshalled_chain ++ rules ++ ((fun c => "-X " +:+ c) <$> gone) ++ ["COMMIT"]).
Proof.
  eexists. unfold remove_text. rewrite (existing_lines chain_order chain_order_perm).
  rewrite !fmap_app, !concat_lines_app, fmap_replicate, <- !list_fmap_compose. reflexivity.
Qed.

Lemma restore_text ls f :
  Forall (fun l => one_line l) ls ->
  fi_RestoreAll (lines_text (["*nat"] ++ ls)) false f = restores (lines_text (["*nat"] ++ ls)) TableNAT ls f.
Proof.
  intros Hl. unfold fi_RestoreAll, restore. rewrite ended_lines_concat by by constructor.
  cbn [app restore_lines]. unfold bind. by rewrite table_line.
Qed.

(** What the text of [Remove] does to a node. *)
Lemma remove_text_restored X rules gone f :
  rule_lines rules -> Forall (fun c => lacks " " c = true /\ one_line c) gone ->
  let '(r, f') := fi_RestoreAll (remove_text chain_order (gset_to_gmap marshalled_chain X) rules gone) false f in
  (forall c old, c ∉ gone -> nat_rules f c = Some old -> exists extra, nat_rules f' c = Some (old ++ extra))
  /\ (r = Ok tt -> forall c, c ∈ gone -> nat_rules f' c = None).
Proof.
  intros [Ha Hl] Hg. destruct (remove_text_lines X rules gone) as [n ->].
  apply Forall_and in Hg as [Hs Ho]. rewrite restore_text.
  2: { repeat (apply Forall_app; split); [by apply Forall_replicate|done| |by repeat constructor].
       apply Forall_fmap. eapply Forall_impl; [exact Ho|]. intros c Hc. unfold lacks, compose in *.
       rewrite sforall_app. by rewrite Hc. }
  set (all := lines_text _). rewrite restores_braces.
  destruct (restores_appends all rules (((fun c => "-X " +:+ c) <$> gone) ++ ["COMMIT"]) f Ha)
    as (f1 & Hgr & _ & [->|[e ->]]).
  2: { split; [|done]. intros c old _. apply Hgr. }
  destruct (restores_deletes all gone ["COMMIT"] f1 Hs) as (f2 & Hk & [[-> Hn]|[e ->]]).
  - rewrite restores_commit. split; [|by intros _]. intros c old Hc Hold. rewrite Hk by done. by apply Hgr.
  - split; [|done]. intros c old Hc Hold. rewrite Hk by done. by apply Hgr.
Qed.

(** What the text of [Add] does to a node. *)
Lemma add_text_restored id pod podIP pms X rules f f' :
  rule_lines rules -> NoDup (getHostportChain id <$> pms) ->
  Forall (fun l => one_line l) (flat_map (mapping_lines id pod podIP) pms) ->
  (forall c, c ∈ getHostportChain id <$> pms -> nat_rules f c = None) ->
  fi_RestoreAll (add_text chain_order id pod podIP pms (gset_to_gmap marshalled_chain X) rules) false f = (Ok tt, f') ->
  forall pm, pm ∈ pms ->
  exists jump masq dnat, normalizeRule (jump_rule id pod pm) = Ok jump
  /\ normalizeRule (masq_rule pod podIP pm) = Ok masq /\ normalizeRule (dnat_rule pod podIP pm) = Ok dnat
  /\ nat_rules f' (getHostportChain id pm) = Some (add_rule Append dnat [masq])
  /\ exists rules', nat_rules f' kubeHostportsChain = Some rules' /\ jump ∈ rules'.
Proof.
  intros Hr Hd Hl Hf. destruct (add_text_lines id pod podIP pms X rules) as [n ->].
  pose proof (rule_lines_filter rules (getHostportChain id <$> pms) Hr) as [Ha Ho].
  assert (Forall (fun c => lacks " " c = true) (getHostportChain id <$> pms)) as Hs.
  { apply Forall_fmap, Forall_forall. intros pm _. exact (proj1 (chain_name_plain id pm)). }
  rewrite restore_text.
  2: { repeat (apply Forall_app; split); [|by apply Forall_replicate|done|done|by repeat constructor].
       apply Forall_fmap, Forall_fmap, Forall_forall. intros pm _. unfold compose, MakeChainLine, lacks in *.
       cbn [sforall]. rewrite !sforall_app. destruct (chain_name_plain id pm) as (_ & Hc & _).
       unfold lacks in Hc. by rewrite Hc. }
  set (all := lines_text _).
  destruct (restores_decls all (getHostportChain id <$> pms) (replicate n marshalled_chain
    ++ flat_map (mapping_lines id pod podIP) pms ++ filterRules rules (getHostportChain id <$> pms) ++ ["COMMIT"]) f
    Hs Hd) as (f1 & -> & _ & Hnew). rewrite restores_braces.
  destruct (restores_mappings all id pod podIP pms (filterRules rules (getHostportChain id <$> pms) ++ ["COMMIT"]) f1 Hd)
    as [(f2 & -> & Hin & _)|(e & f2 & ->)]; [|done].
  destruct (restores_appends all (filterRules rules (getHostportChain id <$> pms)) ["COMMIT"] f2 Ha)
    as (f3 & Hgr & Hk & [->|[e ->]]); [|done].
  rewrite restores_commit. intros [= <-] pm Hpm.
  assert (getHostportChain id pm ∈ getHostportChain id <$> pms) as Hc by by apply list_elem_of_fmap_2.
  destruct (Hin pm Hpm) as (jump & masq & dnat & H1 & H2 & H3 & H4 & rules' & H5 & H6); [by apply Hnew, Hf|].
  exists jump, masq, dnat. do 3 (split; [done|]). split.
  - rewrite Hk; [done|]. apply Forall_forall. intros l [Hl' _]%list_elem_of_filter.
    destruct (contains l (getHostportChain id pm)) eqn:E; [|done].
    exfalso. apply not_true_iff_false in Hl'. apply Hl'. apply existsb_exists. eexists. split; [|exact E].
    by apply list_elem_of_In.
  - destruct (Hgr _ _ H5) as [extra ->]. eexists. split; [done|]. apply elem_of_app. by left.
Qed.

(** *** The manager on a node *)

Definition tables (st : hostportManager W) : fakeIPTables := fst (hm_world st).

Lemma onRest_tables {A} (m : M V A) : preserves fst (onRest m).
Proof. intros [f v]. unfold onRest. by destruct (m v). Qed.
#[local] Hint Resolve onRest_tables : preserves.

Lemma openHostports_tables IsIPv6String pod : preserves fst (openHostports (W := W) IsIPv6String port_order pod).
Proof.
  unfold openHostports. apply preserves_bind.
  2: { intros [[e|] ports]; [|apply preserves_ret]. apply preserves_bind; [|intros ?; apply preserves_ret].
       apply preserves_for_each. intros kv. apply preserves_bind; [apply onRest_tables|]. intros ?. apply preserves_ret. }
  generalize (∅ : gmap hostport nat). induction (ppm_PortMappings pod) as [|pm pms IH]; intros ports; cbn [open_loop];
    [apply preserves_ret|].
  repeat (case_decide; [apply IH|]). apply preserves_bind; [apply onRest_tables|].
  intros [s|e]; [apply IH|apply preserves_ret].
Qed.

Lemma lift_tables {A} (m : M W A) : preserves fst m -> preserves tables (hm_lift m).
Proof. intros Hm st. unfold hm_lift, tables. specialize (Hm (hm_world st)). by destruct (m (hm_world st)). Qed.
Lemma set_map_tables g : preserves tables (hm_set_map (W := W) g).
Proof. done. Qed.
#[local] Hint Resolve lift_tables set_map_tables : preserves.

Lemma closeHostports_tables pms : preserves tables (closeHostports (W := W) pms).
Proof.
  unfold closeHostports. apply preserves_bind; [|intros ?; apply preserves_ret].
  induction pms as [|pm pms IH]; cbn [close_loop]; [apply preserves_ret|].
  apply preserves_bind; [apply preserves_get|]. intros st. destruct (hm_hostPortMap st !! _); [|exact IH].
  apply preserves_bind; [apply lift_tables, onRest_tables|]. intros [u|e].
  - apply preserves_bind; [apply set_map_tables|]. by intros _.
  - apply preserves_bind; [exact IH|]. intros ?. apply preserves_ret.
Qed.
#[local] Hint Resolve closeHostports_tables : preserves.

Lemma clear_conntrack_tables pms v6 : preserves tables (clear_conntrack (W := W) pms v6).
Proof.
  unfold clear_conntrack. apply preserves_bind; [apply preserves_get|]. intros st.
  destruct (_ && _); [|apply preserves_ret]. apply preserves_for_each. intros port.
  apply preserves_bind; [apply lift_tables, onRest_tables|]. intros ?. apply preserves_ret.
Qed.

Lemma ensureRule_other pos c' args c :
  c <> c' -> preserves (fun w : W => nat_rules (fst w) c) (ipt_EnsureRule pos TableNAT c' args).
Proof.
  intros Hne [f v]. cbn. unfold onTables, fi_EnsureRule.
  pose proof (nat_rules_ensureRule pos c' (join (quote_arg <$> args) " ") f c) as Hn.
  destruct (ensureRule _ _ _ _ f) as [r f']. cbn in *. by rewrite Hn, decide_False.
Qed.

(** A chain of a mapping is none of those that [Add] prepares. *)
Lemma ensure_chains_other id pm natIf :
  preserves (fun w : W => nat_rules (fst w) (getHostportChain id pm)) (ensureKubeHostportChains natIf).
Proof.
  destruct (chain_name_plain id pm) as (_ & _ & Hne).
  assert (forall c, has_prefix c kubeHostportChainPrefix = false -> getHostportChain id pm <> c) as Hp.
  { intros c Hc <-. unfold getHostportChain in Hc. by rewrite has_prefix_app in Hc. }
  unfold ensureKubeHostportChains. apply preserves_bind.
  { intros [f v]. cbn. unfold onTables, fi_EnsureChain, bind, ret.
    pose proof (nat_rules_ensureChain f (getHostportChain id pm) kubeHostportsChain) as Hn.
    destruct (ensureChain TableNAT kubeHostportsChain f). cbn in *. by rewrite Hn, decide_False. }
  intros [b|e]; [|apply preserves_ret]. apply preserves_try; [|intros _].
  - cbn [for_try]. repeat (apply preserves_try; [|intros _]); try apply preserves_ret;
      (apply preserves_bind; [apply ensureRule_other, Hp; reflexivity|intros ?; apply preserves_ret]).
  - destruct (bool_decide _); [|apply preserves_ret].
    apply preserves_bind; [apply ensureRule_other, Hp; reflexivity|intros ?; apply preserves_ret].
Qed.

Context (IsIPv6String : string -> bool).
Abbreviation gathered := (gatherHostportMappings IsIPv6String).
Abbreviation add := (hm_Add IsIPv6String GetChainsFromTable port_order chain_order).
Abbreviation remove := (hm_Remove IsIPv6String GetChainsFromTable chain_order).

(** The read of the existing chains and rules, on a node. *)
Lemma existing_tables (w : W) :
  getExistingHostportIPTablesRules GetChainsFromTable w
  = (match fi_SaveInto chain_list TableNAT (fst w) with
     | Err err => Err (Errorf ("failed to execute iptables-save: " +:+ Error err))
     | Ok data => Ok (gset_to_gmap marshalled_chain (base.filter (fun c => is_hostport_chain c = true) (GetChainsFromTable data)),
                      base.filter (fun line => is_hostport_rule line = true) (split data newline))
     end, w).
Proof. destruct w as [f v]. unfold getExistingHostportIPTablesRules, bind, ret. cbn. by destruct (fi_SaveInto _ _ f). Qed.

Lemma sync_tables text (w : W) :
  let '(r, f') := fi_RestoreAll text false (fst w) in
  syncIPTables text w
  = (match r with Err err => Err (Errorf ("failed to execute iptables-restore: " +:+ Error err)) | Ok _ => Ok tt end,
     (f', snd w)).
Proof.
  destruct w as [f v]. unfold syncIPTables, bind, ret. cbn. unfold onTables.
  by destruct (fi_RestoreAll text false f) as [[u|e] f'].
Qed.

Lemma add_installs id pod natIf (st st' : hostportManager W) pm :
  let pms := gathered pod (IsIPv6 (ppm_IP pod)) in
  let podIP := IP_String (ppm_IP pod) in
  add id (Some pod) natIf st = (Ok tt, st') -> ppm_HostNetwork pod = false ->
  NoDup (getHostportChain id <$> pms) ->
  Forall (fun l => one_line l) (flat_map (mapping_lines id pod podIP) pms) ->
  (forall c, c ∈ getHostportChain id <$> pms -> nat_rules (tables st) c = None) -> pm ∈ pms ->
  exists jump masq dnat, normalizeRule (jump_rule id pod pm) = Ok jump
  /\ normalizeRule (masq_rule pod podIP pm) = Ok masq /\ normalizeRule (dnat_rule pod podIP pm) = Ok dnat
  /\ nat_rules (tables st') (getHostportChain id pm) = Some (add_rule Append dnat [masq])
  /\ exists rules, nat_rules (tables st') kubeHostportsChain = Some rules /\ jump ∈ rules.
Proof.
  intros pms podIP Hrun Hhost Hd Hl Hnew Hpm. unfold hm_Add in Hrun. rewrite Hhost in Hrun.
  destruct (To16 (ppm_IP pod)); [|done]. fold podIP pms in Hrun. rewrite decide_False in Hrun by (intros E; rewrite E in Hpm; by apply elem_of_nil in Hpm).
  case_decide; [done|]. unfold try at 1, bind at 1 in Hrun.
  assert (forall c, c ∈ getHostportChain id <$> pms ->
    nat_rules (tables (snd (hm_lift (ensureKubeHostportChains natIf) st))) c = None) as Hnew1.
  { intros c Hc. rewrite <- (Hnew c Hc). apply list_elem_of_fmap in Hc as (pm' & -> & _).
    unfold hm_lift, tables. pose proof (ensure_chains_other id pm' natIf (hm_world st)) as He.
    destruct (ensureKubeHostportChains natIf (hm_world st)). exact He. }
  destruct (hm_lift (ensureKubeHostportChains natIf) st) as [[[]|e] st1]; [|done]. cbn in Hnew1.
  unfold add_locked, try, bind at 1 in Hrun.
  pose proof (lift_tables _ (openHostports_tables IsIPv6String pod) st1) as Ho.
  destruct (hm_lift (openHostports IsIPv6String port_order pod) st1) as [[ports|e] st2]; [|done]. cbn in Ho.
  unfold bind at 1 in Hrun. pose proof (set_map_tables (fun m => ports ∪ m) st2) as Hm.
  destruct (hm_set_map (fun m => ports ∪ m) st2) as [u st3]. cbn in Hm.
  unfold bind at 1 in Hrun. unfold hm_lift at 1 in Hrun. rewrite existing_tables in Hrun.
  destruct (fi_SaveInto chain_list TableNAT (fst (hm_world st3))) as [data|e].
  2: { unfold fail_closing, bind in Hrun. destruct (closeHostports pms _) as [[c|] ?]; done. }
  unfold bind at 1, hm_lift at 1 in Hrun. cbn [hm_world] in Hrun.
  match type of Hrun with context [syncIPTables ?text ?w] => pose proof (sync_tables text w) as Hs end.
  cbn [hm_world] in Hs. destruct (fi_RestoreAll _ false (fst (hm_world st3))) as [r f'] eqn:Er. rewrite Hs in Hrun.
  destruct r as [[]|e]; [|unfold fail_closing, bind in Hrun; destruct (closeHostports pms _) as [[c|] ?]; done].
  unfold bind in Hrun. match type of Hrun with context [clear_conntrack pms ?b ?s] =>
    pose proof (clear_conntrack_tables pms b s) as Hcc; destruct (clear_conntrack pms b s) as [u' st4] end.
  injection Hrun as <-. cbn in Hcc. rewrite Hcc. cbn [tables hm_world fst].
  eapply (add_text_restored id pod podIP pms); [apply rule_lines_read|exact Hd|exact Hl| |exact Er|exact Hpm].
  intros c Hc. fold (tables st3). rewrite Hm, Ho. by apply Hnew1.
Qed.

Lemma remove_leaves id pod (st st' : hostportManager W) r :
  remove id (Some pod) st = (r, st') ->
  let mine := getHostportChain id <$> gathered pod isIPv6 in
  (forall c old, c ∉ mine -> nat_rules (tables st) c = Some old ->
     exists extra, nat_rules (tables st') c = Some (old ++ extra))
  /\ (ppm_HostNetwork pod = false -> r = Ok tt -> forall c data, c ∈ mine ->
        fi_SaveInto chain_list TableNAT (tables st) = Ok data -> c ∈ GetChainsFromTable data ->
        nat_rules (tables st') c = None).
Proof.
  intros Hrun mine. unfold hm_Remove in Hrun. cbn [ipt_IsIPv6 nodeI fake_IPTables] in Hrun.
  assert (forall c, c ∈ mine -> is_hostport_chain c = true /\ lacks " " c = true /\ one_line c) as Hmine.
  { intros c (pm & -> & _)%list_elem_of_fmap. destruct (chain_name_plain id pm) as (? & ? & _).
    split; [|done]. unfold is_hostport_chain. apply orb_true_iff. right. apply has_prefix_app. }
  destruct (ppm_HostNetwork pod).
  { injection Hrun as <- <-. split; [|done]. intros c old _ Hc. exists []. by rewrite app_nil_r. }
  fold (tables st) in *. change (ipt_IsIPv6 W) with isIPv6 in Hrun.
  destruct (decide (gathered pod isIPv6 = [])) as [Hnil|_].
  { injection Hrun as <- <-. split; [intros c old _ Hc; exists []; by rewrite app_nil_r|].
    intros _ _ c data Hc. subst mine. rewrite Hnil in Hc. by apply elem_of_nil in Hc. }
  unfold try at 1, bind at 1 in Hrun. unfold hm_lift at 1 in Hrun. rewrite existing_tables in Hrun. fold (tables st) in Hrun.
  destruct (fi_SaveInto chain_list TableNAT (tables st)) as [data|e] eqn:Es.
  2: { injection Hrun as <- <-. split; [|done]. intros c old _ Hc. exists []. by rewrite app_nil_r. }
  fold mine in Hrun.
  assert (forall c, is_Some (gset_to_gmap marshalled_chain
    (base.filter (fun c => is_hostport_chain c = true) (GetChainsFromTable data)) !! c)
    <-> is_hostport_chain c = true /\ c ∈ GetChainsFromTable data) as Hex.
  { intros c. rewrite <- elem_of_dom, dom_gset_to_gmap, elem_of_filter. done. }
  set (X := gset_to_gmap marshalled_chain _) in *. set (gone := base.filter (fun c => is_Some (X !! c)) mine) in *.
  assert (forall pms (s : hostportManager W), tables (snd (close_result pms s)) = tables s) as Hclose.
  { intros pms s. unfold close_result, bind. pose proof (closeHostports_tables pms s) as Hc.
    destruct (closeHostports pms s). exact Hc. }
  destruct (decide (gone = [])) as [Hg|_].
  { match type of Hrun with close_result ?p ?s = _ => pose proof (Hclose p s) as Hc end. rewrite Hrun in Hc.
    cbn in Hc. rewrite Hc. cbn. split; [intros c old _ Hold; exists []; by rewrite app_nil_r|].
    intros _ _ c data' Hc' [= <-] Hin. exfalso. assert (c ∈ gone) as Hin'.
    { subst gone. apply list_elem_of_filter. split; [|done]. apply Hex. split; [by apply Hmine|done]. }
    rewrite Hg in Hin'. by apply elem_of_nil in Hin'. }
  unfold try at 1, bind at 1, hm_lift at 1 in Hrun. cbn [hm_world] in Hrun.
  match type of Hrun with context [syncIPTables (remove_text _ _ ?rules _) ?w] =>
    pose proof (sync_tables (remove_text chain_order X rules gone) w) as Hs;
    pose proof (remove_text_restored
      (base.filter (fun c => is_hostport_chain c = true) (GetChainsFromTable data)) rules gone (fst w)) as Hr end.
  cbn [hm_world] in Hs, Hr. fold (tables st) in Hs, Hr. change (gset_to_gmap marshalled_chain _) with X in Hr.
  destruct (fi_RestoreAll _ false (tables st)) as [r1 f1]. rewrite Hs in Hrun.
  destruct Hr as [Hkeep Hgone].
  { apply rule_lines_filter, rule_lines_read. }
  { apply Forall_forall. intros c [_ Hc]%list_elem_of_filter. by apply Hmine. }
  assert (tables st' = f1) as ->.
  { destruct r1 as [[]|e]; [|by injection Hrun as <- <-].
    match type of Hrun with close_result ?p ?s = _ => pose proof (Hclose p s) as Hc end. rewrite Hrun in Hc. exact Hc. }
  split.
  - intros c old Hc. apply Hkeep. by intros [_ ?]%list_elem_of_filter.
  - intros _ -> c data' Hc [= <-] Hin. destruct r1 as [[]|e]; [|done]. apply Hgone; [done|].
    apply list_elem_of_filter. split; [|done]. apply Hex. split; [by apply Hmine|done].
Qed.

(** A pod that was added is of the family of the manager. *)
Lemma add_family id pod natIf (st st' : hostportManager W) pm :
  add id (Some pod) natIf st = (Ok tt, st') -> ppm_HostNetwork pod = false ->
  pm ∈ gathered pod (IsIPv6 (ppm_IP pod)) -> IsIPv6 (ppm_IP pod) = isIPv6.
Proof.
  unfold hm_Add. intros Hrun Hhost Hpm. rewrite Hhost in Hrun. destruct (To16 (ppm_IP pod)); [|done].
  rewrite decide_False in Hrun by (intros E; rewrite E in Hpm; by apply elem_of_nil in Hpm).
  by case_decide as Hf.
Qed.

(** C23: adding a pod's host ports, down to the rules of the node.  Where the
    chains of its mappings are new and distinct, and unless a name holds a line
    end, a success leaves in the chain of every mapping exactly the rule that
    marks the pod's own traffic and the one that translates the destination, as
    iptables normalizes them, and in KUBE-HOSTPORTS the jump to that chain,
    whatever rules and chains of other pods were there. *)
Theorem add_installs_rules id pod natIf (st st' : hostportManager W) :
  let pms := gathered pod (IsIPv6 (ppm_IP pod)) in
  let podIP := IP_String (ppm_IP pod) in
  add id (Some pod) natIf st = (Ok tt, st') -> ppm_HostNetwork pod = false ->
  NoDup (getHostportChain id <$> pms) ->
  Forall (fun l => one_line l) (flat_map (mapping_lines id pod podIP) pms) ->
  (forall c, c ∈ getHostportChain id <$> pms -> nat_rules (tables st) c = None) ->
  forall pm, pm ∈ pms ->
  exists jump masq dnat, normalizeRule (jump_rule id pod pm) = Ok jump
  /\ normalizeRule (masq_rule pod podIP pm) = Ok masq /\ normalizeRule (dnat_rule pod podIP pm) = Ok dnat
  /\ nat_rules (tables st') (getHostportChain id pm) = Some (add_rule Append dnat [masq])
  /\ exists rules, nat_rules (tables st') kubeHostportsChain = Some rules /\ jump ∈ rules.
Proof. intros pms podIP Hrun Hhost Hd Hl Hnew pm. by apply add_installs with (1 := Hrun). Qed.

(** C24: removing a pod's host ports leaves dangling jumps.  The text given to
    iptables-restore declares no existing chain, so KUBE-HOSTPORTS is not
    flushed before the rules that remain are added again: after a pod was added
    and removed with success, the chains of its mappings are deleted (those
    iptables-save listed), but every jump to them is still in KUBE-HOSTPORTS. *)
Theorem removed_pod_leaves_jumps id pod natIf (st st1 st2 : hostportManager W) :
  let pms := gathered pod (IsIPv6 (ppm_IP pod)) in
  add id (Some pod) natIf st = (Ok tt, st1) -> ppm_HostNetwork pod = false ->
  NoDup (getHostportChain id <$> pms) ->
  Forall (fun l => one_line l) (flat_map (mapping_lines id pod (IP_String (ppm_IP pod))) pms) ->
  (forall c, c ∈ getHostportChain id <$> pms -> nat_rules (tables st) c = None) ->
  remove id (Some pod) st1 = (Ok tt, st2) ->
  forall pm, pm ∈ pms ->
  (forall data, fi_SaveInto chain_list TableNAT (tables st1) = Ok data ->
     getHostportChain id pm ∈ GetChainsFromTable data -> nat_rules (tables st2) (getHostportChain id pm) = None)
  /\ exists jump rules, normalizeRule (jump_rule id pod pm) = Ok jump
     /\ nat_rules (tables st2) kubeHostportsChain = Some rules /\ jump ∈ rules.
Proof.
  intros pms Hrun Hhost Hd Hl Hnew Hrem pm Hpm.
  pose proof (add_family _ _ _ _ _ _ Hrun Hhost Hpm) as Hfam.
  destruct (add_installs id pod natIf st st1 pm Hrun Hhost Hd Hl Hnew Hpm)
    as (jump & masq & dnat & Hj & _ & _ & _ & rules & Hrules & Hin).
  destruct (remove_leaves id pod st1 st2 (Ok tt) Hrem) as [Hkeep Hgone]. subst pms. rewrite Hfam in *. split.
  - intros data Hs Hc. eapply Hgone; [done|done| |exact Hs|exact Hc]. by apply list_elem_of_fmap_2.
  - destruct (Hkeep kubeHostportsChain rules) as [extra Hex]; [|exact Hrules|].
    + intros (pm' & He & _)%list_elem_of_fmap. symmetry in He. revert He.
      apply (proj2 (proj2 (chain_name_plain id pm'))).
    + exists jump, (rules ++ extra). split; [done|]. split; [done|]. apply elem_of_app. by left.
Qed.

End Manager.

(** ** Examples *)

(** Nothing but numbered sockets beside the tables. *)
#[local] Instance socket_opener : PortOpener nat := {|
  portOpener := fun _ n => (Ok n, S n);
  socket_Close := fun _ => ret (Ok tt);
|}.
#[local] Instance socket_conntrack : Conntrack nat := fun _ _ => ret (Ok tt).

Definition chains_of (m : gmap string fakeChain) : list fakeChain := snd <$> map_to_list m.
Abbreviation fake_node := (hostportManager (fakeIPTables * nat)).
Definition new_node : fake_node := NewHostportManager (NewFakeIPTables, 0%nat).
Definition node_Add (id : string) (pod : PodPortMapping) : M fake_node (res unit) :=
  @hm_Add _ (nodeI chains_of false) nodeP nodeC IsIPv6String GetChainsFromTable map_to_list map_to_list
    id (Some pod) "cbr0".
Definition node_Remove (id : string) (pod : PodPortMapping) : M fake_node (res unit) :=
  @hm_Remove _ (nodeI chains_of false) nodeP IsIPv6String GetChainsFromTable map_to_list id (Some pod).

(** The first pod of the unit tests of the source, without its SCTP port. *)
Definition pod1 : PodPortMapping :=
  mkPodPortMapping "ns1" "pod1" [mkHostPortMapping 8080 80 "TCP" ""; mkHostPortMapping 8081 81 "UDP" ""] false
    [10; 1; 1; 2]%N.
Definition pod1_added : fake_node := snd (node_Add "id" pod1 new_node).
Definition pod1_removed : fake_node := snd (node_Remove "id" pod1 pod1_added).

(** What the tests expect iptables-save to print then. *)
Example pod1_rules :
  nat_rules (tables pod1_added) "KUBE-HP-IJHALPHTORMHHPPK"
  = Some ["-m comment --comment " +:+ quote "pod1_ns1 hostport 8080" +:+ " -s 10.1.1.2/32 -j KUBE-MARK-MASQ";
          "-m comment --comment " +:+ quote "pod1_ns1 hostport 8080"
          +:+ " -m tcp -p tcp -j DNAT --to-destination 10.1.1.2:80"].
Proof. vm_compute. reflexivity. Qed.

Lemma add_installs_rules_witness :
  Forall (fun pm => is_Some (nat_rules (tables pod1_added) (getHostportChain "id" pm))) (ppm_PortMappings pod1).
Proof.
  apply Forall_forall. intros pm Hpm.
  destruct (add_installs_rules chains_of false map_to_list map_to_list (fun m => Permutation_refl _) IsIPv6String
    "id" pod1 "cbr0" new_node pod1_added) with (pm := pm) as (jump & masq & dnat & _ & _ & _ & -> & _).
  - vm_compute. reflexivity.
  - reflexivity.
  - apply (bool_decide_unpack _). vm_compute. reflexivity.
  - apply (bool_decide_unpack _). vm_compute. reflexivity.
  - intros c _. reflexivity.
  - exact Hpm.
  - by eexists.
Defined.

Definition pod1_saved : string :=
  match fi_SaveInto chains_of TableNAT (tables pod1_added) with Ok data => data | Err _ => "" end.

Lemma pod1_saved_ok :
  fi_SaveInto chains_of TableNAT (tables pod1_added) = Ok pod1_saved
  /\ Forall (fun pm => getHostportChain "id" pm ∈ GetChainsFromTable pod1_saved) (ppm_PortMappings pod1).
Proof.
  split; [vm_compute; reflexivity|]. apply (bool_decide_unpack _). vm_compute. reflexivity.
Qed.

Lemma removed_pod_leaves_jumps_witness :
  Forall (fun pm => nat_rules (tables pod1_removed) (getHostportChain "id" pm) = None
                    /\ exists jump rules, nat_rules (tables pod1_removed) kubeHostportsChain = Some rules /\ jump ∈ rules)
    (ppm_PortMappings pod1).
Proof.
  apply Forall_forall. intros pm Hpm.
  destruct (removed_pod_leaves_jumps chains_of false map_to_list map_to_list (fun m => Permutation_refl _) IsIPv6String
    "id" pod1 "cbr0" new_node pod1_added pod1_removed) with (pm := pm) as [Hgone (jump & rules & _ & Hr & Hj)].
  - vm_compute. reflexivity.
  - reflexivity.
  - apply (bool_decide_unpack _). vm_compute. reflexivity.
  - apply (bool_decide_unpack _). vm_compute. reflexivity.
  - intros c _. reflexivity.
  - vm_compute. reflexivity.
  - exact Hpm.
  - split; [|exists jump, rules; split; [exact Hr|exact Hj]]. destruct pod1_saved_ok as [Hs Hall].
    rewrite Forall_forall in Hall. exact (Hgone pod1_saved Hs (Hall pm Hpm)).
Defined.
