(* ===== verification/Service.v ===== *)
(** * Service: the docker service, its state and what it relies on

    core/docker_service.go: the [dockerService] record, the cached version and
    info of the docker daemon, runtime handlers, the status of the runtime and
    the cgroup parent; the network-ready map of core/sandbox_helpers.go and
    the cleanup infos of core/container_remove.go and core/helpers_linux.go.

    The docker client ([DockerClient]), the network plugin ([NetworkPlugin]),
    the operating system, the clock and the random numbers share one world
    [W]; the checkpoint store is a state of its own. *)
From stdpp Require Import sorting.
From S2P Require Import Prelude GoErrors GoPath Cri Naming Labels Cache Store Checkpoint Libdocker PluginManager.

(** ** What the service relies on *)

(** The calls to the operating system: [os.Stat], [os.ReadFile],
    [os.OpenFile] with [O_TRUNC|O_WRONLY] and the calls on the open file, and
    [Remove] and [Symlink] of the [OSInterface]. *)
Class HostOS (W : Type) := {
  os_Stat : string -> M W (res unit);
  os_ReadFile : string -> M W (res string);
  os_OpenTrunc : string -> M W (res nat);
  os_WriteString : nat -> string -> M W (res unit);
  os_Close : nat -> M W (res unit);
  os_Remove : string -> M W (res unit);
  os_Symlink : string -> string -> M W (res unit);
  (** [rand.Uint32] *)
  rand_Uint32 : M W N;
}.

(** opencontainers/selinux: [label.InitLabels], whose second result is the
    mount label, and [label.Relabel]. *)
Class SELinux (W : Type) := {
  InitLabels : list string -> M W (res string);
  Relabel : string -> string -> bool -> M W (res unit);
}.

(** blang/semver. *)
Class Semver := {
  semver : Type;
  semver_Parse : string -> res semver;
  semver_Compare : semver -> semver -> comparison;
}.

(** The JSON encodings the service makes or reads (encoding/json on types of
    other packages): the mount options of a runtime's OCI features, a DNS
    configuration, the verbose info of a container, the verbose runtime
    config. *)
Class ServiceJSON := {
  oci_MountOptions : string -> res (list string);
  marshal_dns : DNSConfig -> res string;
  marshal_container_info : string -> Z -> res string;
  marshal_config : string -> res string;
}.

(** ** State *)

(** The fields set once, before the service starts. *)
Record service_config := mkServiceConfig {
  cfg_podSandboxImage : string;
  cfg_cgroupDriver : string;
  cfg_dockerRootDir : string;
  cfg_kernelSupportsRRO : bool;
}.

(** What [systemInfoCache] holds ([interface{}] values). *)
Inductive sysinfo :=
| SysVersion (v : DockerVersion)
| SysInfo (i : DockerInfo)
| SysHandlers (hs : list RuntimeHandler).

Record dockerService (W St : Type) := mkDockerService {
  ds_world : W;
  ds_checkpoints : St;
  ds_networkReady : gmap string bool;
  ds_systemInfoCache : gmap string (entry sysinfo);
  ds_containerCleanupInfos : gmap string unit;
}.
Arguments mkDockerService {W St}.
Arguments ds_world {W St}.
Arguments ds_checkpoints {W St}.
Arguments ds_networkReady {W St}.
Arguments ds_systemInfoCache {W St}.
Arguments ds_containerCleanupInfos {W St}.

(** ** Constants *)

Definition runtimeName : string := "docker".
Definition dockerRuntimeName : string := "docker".
Definition kubeAPIVersion : string := "0.1.0".
Definition CRIVersion : string := "v1".
Definition namespaceModeHost : string := "host".
Definition systemInfoCacheMinTTL : Z := Minute.
Definition defaultCgroupDriver : string := "cgroupfs".
Definition defaultSandboxImage : string := "registry.k8s.io/pause:3.10".
Definition oci_features_key : string := "org.opencontainers.runtime-spec.features".

(** ** Runtime handlers *)

(** [slices.SortStableFunc] by name: the unique sorted list that keeps equal
    names in order, computed by insertion. *)
Fixpoint insert_handler (h : RuntimeHandler) (l : list RuntimeHandler) : list RuntimeHandler :=
  match l with
  | [] => [h]
  | h' :: l' =>
      match String.compare (rh_Name h) (rh_Name h') with
      | Gt => h' :: insert_handler h l'
      | _ => h :: h' :: l'
      end
  end.
Definition sort_handlers (l : list RuntimeHandler) : list RuntimeHandler :=
  foldr insert_handler [] l.

Section Handlers.
Context `{ServiceJSON}.
Variable kernelSupportsRRO : bool.

(** The [rro] feature of a runtime, from its status map. *)
Definition runtime_rro (status : gmap string string) : res bool :=
  if kernelSupportsRRO then
    match status !! oci_features_key with
    | Some features =>
        match oci_MountOptions features with
        | Err err => Err (Errorf ("failed to unmarshal " +:+ quote features +:+ ": " +:+ Error err))
        | Ok opts => Ok (bool_decide ("rro" ∈ opts))
        end
    | None => Ok false
    end
  else Ok false.

(** The loop over [info.Runtimes], in the order the map is visited. *)
Fixpoint handlers_loop (defaultRuntime : string) (order : list (string * gmap string string))
  (handlers : list RuntimeHandler) : res (list RuntimeHandler) :=
  match order with
  | [] => Ok handlers
  | (dockerName, status) :: order' =>
      match runtime_rro status with
      | Err err => Err err
      | Ok rro =>
          let handlers1 := handlers ++ [mkRuntimeHandler dockerName rro false] in
          handlers_loop defaultRuntime order'
            (if decide (dockerName = defaultRuntime)
             then mkRuntimeHandler "" rro false :: handlers1 else handlers1)
      end
  end.

(** [getRuntimeHandlers(info)]; Go visits a map in any order. *)
Definition getRuntimeHandlers_order (defaultRuntime : string)
  (order : list (string * gmap string string)) : res (list RuntimeHandler) :=
  match handlers_loop defaultRuntime order [] with
  | Err err => Err err
  | Ok handlers => Ok (sort_handlers handlers)
  end.
Definition getRuntimeHandlers (info : DockerInfo) : res (list RuntimeHandler) :=
  getRuntimeHandlers_order (di_DefaultRuntime info) (map_to_list (di_Runtimes info)).

End Handlers.

(** ** Operations *)

Section Service.
Context {W St : Type} `{DockerClient W} `{NetworkPlugin W} `{Clock W} `{HostOS W}.
Context `{Store St} `{ServiceJSON} `{Semver}.
Variable cfg : service_config.
Abbreviation DS := (dockerService W St).

(** Run an action of the world, of the checkpoint store. *)
Definition onW {A} (m : M W A) : M DS A := fun ds =>
  let '(a, w) := m (ds_world ds) in
  (a, mkDockerService w (ds_checkpoints ds) (ds_networkReady ds) (ds_systemInfoCache ds)
        (ds_containerCleanupInfos ds)).
Definition onStore {A} (m : M St A) : M DS A := fun ds =>
  let '(a, st) := m (ds_checkpoints ds) in
  (a, mkDockerService (ds_world ds) st (ds_networkReady ds) (ds_systemInfoCache ds)
        (ds_containerCleanupInfos ds)).

(** *** The network-ready map *)

Definition getNetworkReady (podSandboxID : string) : M DS (option bool) := fun ds =>
  (ds_networkReady ds !! podSandboxID, ds).
Definition setNetworkReady (podSandboxID : string) (ready : bool) : M DS unit := fun ds =>
  (tt, mkDockerService (ds_world ds) (ds_checkpoints ds)
         (<[podSandboxID := ready]> (ds_networkReady ds)) (ds_systemInfoCache ds)
         (ds_containerCleanupInfos ds)).
Definition clearNetworkReady (podSandboxID : string) : M DS unit := fun ds =>
  (tt, mkDockerService (ds_world ds) (ds_checkpoints ds)
         (delete podSandboxID (ds_networkReady ds)) (ds_systemInfoCache ds)
         (ds_containerCleanupInfos ds)).

(** *** Platform-specific cleanups (Linux has nothing to clean) *)

Definition getContainerCleanupInfo (containerID : string) : M DS (option unit) := fun ds =>
  (ds_containerCleanupInfos ds !! containerID, ds).
Definition setContainerCleanupInfo (containerID : string) (info : unit) : M DS unit := fun ds =>
  (tt, mkDockerService (ds_world ds) (ds_checkpoints ds) (ds_networkReady ds)
         (ds_systemInfoCache ds) (<[containerID := info]> (ds_containerCleanupInfos ds))).
Definition clearContainerCleanupInfo (containerID : string) : M DS unit := fun ds =>
  (tt, mkDockerService (ds_world ds) (ds_checkpoints ds) (ds_networkReady ds)
         (ds_systemInfoCache ds) (delete containerID (ds_containerCleanupInfos ds))).

Definition performPlatformSpecificContainerCleanup (cleanupInfo : unit) : list error := [].
Definition performPlatformSpecificContainerCleanupAndLogErrors (cleanupInfo : option unit)
  : list error :=
  match cleanupInfo with
  | None => []
  | Some info => performPlatformSpecificContainerCleanup info
  end.
Definition performPlatformSpecificContainerForContainer (containerID : string) : M DS (list error) :=
  let* info := getContainerCleanupInfo containerID in
  match info with
  | None => ret []
  | Some _ =>
      let errors := performPlatformSpecificContainerCleanupAndLogErrors info in
      do* (if decide (errors = []) then clearContainerCleanupInfo containerID else ret tt) in
      ret errors
  end.

(** *** Cached daemon information *)

(** [ds.systemInfoCache.Memoize(key, systemInfoCacheMinTTL, fn)]. *)
Definition Memoize_sysinfo (key : string) (fn : M W (res sysinfo)) : M DS (res (option sysinfo)) :=
  fun ds =>
  let '(r, (c, w)) := Memoize key systemInfoCacheMinTTL fn (ds_systemInfoCache ds, ds_world ds) in
  (r, mkDockerService w (ds_checkpoints ds) (ds_networkReady ds) c (ds_containerCleanupInfos ds)).

(** The type assertion [res.( *T)] panics on a value of another type;
    [sysinfo_typed] below shows that none is ever stored. *)
Definition type_assertion_panic : error := Errorf "panic: interface conversion".
(** A nil pointer is dereferenced. *)
Definition nil_dereference_panic : error := Errorf "panic: nil pointer dereference".

Definition fixAPIVersion (v : DockerVersion) : DockerVersion :=
  mkDockerVersion (dv_Version v) (dv_APIVersion v +:+ ".0").

Definition getDockerVersion : M DS (res DockerVersion) :=
  let* r := Memoize_sysinfo "docker_version"
              (let* v := Version in ret (result_map SysVersion v)) in
  ret (match r with
       | Err err => Err (Errorf ("failed to get docker version from dockerd: " +:+ Error err))
       | Ok (Some (SysVersion v)) => Ok (fixAPIVersion v)
       | Ok _ => Err type_assertion_panic
       end).

Definition getDockerInfo : M DS (res DockerInfo) :=
  let* r := Memoize_sysinfo "docker_info" (let* i := Info in ret (result_map SysInfo i)) in
  ret (match r with
       | Err err => Err (Errorf ("failed to get docker info from dockerd: " +:+ Error err))
       | Ok (Some (SysInfo i)) => Ok i
       | Ok _ => Err type_assertion_panic
       end).

Definition ds_getRuntimeHandlers : M DS (res (list RuntimeHandler)) :=
  let? info := getDockerInfo in
  let* r := Memoize_sysinfo "docker_info_handlers"
              (ret (result_map SysHandlers
                      (getRuntimeHandlers (cfg_kernelSupportsRRO cfg) info))) in
  ret (match r with
       | Err err => Err (Errorf ("failed to get runtime handlers: " +:+ Error err))
       | Ok (Some (SysHandlers hs)) => Ok hs
       | Ok _ => Err type_assertion_panic
       end).

Definition getDockerAPIVersion : M DS (res semver) :=
  let? dv := getDockerVersion in
  ret (semver_Parse (dv_APIVersion dv)).

Definition checkVersionCompatibility : M DS (res unit) :=
  let? apiVersion := getDockerAPIVersion in
  ret (match semver_Parse MinimumDockerAPIVersion with
       | Err err => Err err
       | Ok minAPIVersion =>
           match semver_Compare apiVersion minAPIVersion with
           | Lt => Err (Errorf ("docker API version is older than " +:+ MinimumDockerAPIVersion))
           | _ => Ok tt
           end
       end).

Record VersionResponse := mkVersionResponse {
  vr_Version : string;
  vr_RuntimeName : string;
  vr_RuntimeVersion : string;
  vr_RuntimeApiVersion : string;
}.

Definition ds_Version : M DS (res VersionResponse) :=
  let? v := getDockerVersion in
  ret (Ok (mkVersionResponse kubeAPIVersion dockerRuntimeName (dv_Version v) CRIVersion)).

(** [IsRuntimeConfigured] (sandbox_helpers.go). *)
Definition IsRuntimeConfigured (runtime : string) : M DS (res unit) :=
  let* r := getDockerInfo in
  ret (match r with
       | Err err => Err (Errorf ("failed to get docker info: " +:+ Error err))
       | Ok info =>
           match di_Runtimes info !! runtime with
           | Some _ => Ok tt
           | None => Err (Errorf ("no runtime for " +:+ quote runtime +:+ " is configured"))
           end
       end).

(** *** Runtime status and configuration *)

Record RuntimeCondition := mkRuntimeCondition {
  rc_Type : string;
  rc_Status : bool;
  rc_Reason : string;
  rc_Message : string;
}.
Record StatusResponse := mkStatusResponse {
  sr_Conditions : list RuntimeCondition;
  sr_RuntimeHandlers : list RuntimeHandler;
  sr_Info : gmap string string;
}.

Definition sandboxImage : string :=
  if decide (cfg_podSandboxImage cfg = "") then defaultSandboxImage else cfg_podSandboxImage cfg.

Definition ds_Status (verbose : bool) : M DS (res StatusResponse) :=
  let* rv := getDockerVersion in
  let runtimeReady :=
    match rv with
    | Ok _ => mkRuntimeCondition "RuntimeReady" true "" ""
    | Err err => mkRuntimeCondition "RuntimeReady" false "DockerDaemonNotReady"
                   ("docker: failed to get docker version: " +:+ Error err)
    end in
  let* rn := onW pm_Status in
  let networkReady :=
    match rn with
    | Ok _ => mkRuntimeCondition "NetworkReady" true "" ""
    | Err err => mkRuntimeCondition "NetworkReady" false "NetworkPluginNotReady"
                   ("docker: network plugin is not ready: " +:+ Error err)
    end in
  let? handlers := ds_getRuntimeHandlers in
  ret (if verbose then
         match marshal_config sandboxImage with
         | Err err => Err err
         | Ok configByt =>
             Ok (mkStatusResponse [runtimeReady; networkReady] handlers {[ "config" := configByt ]})
         end
       else Ok (mkStatusResponse [runtimeReady; networkReady] handlers ∅)).

Inductive CgroupDriver := CgroupDriver_SYSTEMD | CgroupDriver_CGROUPFS.
Definition ds_RuntimeConfig : res CgroupDriver :=
  if decide (cfg_cgroupDriver cfg = "cgroupfs") then Ok CgroupDriver_CGROUPFS
  else if decide (cfg_cgroupDriver cfg = "systemd") then Ok CgroupDriver_SYSTEMD
  else Err (Errorf ("unknown cgroup driver: " +:+ cfg_cgroupDriver cfg)).

(** [UpdateRuntimeConfig], by the pod CIDR of the request, if it has a
    runtime configuration. *)
Definition NET_PLUGIN_EVENT_POD_CIDR_CHANGE : string := "pod-cidr-change".
Definition NET_PLUGIN_EVENT_POD_CIDR_CHANGE_DETAIL_CIDR : string := "pod-cidr".
Definition ds_UpdateRuntimeConfig (podCidr : option string) : M DS (res unit) :=
  match podCidr with
  | None => ret (Ok tt)
  | Some cidr =>
      do* (if decide (cidr = "") then ret tt
           else onW (pm_Event NET_PLUGIN_EVENT_POD_CIDR_CHANGE
                       {[ NET_PLUGIN_EVENT_POD_CIDR_CHANGE_DETAIL_CIDR := cidr ]})) in
      ret (Ok tt)
  end.

(** The cgroup driver [NewDockerService] settles on (Linux). *)
Definition choose_cgroupDriver (dockerDriver kubeCgroupDriver : string) : res string :=
  let cgroupDriver := if decide (dockerDriver = "") then defaultCgroupDriver else dockerDriver in
  if decide (kubeCgroupDriver <> "" /\ kubeCgroupDriver <> cgroupDriver) then
    Err (Errorf ("misconfiguration: kubelet cgroup driver: " +:+ quote kubeCgroupDriver
                 +:+ " is different from docker cgroup driver: " +:+ quote cgroupDriver))
  else Ok cgroupDriver.

(** [GenerateExpectedCgroupParent] never fails. *)
Definition GenerateExpectedCgroupParent (cgroupParent : string) : res string :=
  if decide (cgroupParent <> "" /\ cfg_cgroupDriver cfg = "systemd")
  then Ok (Base cgroupParent) else Ok cgroupParent.

End Service.

(** ** Theory: runtime handlers *)

Definition name_le (h h' : RuntimeHandler) : Prop := String.le (rh_Name h) (rh_Name h').

#[export] Instance name_le_trans : Transitive name_le.
Proof. intros a b c. unfold name_le. apply transitivity. Qed.

Lemma compare_le s s' :
  match String.compare s s' with Gt => String.le s' s | _ => String.le s s' end.
Proof.
  unfold String.le, String.leb. rewrite (String.compare_antisym s' s).
  by destruct (String.compare s s').
Qed.

Lemma insert_handler_perm h l : insert_handler h l ≡ₚ h :: l.
Proof.
  induction l as [|h' l IH]; simpl; [done|]. case_match; [done..|].
  rewrite IH. apply Permutation_swap.
Qed.
Lemma sort_handlers_perm l : sort_handlers l ≡ₚ l.
Proof. induction l as [|h l IH]; simpl; [done|]. by rewrite insert_handler_perm, IH. Qed.

Lemma insert_handler_sorted h l :
  StronglySorted name_le l -> StronglySorted name_le (insert_handler h l).
Proof.
  induction 1 as [|h' l Hs IH Hh]; simpl.
  - repeat constructor.
  - pose proof (compare_le (rh_Name h) (rh_Name h')) as Hc.
    destruct (String.compare (rh_Name h) (rh_Name h')).
    1,2: constructor; [by constructor|]; constructor; [done|];
         eapply Forall_impl; [done|]; intros x Hx; by etrans.
    constructor; [done|]. rewrite insert_handler_perm. by constructor.
Qed.
Lemma sort_handlers_sorted l : StronglySorted name_le (sort_handlers l).
Proof. induction l; simpl; [constructor|]. by apply insert_handler_sorted. Qed.

Section HandlersTheory.
Context `{ServiceJSON}.
Variable kernelSupportsRRO : bool.

(** The handlers one runtime gives. *)
Definition handlers_of (defaultRuntime : string) (rt : string * gmap string string)
  : list RuntimeHandler :=
  match runtime_rro kernelSupportsRRO (snd rt) with
  | Ok rro =>
      mkRuntimeHandler (fst rt) rro false
      :: (if decide (fst rt = defaultRuntime) then [mkRuntimeHandler "" rro false] else [])
  | Err _ => []
  end.

Lemma handlers_loop_perm dr order handlers :
  match handlers_loop kernelSupportsRRO dr order handlers with
  | Ok hs => Forall (fun rt => is_ok (runtime_rro kernelSupportsRRO (snd rt)) = true) order
             /\ hs ≡ₚ handlers ++ flat_map (handlers_of dr) order
  | Err _ => ~ Forall (fun rt => is_ok (runtime_rro kernelSupportsRRO (snd rt)) = true) order
  end.
Proof.
  revert handlers. induction order as [|[n st] order IH]; intros handlers; simpl.
  { split; [constructor|]. by rewrite app_nil_r. }
  unfold handlers_of at 1. simpl. destruct (runtime_rro kernelSupportsRRO st) as [rro|e] eqn:E.
  2: { intros Hf. inversion Hf as [|? ? Hx]. simpl in Hx. by rewrite E in Hx. }
  specialize (IH (if decide (n = dr)
             then mkRuntimeHandler "" rro false :: handlers ++ [mkRuntimeHandler n rro false]
             else handlers ++ [mkRuntimeHandler n rro false])).
  destruct handlers_loop as [hs|e].
  - destruct IH as [Hf Hp]. split; [constructor; [by simpl; rewrite E|done]|].
    rewrite Hp. case_decide; simpl; rewrite <- ?(assoc_L (++)); simpl; [|done].
    rewrite !Permutation_middle. apply Permutation_app_head. by rewrite Permutation_swap.
  - intros Hf. inversion Hf. done.
Qed.

Lemma handlers_of_name dr rt h :
  h ∈ handlers_of dr rt -> rh_Name h = fst rt \/ rh_Name h = "" /\ fst rt = dr.
Proof.
  unfold handlers_of. case_match; [|by intros ?%elem_of_nil].
  case_decide; intros Hh; set_solver.
Qed.

(** Distinct runtime names, none of them empty, give distinct handler
    names. *)
Lemma handlers_names_inj dr order h h' :
  NoDup (fst <$> order) -> "" ∉ fst <$> order ->
  h ∈ flat_map (handlers_of dr) order -> h' ∈ flat_map (handlers_of dr) order ->
  rh_Name h = rh_Name h' -> h = h'.
Proof.
  intros Hnd Hne. rewrite !list_elem_of_In, !in_flat_map.
  intros (rt & Hrt & Hh) (rt' & Hrt' & Hh') Hn.
  rewrite <- !list_elem_of_In in *.
  assert (fst rt <> "" /\ fst rt' <> "") as [Hr Hr'].
  { split; intros E; apply Hne; rewrite <- E; by apply list_elem_of_fmap_2. }
  assert (rt = rt') as <-.
  { assert (fst rt = fst rt') as E.
    { apply handlers_of_name in Hh, Hh'. destruct Hh as [Hh|[Hh Hd]], Hh' as [Hh'|[Hh' Hd']]; congruence. }
    apply list_elem_of_lookup in Hrt as [i Hi], Hrt' as [j Hj].
    assert (i = j) as ->.
    { eapply NoDup_lookup; [exact Hnd|rewrite list_lookup_fmap, Hi; done|].
      rewrite list_lookup_fmap, Hj. simpl. by rewrite E. }
    congruence. }
  unfold handlers_of in *. case_match; [|set_solver].
  case_decide; set_solver.
Qed.

End HandlersTheory.

(** ** Theory: the type assertions on cached values *)

Definition sysinfo_kind (key : string) (v : sysinfo) : bool :=
  match v with
  | SysVersion _ => bool_decide (key = "docker_version")
  | SysInfo _ => bool_decide (key = "docker_info")
  | SysHandlers _ => bool_decide (key = "docker_info_handlers")
  end.

(** An entry is fresh from [getEntry], or holds a value of its key's type. *)
Definition entry_typed (key : string) (e : entry sysinfo) : Prop :=
  e = zero_entry \/ exists v, value e = Some v /\ sysinfo_kind key v = true.
Definition sysinfo_typed (c : gmap string (entry sysinfo)) : Prop := map_Forall entry_typed c.

Lemma zero_entry_stale now : fresh (zero_entry : entry sysinfo) systemInfoCacheMinTTL now = false.
Proof. reflexivity. Qed.

Section CacheTheory.
Context {W St : Type} `{Clock W}.

Lemma Memoize_sysinfo_typed key fn (ds ds' : dockerService W St) r :
  sysinfo_typed (ds_systemInfoCache ds) ->
  (forall w v w', fn w = (Ok v, w') -> sysinfo_kind key v = true) ->
  Memoize_sysinfo key fn ds = (r, ds') ->
  sysinfo_typed (ds_systemInfoCache ds')
  /\ match r with Ok o => exists v, o = Some v /\ sysinfo_kind key v = true | Err _ => True end.
Proof.
  intros Ht Hfn. unfold Memoize_sysinfo, Memoize. rewrite getEntry_spec.
  set (e := default zero_entry (ds_systemInfoCache ds !! key)).
  assert (entry_typed key e) as He.
  { unfold e. destruct (_ !! key) as [e'|] eqn:E; simpl; [by apply (Ht key)|by left]. }
  assert (sysinfo_typed (<[key := e]> (ds_systemInfoCache ds))) as Ht1 by by apply map_Forall_insert_2.
  destruct (Now (ds_world ds)) as [now w1]. destruct (fresh e systemInfoCacheMinTTL now) eqn:Ef.
  { intros [= <- <-]. simpl. split; [done|].
    destruct He as [He|He]; [|done]. by rewrite He, zero_entry_stale in Ef. }
  destruct (Now w1) as [start w2]. destruct (fn w2) as [[v|err] w3] eqn:Efn.
  - destruct (Now w3) as [gen w4], (Now w4) as [stop w5]. intros [= <- <-]. simpl.
    apply Hfn in Efn. split; [|by eauto]. apply map_Forall_insert_2; [|done]. right. by eauto.
  - intros [= <- <-]. done.
Qed.

Context `{DockerClient W} `{ServiceJSON}.

Lemma getDockerVersion_typed (ds ds' : dockerService W St) r :
  sysinfo_typed (ds_systemInfoCache ds) -> getDockerVersion ds = (r, ds') ->
  sysinfo_typed (ds_systemInfoCache ds') /\ r <> Err type_assertion_panic.
Proof.
  intros Ht. unfold getDockerVersion, bind, ret.
  destruct (Memoize_sysinfo "docker_version" _ ds) as [r' ds1] eqn:E. intros [= <- <-].
  apply Memoize_sysinfo_typed in E as [Ht' Hr]; [split; [done|]|done|].
  - destruct r' as [o|err]; [|done]. destruct Hr as (v & -> & Hv). by destruct v.
  - intros w v w'. destruct (Version w) as [[v0|] w0]; by intros [= <- _].
Qed.

Lemma getDockerInfo_typed (ds ds' : dockerService W St) r :
  sysinfo_typed (ds_systemInfoCache ds) -> getDockerInfo ds = (r, ds') ->
  sysinfo_typed (ds_systemInfoCache ds') /\ r <> Err type_assertion_panic.
Proof.
  intros Ht. unfold getDockerInfo, bind, ret.
  destruct (Memoize_sysinfo "docker_info" _ ds) as [r' ds1] eqn:E. intros [= <- <-].
  apply Memoize_sysinfo_typed in E as [Ht' Hr]; [split; [done|]|done|].
  - destruct r' as [o|err]; [|done]. destruct Hr as (v & -> & Hv). by destruct v.
  - intros w v w'. destruct (Info w) as [[v0|] w0]; by intros [= <- _].
Qed.

Lemma getRuntimeHandlers_typed cfg (ds ds' : dockerService W St) r :
  sysinfo_typed (ds_systemInfoCache ds) -> ds_getRuntimeHandlers cfg ds = (r, ds') ->
  sysinfo_typed (ds_systemInfoCache ds') /\ r <> Err type_assertion_panic.
Proof.
  intros Ht. unfold ds_getRuntimeHandlers, try, bind, ret.
  destruct (getDockerInfo ds) as [[info|err] ds1] eqn:Ei; apply getDockerInfo_typed in Ei as [Ht1 Hn]; try done.
  2: { intros [= <- <-]. naive_solver. }
  destruct (Memoize_sysinfo "docker_info_handlers" _ ds1) as [r' ds2] eqn:E. intros [= <- <-].
  apply Memoize_sysinfo_typed in E as [Ht' Hr]; [split; [done|]|done|].
  - destruct r' as [o|err]; [|done]. destruct Hr as (v & -> & Hv). by destruct v.
  - intros w v w'. destruct (getRuntimeHandlers _ info); by intros [= <- _].
Qed.

End CacheTheory.

(** ** Properties *)

(** The list of runtime handlers does not depend on the order in which Go
    visits docker's runtimes: when the runtimes have distinct non-empty names
    and one order succeeds, every order gives the same list, sorted by name,
    with exactly one handler per runtime plus one with the empty name for the
    default runtime, and none of them claims user namespaces. *)
Theorem runtime_handlers_deterministic `{ServiceJSON} (rro : bool) (dr : string)
  (order order' : list (string * gmap string string)) (hs : list RuntimeHandler) :
  order ≡ₚ order' -> NoDup (fst <$> order) -> "" ∉ fst <$> order ->
  getRuntimeHandlers_order rro dr order = Ok hs ->
  getRuntimeHandlers_order rro dr order' = Ok hs
  /\ StronglySorted name_le hs
  /\ forall h, h ∈ hs <-> exists name status b,
       (name, status) ∈ order /\ runtime_rro rro status = Ok b
       /\ (h = mkRuntimeHandler name b false \/ name = dr /\ h = mkRuntimeHandler "" b false).
Proof.
  intros Hp Hnd Hne. unfold getRuntimeHandlers_order.
  pose proof (handlers_loop_perm rro dr order []) as Ho.
  pose proof (handlers_loop_perm rro dr order' []) as Ho'.
  destruct (handlers_loop rro dr order []) as [l|e]; [|done]. intros [= <-].
  destruct Ho as [Hf Hl]. simpl in Hl.
  destruct (handlers_loop rro dr order' []) as [l'|e]; [|by rewrite Hp in Hf].
  destruct Ho' as [_ Hl']. simpl in Hl'.
  assert (flat_map (handlers_of rro dr) order ≡ₚ flat_map (handlers_of rro dr) order') as Hpm
    by by apply Permutation_flat_map.
  split; [|split; [apply sort_handlers_sorted|]].
  - f_equal. symmetry. apply (StronglySorted_unique_strong name_le).
    + intros x y Hx Hy Hxy Hyx. rewrite sort_handlers_perm, Hl in Hx.
      rewrite sort_handlers_perm, Hl', <- Hpm in Hy.
      eapply handlers_names_inj; [done..|]. by apply (anti_symm String.le).
    + apply sort_handlers_sorted.
    + apply sort_handlers_sorted.
    + by rewrite !sort_handlers_perm, Hl, Hl'.
  - intros h. rewrite sort_handlers_perm, Hl, list_elem_of_In, in_flat_map.
    setoid_rewrite <- list_elem_of_In. unfold handlers_of. split.
    + intros ([name st] & Hin & Hh). exists name, st. simpl in Hh.
      destruct (runtime_rro rro st) as [b|]; [exists b|set_solver]. case_decide; set_solver.
    + intros (name & st & b & Hin & Hb & Hh). exists (name, st). split; [done|]. simpl.
      rewrite Hb. case_decide; set_solver.
Qed.

(** C35: The type assertions on the cached daemon information never panic: from
    a cache whose entries have the types of their keys (the empty one, at
    first), every lookup of the version, the info and the runtime handlers
    keeps them so and returns a value or an error of docker or of decoding. *)
Theorem cached_daemon_info_type_safe {W St : Type} `{DockerClient W} `{Clock W} `{ServiceJSON}
  (cfg : service_config) (ds : dockerService W St) :
  sysinfo_typed (ds_systemInfoCache ds) ->
  (let '(r, ds') := getDockerVersion ds in
   sysinfo_typed (ds_systemInfoCache ds') /\ r <> Err type_assertion_panic)
  /\ (let '(r, ds') := getDockerInfo ds in
      sysinfo_typed (ds_systemInfoCache ds') /\ r <> Err type_assertion_panic)
  /\ (let '(r, ds') := ds_getRuntimeHandlers cfg ds in
      sysinfo_typed (ds_systemInfoCache ds') /\ r <> Err type_assertion_panic).
Proof.
  intros Ht. split; [|split].
  - destruct (getDockerVersion ds) eqn:E. by eapply getDockerVersion_typed.
  - destruct (getDockerInfo ds) eqn:E. by eapply getDockerInfo_typed.
  - destruct (ds_getRuntimeHandlers cfg ds) eqn:E. by eapply getRuntimeHandlers_typed.
Qed.
