(* ===== verification/Sim.v ===== *)
(** * Sim: a concrete world for the service

    An instance of every interface the service relies on, used to evaluate it
    on concrete inputs: a docker daemon that keeps its containers, a network
    plugin, an operating system, a clock and a checkpoint store.  Any call can
    be made to fail by naming it in [sim_errors]; every call is recorded. *)
From S2P Require Import Prelude GoErrors Cri Naming Labels Cache Store Checkpoint Libdocker PluginManager Service.

Record sim := mkSim {
  sim_calls : list string;
  sim_errors : gmap string error;
  sim_containers : gmap string ContainerJSON;
  sim_images : gmap string ImageInspect;
  sim_files : gmap string string;
  sim_clock : Z;
}.

Definition sim_empty : sim := mkSim [] ∅ ∅ ∅ ∅ 0.

(** Record a call; fail it if it is listed. *)
Definition sim_op {A} (op : string) (act : M sim (res A)) : M sim (res A) := fun w =>
  let w' := mkSim (sim_calls w ++ [op]) (sim_errors w) (sim_containers w) (sim_images w)
              (sim_files w) (sim_clock w) in
  match sim_errors w !! op with
  | Some e => (Err e, w')
  | None => act w'
  end.

Definition sim_set_containers (f : gmap string ContainerJSON -> gmap string ContainerJSON)
  : M sim (res unit) := fun w =>
  (Ok tt, mkSim (sim_calls w) (sim_errors w) (f (sim_containers w)) (sim_images w) (sim_files w)
            (sim_clock w)).

(** The daemon's own error text. *)
Definition no_such_container (id : string) : error :=
  DockerError true ("Error response from daemon: No such container: " +:+ id).

Definition sim_find (id : string) : M sim (res ContainerJSON) := fun w =>
  (match sim_containers w !! id with
   | Some c => Ok c
   | None => Err (no_such_container id)
   end, w).

Definition sim_image (ref : string) : M sim (res ImageInspect) := fun w =>
  (match sim_images w !! ref with
   | Some i => Ok i
   | None => Err (ImageNotFoundError ref)
   end, w).

(** A container that was just created, under its name as ID. *)
Definition sim_created (c : ContainerCreateConfig) : ContainerJSON :=
  mkContainerJSON (ccc_Name c) "2024-01-01T00:00:00Z"
    (mkDockerContainerState false false 0 0 "" "0001-01-01T00:00:00Z" "0001-01-01T00:00:00Z")
    (dc_Image (ccc_Config c)) "/run/resolv.conf" "/docker/log" ("/" +:+ ccc_Name c)
    (ccc_HostConfig c) [] (ccc_Config c) (Some (mkNetworkSettings "172.17.0.2" "")).

Definition sim_run (running : bool) (c : ContainerJSON) : ContainerJSON :=
  mkContainerJSON (cj_ID c) (cj_Created c)
    (mkDockerContainerState running false (if running then 4242 else 0) 0 ""
       "2024-01-01T00:00:01Z" (if running then "0001-01-01T00:00:00Z" else "2024-01-01T00:00:02Z"))
    (cj_Image c) (cj_ResolvConfPath c) (cj_LogPath c) (cj_Name c) (cj_HostConfig c) (cj_Mounts c)
    (cj_Config c) (cj_NetworkSettings c).

Definition sim_listed (c : ContainerJSON) : DockerContainer :=
  mkDockerContainer (cj_ID c) [cj_Name c] (dc_Image (cj_Config c)) (cj_Image c) 1704067200
    (dc_Labels (cj_Config c)) (if st_Running (cj_State c) then "Up 1 second" else "Created").

(** Docker's label filter. *)
Definition sim_matches (fs : gmap string (gset string)) (c : ContainerJSON) : bool :=
  forallb (fun l => match split2 l "=" with
                    | [k; v] => bool_decide (dc_Labels (cj_Config c) !! k = Some v)
                    | _ => false
                    end) (elements (default ∅ (fs !! "label"))).

#[export] Instance sim_docker : DockerClient sim := {|
  ListContainers := fun opts => sim_op "list" (fun w =>
    (Ok (sim_listed <$> filter (fun c => sim_matches (lo_Filters opts) c = true
                                  /\ (lo_All opts || st_Running (cj_State c)) = true)
           (snd <$> map_to_list (sim_containers w))), w));
  InspectContainer := fun id => sim_op "inspect" (sim_find id);
  CreateContainer := fun c => sim_op "create" (fun w =>
    (Ok (ccc_Name c), snd (sim_set_containers <[ccc_Name c := sim_created c]> w)));
  StartContainer := fun id => sim_op "start"
    (let? _ := sim_find id in sim_set_containers (alter (sim_run true) id));
  StopContainer := fun id _ => sim_op "stop"
    (let? _ := sim_find id in sim_set_containers (alter (sim_run false) id));
  UpdateContainerResources := fun id _ => sim_op "update" (let? _ := sim_find id in ret (Ok tt));
  RemoveContainer := fun id _ => sim_op "remove"
    (let? _ := sim_find id in sim_set_containers (delete id));
  InspectImageByRef := fun r => sim_op "inspect_image" (sim_image r);
  InspectImageByID := fun r => sim_op "inspect_image_id" (sim_image r);
  ListImages := fun _ => sim_op "list_images" (ret (Ok []));
  PullImage := fun r _ => sim_op "pull" (fun w =>
    (Ok tt, mkSim (sim_calls w) (sim_errors w) (sim_containers w)
              (<[r := mkImageInspect r [r] [] 1024 "2024-01-01T00:00:00Z" (Some zero_DockerConfig)
                        "" "amd64" "linux" (mkRootFS "layers" [])]>
                 (sim_images w)) (sim_files w) (sim_clock w)));
  RemoveImage := fun r => sim_op "remove_image" (fun w =>
    match sim_images w !! r with
    | None => (Err (ImageNotFoundError r), w)
    | Some _ => (Ok tt, mkSim (sim_calls w) (sim_errors w) (sim_containers w)
                          (delete r (sim_images w)) (sim_files w) (sim_clock w))
    end);
  ImageHistory := fun _ => sim_op "history" (ret (Ok []));
  Version := sim_op "version" (ret (Ok (mkDockerVersion "27.0.0" "1.46")));
  Info := sim_op "info" (ret (Ok (mkDockerInfo "json-file" "cgroupfs" "/var/lib/docker" "runc"
                                    {[ "runc" := {[ oci_features_key := "rro" ]} ]})));
  CreateExec := fun id _ => sim_op "exec_create" (let? _ := sim_find id in ret (Ok "e1"));
  InspectExec := fun id => sim_op "exec_inspect" (ret (Ok (mkExecInspect id "" false 0 0)));
|}.

(** A CNI plugin that hands out one address. *)
#[export] Instance sim_network : NetworkPlugin sim := {|
  Plugin_Name := "cni";
  Plugin_SetUpPod := fun _ _ _ _ _ => sim_op "setup" (ret (Ok tt));
  Plugin_TearDownPod := fun _ _ _ => sim_op "teardown" (ret (Ok tt));
  Plugin_GetPodNetworkStatus := fun _ _ _ =>
    sim_op "netstatus" (ret (Ok (Some (mkPodNetworkStatus "10.0.0.7" []))));
  Plugin_Status := sim_op "pluginstatus" (ret (Ok tt));
  Plugin_Event := fun _ _ w => (tt, snd (sim_op "event" (ret (Ok tt)) w));
|}.

(** Open files are numbered by the length of the call record. *)
#[export] Instance sim_os : HostOS sim := {|
  os_Stat := fun p => sim_op "stat" (ret (Ok tt));
  os_ReadFile := fun p => sim_op "readfile" (fun w =>
    (match sim_files w !! p with Some d => Ok d | None => Err (PathError "open" p ENOENT) end, w));
  os_OpenTrunc := fun p => sim_op "open" (ret (Ok 3%nat));
  os_WriteString := fun _ _ => sim_op "write" (ret (Ok tt));
  os_Close := fun _ => sim_op "close" (ret (Ok tt));
  os_Remove := fun p => sim_op "unlink" (ret (Ok tt));
  os_Symlink := fun _ _ => sim_op "symlink" (ret (Ok tt));
  rand_Uint32 := ret 7%N;
|}.

#[export] Instance sim_time : Clock sim := fun w =>
  (sim_clock w, mkSim (sim_calls w) (sim_errors w) (sim_containers w) (sim_images w) (sim_files w)
                  (sim_clock w + 1)).

#[export] Instance sim_selinux : SELinux sim := {|
  InitLabels := fun _ => sim_op "initlabels" (ret (Ok "system_u:object_r:container_file_t:s0"));
  Relabel := fun _ _ _ => sim_op "relabel" (ret (Ok tt));
|}.

#[export] Instance sim_json : ServiceJSON := {|
  oci_MountOptions := fun s => Ok [s];
  marshal_dns := fun d => Ok (join (dns_Servers d) ",");
  marshal_container_info := fun s _ => Ok s;
  marshal_config := fun s => Ok s;
|}.

#[export] Instance sim_semver : Semver := {|
  semver := string;
  semver_Parse := fun s => Ok s;
  semver_Compare := String.compare;
|}.

(** A checkpoint store in memory that never fails. *)
#[export] Instance sim_store : Store (gmap string string) := {|
  Store_Write := fun k d s => (Ok tt, <[k := d]> s);
  Store_Read := fun k s =>
    (match s !! k with Some d => Ok d | None => Err (Sentinel ErrKeyNotFound) end, s);
  Store_Delete := fun k s => (Ok tt, delete k s);
  Store_List := fun s => (Ok (fst <$> map_to_list s), s);
|}.

#[export] Program Instance sim_store_contract : StoreContract (gmap string string) := {|
  contents := fun s k => s !! k;
|}.
Next Obligation.
  intros k d s r s' [= <- <-] k'. case_decide as Hd; [destruct Hd as [_ ->]; by rewrite lookup_insert_eq|].
  rewrite lookup_insert_ne; naive_solver.
Qed.
Next Obligation.
  intros k s r s'. simpl. intros [= <- <-]. by destruct (s !! k).
Qed.
Next Obligation.
  intros k s r s' [= <- <-] k'. case_decide as Hd; [destruct Hd as [_ ->]; by rewrite lookup_delete_eq|].
  rewrite lookup_delete_ne; naive_solver.
Qed.
Next Obligation.
  intros s r s' [= <- <-]. split; [done|]. intros k Hk. destruct (s !! k) as [d|] eqn:E; [|done].
  apply list_elem_of_fmap. exists (k, d). by rewrite elem_of_map_to_list.
Qed.

#[export] Instance sim_refs : RefParser := {|
  ParseNormalizedNamed := fun s => Ok (mkNamed true None s "latest" s);
  RefParse := fun _ => None;
  DigestParse := fun _ => None;
|}.

Definition sim_config : service_config := mkServiceConfig "" "cgroupfs" "/var/lib/docker" true.
Definition sim_start : dockerService sim (gmap string string) :=
  mkDockerService sim_empty ∅ ∅ ∅ ∅.

(** ** Witnesses of the properties of [Service] *)

Lemma runtime_handlers_deterministic_witness :
  let order := [("runc", {[ oci_features_key := "rro" ]}); ("crun", ∅)] in
  let hs := [mkRuntimeHandler "" true false; mkRuntimeHandler "crun" false false;
             mkRuntimeHandler "runc" true false] in
  getRuntimeHandlers_order true "runc" (reverse order) = Ok hs.
Proof.
  intros order hs.
  exact (proj1 (runtime_handlers_deterministic true "runc" order (reverse order) hs
    ltac:(by rewrite reverse_Permutation)
    ltac:(apply (bool_decide_unpack _); vm_compute; exact I)
    ltac:(apply (bool_decide_unpack _); vm_compute; exact I)
    ltac:(vm_compute; reflexivity))).
Defined.

Lemma cached_daemon_info_type_safe_witness :
  let '(r, ds') := ds_getRuntimeHandlers sim_config sim_start in
  sysinfo_typed (ds_systemInfoCache ds') /\ r <> Err type_assertion_panic.
Proof.
  assert (sysinfo_typed (ds_systemInfoCache sim_start)) as H by apply map_Forall_empty.
  destruct (cached_daemon_info_type_safe sim_config sim_start H) as (_ & _ & H3).
  exact H3.
Defined.
