(* ===== verification/SecurityContext.v ===== *)
(** * SecurityContext: security contexts as docker options

    core/security_context.go, core/security_context_linux.go and
    core/selinux_util.go: user and group, capabilities, SELinux, AppArmor and
    seccomp options, and the namespaces of sandboxes and containers.  The
    functions that fill a [Config] or a [HostConfig] through a pointer return
    the filled value; a caller that gets an error drops it. *)
From coqutil Require Import Datatypes.RecordSetters.
From S2P Require Import Prelude GoErrors GoPath GoHash Cri Naming Labels Libdocker PluginManager Service.
Import DoubleBraceUpdate.

(** ** SELinux options (selinux_util.go) *)

Definition selinuxLabelUser (separator : string) : string := "label" +:+ separator +:+ "user".
Definition selinuxLabelRole (separator : string) : string := "label" +:+ separator +:+ "role".
Definition selinuxLabelType (separator : string) : string := "label" +:+ separator +:+ "type".
Definition selinuxLabelLevel (separator : string) : string := "label" +:+ separator +:+ "level".

Definition modifySecurityOption (config : list string) (name value : string) : list string :=
  if decide (value = "") then config else config ++ [name +:+ ":" +:+ value].

Definition addSELinuxOptions (config : list string) (o : SELinuxOption) (separator : string)
  : list string :=
  let config := modifySecurityOption config (selinuxLabelUser separator) (se_User o) in
  let config := modifySecurityOption config (selinuxLabelRole separator) (se_Role o) in
  let config := modifySecurityOption config (selinuxLabelType separator) (se_Type o) in
  modifySecurityOption config (selinuxLabelLevel separator) (se_Level o).

(** The options [selinuxMountLabel] passes to [label.InitLabels]. *)
Definition mount_label_opts (o : option SELinuxOption) : list string :=
  let opt k v := if decide (v = "") then [] else [k +:+ ":" +:+ v] in
  let opts := match o with
              | Some o => opt "user" (se_User o) ++ opt "role" (se_Role o)
                          ++ opt "type" (se_Type o) ++ opt "level" (se_Level o)
              | None => []
              end in
  match opts with [] => ["disable"] | _ => opts end.
Definition selinuxMountLabel {W} `{SELinux W} (o : option SELinuxOption) : M W (res string) :=
  InitLabels (mount_label_opts o).

(** ** Users, groups and host options *)

Definition modifyContainerConfig (sc : option LinuxContainerSecurityContext) (config : DockerConfig)
  : res DockerConfig :=
  match sc with
  | None => Ok config
  | Some sc =>
      let User := match sc_RunAsUser sc with Some u => itoa u | None => dc_User config end in
      let User := if decide (sc_RunAsUsername sc = "") then User else sc_RunAsUsername sc in
      match sc_RunAsGroup sc with
      | None => Ok (config{{dc_User := User}})
      | Some g =>
          if decide (User = "") then Err (Errorf "runAsGroup is specified without a runAsUser")
          else Ok (config{{dc_User := User +:+ ":" +:+ itoa g}})
      end
  end.

Definition AppArmorBetaProfileRuntimeDefault : string := "runtime/default".
Definition AppArmorBetaProfileNameUnconfined : string := "unconfined".
Definition AppArmorBetaProfileNamePrefix : string := "localhost/".

(** [getAppArmorOpts] and [getApparmorSecurityOpts] never fail. *)
Definition getAppArmorOpts (profile : string) : list DockerOpt :=
  if decide (profile = "" \/ profile = AppArmorBetaProfileRuntimeDefault) then []
  else if decide (profile = AppArmorBetaProfileNameUnconfined)
       then [mkDockerOpt "apparmor" AppArmorBetaProfileNameUnconfined ""]
       else [mkDockerOpt "apparmor" (trim_prefix profile AppArmorBetaProfileNamePrefix) ""].
Definition getApparmorSecurityOpts (sc : LinuxContainerSecurityContext) (separator : string)
  : list string :=
  if decide (sc_ApparmorProfile sc = "") then []
  else FmtDockerOpts (getAppArmorOpts (sc_ApparmorProfile sc)) separator.

Definition modifyHostConfig (sc : option LinuxContainerSecurityContext) (hc : HostConfig)
  (separator : string) : HostConfig :=
  match sc with
  | None => hc
  | Some sc =>
      let hc := hc{{hc_GroupAdd := hc_GroupAdd hc ++ (itoa <$> sc_SupplementalGroups sc);
                    hc_Privileged := sc_Privileged sc;
                    hc_ReadonlyRootfs := sc_ReadonlyRootfs sc}} in
      let hc := match sc_Capabilities sc with
                | Some c => hc{{hc_CapAdd := cap_Add c; hc_CapDrop := cap_Drop c}}
                | None => hc
                end in
      let hc := match sc_SelinuxOptions sc with
                | Some o => hc{{hc_SecurityOpt := addSELinuxOptions (hc_SecurityOpt hc) o separator}}
                | None => hc
                end in
      let hc := hc{{hc_SecurityOpt := hc_SecurityOpt hc ++ getApparmorSecurityOpts sc separator}} in
      let hc := if sc_NoNewPrivs sc
                then hc{{hc_SecurityOpt := hc_SecurityOpt hc ++ ["no-new-privileges"] }} else hc in
      if hc_Privileged hc then hc
      else hc{{hc_MaskedPaths := sc_MaskedPaths sc; hc_ReadonlyPaths := sc_ReadonlyPaths sc}}
  end.

(** ** Namespaces *)

Section Namespaces.
Context {W : Type} `{NetworkPlugin W}.

Definition modifyHostOptionsForSandbox (nsOpts : option NamespaceOption) (hc : HostConfig)
  : HostConfig :=
  let hc := if decide (GetIpc nsOpts = NS_NODE) then hc{{hc_IpcMode := namespaceModeHost}} else hc in
  if decide (GetNetwork nsOpts = NS_NODE) then hc{{hc_NetworkMode := namespaceModeHost}}
  else if decide (pm_PluginName (W := W) = "cni" \/ pm_PluginName (W := W) = "kubenet")
       then hc{{hc_NetworkMode := "none"}}
       else hc{{hc_NetworkMode := "default"}}.

Definition modifySandboxNamespaceOptions (nsOpts : option NamespaceOption) (hc : HostConfig)
  : HostConfig :=
  modifyHostOptionsForSandbox nsOpts
    (if decide (GetPid nsOpts = NS_NODE) then hc{{hc_PidMode := namespaceModeHost}} else hc).

Definition modifyHostOptionsForContainer (nsOpts : option NamespaceOption) (podSandboxID : string)
  (hc : HostConfig) : HostConfig :=
  let sandboxNSMode := "container:" +:+ podSandboxID in
  hc{{hc_NetworkMode := sandboxNSMode;
      hc_IpcMode := sandboxNSMode;
      hc_UTSMode := if decide (GetNetwork nsOpts = NS_NODE) then namespaceModeHost else ""}}.

Definition modifyContainerNamespaceOptions (nsOpts : option NamespaceOption) (podSandboxID : string)
  (hc : HostConfig) : HostConfig :=
  modifyHostOptionsForContainer nsOpts podSandboxID
    (match GetPid nsOpts with
     | NS_NODE => hc{{hc_PidMode := namespaceModeHost}}
     | NS_POD => hc{{hc_PidMode := "container:" +:+ podSandboxID}}
     | NS_TARGET => hc{{hc_PidMode := "container:" +:+ GetTargetId nsOpts}}
     | NS_CONTAINER => hc
     end).

(** The container security context a sandbox's context stands for. *)
Definition sandbox_container_context (sc : LinuxSandboxSecurityContext)
  : LinuxContainerSecurityContext := {|
  sc_Capabilities := None;
  sc_Privileged := lssc_Privileged sc;
  sc_NamespaceOptions := lssc_NamespaceOptions sc;
  sc_SelinuxOptions := lssc_SelinuxOptions sc;
  sc_RunAsUser := lssc_RunAsUser sc;
  sc_RunAsGroup := lssc_RunAsGroup sc;
  sc_RunAsUsername := "";
  sc_ReadonlyRootfs := lssc_ReadonlyRootfs sc;
  sc_SupplementalGroups := lssc_SupplementalGroups sc;
  sc_ApparmorProfile := "";
  sc_Seccomp := None;
  sc_NoNewPrivs := false;
  sc_MaskedPaths := [];
  sc_ReadonlyPaths := [];
|}.

Definition applySandboxSecurityContext (lc : option LinuxPodSandboxConfig) (config : DockerConfig)
  (hc : HostConfig) (separator : string) : res (DockerConfig * HostConfig) :=
  match lc with
  | None => Ok (config, hc)
  | Some lc =>
      let sc := sandbox_container_context <$> lps_SecurityContext lc in
      match modifyContainerConfig sc config with
      | Err err => Err err
      | Ok config' =>
          Ok (config', modifySandboxNamespaceOptions (sc ≫= sc_NamespaceOptions)
                         (modifyHostConfig sc hc separator))
      end
  end.

End Namespaces.

Definition applyContainerSecurityContext (lc : option LinuxContainerConfig) (podSandboxID : string)
  (config : DockerConfig) (hc : HostConfig) (separator : string)
  : res (DockerConfig * HostConfig) :=
  match lc with
  | None => Ok (config, hc)
  | Some lc =>
      let sc := lcc_SecurityContext lc in
      match modifyContainerConfig sc config with
      | Err err => Err err
      | Ok config' =>
          Ok (config', modifyContainerNamespaceOptions (sc ≫= sc_NamespaceOptions) podSandboxID
                         (modifyHostConfig sc hc separator))
      end
  end.

(** ** Seccomp *)

Definition ActErrno : string := "SCMP_ACT_ERRNO".

(** [specs.LinuxSyscall] and [specs.LinuxSeccomp]; what the code carries over
    unread is the type parameter. *)
Record LinuxSyscall (R : Type) := mkLinuxSyscall {
  sys_Names : list string;
  sys_Action : string;
  sys_rest : R;
}.
Arguments mkLinuxSyscall {R}.
Arguments sys_Names {R}.
Arguments sys_Action {R}.
Arguments sys_rest {R}.
Record LinuxSeccomp (R : Type) := mkLinuxSeccomp {
  sec_Syscalls : list (LinuxSyscall R);
  sec_rest : R;
}.
Arguments mkLinuxSeccomp {R}.
Arguments sec_Syscalls {R}.
Arguments sec_rest {R}.

(** [encoding/json] on seccomp profiles, [json.Compact], and the text of a [SecurityProfile] message. *)
Class SeccompCodec := {
  seccomp_rest : Type;
  seccomp_Unmarshal : string -> res (LinuxSeccomp seccomp_rest);
  seccomp_Marshal : LinuxSeccomp seccomp_rest -> res string;
  json_Compact : string -> res string;
  SecurityProfile_String : SecurityProfile -> string;
}.

(** The loop over a rule's names. *)
Definition filter_names {R} (privileged : bool) (scall : LinuxSyscall R) : list string :=
  filter (fun name => ~ (privileged = true /\ name = "sethostname" /\ sys_Action scall = ActErrno))
    (sys_Names scall).

(** The loop over the rules: a rule left without names is dropped. *)
Fixpoint filter_syscalls {R} (privileged : bool) (l : list (LinuxSyscall R))
  : list (LinuxSyscall R) :=
  match l with
  | [] => []
  | scall :: l' =>
      match filter_names privileged scall with
      | [] => filter_syscalls privileged l'
      | names => mkLinuxSyscall names (sys_Action scall) (sys_rest scall)
                 :: filter_syscalls privileged l'
      end
  end.

Section Seccomp.
Context {W : Type} `{HostOS W} `{SeccompCodec}.

(** The localhost branch, after the file was read. *)
Definition localhost_opts (fname file : string) (privileged : bool) : res (list DockerOpt) :=
  match seccomp_Unmarshal file with
  | Err err => Err (Errorf ("decoding seccomp profile failed " +:+ quote fname +:+ ": " +:+ Error err))
  | Ok spec =>
      match filter_syscalls privileged (sec_Syscalls spec) with
      | [] => Ok []
      | filtered =>
          match seccomp_Marshal (mkLinuxSeccomp filtered (sec_rest spec)) with
          | Err err => Err (Errorf ("re-encoding seccomp profile failed " +:+ quote fname
                                    +:+ ": " +:+ Error err))
          | Ok file' =>
              match json_Compact file' with
              | Err err => Err err
              | Ok b => Ok [mkDockerOpt "seccomp" b
                              (fname +:+ "(sha256:" +:+ hex_of (sha256 file') +:+ ")")]
              end
          end
      end
  end.

(** No value of the enum prints as ["docker/default"], the second test of the
    runtime-default branch. *)
Definition getSeccompDockerOpts (seccomp : option SecurityProfile) (privileged : bool)
  : M W (res (list DockerOpt)) :=
  match seccomp with
  | None => ret (Ok defaultSeccompOpt)
  | Some sp =>
      match sp_ProfileType sp with
      | SecurityProfile_Unconfined => ret (Ok defaultSeccompOpt)
      | SecurityProfile_RuntimeDefault => ret (Ok [])
      | SecurityProfile_Other _ =>
          ret (Err (Errorf ("unknown seccomp profile option: " +:+ SecurityProfile_String sp)))
      | SecurityProfile_Localhost =>
          let fname := sp_LocalhostRef sp in
          if IsAbs fname then
            let* r := os_ReadFile fname in
            ret (match r with
                 | Err err => Err (Errorf ("cannot load seccomp profile " +:+ quote fname
                                           +:+ ": " +:+ Error err))
                 | Ok file => localhost_opts fname file privileged
                 end)
          else ret (Err (Errorf ("seccomp profile path must be absolute, but got relative path "
                                 +:+ quote fname)))
      end
  end.

Definition getSeccompSecurityOpts (seccomp : option SecurityProfile) (privileged : bool)
  (separator : string) : M W (res (list string)) :=
  let? opts := getSeccompDockerOpts seccomp privileged in
  ret (Ok (FmtDockerOpts opts separator)).

(** security_context_linux.go *)
Definition getSecurityOpts (seccomp : option SecurityProfile) (privileged : bool)
  (separator : string) : M W (res (list string)) :=
  let* r := getSeccompSecurityOpts seccomp privileged separator in
  ret (match r with
       | Err err => Err (Errorf ("failed to generate seccomp security options for container: "
                                 +:+ Error err))
       | Ok opts => Ok opts
       end).

End Seccomp.

Definition getSandBoxSecurityOpts (separator : string) : list string := ["no-new-privileges"].

(** ** Theory *)

Lemma pretty_N_nonempty (n : N) : pretty n <> "".
Proof.
  unfold pretty, pretty_N. case_decide; [done|].
  rewrite pretty_N_go_step by lia. generalize (n `div` 10)%N as m. generalize (pretty_N_char (n `mod` 10)) as c.
  intros c m. assert (forall m s, s <> "" -> pretty_N_go m s <> "") as Hgo; [|by apply Hgo].
  intros m'. induction (N.lt_wf_0 m') as [m' _ IH]. intros s Hs.
  destruct (decide (m' = 0)%N) as [->|Hm]; [by rewrite pretty_N_go_0|].
  rewrite pretty_N_go_step by lia. apply IH; [|done]. apply N.div_lt; lia.
Qed.
Lemma itoa_nonempty (z : Z) : itoa z <> "".
Proof. unfold itoa, pretty, pretty_Z. destruct z; [done| |done]. apply pretty_N_nonempty. Qed.

(** The user a context asks for, without its group. *)
Definition requested_user (sc : LinuxContainerSecurityContext) (config : DockerConfig) : string :=
  if decide (sc_RunAsUsername sc = "")
  then from_option itoa (dc_User config) (sc_RunAsUser sc) else sc_RunAsUsername sc.

Lemma requested_user_empty sc config :
  requested_user sc config = "" <->
  sc_RunAsUsername sc = "" /\ sc_RunAsUser sc = None /\ dc_User config = "".
Proof.
  unfold requested_user. case_decide; [|naive_solver].
  destruct (sc_RunAsUser sc) as [u|]; simpl; [|naive_solver].
  pose proof (itoa_nonempty u). naive_solver.
Qed.

Lemma modifyContainerConfig_user sc config :
  modifyContainerConfig (Some sc) config =
  match sc_RunAsGroup sc with
  | None => Ok (config{{dc_User := requested_user sc config}})
  | Some g => if decide (requested_user sc config = "")
              then Err (Errorf "runAsGroup is specified without a runAsUser")
              else Ok (config{{dc_User := requested_user sc config +:+ ":" +:+ itoa g}})
  end.
Proof.
  unfold modifyContainerConfig, requested_user.
  destruct (sc_RunAsUser sc), (sc_RunAsGroup sc); simpl; repeat case_decide; done.
Qed.

(** The security options a context adds. *)
Definition context_security_opts (sc : LinuxContainerSecurityContext) (separator : string)
  : list string :=
  from_option (fun o => addSELinuxOptions [] o separator) [] (sc_SelinuxOptions sc)
  ++ getApparmorSecurityOpts sc separator
  ++ (if sc_NoNewPrivs sc then ["no-new-privileges"] else []).

Lemma addSELinuxOptions_app l o separator :
  addSELinuxOptions l o separator = l ++ addSELinuxOptions [] o separator.
Proof.
  unfold addSELinuxOptions, modifySecurityOption.
  repeat case_decide; rewrite ?app_nil_r, <- ?(assoc_L (++)); done.
Qed.

Record host_options (sc : LinuxContainerSecurityContext) (separator : string)
  (hc hc' : HostConfig) : Prop := {
  ho_privileged : hc_Privileged hc' = sc_Privileged sc;
  ho_readonly : hc_ReadonlyRootfs hc' = sc_ReadonlyRootfs sc;
  ho_caps : forall c, sc_Capabilities sc = Some c -> hc_CapAdd hc' = cap_Add c /\ hc_CapDrop hc' = cap_Drop c;
  ho_groups : hc_GroupAdd hc' = hc_GroupAdd hc ++ (itoa <$> sc_SupplementalGroups sc);
  ho_opts : hc_SecurityOpt hc' = hc_SecurityOpt hc ++ context_security_opts sc separator;
  ho_masked : hc_MaskedPaths hc' = if sc_Privileged sc then hc_MaskedPaths hc else sc_MaskedPaths sc;
  ho_ropaths : hc_ReadonlyPaths hc' = if sc_Privileged sc then hc_ReadonlyPaths hc else sc_ReadonlyPaths sc;
}.

Lemma modifyHostConfig_options sc hc separator :
  host_options sc separator hc (modifyHostConfig (Some sc) hc separator).
Proof.
  unfold modifyHostConfig, context_security_opts. destruct hc.
  destruct (sc_Capabilities sc) as [c|] eqn:Ec, (sc_SelinuxOptions sc) as [o|] eqn:Es,
    (sc_NoNewPrivs sc) eqn:En, (sc_Privileged sc) eqn:Ep; cbn; unfold RecordSetters.constant;
    rewrite ?Ep; cbn.
  all: split; cbn; rewrite ?Ep; try done; try (intros ?; rewrite Ec; by intros [= <-]).
  all: unfold context_security_opts; rewrite Es, En; simpl;
    try rewrite (addSELinuxOptions_app _ o); rewrite ?app_nil_r, <- ?(assoc_L (++)); done.
Qed.

(** Setting namespaces keeps the rest. *)
Lemma namespaces_keep_options sc separator hc hc' ns id :
  host_options sc separator hc hc' ->
  host_options sc separator hc (modifyContainerNamespaceOptions ns id hc').
Proof.
  intros [H1 H2 H3 H4 H5 H6 H7]. unfold modifyContainerNamespaceOptions.
  destruct (GetPid ns); split; cbn; done.
Qed.

Definition rules_for {R} (name : string) (l : list (LinuxSyscall R)) : list (string * R) :=
  (fun s => (sys_Action s, sys_rest s)) <$> filter (fun s => name ∈ sys_Names s) l.

Lemma filter_syscalls_names {R} privileged (l : list (LinuxSyscall R)) :
  Forall (fun s => sys_Names s <> []) (filter_syscalls privileged l).
Proof.
  induction l as [|s l IH]; simpl; [constructor|].
  destruct (filter_names privileged s) eqn:E; [done|]. by constructor.
Qed.

Lemma filter_names_elem {R} privileged (s : LinuxSyscall R) name :
  name ∈ filter_names privileged s <->
  name ∈ sys_Names s
  /\ ~ (privileged = true /\ name = "sethostname" /\ sys_Action s = ActErrno).
Proof. unfold filter_names. rewrite list_elem_of_filter. naive_solver. Qed.

Lemma rules_for_filtered {R} privileged name (l : list (LinuxSyscall R)) :
  rules_for name (filter_syscalls privileged l)
  = filter (fun r => ~ (privileged = true /\ name = "sethostname" /\ fst r = ActErrno))
      (rules_for name l).
Proof.
  unfold rules_for. induction l as [|s l IH]; simpl; [done|].
  pose proof (filter_names_elem privileged s name) as Hn.
  destruct (filter_names privileged s) as [|n ns] eqn:E.
  - rewrite filter_cons. destruct (decide (name ∈ sys_Names s)) as [Hin|Hin]; [|done]. simpl. rewrite filter_cons, decide_False; [done|].
    simpl. intros Hk. assert (name ∈ @nil string) as []%elem_of_nil. naive_solver.
  - rewrite !filter_cons. cbn [sys_Names].
    destruct (decide (name ∈ sys_Names s)) as [Hin|Hin].
    + destruct (decide (privileged = true /\ name = "sethostname" /\ sys_Action s = ActErrno)) as [Hk|Hk].
      * rewrite decide_False by naive_solver. simpl. rewrite filter_cons, decide_False by naive_solver. done.
      * rewrite decide_True by naive_solver. simpl. rewrite filter_cons, decide_True by naive_solver.
        f_equal. exact IH.
    + rewrite decide_False by naive_solver. done.
Qed.

(** ** Properties *)

(** C7: What a container's security context becomes: an error exactly when a
    group is asked for and neither the context nor the configuration names a
    user; otherwise the container joins its sandbox's network and IPC
    namespaces whatever the context says (so it has the host network only if
    the sandbox has), its PID namespace is the one asked for, and privileges,
    capabilities, groups, masked paths and security options are the
    context's. *)
Theorem container_security_context_applied (lc : LinuxContainerConfig) (podSandboxID : string)
  (config : DockerConfig) (hc : HostConfig) (separator : string) :
  let ns := lcc_SecurityContext lc ≫= sc_NamespaceOptions in
  let sandbox := "container:" +:+ podSandboxID in
  match applyContainerSecurityContext (Some lc) podSandboxID config hc separator with
  | Err _ => exists sc, lcc_SecurityContext lc = Some sc /\ is_Some (sc_RunAsGroup sc)
               /\ sc_RunAsUser sc = None /\ sc_RunAsUsername sc = "" /\ dc_User config = ""
  | Ok (config', hc') =>
      hc_NetworkMode hc' = sandbox /\ hc_IpcMode hc' = sandbox
      /\ hc_UTSMode hc' = (if decide (GetNetwork ns = NS_NODE) then "host" else "")
      /\ hc_PidMode hc' = match GetPid ns with
                          | NS_NODE => "host"
                          | NS_POD => sandbox
                          | NS_TARGET => "container:" +:+ GetTargetId ns
                          | NS_CONTAINER => hc_PidMode hc
                          end
      /\ forall sc, lcc_SecurityContext lc = Some sc ->
           host_options sc separator hc hc'
           /\ dc_User config' = match sc_RunAsGroup sc with
                                | None => requested_user sc config
                                | Some g => requested_user sc config +:+ ":" +:+ itoa g
                                end
           /\ (is_Some (sc_RunAsGroup sc) -> requested_user sc config <> "")
  end.
Proof.
  intros ns sandbox. unfold applyContainerSecurityContext. fold ns.
  assert (forall hc0, hc_PidMode hc0 = hc_PidMode hc ->
    let hc' := modifyContainerNamespaceOptions ns podSandboxID hc0 in
    hc_NetworkMode hc' = sandbox /\ hc_IpcMode hc' = sandbox
    /\ hc_UTSMode hc' = (if decide (GetNetwork ns = NS_NODE) then "host" else "")
    /\ hc_PidMode hc' = match GetPid ns with NS_NODE => "host" | NS_POD => sandbox
         | NS_TARGET => "container:" +:+ GetTargetId ns | NS_CONTAINER => hc_PidMode hc end) as Hns.
  { intros hc0 Hp. unfold modifyContainerNamespaceOptions. by destruct (GetPid ns). }
  destruct (lcc_SecurityContext lc) as [sc|].
  2: { simpl. destruct (Hns hc eq_refl) as (? & ? & ? & ?). naive_solver. }
  assert (hc_PidMode (modifyHostConfig (Some sc) hc separator) = hc_PidMode hc) as Hpid.
  { unfold modifyHostConfig. destruct (sc_Capabilities sc), (sc_SelinuxOptions sc), (sc_NoNewPrivs sc),
      (sc_Privileged sc) eqn:Ep; cbn; unfold RecordSetters.constant; by rewrite ?Ep. }
  destruct (Hns _ Hpid) as (H1 & H2 & H3 & H4).
  pose proof (namespaces_keep_options _ _ _ _ ns podSandboxID (modifyHostConfig_options sc hc separator)) as Ho.
  rewrite modifyContainerConfig_user. destruct (sc_RunAsGroup sc) as [g|] eqn:Eg;
    [destruct (decide (requested_user sc config = "")) as [Hu|Hu]|].
  - apply requested_user_empty in Hu as (? & ? & ?). eauto 10.
  - split_and!; try done. intros sc' [= <-]. rewrite Eg. done.
  - split_and!; try done. intros sc' [= <-]. rewrite Eg. by split_and!; [| |intros []].
Qed.

(** The seccomp filter of a localhost profile: the rules that mention a
    system call are the profile's, in order, except that a privileged
    container loses the rules that fail [sethostname] with an errno; no rule
    without a name is left. *)
Theorem seccomp_filter_exact {R} (privileged : bool) (l : list (LinuxSyscall R)) :
  Forall (fun s => sys_Names s <> []) (filter_syscalls privileged l)
  /\ forall name,
       rules_for name (filter_syscalls privileged l)
       = if decide (privileged = true /\ name = "sethostname")
         then filter (fun r => fst r <> ActErrno) (rules_for name l)
         else rules_for name l.
Proof.
  split; [apply filter_syscalls_names|]. intros name. rewrite rules_for_filtered.
  case_decide as Hd.
  - apply list_filter_iff. naive_solver.
  - induction (rules_for name l) as [|r rs IH]; [done|].
    rewrite filter_cons, decide_True by naive_solver. by rewrite IH.
Qed.
