(* ===== verification/SandboxHelpers.v ===== *)
(** * SandboxHelpers: configurations, conflicts and files of sandboxes

    core/sandbox_helpers.go and the Linux part of core/helpers_linux.go: the
    docker configuration of a sandbox, the namespaces read back from docker,
    the checkpoint of a sandbox, the pod IPs, resolv.conf, the recovery from a
    name conflict and the sandbox image. *)
From coqutil Require Import Datatypes.RecordSetters.
From S2P Require Import Prelude Regex GoErrors Cri Naming Labels Store Checkpoint Libdocker PluginManager Service SecurityContext.
Import DoubleBraceUpdate.

Definition defaultSandboxCPUshares : Z := 2%Z.
Definition defaultSandboxOOMAdj : Z := (-998)%Z.
Definition defaultSandboxGracePeriod : Z := (10 * Second_ns)%Z.
Definition DefaultMemorySwap : Z := 0%Z.

(** ** Configurations *)

Section Config.
Context {W : Type} `{NetworkPlugin W}.
Variable cfg : service_config.

Definition applySandboxLinuxOptions (lc : option LinuxPodSandboxConfig)
  (config : DockerConfig) (hc : HostConfig) (separator : string) : res (DockerConfig * HostConfig) :=
  match lc with
  | None => Ok (config, hc)
  | Some l =>
      match applySandboxSecurityContext (W := W) lc config hc separator with
      | Err err => Err err
      | Ok (config', hc') => Ok (config', hc'{{hc_Sysctls := lps_Sysctls l}})
      end
  end.

Definition applySandboxResources (hc : HostConfig) (lc : option LinuxPodSandboxConfig)
  : res HostConfig :=
  let rs := zero_Resources{{r_MemorySwap := DefaultMemorySwap; r_CPUShares := defaultSandboxCPUshares}} in
  match lc with
  | None => Ok (hc{{hc_Resources := rs}})
  | Some l =>
      match GenerateExpectedCgroupParent cfg (lps_CgroupParent l) with
      | Err err => Err err
      | Ok cgroupParent => Ok (hc{{hc_Resources := rs{{r_CgroupParent := cgroupParent}} }})
      end
  end.

Definition makeSandboxDockerConfig (c : PodSandboxConfig) (image : string)
  : res ContainerCreateConfig :=
  let labels := sandbox_labels (psc_Labels c) (psc_Annotations c) in
  let hc := zero_HostConfig{{hc_IpcMode := "shareable"}} in
  let config := zero_DockerConfig{{dc_Hostname := psc_Hostname c; dc_Image := image;
                                   dc_Labels := labels}} in
  match applySandboxLinuxOptions (psc_Linux c) config hc securityOptSeparator with
  | Err err => Err err
  | Ok (config, hc) =>
      let '(exposedPorts, portBindings) := MakePortsAndBindings (psc_PortMappings c) in
      let config := config{{dc_ExposedPorts := exposedPorts}} in
      let hc := hc{{hc_PortBindings := portBindings; hc_OomScoreAdj := defaultSandboxOOMAdj}} in
      match applySandboxResources hc (psc_Linux c) with
      | Err err => Err err
      | Ok hc =>
          Ok (mkContainerCreateConfig (makeSandboxName c) config
                (hc{{hc_SecurityOpt := hc_SecurityOpt hc
                                       ++ getSandBoxSecurityOpts securityOptSeparator}}))
      end
  end.

(** [updateCreateConfig] (helpers_linux.go). *)
Definition updateCreateConfig (createConfig : ContainerCreateConfig) (config : ContainerConfig)
  (sandboxConfig : PodSandboxConfig) (podSandboxID securityOptSep : string)
  : res ContainerCreateConfig :=
  let step1 :=
    match cc_Linux config with
    | None => Ok (ccc_Config createConfig, ccc_HostConfig createConfig)
    | Some lc =>
        let hc := ccc_HostConfig createConfig in
        let hc :=
          match lcc_Resources lc with
          | None => hc
          | Some r =>
              hc{{hc_Resources := zero_Resources{{r_Memory := lr_MemoryLimitInBytes r;
                                                   r_MemorySwap := lr_MemoryLimitInBytes r;
                                                   r_CPUShares := lr_CpuShares r;
                                                   r_CPUQuota := lr_CpuQuota r;
                                                   r_CPUPeriod := lr_CpuPeriod r;
                                                   r_CpusetCpus := lr_CpusetCpus r;
                                                   r_CpusetMems := lr_CpusetMems r}};
                  hc_OomScoreAdj := lr_OomScoreAdj r}}
          end in
        match applyContainerSecurityContext (Some lc) podSandboxID (ccc_Config createConfig) hc
                securityOptSep with
        | Err err => Err (Errorf ("failed to apply container security context for container "
                                  +:+ quote (cm_Name (cc_Metadata config)) +:+ ": " +:+ Error err))
        | Ok p => Ok p
        end
    end in
  match step1 with
  | Err err => Err err
  | Ok (dconf, hc) =>
      match psc_Linux sandboxConfig with
      | None => Ok (mkContainerCreateConfig (ccc_Name createConfig) dconf hc)
      | Some lc =>
          match GenerateExpectedCgroupParent cfg (lps_CgroupParent lc) with
          | Err err =>
              Err (Errorf ("failed to generate cgroup parent in expected syntax for container "
                           +:+ quote (cm_Name (cc_Metadata config)) +:+ ": " +:+ Error err))
          | Ok cgroupParent =>
              Ok (mkContainerCreateConfig (ccc_Name createConfig) dconf
                    (hc{{hc_Resources := (hc_Resources hc){{r_CgroupParent := cgroupParent}} }}))
          end
      end
  end.

End Config.

(** ** Namespaces read back from docker *)

Definition networkNamespaceMode (c : ContainerJSON) : NamespaceMode :=
  if decide (hc_NetworkMode (cj_HostConfig c) = namespaceModeHost) then NS_NODE else NS_POD.
Definition pidNamespaceMode (c : ContainerJSON) : NamespaceMode :=
  if decide (hc_PidMode (cj_HostConfig c) = namespaceModeHost) then NS_NODE else NS_CONTAINER.
Definition ipcNamespaceMode (c : ContainerJSON) : NamespaceMode :=
  if decide (hc_IpcMode (cj_HostConfig c) = namespaceModeHost) then NS_NODE else NS_POD.

(** [getNetworkNamespace] (helpers_linux.go). *)
Definition getNetworkNamespace (c : ContainerJSON) : res string :=
  if decide (st_Pid (cj_State c) = 0%Z)
  then Err (Errorf ("cannot find network namespace for the terminated container "
                    +:+ quote (cj_ID c)))
  else Ok ("/proc/" +:+ itoa (st_Pid (cj_State c)) +:+ "/ns/net").

(** ** Checkpoints of sandboxes *)

Definition toCheckpointProtocol (protocol : Protocol) : string :=
  match protocol with
  | Protocol_TCP => protocolTCP
  | Protocol_UDP => protocolUDP
  | Protocol_SCTP => protocolSCTP
  | Protocol_Other _ => protocolTCP
  end.

Definition checkpoint_port (pm : PortMapping) : PortMappingCp :=
  mkPortMappingCp (toCheckpointProtocol (pm_Protocol pm)) (pm_ContainerPort pm) (pm_HostPort pm)
    (pm_HostIp pm).

Definition constructPodSandboxCheckpoint (c : PodSandboxConfig) : PodSandboxCheckpoint :=
  NewPodSandboxCheckpoint (psm_Namespace (psc_Metadata c)) (psm_Name (psc_Metadata c))
    (mkCheckpointData (checkpoint_port <$> psc_PortMappings c)
       (bool_decide (GetNetwork (sandbox_namespace_options c) = NS_NODE))).

(** ** Operations *)

(** The node's registry credentials (k8s credentialprovider): the
    configurations for a repository, and whether there are any. *)
Class Keyring := keyring_Lookup : string -> list AuthConfig * bool.

(** [utils.ParseImageName] (utils/parsers.go): repository, tag and digest. *)
Definition ParseImageName `{RefParser} (image : string) : res (string * string * string) :=
  match ParseNormalizedNamed image with
  | Err err => Err (Errorf ("couldn't parse image name: " +:+ Error err))
  | Ok named =>
      let tag := if nm_Tagged named then nm_Tag named else "" in
      let digest := match nm_Digest named with
                    | Some d => dg_Algorithm d +:+ ":" +:+ dg_Hex d
                    | None => ""
                    end in
      let tag := if decide (tag = "" /\ digest = "") then "latest" else tag in
      Ok (nm_Name named, tag, digest)
  end.

Section Operations.
Context {W St : Type} `{DockerClient W} `{NetworkPlugin W} `{HostOS W} `{RefParser} `{Keyring}.
Abbreviation DS := (dockerService W St).

Definition getPodSandboxDetails (podSandboxID : string)
  : M DS (res (ContainerJSON * PodSandboxMetadata)) :=
  let? resp := onW (InspectContainer podSandboxID) in
  ret (match parseSandboxName (cj_Name resp) with
       | Err err => Err err
       | Ok metadata => Ok (resp, metadata)
       end).

Definition getIPsFromPlugin (sandbox : ContainerJSON) : M DS (res (list string)) :=
  match parseSandboxName (cj_Name sandbox) with
  | Err err => ret (Err err)
  | Ok metadata =>
      let msg := "Couldn't find network status for " +:+ psm_Namespace metadata +:+ "/"
                 +:+ psm_Name metadata +:+ " through plugin" in
      let cID := BuildContainerID runtimeName (cj_ID sandbox) in
      let? networkStatus :=
        onW (pm_GetPodNetworkStatus (psm_Namespace metadata) (psm_Name metadata) cID) in
      ret (match networkStatus with
           | None => Err (Errorf (msg +:+ ": invalid network status for"))
           | Some st => Ok (match pns_IPs st with [] => [pns_IP st] | ips => ips end)
           end)
  end.

Definition getIPs (podSandboxID : string) (sandbox : ContainerJSON) : M DS (list string) :=
  match cj_NetworkSettings sandbox with
  | None => ret []
  | Some settings =>
      if decide (networkNamespaceMode sandbox = NS_NODE) then ret []
      else
        let* ready := getNetworkReady podSandboxID in
        match ready with
        | Some false => ret []
        | _ =>
            let* r := getIPsFromPlugin sandbox in
            ret (match r with
                 | Ok ips => ips
                 | Err _ =>
                     (if decide (nset_IPAddress settings = "") then [] else [nset_IPAddress settings])
                     ++ (if decide (nset_GlobalIPv6Address settings = "") then []
                         else [nset_GlobalIPv6Address settings])
                 end)
        end
  end.

(** *** resolv.conf *)

Definition rewriteFile (filePath stringToWrite : string) : M W (res unit) :=
  let? f := os_OpenTrunc filePath in
  let* r := os_WriteString f stringToWrite in
  do* os_Close f in
  ret r.

Definition resolv_lines (dns dnsSearch dnsOptions : list string) : list string :=
  ((fun srv => "nameserver " +:+ srv) <$> dns)
  ++ (if decide (dnsSearch = []) then [] else ["search " +:+ join dnsSearch " "])
  ++ (if decide (dnsOptions = []) then [] else ["options " +:+ join dnsOptions " "]).

Definition rewriteResolvFile (resolvFilePath : string) (dns dnsSearch dnsOptions : list string)
  : M W (res unit) :=
  if decide (resolvFilePath = "") then ret (Ok tt)
  else
    let* st := os_Stat resolvFilePath in
    match st with
    | Err err =>
        if IsNotExist err
        then ret (Err (Errorf ("ResolvConfPath " +:+ quote resolvFilePath +:+ " does not exist")))
        else match resolv_lines dns dnsSearch dnsOptions with
             | [] => ret (Ok tt)
             | lines => rewriteFile resolvFilePath (join lines newline +:+ newline)
             end
    | Ok _ =>
        match resolv_lines dns dnsSearch dnsOptions with
        | [] => ret (Ok tt)
        | lines => rewriteFile resolvFilePath (join lines newline +:+ newline)
        end
    end.

(** *** Name conflicts *)

Definition recoverFromCreationConflictIfNeeded (createConfig : ContainerCreateConfig) (err : error)
  : M W (res string) :=
  match find_submatch conflictRE (Error err) with
  | None => ret (Err err)
  | Some matched =>
      match matched with
      | [_; id] =>
          let* rmErr := RemoveContainer id (mkRemoveOptions true false) in
          match rmErr with
          | Ok _ => ret (Err err)
          | Err rmErr =>
              if IsContainerNotFoundError rmErr then
                let* rnd := rand_Uint32 in
                CreateContainer (createConfig{{ccc_Name := randomizeName rnd (ccc_Name createConfig)}})
              else ret (Err err)
          end
      | _ => ret (Err err)
      end
  end.

(** *** The sandbox image *)

Fixpoint pull_with_creds (image : string) (creds : list AuthConfig) (pullErrs : list error)
  : M W (option error) :=
  match creds with
  | [] => ret (NewAggregate (Some <$> pullErrs))
  | c :: creds' =>
      let* r := PullImage image c in
      match r with
      | Ok _ => ret None
      | Err err => pull_with_creds image creds' (pullErrs ++ [err])
      end
  end.

Definition ensureSandboxImageExists (image : string) : M W (res unit) :=
  let* r := InspectImageByRef image in
  match r with
  | Ok _ => ret (Ok tt)
  | Err err =>
      if IsImageNotFoundError err then
        match ParseImageName image with
        | Err err => ret (Err err)
        | Ok (repoToPull, _, _) =>
            let '(creds, withCredentials) := keyring_Lookup repoToPull in
            if withCredentials then
              let* e := pull_with_creds image creds [] in
              ret (match e with None => Ok tt | Some err => Err err end)
            else
              let* r := PullImage image zero_AuthConfig in
              ret (match r with
                   | Ok _ => Ok tt
                   | Err err => Err (Errorf ("failed pulling image " +:+ quote image
                                             +:+ ": " +:+ Error err))
                   end)
        end
      else ret (Err (Errorf ("failed to inspect sandbox image " +:+ quote image +:+ ": " +:+ Error err)))
  end.

End Operations.

(** ** Theory *)

(** The sandbox options that the security context leaves alone. *)
Lemma applySandboxSecurityContext_keeps {W} `{NetworkPlugin W} lc config hc sep config' hc' :
  applySandboxSecurityContext (W := W) (Some lc) config hc sep = Ok (config', hc') ->
  dc_Labels config' = dc_Labels config /\ dc_Image config' = dc_Image config
  /\ dc_Hostname config' = dc_Hostname config
  /\ hc_Runtime hc' = hc_Runtime hc
  /\ (hc_NetworkMode hc' = "host" <-> GetNetwork (lps_SecurityContext lc ≫= lssc_NamespaceOptions) = NS_NODE)
  /\ (hc_PidMode hc' = if decide (GetPid (lps_SecurityContext lc ≫= lssc_NamespaceOptions) = NS_NODE)
                       then "host" else hc_PidMode hc)
  /\ (hc_IpcMode hc' = if decide (GetIpc (lps_SecurityContext lc ≫= lssc_NamespaceOptions) = NS_NODE)
                       then "host" else hc_IpcMode hc).
Proof.
  unfold applySandboxSecurityContext. set (sc := sandbox_container_context <$> lps_SecurityContext lc).
  assert (sc ≫= sc_NamespaceOptions = lps_SecurityContext lc ≫= lssc_NamespaceOptions) as Ens
    by (subst sc; by destruct (lps_SecurityContext lc)).
  rewrite Ens. generalize (lps_SecurityContext lc ≫= lssc_NamespaceOptions) as ns. intros ns.
  destruct (modifyContainerConfig sc config) as [c|] eqn:Ec; [|done]. intros [= <- <-].
  assert (dc_Labels c = dc_Labels config /\ dc_Image c = dc_Image config
          /\ dc_Hostname c = dc_Hostname config) as (-> & -> & ->).
  { destruct sc as [s|]; [|by simplify_eq/=]. rewrite modifyContainerConfig_user in Ec.
    destruct (sc_RunAsGroup s); [case_decide|]; by simplify_eq/=. }
  assert (forall h, hc_Runtime (modifyHostConfig sc h sep) = hc_Runtime h
                    /\ hc_PidMode (modifyHostConfig sc h sep) = hc_PidMode h
                    /\ hc_IpcMode (modifyHostConfig sc h sep) = hc_IpcMode h) as Hh.
  { intros h. destruct sc as [s|]; [|done]. unfold modifyHostConfig.
    destruct (sc_Capabilities s), (sc_SelinuxOptions s), (sc_NoNewPrivs s), (sc_Privileged s) eqn:Ep;
      cbn; unfold RecordSetters.constant; rewrite ?Ep; done. }
  destruct (Hh hc) as (H1 & H2 & H3). revert H1 H2 H3.
  generalize (modifyHostConfig sc hc sep) as h. intros h H1 H2 H3.
  unfold modifySandboxNamespaceOptions, modifyHostOptionsForSandbox, namespaceModeHost.
  repeat case_decide; cbn; unfold RecordSetters.constant; split_and!; naive_solver.
Qed.
