(* ===== verification/Containers.v ===== *)
(** * Containers: the container side of the CRI service

    core/container_create.go, container_start.go, container_stop.go,
    container_remove.go, container_status.go, container_list.go,
    container_update_resources.go, the log symlinks of core/logs.go and the
    conversions of core/convert.go they use. *)
From coqutil Require Import Datatypes.RecordSetters.
From S2P Require Import Prelude Regex GoErrors GoPath GoTime Cri Naming Labels Cache Store Checkpoint Libdocker PluginManager Service SecurityContext SandboxHelpers.
Import DoubleBraceUpdate.

(** ** Conversions (convert.go) *)

Definition toPullableImageID (id : string) (image : option ImageInspect) : string :=
  match image with
  | Some i => match ii_RepoDigests i with
              | d :: _ => DockerPullableImageIDPrefix +:+ d
              | [] => DockerImageIDPrefix +:+ id
              end
  | None => DockerImageIDPrefix +:+ id
  end.

Definition toDockerContainerStatus (state : ContainerState) : string :=
  match state with
  | CONTAINER_CREATED => "created"
  | CONTAINER_RUNNING => "running"
  | CONTAINER_EXITED => "exited"
  | CONTAINER_UNKNOWN => "unknown"
  end.

Definition toRuntimeAPIContainerState (state : string) : ContainerState :=
  if has_prefix state StatusRunningPrefix then CONTAINER_RUNNING
  else if has_prefix state StatusExitedPrefix then CONTAINER_EXITED
  else if has_prefix state StatusCreatedPrefix then CONTAINER_CREATED
  else CONTAINER_UNKNOWN.

Definition label_or_empty (labels : gmap string string) (key : string) : string :=
  default "" (labels !! key).

(** The text of an unnamed container, [%+v] of the docker structure, is left
    to [show]. *)
Definition toRuntimeAPIContainer (show : DockerContainer -> string) (c : DockerContainer)
  : res Container :=
  match dct_Names c with
  | [] => Err (Errorf ("unexpected empty container name: " +:+ show c))
  | name :: _ =>
      match parseContainerName name with
      | Err err => Err err
      | Ok metadata =>
          let '(labels, annotations) := extractLabels (dct_Labels c) in
          Ok {| c_Id := dct_ID c;
                c_PodSandboxId := label_or_empty (dct_Labels c) sandboxIDLabelKey;
                c_Metadata := metadata;
                c_Image := dct_Image c;
                c_ImageRef := dct_ImageID c;
                c_State := toRuntimeAPIContainerState (dct_Status c);
                c_CreatedAt := int64 (dct_Created c * Second);
                c_Labels := labels;
                c_Annotations := annotations |}
      end
  end.

(** [containerInspectToRuntimeAPIContainerInfo]. *)
Definition containerInspectToRuntimeAPIContainerInfo `{ServiceJSON} (c : ContainerJSON)
  : res (gmap string string) :=
  match marshal_container_info (label_or_empty (dc_Labels (cj_Config c)) sandboxIDLabelKey)
          (st_Pid (cj_State c)) with
  | Ok m => Ok {[ "info" := m ]}
  | Err err => Err err
  end.

(** [getContainerTimestamps] (container_remove.go). *)
Definition getContainerTimestamps (r : ContainerJSON) : res (Z * Z * Z) :=
  match ParseDockerTimestamp (cj_Created r) with
  | Err err => Err err
  | Ok createdAt =>
      match ParseDockerTimestamp (st_StartedAt (cj_State r)) with
      | Err err => Err err
      | Ok startedAt =>
          match ParseDockerTimestamp (st_FinishedAt (cj_State r)) with
          | Err err => Err err
          | Ok finishedAt => Ok (createdAt, startedAt, finishedAt)
          end
      end
  end.

(** ** Requests *)

Record CreateContainerRequest := mkCreateContainerRequest {
  ccr_PodSandboxId : string;
  ccr_Config : option ContainerConfig;
  ccr_SandboxConfig : option PodSandboxConfig;
}.

Record ContainerFilter := mkContainerFilter {
  cf_Id : string;
  cf_State : option ContainerState;
  cf_PodSandboxId : string;
  cf_LabelSelector : gmap string string;
}.

Section Containers.
Context {W St : Type} `{DockerClient W} `{NetworkPlugin W} `{Clock W} `{HostOS W} `{SELinux W}.
Context `{Store St} `{ServiceJSON} `{Semver} `{SeccompCodec}.
Variable cfg : service_config.
Abbreviation DS := (dockerService W St).

(** ** Log symlinks (logs.go) *)

Definition criSupportedLogDrivers : list string := ["json-file"].

Definition IsCRISupportedLogDriver : M DS (res bool) :=
  let* r := getDockerInfo in
  ret (match r with
       | Err err => Err (Errorf ("failed to get docker info: " +:+ Error err))
       | Ok info => Ok (bool_decide (di_LoggingDriver info ∈ criSupportedLogDrivers))
       end).

Definition getContainerLogPath (containerID : string) : M DS (res (string * string)) :=
  let* r := onW (InspectContainer containerID) in
  ret (match r with
       | Err err => Err (Errorf ("failed to inspect container " +:+ quote containerID
                                 +:+ ": " +:+ Error err))
       | Ok info => Ok (label_or_empty (dc_Labels (cj_Config info)) containerLogPathLabelKey,
                        cj_LogPath info)
       end).

Definition log_path_error (containerID : string) (err : error) : error :=
  Errorf ("failed to get container " +:+ quote containerID +:+ " log path: " +:+ Error err).

Definition createContainerLogSymlink (containerID : string) : M DS (res unit) :=
  let* r := getContainerLogPath containerID in
  match r with
  | Err err => ret (Err (log_path_error containerID err))
  | Ok (path, realPath) =>
      if decide (path = "") then ret (Ok tt)
      else if decide (realPath = "") then do* IsCRISupportedLogDriver in ret (Ok tt)
      else
        do* onW (os_Remove path) in
        let* l := onW (os_Symlink realPath path) in
        ret (match l with
             | Err err => Err (Errorf ("failed to create symbolic link " +:+ quote path
                                       +:+ " to the container log file " +:+ quote realPath
                                       +:+ " for container " +:+ quote containerID
                                       +:+ ": " +:+ Error err))
             | Ok _ => Ok tt
             end)
  end.

Definition removeContainerLogSymlink (containerID : string) : M DS (res unit) :=
  let* r := getContainerLogPath containerID in
  match r with
  | Err err => ret (Err (log_path_error containerID err))
  | Ok (path, _) =>
      if decide (path = "") then ret (Ok tt)
      else
        let* d := onW (os_Remove path) in
        ret (match d with
             | Err err =>
                 if IsNotExist err then Ok tt
                 else Err (Errorf ("failed to remove container " +:+ quote containerID
                                   +:+ " log symlink " +:+ quote path +:+ ": " +:+ Error err))
             | Ok _ => Ok tt
             end)
  end.

(** ** CreateContainer *)

Definition terminationMessagePath_key : string := "io.kubernetes.container.terminationMessagePath".

(** The docker configuration before the Linux options. *)
Definition base_create_config (name image : string) (config : ContainerConfig)
  (labels : gmap string string) (mountBindings : list DockerMount) (runtime : string)
  : ContainerCreateConfig :=
  mkContainerCreateConfig name
    (zero_DockerConfig{{dc_Entrypoint := cc_Command config;
                        dc_Cmd := cc_Args config;
                        dc_Env := GenerateEnvList (cc_Envs config);
                        dc_Image := image;
                        dc_WorkingDir := cc_WorkingDir config;
                        dc_Labels := labels;
                        dc_OpenStdin := cc_Stdin config;
                        dc_StdinOnce := cc_StdinOnce config;
                        dc_Tty := cc_Tty config;
                        dc_Healthcheck := Some ["NONE"] }})
    (zero_HostConfig{{hc_Mounts := mountBindings;
                      hc_RestartPolicy := "no";
                      hc_Runtime := runtime}}).

(** The loop that relabels the mounts that ask for it. *)
Definition relabel_mounts (mounts : list Mount) (mountLabel : string) : M W (res unit) :=
  for_try mounts (fun m =>
    if m_SelinuxRelabel m then
      let* r := Relabel (m_HostPath m) mountLabel false in
      ret (match r with
           | Err err => Err (Errorf ("unable to relabel " +:+ quote (m_HostPath m) +:+ " with "
                                     +:+ quote mountLabel +:+ ": " +:+ Error err))
           | Ok _ => Ok tt
           end)
    else ret (Ok tt)).

Definition selinux_relabel (config : ContainerConfig) : M W (res unit) :=
  match (cc_Linux config ≫= lcc_SecurityContext) ≫= sc_SelinuxOptions with
  | None => ret (Ok tt)
  | Some o =>
      let* r := selinuxMountLabel (Some o) in
      match r with
      | Err err => ret (Err (Errorf ("unable to generate SELinux mount label: " +:+ Error err)))
      | Ok mountLabel =>
          if decide (mountLabel = "") then ret (Ok tt) else relabel_mounts (cc_Mounts config) mountLabel
      end
  end.

(** Devices and CDI devices, appended after the Linux options. *)
Definition with_devices (config : ContainerConfig) (hc : HostConfig) : HostConfig :=
  hc{{hc_Resources := (hc_Resources hc)
        {{r_Devices := (fun d => mkDeviceMapping (dev_HostPath d) (dev_ContainerPath d) (dev_Permissions d))
                       <$> cc_Devices config;
          r_DeviceRequests := r_DeviceRequests (hc_Resources hc)
                              ++ ((fun name => mkDeviceRequest "cdi" [name]) <$> cc_CDIDevices config)}} }}.

(** The seccomp options of the container. *)
Definition container_security_opts (config : ContainerConfig) : M W (res (list string)) :=
  match cc_Linux config ≫= lcc_SecurityContext with
  | None => ret (Ok [])
  | Some sc =>
      let* r := getSecurityOpts (sc_Seccomp sc) (sc_Privileged sc) securityOptSeparator in
      ret (match r with
           | Err err => Err (Errorf ("failed to generate security options for container "
                                     +:+ quote (cm_Name (cc_Metadata config)) +:+ ": " +:+ Error err))
           | Ok opts => Ok opts
           end)
  end.

(** [applyPlatformSpecificDockerConfig] on Linux. *)
Definition applyPlatformSpecificDockerConfig : res (option unit) := Ok None.

(** Everything before docker is asked to create the container, over what the
    platform defines: its options, and its security options. *)
Definition build_create_config_for
  (platform_options : ContainerCreateConfig -> res ContainerCreateConfig)
  (platform_security_opts : M W (res (list string)))
  (podSandboxID : string) (config : ContainerConfig)
  (sandboxConfig : PodSandboxConfig) : M DS (res ContainerCreateConfig) :=
  let labels := container_labels (cc_Labels config) (cc_Annotations config)
                  (Join [psc_LogDirectory sandboxConfig; cc_LogPath config]) podSandboxID in
  let* v := getDockerAPIVersion in
  match v with
  | Err err => ret (Err (Errorf ("unable to get the docker API version: " +:+ Error err)))
  | Ok _ =>
      let image := default "" (cc_Image config) in
      let containerName := makeContainerName sandboxConfig config in
      let tmp := label_or_empty (cc_Annotations config) terminationMessagePath_key in
      let* i := onW (InspectContainer podSandboxID) in
      match i with
      | Err err => ret (Err (Errorf ("unable to get container's sandbox ID: " +:+ Error err)))
      | Ok sandboxInfo =>
          let runtime := hc_Runtime (cj_HostConfig sandboxInfo) in
          let* h := ds_getRuntimeHandlers cfg in
          match h with
          | Err err => ret (Err (Errorf ("unable to get container's runtime handlers: " +:+ Error err)))
          | Ok rtHandlers =>
              let rtHandler := List.find (fun h => bool_decide (rh_Name h = runtime)) rtHandlers in
              match GenerateMountBindings (cc_Mounts config) tmp rtHandler with
              | Err err => ret (Err err)
              | Ok mountBindings =>
                  let createConfig :=
                    base_create_config containerName image config labels mountBindings runtime in
                  let? _ := onW (selinux_relabel config) in
                  match platform_options createConfig with
                  | Err err => ret (Err (Errorf ("failed to update container create config: "
                                                 +:+ Error err)))
                  | Ok createConfig =>
                      let hc := with_devices config (ccc_HostConfig createConfig) in
                      let? securityOpts := onW platform_security_opts in
                      ret (Ok (createConfig{{ccc_HostConfig :=
                        hc{{hc_SecurityOpt := hc_SecurityOpt hc ++ securityOpts}} }}))
                  end
              end
          end
      end
  end.

(** On Linux. *)
Definition build_create_config (podSandboxID : string) (config : ContainerConfig)
  (sandboxConfig : PodSandboxConfig) : M DS (res ContainerCreateConfig) :=
  build_create_config_for
    (fun createConfig => updateCreateConfig cfg createConfig config sandboxConfig podSandboxID
                           securityOptSeparator)
    (container_security_opts config) podSandboxID config sandboxConfig.

(** Create, with the recovery from a name conflict. *)
Definition create_or_recover (createConfig : ContainerCreateConfig) : M W (res string) :=
  let* r := CreateContainer createConfig in
  match r with
  | Ok id => ret (Ok id)
  | Err err => recoverFromCreationConflictIfNeeded createConfig err
  end.

Definition ds_CreateContainer (r : CreateContainerRequest) : M DS (res string) :=
  match ccr_Config r with
  | None => ret (Err (Errorf "container config is nil"))
  | Some config =>
      match ccr_SandboxConfig r with
      | None => ret (Err (Errorf ("sandbox config is nil for container "
                                  +:+ quote (cm_Name (cc_Metadata config)))))
      | Some sandboxConfig =>
          let? createConfig := build_create_config (ccr_PodSandboxId r) config sandboxConfig in
          match applyPlatformSpecificDockerConfig with
          | Err err => ret (Err err)
          | Ok cleanupInfo =>
              let* c := onW (create_or_recover createConfig) in
              match c with
              | Ok containerID =>
                  do* (match cleanupInfo with
                       | Some info => setContainerCleanupInfo containerID info
                       | None => ret tt
                       end) in
                  ret (Ok containerID)
              | Err createErr =>
                  let _ := performPlatformSpecificContainerCleanupAndLogErrors cleanupInfo in
                  ret (Err createErr)
              end
          end
      end
  end.

(** ** StartContainer, StopContainer, RemoveContainer *)

Definition transformStartContainerError (err : error) : error :=
  match find_submatch startRE (Error err) with
  | Some _ => Errorf "executable not found in $PATH"
  | None => err
  end.

Definition ds_StartContainer (containerID : string) : M DS (res unit) :=
  let* err := onW (StartContainer containerID) in
  let* link := createContainerLogSymlink containerID in
  ret (match link with
       | Err linkError => Err linkError
       | Ok _ =>
           match err with
           | Err err => Err (Errorf ("failed to start container " +:+ quote containerID
                                     +:+ ": " +:+ Error (transformStartContainerError err)))
           | Ok _ => Ok tt
           end
       end).

(** [time.Duration(r.Timeout) * time.Second] wraps. *)
Definition ds_StopContainer (containerID : string) (timeout : Z) : M DS (res unit) :=
  let* r := onW (StopContainer containerID (int64 (timeout * Second))) in
  ret (match r with
       | Err err => if IsContainerNotFoundError err
                    then Err (StatusError "NotFound" (Error err)) else Err err
       | Ok _ => Ok tt
       end).

(** The text of a slice of errors ([%v]). *)
Definition errors_text (errs : list error) : string := "[" +:+ join (Error <$> errs) " " +:+ "]".

Definition ds_RemoveContainer (containerID : string) : M DS (res unit) :=
  let? _ := removeContainerLogSymlink containerID in
  let* errors := performPlatformSpecificContainerForContainer containerID in
  match errors with
  | _ :: _ => ret (Err (Errorf ("failed to run platform-specific clean ups for container "
                                +:+ quote containerID +:+ ": " +:+ errors_text errors)))
  | [] =>
      let* r := onW (RemoveContainer containerID (mkRemoveOptions true true)) in
      ret (match r with
           | Err err => Err (Errorf ("failed to remove container " +:+ quote containerID
                                     +:+ ": " +:+ Error err))
           | Ok _ => Ok tt
           end)
  end.

(** ** UpdateContainerResources *)

Definition ds_UpdateContainerResources (containerID : string) (r : LinuxContainerResources)
  : M DS (res unit) :=
  let updateConfig := zero_Resources{{r_CPUPeriod := lr_CpuPeriod r;
                                      r_CPUQuota := lr_CpuQuota r;
                                      r_CPUShares := lr_CpuShares r;
                                      r_Memory := lr_MemoryLimitInBytes r;
                                      r_MemorySwap := lr_MemoryLimitInBytes r;
                                      r_CpusetCpus := lr_CpusetCpus r;
                                      r_CpusetMems := lr_CpusetMems r}} in
  let* u := onW (UpdateContainerResources containerID updateConfig) in
  ret (match u with
       | Err err => Err (Errorf ("failed to update container " +:+ quote containerID
                                 +:+ ": " +:+ Error err))
       | Ok _ => Ok tt
       end).

(** ** ContainerStatus *)

(** State, reason, message, started and finished time of a container. *)
Definition interpret_state (st : DockerContainerState) (createdAt startedAt finishedAt : Z)
  : ContainerState * string * string * Z * Z :=
  if st_Running st then (CONTAINER_RUNNING, "", "", startedAt, finishedAt)
  else if negb (IsZero finishedAt) then
    (CONTAINER_EXITED,
     (if st_OOMKilled st then "OOMKilled"
      else if (st_ExitCode st =? 0)%Z then "Completed" else "Error"),
     st_Error st, startedAt, finishedAt)
  else if negb (st_ExitCode st =? 0)%Z then
    (CONTAINER_EXITED, "ContainerCannotRun", st_Error st, createdAt, createdAt)
  else (CONTAINER_CREATED, "", st_Error st, startedAt, finishedAt).

Definition status_mount (m : MountPoint) : StatusMount :=
  mkStatusMount (mp_Source m) (mp_Destination m) (negb (mp_RW m)).

Definition container_status (r : ContainerJSON) (times : Z * Z * Z) (ir : option ImageInspect)
  (metadata : ContainerMetadata) : ContainerStatus :=
  let '(createdAt, startedAt, finishedAt) := times in
  let '(state, reason, message, startedAt', finishedAt') :=
    interpret_state (cj_State r) createdAt startedAt finishedAt in
  let '(labels, annotations) := extractLabels (dc_Labels (cj_Config r)) in
  {| cs_Id := cj_ID r;
     cs_Metadata := metadata;
     cs_Image := match ii_RepoTags <$> ir with
                 | Some (tag :: _) => tag
                 | _ => dc_Image (cj_Config r)
                 end;
     cs_ImageRef := toPullableImageID (cj_Image r) ir;
     cs_Mounts := status_mount <$> cj_Mounts r;
     cs_ExitCode := int32 (st_ExitCode (cj_State r));
     cs_State := state;
     cs_CreatedAt := UnixNano createdAt;
     cs_StartedAt := UnixNano startedAt';
     cs_FinishedAt := UnixNano finishedAt';
     cs_Reason := reason;
     cs_Message := message;
     cs_Labels := labels;
     cs_Annotations := annotations;
     cs_LogPath := label_or_empty (dc_Labels (cj_Config r)) containerLogPathLabelKey |}.

Definition ds_ContainerStatus (containerID : string) (verbose : bool)
  : M DS (res (ContainerStatus * gmap string string)) :=
  let? r := onW (InspectContainer containerID) in
  match getContainerTimestamps r with
  | Err err => ret (Err (Errorf ("failed to parse timestamp for container " +:+ quote containerID
                                 +:+ ": " +:+ Error err)))
  | Ok times =>
      let* i := onW (InspectImageByID (cj_Image r)) in
      let ir := match i with
                | Ok ir => Ok (Some ir)
                | Err err =>
                    if IsImageNotFoundError err then Ok None
                    else Err (Errorf ("unable to inspect docker image " +:+ quote (cj_Image r)
                                      +:+ " while inspecting docker container " +:+ quote containerID
                                      +:+ ": " +:+ Error err))
                end in
      match ir with
      | Err err => ret (Err err)
      | Ok ir =>
          match parseContainerName (cj_Name r) with
          | Err err => ret (Err err)
          | Ok metadata =>
              let status := container_status r times ir metadata in
              ret (if verbose then
                     match containerInspectToRuntimeAPIContainerInfo r with
                     | Err err => Err err
                     | Ok info => Ok (status, info)
                     end
                   else Ok (status, ∅))
          end
      end
  end.

(** ** ListContainers *)

(** The docker filters of a CRI container filter. *)
Definition container_filters (filter : option ContainerFilter) : gmap string (gset string) :=
  let f := AddLabel containerTypeLabelKey containerTypeLabelContainer ∅ in
  match filter with
  | None => f
  | Some flt =>
      let f := if decide (cf_Id flt = "") then f else dockerFilter_Add "id" (cf_Id flt) f in
      let f := match cf_State flt with
               | Some st => dockerFilter_Add "status" (toDockerContainerStatus st) f
               | None => f
               end in
      let f := if decide (cf_PodSandboxId flt = "") then f
               else AddLabel sandboxIDLabelKey (cf_PodSandboxId flt) f in
      AddLabels (cf_LabelSelector flt) f
  end.

Definition ds_ListContainers (show : DockerContainer -> string) (filter : option ContainerFilter)
  : M DS (res (list Container)) :=
  let* r := onW (ListContainers (mkListOptions true (container_filters filter))) in
  let convert cs := omap (fun c => match toRuntimeAPIContainer show c with
                                   | Ok converted => Some converted
                                   | Err _ => None
                                   end) cs in
  ret (match r with
       | Err err => if IsContainerNotFoundError err then Ok [] else Err err
       | Ok containers => Ok (convert containers)
       end).

End Containers.
