(* ===== verification/Sandboxes.v ===== *)
(** * Sandboxes: the pod sandbox side of the CRI service

    core/sandbox_run.go, sandbox_stop.go, sandbox_remove.go, sandbox_status.go
    and sandbox_list.go, with the sandbox conversions of core/convert.go. *)
From coqutil Require Import Datatypes.RecordSetters.
From S2P Require Import Prelude GoErrors GoPath GoTime Cri Naming Labels Cache Store Checkpoint Libdocker PluginManager Service SecurityContext SandboxHelpers Containers.
Import DoubleBraceUpdate.

(** ** Conversions (convert.go) *)

Definition toRuntimeAPISandboxState (state : string) : PodSandboxState :=
  if has_prefix state StatusRunningPrefix then SANDBOX_READY else SANDBOX_NOTREADY.

Definition containerToRuntimeAPISandbox (show : DockerContainer -> string) (c : DockerContainer)
  : res PodSandbox :=
  match dct_Names c with
  | [] => Err (Errorf ("unexpected empty sandbox name: " +:+ show c))
  | name :: _ =>
      match parseSandboxName name with
      | Err err => Err err
      | Ok metadata =>
          let '(labels, annotations) := extractLabels (dct_Labels c) in
          Ok {| ps_Id := dct_ID c;
                ps_Metadata := metadata;
                ps_State := toRuntimeAPISandboxState (dct_Status c);
                ps_CreatedAt := int64 (dct_Created c * Second);
                ps_Labels := labels;
                ps_Annotations := annotations |}
      end
  end.

Definition checkpointToRuntimeAPISandbox (id : string) (checkpoint : PodSandboxCheckpoint)
  : PodSandbox :=
  {| ps_Id := id;
     ps_Metadata := mkPodSandboxMetadata (cp_Name checkpoint) "" (cp_Namespace checkpoint) 0;
     ps_State := SANDBOX_NOTREADY;
     ps_CreatedAt := 0;
     ps_Labels := ∅;
     ps_Annotations := ∅ |}.

(** ** Requests *)

Record PodSandboxFilter := mkPodSandboxFilter {
  pf_Id : string;
  pf_State : option PodSandboxState;
  pf_LabelSelector : gmap string string;
}.

Section Sandboxes.
Context {W St : Type} `{DockerClient W} `{NetworkPlugin W} `{Clock W} `{HostOS W}.
Context `{Store St} `{ServiceJSON} `{RefParser} `{Keyring} `{Spew} `{CheckpointJSON}.
Variable cfg : service_config.
Abbreviation DS := (dockerService W St).

(** ** RunPodSandbox *)

(** The response, and the error the caller sees (both are set when the
    network could not be set up). *)
Definition run_result : Type := option string * option error.

(** Steps 1 and 2 up to the call that creates the container. *)
Definition prepare_sandbox (config : PodSandboxConfig) (runtimeHandler : string)
  : M DS (res ContainerCreateConfig) :=
  let image := sandboxImage cfg in
  let? _ := onW (ensureSandboxImageExists image) in
  match makeSandboxDockerConfig (W := W) cfg config image with
  | Err err => ret (Err (Errorf ("failed to make sandbox docker config for pod "
                                 +:+ quote (psm_Name (psc_Metadata config)) +:+ ": " +:+ Error err)))
  | Ok createConfig =>
      if decide (runtimeHandler <> "" /\ runtimeHandler <> runtimeName) then
        let* r := IsRuntimeConfigured runtimeHandler in
        ret (match r with
             | Err err => Err (Errorf ("failed to get sandbox runtime: " +:+ Error err))
             | Ok _ => Ok (createConfig{{ccc_HostConfig :=
                             (ccc_HostConfig createConfig){{hc_Runtime := runtimeHandler}} }})
             end)
      else ret (Ok createConfig)
  end.

(** The rewriting of resolv.conf, whose errors are variables of their own. *)
Definition rewrite_resolv (id podName : string) (dns : DNSConfig) : M DS (res unit) :=
  let* i := onW (InspectContainer id) in
  match i with
  | Err err => ret (Err (Errorf ("failed to inspect sandbox container for pod " +:+ quote podName
                                 +:+ ": " +:+ Error err)))
  | Ok info =>
      let* r := onW (rewriteResolvFile (cj_ResolvConfPath info) (dns_Servers dns) (dns_Searches dns)
                       (dns_Options dns)) in
      ret (match r with
           | Err err => Err (Errorf ("rewrite resolv.conf failed for pod " +:+ quote podName
                                     +:+ ": " +:+ Error err))
           | Ok _ => Ok tt
           end)
  end.

(** Step 5: what is returned, and the value left in the variable [err]. *)
Definition setup_network (id : string) (config : PodSandboxConfig)
  (networkOptions : gmap string string) : M DS (run_result * option error) :=
  let namespace := psm_Namespace (psc_Metadata config) in
  let name := psm_Name (psc_Metadata config) in
  let cID := BuildContainerID runtimeName id in
  let* s := onW (pm_SetUpPod namespace name cID (psc_Annotations config) networkOptions) in
  match s with
  | Ok _ => ret ((Some id, None), None)
  | Err err =>
      let errList := [Errorf ("failed to set up sandbox container " +:+ quote id
                              +:+ " network for pod " +:+ quote name +:+ ": " +:+ Error err)] in
      let* t := onW (pm_TearDownPod namespace name cID) in
      let errList := match t with
                     | Ok _ => errList
                     | Err err => errList ++ [Errorf ("failed to clean up sandbox container "
                         +:+ quote id +:+ " network for pod " +:+ quote name +:+ ": " +:+ Error err)]
                     end in
      let* p := onW (StopContainer id defaultSandboxGracePeriod) in
      let errList := match p with
                     | Ok _ => errList
                     | Err err => errList ++ [Errorf ("failed to stop sandbox container "
                         +:+ quote id +:+ " for pod " +:+ quote name +:+ ": " +:+ Error err)]
                     end in
      ret ((Some id, NewAggregate (Some <$> errList)),
           match p with Ok _ => None | Err err => Some err end)
  end.

(** Steps 3 to 5.  The second component is the value of the function's [err]
    when it returns, which the deferred function reads: errors of the inner
    scopes ([err :=]) do not reach it. *)
Definition run_created (id : string) (config : PodSandboxConfig)
  : M DS (run_result * option error) :=
  let name := psm_Name (psc_Metadata config) in
  let* c := onStore (CreateCheckpoint id (constructPodSandboxCheckpoint config)) in
  match c with
  | Err err => ret ((None, Some err), Some err)
  | Ok _ =>
      let* s := onW (StartContainer id) in
      match s with
      | Err err =>
          ret ((None, Some (Errorf ("failed to start sandbox container for pod " +:+ quote name
                                    +:+ ": " +:+ Error err))), Some err)
      | Ok _ =>
          let* d := match psc_DnsConfig config with
                    | Some dns => rewrite_resolv id name dns
                    | None => ret (Ok tt)
                    end in
          match d with
          | Err err => ret ((None, Some err), None)
          | Ok _ =>
              if decide (GetNetwork (sandbox_namespace_options config) = NS_NODE)
              then ret ((Some id, None), None)
              else
                match psc_DnsConfig config with
                | None => setup_network id config ∅
                | Some dns =>
                    match marshal_dns dns with
                    | Err err =>
                        ret ((None, Some (Errorf ("failed to marshal dns config for pod "
                                                  +:+ quote name +:+ ": " +:+ Error err))), None)
                    | Ok dnsOption => setup_network id config {[ "dns" := dnsOption ]}
                    end
                end
          end
      end
  end.

(** The network plugin is a call of the world.  The real one also calls back
    into the service for the namespace and the port mappings of the pod it is
    asked about ([Host] of [Cni]): the second may delete the checkpoint of that
    pod, when it cannot be read ([ds_GetPodPortMappings] of [PortForward]), and
    reports the error; that step is not part of this function. *)
Definition RunPodSandbox (config : PodSandboxConfig) (runtimeHandler : string) : M DS run_result :=
  let* p := prepare_sandbox config runtimeHandler in
  match p with
  | Err err => ret (None, Some err)
  | Ok createConfig =>
      let* c := onW (create_or_recover createConfig) in
      match c with
      | Err err =>
          ret (None, Some (WrapError ("failed to create a sandbox for pod "
                                      +:+ quote (psm_Name (psc_Metadata config))
                                      +:+ ": " +:+ Error err) err))
      | Ok id =>
          do* setNetworkReady id false in
          let* '(r, err) := run_created id config in
          do* (match err with None => setNetworkReady id true | Some _ => ret tt end) in
          ret r
      end
  end.

(** ** StopPodSandbox *)

(** Namespace, name and host network of a sandbox, from docker or from its
    checkpoint. *)
Definition sandbox_info (podSandboxID : string) : M DS (res (string * string * bool)) :=
  let* d := getPodSandboxDetails podSandboxID in
  match d with
  | Ok (inspectResult, metadata) =>
      ret (Ok (psm_Namespace metadata, psm_Name metadata,
               bool_decide (networkNamespaceMode inspectResult = NS_NODE)))
  | Err statusErr =>
      let* c := onStore (GetCheckpoint podSandboxID) in
      match c with
      | Ok checkpoint =>
          let '(_, name, namespace, _, hostNetwork) := GetData checkpoint in
          ret (Ok (namespace, name, hostNetwork))
      | Err checkpointErr =>
          do* (if is_sentinel ErrCheckpointNotFound checkpointErr then ret (Ok tt)
               else onStore (RemoveCheckpoint podSandboxID)) in
          ret (if IsContainerNotFoundError statusErr then Ok ("", "", false)
               else Err (aggregate
                 [Errorf ("failed to get checkpoint for sandbox " +:+ quote podSandboxID
                          +:+ ": " +:+ Error checkpointErr);
                  Errorf ("failed to get sandbox status: " +:+ Error statusErr)]))
      end
  end.

(** The tear down, unless it was done already. *)
Definition teardown_network (podSandboxID namespace name : string) (hostNetwork : bool)
  : M DS (list error) :=
  let* ready := getNetworkReady podSandboxID in
  if decide (hostNetwork = false /\ ready <> Some false) then
    let* t := onW (pm_TearDownPod namespace name (BuildContainerID runtimeName podSandboxID)) in
    match t with
    | Ok _ => do* setNetworkReady podSandboxID false in ret []
    | Err err => ret [err]
    end
  else ret [].

Definition stop_sandbox_container (podSandboxID : string) : M DS (list error) :=
  let* s := onW (StopContainer podSandboxID defaultSandboxGracePeriod) in
  match s with
  | Ok _ => ret []
  | Err err =>
      if IsContainerNotFoundError err
      then do* onStore (RemoveCheckpoint podSandboxID) in ret []
      else ret [err]
  end.

Definition StopPodSandbox (podSandboxID : string) : M DS (res unit) :=
  let? '(namespace, name, hostNetwork) := sandbox_info podSandboxID in
  let* errs1 := teardown_network podSandboxID namespace name hostNetwork in
  let* errs2 := stop_sandbox_container podSandboxID in
  ret (match errs1 ++ errs2 with
       | [] => Ok tt
       | errList => Err (aggregate errList)
       end).

(** ** RemovePodSandbox *)

(** The loop over the sandbox's containers; the errors it gathers. *)
Fixpoint remove_containers (ids : list string) : M DS (list error) :=
  match ids with
  | [] => ret []
  | id :: ids' =>
      let* r := ds_RemoveContainer id in
      let* errs := remove_containers ids' in
      ret (match r with
           | Err err => if IsContainerNotFoundError err then errs else err :: errs
           | Ok _ => errs
           end)
  end.

Definition RemovePodSandbox (podSandboxID : string) : M DS (res unit) :=
  let* l := onW (ListContainers (mkListOptions true (AddLabel sandboxIDLabelKey podSandboxID ∅))) in
  let errs0 := match l with Err err => [err] | Ok _ => [] end in
  let containers := match l with Err _ => [] | Ok cs => cs end in
  let* errs1 := remove_containers (dct_ID <$> containers) in
  let* r := onW (RemoveContainer podSandboxID (mkRemoveOptions true true)) in
  let* errs2 := match r with
                | Ok _ => do* clearNetworkReady podSandboxID in ret []
                | Err err =>
                    if IsContainerNotFoundError err
                    then do* clearNetworkReady podSandboxID in ret []
                    else ret [err]
                end in
  let* c := onStore (RemoveCheckpoint podSandboxID) in
  let errs3 := match c with Err err => [err] | Ok _ => [] end in
  ret (match errs0 ++ errs1 ++ errs2 ++ errs3 with
       | [] => Ok tt
       | errs => Err (aggregate errs)
       end).

(** ** PodSandboxStatus *)

(** [determinePodIPBySandboxID] is a Windows workaround: nil on Linux. *)
Definition determinePodIPBySandboxID (uid : string) : list string := [].

Definition sandbox_status (r : ContainerJSON) (metadata : PodSandboxMetadata) (createdAt : Z)
  (ips : list string) : PodSandboxStatus :=
  let '(labels, annotations) := extractLabels (dc_Labels (cj_Config r)) in
  {| pss_Id := cj_ID r;
     pss_State := if st_Running (cj_State r) then SANDBOX_READY else SANDBOX_NOTREADY;
     pss_CreatedAt := UnixNano createdAt;
     pss_Metadata := metadata;
     pss_Labels := labels;
     pss_Annotations := annotations;
     pss_Ip := default "" (head ips);
     pss_AdditionalIps := tail ips;
     pss_Network := networkNamespaceMode r;
     pss_Pid := pidNamespaceMode r;
     pss_Ipc := ipcNamespaceMode r;
     pss_RuntimeHandler := hc_Runtime (cj_HostConfig r) |}.

Definition ds_PodSandboxStatus (podSandboxID : string) : M DS (res PodSandboxStatus) :=
  let? '(r, metadata) := getPodSandboxDetails podSandboxID in
  match getContainerTimestamps r with
  | Err err => ret (Err (Errorf ("failed to parse timestamp for container " +:+ quote podSandboxID
                                 +:+ ": " +:+ Error err)))
  | Ok (createdAt, _, _) =>
      let* ips := match determinePodIPBySandboxID podSandboxID with
                  | [] => getIPs podSandboxID r
                  | ips => ret ips
                  end in
      ret (Ok (sandbox_status r metadata createdAt ips))
  end.

(** ** ListPodSandbox *)

Definition sandbox_filters (filter : option PodSandboxFilter) : gmap string (gset string) :=
  let f := AddLabel containerTypeLabelKey containerTypeLabelSandbox ∅ in
  match filter with
  | None => f
  | Some flt =>
      let f := if decide (pf_Id flt = "") then f else dockerFilter_Add "id" (pf_Id flt) f in
      AddLabels (pf_LabelSelector flt) f
  end.

(** The conversion loop. *)
Definition list_converted (show : DockerContainer -> string) (filterOutReady : bool)
  (containers : list DockerContainer) : list PodSandbox :=
  omap (fun c => match containerToRuntimeAPISandbox show c with
                 | Err _ => None
                 | Ok converted =>
                     if decide (filterOutReady = true /\ ps_State converted = SANDBOX_READY)
                     then None else Some converted
                 end) containers.

(** The loop over the checkpoints whose sandbox docker does not have. *)
Fixpoint list_checkpointed (sandboxIDs : list string) (checkpoints : list string)
  : M DS (list PodSandbox) :=
  match checkpoints with
  | [] => ret []
  | id :: checkpoints' =>
      if decide (id ∈ sandboxIDs) then list_checkpointed sandboxIDs checkpoints'
      else
        let* c := onStore (GetCheckpoint id) in
        match c with
        | Err err =>
            do* (if is_sentinel ErrCorruptCheckpoint err then onStore (RemoveCheckpoint id)
                 else ret (Ok tt)) in
            list_checkpointed sandboxIDs checkpoints'
        | Ok checkpoint =>
            let* rest := list_checkpointed sandboxIDs checkpoints' in
            ret (checkpointToRuntimeAPISandbox id checkpoint :: rest)
        end
  end.

Definition ListPodSandbox (show : DockerContainer -> string) (filter : option PodSandboxFilter)
  : M DS (res (list PodSandbox)) :=
  let wanted := filter ≫= pf_State in
  let all := bool_decide (wanted <> Some SANDBOX_READY) in
  let filterOutReadySandboxes := bool_decide (wanted = Some SANDBOX_NOTREADY) in
  let* checkpoints := match filter with
                      | None =>
                          let* r := onStore ListCheckpoints in
                          ret (match r with Ok keys => keys | Err _ => [] end)
                      | Some _ => ret []
                      end in
  let* r := onW (ListContainers (mkListOptions all (sandbox_filters filter))) in
  let containers := match r with
                    | Ok cs => Ok cs
                    | Err err => if IsContainerNotFoundError err then Ok [] else Err err
                    end in
  match containers with
  | Err err => ret (Err err)
  | Ok containers =>
      let result := list_converted show filterOutReadySandboxes containers in
      let* rest := list_checkpointed (ps_Id <$> result) checkpoints in
      ret (Ok (result ++ rest))
  end.

End Sandboxes.
