(* ===== verification/SandboxSpec.v ===== *)
(** * SandboxSpec: what the sandbox operations promise

    The effects of running, stopping, removing and listing sandboxes on the
    service's own state (the network-ready map and the checkpoints), for any
    docker client, network plugin, operating system and store. *)
From S2P Require Import Prelude GoErrors GoPath GoTime Cri Naming Labels Cache Store MemFs Checkpoint Libdocker PluginManager Service Sim SecurityContext SandboxHelpers Containers Sandboxes.

(** ** Computations that leave the map and the checkpoints alone *)

Section Quiet.
Context {W St : Type}.
Abbreviation DS := (dockerService W St).

Record frame (ds ds' : DS) : Prop := mkFrame {
  frame_checkpoints : ds_checkpoints ds' = ds_checkpoints ds;
  frame_ready : ds_networkReady ds' = ds_networkReady ds;
}.

#[export] Instance frame_preorder : PreOrder frame.
Proof. split; [done|]. intros a b c [H1 H2] [H3 H4]. split; congruence. Qed.

Definition quiet {A} (m : M DS A) : Prop := forall ds, frame ds (snd (m ds)).

Lemma quiet_elim {A} (m : M DS A) ds a ds' : quiet m -> m ds = (a, ds') -> frame ds ds'.
Proof. intros Hm E. specialize (Hm ds). by rewrite E in Hm. Qed.

Lemma quiet_ret {A} (a : A) : quiet (ret a).
Proof. done. Qed.
Lemma quiet_bind {A B} (m : M DS A) (k : A -> M DS B) :
  quiet m -> (forall a, quiet (k a)) -> quiet (bind m k).
Proof.
  intros Hm Hk ds. unfold bind. specialize (Hm ds). destruct (m ds) as [a ds1].
  etrans; [exact Hm|apply Hk].
Qed.
Lemma quiet_try {E A B} (m : M DS (result E A)) (k : A -> M DS (result E B)) :
  quiet m -> (forall a, quiet (k a)) -> quiet (try m k).
Proof. intros Hm Hk. apply quiet_bind; [done|]. intros [a|e]; [apply Hk|apply quiet_ret]. Qed.
Lemma quiet_onW {A} (m : M W A) : quiet (onW m).
Proof. intros ds. unfold onW. by destruct (m (ds_world ds)). Qed.
Lemma quiet_Memoize `{Clock W} key fn : quiet (Memoize_sysinfo key fn).
Proof.
  intros ds. unfold Memoize_sysinfo. by destruct (Memoize key _ fn _) as [r [c w]].
Qed.
Lemma quiet_getNetworkReady id : quiet (getNetworkReady id).
Proof. done. Qed.
Lemma quiet_clearCleanup id : quiet (clearContainerCleanupInfo id).
Proof. done. Qed.
Lemma quiet_getCleanup id : quiet (getContainerCleanupInfo id).
Proof. done. Qed.

End Quiet.

#[export] Hint Resolve quiet_ret quiet_onW quiet_Memoize quiet_getNetworkReady quiet_clearCleanup
  quiet_getCleanup : go.

(** Follow the structure of a computation. *)
Ltac solve_quiet :=
  repeat first
    [ solve [auto with go]
    | apply quiet_bind; [|intros ?]
    | apply quiet_try; [|intros ?]
    | progress case_match
    | progress case_decide ].

Section QuietOps.
Context {W St : Type} `{DockerClient W} `{NetworkPlugin W} `{Clock W} `{HostOS W}.
Context `{Store St} `{ServiceJSON} `{RefParser} `{Keyring}.
Variable cfg : service_config.

Lemma quiet_getDockerInfo : quiet (getDockerInfo : M (dockerService W St) _).
Proof. unfold getDockerInfo. solve_quiet. Qed.
Hint Resolve quiet_getDockerInfo : go.
Lemma quiet_IsRuntimeConfigured r : quiet (IsRuntimeConfigured r : M (dockerService W St) _).
Proof. unfold IsRuntimeConfigured. solve_quiet. Qed.
Hint Resolve quiet_IsRuntimeConfigured : go.
Lemma quiet_prepare config h : quiet (prepare_sandbox cfg config h : M (dockerService W St) _).
Proof. unfold prepare_sandbox. solve_quiet. Qed.
Lemma quiet_rewrite_resolv id n d : quiet (rewrite_resolv id n d : M (dockerService W St) _).
Proof. unfold rewrite_resolv. solve_quiet. Qed.
Lemma quiet_setup_network id config o : quiet (setup_network id config o : M (dockerService W St) _).
Proof. unfold setup_network. solve_quiet. Qed.
Lemma quiet_getPodSandboxDetails id : quiet (getPodSandboxDetails id : M (dockerService W St) _).
Proof. unfold getPodSandboxDetails. solve_quiet. Qed.
Lemma quiet_removeContainerLogSymlink id :
  quiet (removeContainerLogSymlink id : M (dockerService W St) _).
Proof. unfold removeContainerLogSymlink, getContainerLogPath. solve_quiet. Qed.
Hint Resolve quiet_removeContainerLogSymlink : go.
Lemma quiet_platform id :
  quiet (performPlatformSpecificContainerForContainer id : M (dockerService W St) _).
Proof. unfold performPlatformSpecificContainerForContainer. solve_quiet. Qed.
Hint Resolve quiet_platform : go.
Lemma quiet_ds_RemoveContainer id : quiet (ds_RemoveContainer id : M (dockerService W St) _).
Proof. unfold ds_RemoveContainer. solve_quiet. Qed.
Hint Resolve quiet_ds_RemoveContainer : go.
Lemma quiet_remove_containers ids : quiet (remove_containers ids : M (dockerService W St) _).
Proof. induction ids; simpl; solve_quiet. Qed.
Lemma quiet_getIPs id c : quiet (getIPs id c : M (dockerService W St) _).
Proof. unfold getIPs, getIPsFromPlugin. solve_quiet. Qed.

End QuietOps.

#[export] Hint Resolve quiet_prepare quiet_rewrite_resolv quiet_setup_network
  quiet_getPodSandboxDetails quiet_ds_RemoveContainer quiet_remove_containers quiet_getIPs : go.

(** The end of a computation. *)
Ltac inv_ret E := unfold ret in E; simplify_eq/=.

(** ** Running a sandbox *)

Section Run.
Context {W St : Type} `{DockerClient W} `{NetworkPlugin W} `{Clock W} `{HostOS W}.
Context `{Store St} `{ServiceJSON} `{RefParser} `{Keyring} `{Spew} `{CheckpointJSON}.
Abbreviation DS := (dockerService W St).

Lemma onStore_step {A} (m : M St A) (ds : DS) a ds' :
  onStore m ds = (a, ds') ->
  a = fst (m (ds_checkpoints ds)) /\ ds_checkpoints ds' = snd (m (ds_checkpoints ds))
  /\ ds_networkReady ds' = ds_networkReady ds.
Proof. unfold onStore. destruct (m (ds_checkpoints ds)). intros [= <- <-]. done. Qed.

(** Setting up the network either succeeds, or reports an error. *)
Lemma setup_network_result id config opts (ds ds' : DS) r err :
  setup_network id config opts ds = ((r, err), ds') ->
  frame ds ds' /\ fst r = Some id /\ (snd r = None -> err = None).
Proof.
  intros E. split; [by eapply quiet_elim; [|exact E]; auto with go|].
  unfold setup_network in E.
  apply bind_step in E as ([|e] & ds1 & _ & E); [by inv_ret E|].
  apply bind_step in E as (t & ds2 & _ & E). apply bind_step in E as (p & ds3 & _ & E).
  inv_ret E. destruct t, p; done.
Qed.

Lemma run_created_effect id config (ds ds' : DS) r err :
  run_created id config ds = ((r, err), ds') ->
  let cp := CreateCheckpoint id (constructPodSandboxCheckpoint config) (ds_checkpoints ds) in
  ds_networkReady ds' = ds_networkReady ds /\ ds_checkpoints ds' = snd cp
  /\ (snd r = None -> err = None /\ fst r = Some id /\ fst cp = Ok tt).
Proof.
  intros E cp. unfold run_created in E.
  apply bind_step in E as (c & ds1 & Ec & E). apply onStore_step in Ec as (Hc & G1 & G2).
  fold cp in Hc, G1.
  assert (frame ds1 ds' /\ (snd r = None -> err = None /\ fst r = Some id /\ c = Ok tt)) as [[F1 F2] Hr];
    [|split_and!; [congruence..|by rewrite <- Hc]].
  destruct c as [[]|e]; [|by inv_ret E].
  apply bind_step in E as (s & ds2 & Es & E).
  assert (frame ds1 ds2) as Fs by (by eapply quiet_elim; [|exact Es]; auto with go).
  destruct s as [[]|e]; [|by inv_ret E].
  apply bind_step in E as (d & ds3 & Ed & E).
  assert (frame ds1 ds3) as Fd.
  { etrans; [exact Fs|]. eapply quiet_elim; [|exact Ed]. destruct (psc_DnsConfig config); auto with go. }
  destruct d as [[]|e]; [|by inv_ret E]. case_decide; [by inv_ret E|].
  destruct (psc_DnsConfig config) as [dns|]; [destruct (marshal_dns dns)|].
  - apply setup_network_result in E as (F & -> & Hn). split; [by etrans|]. naive_solver.
  - by inv_ret E.
  - apply setup_network_result in E as (F & -> & Hn). split; [by etrans|]. naive_solver.
Qed.

(** The effect of [RunPodSandbox] on the map and the checkpoints. *)
Lemma RunPodSandbox_effect cfg config h (ds ds' : DS) resp e :
  RunPodSandbox cfg config h ds = ((resp, e), ds') ->
  (frame ds ds' /\ resp = None /\ e <> None)
  \/ exists id b,
       let cp := CreateCheckpoint id (constructPodSandboxCheckpoint config) (ds_checkpoints ds) in
       ds_networkReady ds' = <[id := b]> (ds_networkReady ds)
       /\ ds_checkpoints ds' = snd cp
       /\ (e = None -> b = true /\ resp = Some id /\ fst cp = Ok tt).
Proof.
  intros E. unfold RunPodSandbox in E.
  apply bind_step in E as (p & ds1 & Ep & E).
  assert (frame ds ds1) as F1 by (by eapply quiet_elim; [|exact Ep]; auto with go).
  destruct p as [cc|err]; [|left; by inv_ret E].
  apply bind_step in E as (c & ds2 & Ec & E).
  assert (frame ds1 ds2) as F2 by (by eapply quiet_elim; [|exact Ec]; auto with go).
  destruct c as [id|err]; [|left; inv_ret E; split; [by etrans|done]].
  right. apply bind_step in E as ([] & ds3 & E3 & E). apply bind_step in E as ([r err] & ds4 & E4 & E).
  destruct F1 as [F1 F1'], F2 as [F2 F2'].
  assert (ds_checkpoints ds3 = ds_checkpoints ds
          /\ ds_networkReady ds3 = <[id := false]> (ds_networkReady ds)) as [G1 G2].
  { unfold setNetworkReady in E3. simplify_eq/=. split; congruence. }
  apply run_created_effect in E4 as (R1 & R2 & R3). rewrite G1 in R2, R3. rewrite G2 in R1.
  apply bind_step in E as ([] & ds5 & E5 & E). inv_ret E.
  exists id, (if err then false else true). destruct err as [err|].
  - unfold ret in E5. simplify_eq/=. split_and!; [done..|]. naive_solver.
  - unfold setNetworkReady in E5. simplify_eq/=. rewrite R1, insert_insert_eq. split_and!; [done..|].
    intros Hn. destruct (R3 Hn) as (_ & ? & ?). done.
Qed.

End Run.

Lemma CreateCheckpoint_contents {St} `{StoreContract St} `{Spew} `{CheckpointJSON} key cp (s : St) r s' :
  CreateCheckpoint key cp s = (r, s') ->
  (forall k, k <> key -> contents s' k = contents s k)
  /\ (r = Ok tt -> exists blob, contents s' key = Some blob
                                /\ decode_checkpoint blob = Some (with_checksum cp)).
Proof.
  unfold CreateCheckpoint. destruct (fst (MarshalCheckpoint cp)) as [blob|e] eqn:Em.
  - intros E. split.
    + intros k Hk. rewrite (write_contents _ _ _ _ _ E). by rewrite decide_False by naive_solver.
    + intros ->. exists blob. split; [|by apply decode_marshal].
      rewrite (write_contents _ _ _ _ _ E). by rewrite decide_True.
  - intros [= <- <-]. done.
Qed.

(** ** Stopping a sandbox *)

Section Stop.
Context {W St : Type} `{DockerClient W}.
Context `{Store St} `{Spew} `{CheckpointJSON}.
Abbreviation DS := (dockerService W St).

(** Looking a sandbox up does not touch the map. *)
Lemma sandbox_info_ready id (ds ds' : DS) r :
  sandbox_info id ds = (r, ds') -> ds_networkReady ds' = ds_networkReady ds.
Proof.
  intros E. unfold sandbox_info in E. apply bind_step in E as (d & ds1 & Ed & E).
  assert (frame ds ds1) as F by (by eapply quiet_elim; [|exact Ed]; auto with go).
  destruct F as [_ F]. destruct d as [[i m]|e]; [by inv_ret E|].
  apply bind_step in E as (c & ds2 & Ec & E). apply onStore_step in Ec as (_ & _ & F2).
  destruct c as [cp|ce]; [inv_ret E; congruence|].
  apply bind_step in E as (x & ds3 & Ex & E). inv_ret E.
  destruct (is_sentinel ErrCheckpointNotFound ce).
  - inv_ret Ex. congruence.
  - apply onStore_step in Ex as (_ & _ & F3). congruence.
Qed.

Lemma stop_container_ready id (ds ds' : DS) r :
  stop_sandbox_container id ds = (r, ds') -> ds_networkReady ds' = ds_networkReady ds.
Proof.
  intros E. unfold stop_sandbox_container in E. apply bind_step in E as (s & ds1 & Es & E).
  assert (frame ds ds1) as [_ F] by (by eapply quiet_elim; [|exact Es]; auto with go).
  destruct s as [|e]; [by inv_ret E|]. destruct (IsContainerNotFoundError e); [|by inv_ret E].
  apply bind_step in E as (x & ds2 & Ex & E). apply onStore_step in Ex as (_ & _ & F2).
  inv_ret E. congruence.
Qed.

(** After the tear down the network of the sandbox is down, or the failure is
    reported. *)
Lemma teardown_ready `{NetworkPlugin W} id ns name host (ds ds' : DS) errs :
  teardown_network id ns name host ds = (errs, ds') ->
  (forall k, k <> id -> ds_networkReady ds' !! k = ds_networkReady ds !! k)
  /\ (errs = [] -> host = true \/ ds_networkReady ds' !! id = Some false).
Proof.
  intros E. unfold teardown_network in E. apply bind_step in E as (o & ds1 & Eo & E).
  unfold getNetworkReady in Eo. injection Eo as <- <-. case_decide as Hd.
  - apply bind_step in E as (t & ds2 & Et & E).
    assert (frame ds ds2) as [_ F] by (by eapply quiet_elim; [|exact Et]; auto with go).
    destruct t as [|e]; [|inv_ret E; by rewrite F].
    apply bind_step in E as ([] & ds3 & E3 & E). unfold setNetworkReady in E3. inv_ret E.
    split; [|by rewrite lookup_insert_eq; auto].
    intros k Hk. by rewrite lookup_insert_ne, F.
  - inv_ret E. split; [done|]. intros _. destruct host; [by left|]. right.
    destruct (ds_networkReady ds' !! id) as [[|]|]; naive_solver.
Qed.

End Stop.

(** ** Removing and listing *)

Section RemoveList.
Context {W St : Type} `{DockerClient W} `{HostOS W} `{StoreContract St}.
Abbreviation DS := (dockerService W St).

Lemma onStore_Remove_contents key (ds ds' : DS) r :
  onStore (RemoveCheckpoint key) ds = (r, ds') ->
  ds_networkReady ds' = ds_networkReady ds
  /\ forall k, contents (ds_checkpoints ds') k
               = if decide (is_ok r = true /\ k = key) then None else contents (ds_checkpoints ds) k.
Proof.
  intros (-> & E & F)%onStore_step. split; [done|]. intros k. rewrite E.
  unfold RemoveCheckpoint. destruct (Store_Delete key (ds_checkpoints ds)) as [r s'] eqn:Ed.
  apply (delete_contents _ _ _ _ Ed).
Qed.

Context `{Spew} `{CheckpointJSON}.

(** A read changes nothing, and its errors are the store's and the
    decoder's. *)
Lemma GetCheckpoint_contents key (s s' : St) r :
  GetCheckpoint key s = (r, s') -> forall k, contents s' k = contents s k.
Proof.
  unfold GetCheckpoint, bind, ret. destruct (Store_Read key s) as [x s1] eqn:E.
  intros [= _ <-]. by apply read_contents in E as [E _].
Qed.

Definition no_corrupt_sentinel : Prop :=
  (forall k (s : St), fst (Store_Read k s) <> Err (Sentinel ErrCorruptCheckpoint))
  /\ (forall blob cp, json_Unmarshal blob cp <> Err (Sentinel ErrCorruptCheckpoint)).

Lemma GetCheckpoint_never_corrupt key (s s' : St) e :
  no_corrupt_sentinel -> GetCheckpoint key s = (Err e, s') ->
  is_sentinel ErrCorruptCheckpoint e = false.
Proof.
  intros [Hr Hj] E. destruct (is_sentinel ErrCorruptCheckpoint e) eqn:Es; [|done].
  apply is_sentinel_eq in Es as ->. unfold GetCheckpoint, bind, ret in E.
  specialize (Hr key s). destruct (Store_Read key s) as [[blob|e] s1]; injection E as E _.
  - unfold UnmarshalCheckpoint in E. destruct (json_Unmarshal blob empty_checkpoint) as [cp|e] eqn:Ej.
    + destruct (VerifyChecksum cp) eqn:Ev; [done|]. apply VerifyChecksum_error in Ev. by simplify_eq.
    + simplify_eq. by destruct (Hj _ _ Ej).
  - destruct (is_sentinel ErrKeyNotFound e); [done|]. by simplify_eq.
Qed.

Lemma list_checkpointed_contents ids keys (ds ds' : DS) l :
  no_corrupt_sentinel -> list_checkpointed ids keys ds = (l, ds') ->
  ds_networkReady ds' = ds_networkReady ds
  /\ forall k, contents (ds_checkpoints ds') k = contents (ds_checkpoints ds) k.
Proof.
  intros Hn. revert ds l. induction keys as [|key keys IH]; intros ds l E; simpl in E; [by inv_ret E|].
  case_decide; [by eapply IH|].
  apply bind_step in E as (c & ds1 & Ec & E). apply onStore_step in Ec as (Hc & Hs & Hr).
  destruct (GetCheckpoint key (ds_checkpoints ds)) as [c' s1] eqn:Eg. simpl in *. subst c' s1.
  assert (forall k, contents (ds_checkpoints ds1) k = contents (ds_checkpoints ds) k) as Hk
    by (by eapply GetCheckpoint_contents).
  destruct c as [cp|e].
  - apply bind_step in E as (rest & ds2 & E2 & E). inv_ret E.
    apply IH in E2 as [G1 G2]. split; [congruence|]. intros k. by rewrite G2.
  - apply bind_step in E as (x & ds2 & Ex & E). apply IH in E as [G1 G2].
    rewrite (GetCheckpoint_never_corrupt _ _ _ _ Hn Eg) in Ex. inv_ret Ex.
    split; [congruence|]. intros k. by rewrite G2.
Qed.

(** What the loop returns when reads do not fail. *)
Definition reliable_reads : Prop :=
  forall k (s : St) d, contents s k = Some d -> fst (Store_Read k s) = Ok d.

Definition checkpointed_sandbox (s : St) (ids : list string) (key : string) : option PodSandbox :=
  if decide (key ∈ ids) then None
  else checkpointToRuntimeAPISandbox key <$> (contents s key ≫= decode_checkpoint).

Lemma checkpointed_sandbox_ext s s' ids key :
  (forall k, contents s' k = contents s k) ->
  checkpointed_sandbox s' ids key = checkpointed_sandbox s ids key.
Proof. intros E. unfold checkpointed_sandbox. by rewrite E. Qed.

Lemma GetCheckpoint_reliable key (s s' : St) r :
  reliable_reads -> GetCheckpoint key s = (r, s') ->
  match r with Ok cp => contents s key ≫= decode_checkpoint = Some cp
             | Err _ => contents s key ≫= decode_checkpoint = None end.
Proof.
  intros Hrel E. unfold GetCheckpoint, bind, ret in E.
  destruct (Store_Read key s) as [x s1] eqn:Er. injection E as <- _.
  apply read_contents in Er as Hc. destruct Hc as [_ Hc]. destruct x as [blob|e].
  - rewrite Hc. simpl. unfold decode_checkpoint.
    destruct (UnmarshalCheckpoint blob empty_checkpoint) as [cp|]; [|done].
    by destruct (VerifyChecksum cp).
  - assert (contents s key = None) as ->; [|by destruct (is_sentinel _ e)].
    destruct (contents s key) as [d|] eqn:Ed; [|done]. apply Hrel in Ed. by rewrite Er in Ed.
Qed.

Lemma list_checkpointed_exact ids keys (ds ds' : DS) l :
  no_corrupt_sentinel -> reliable_reads -> list_checkpointed ids keys ds = (l, ds') ->
  l = omap (checkpointed_sandbox (ds_checkpoints ds) ids) keys.
Proof.
  intros Hn Hrel. revert ds l. induction keys as [|key keys IH]; intros ds l E; simpl in E; [by inv_ret E|].
  assert (forall ds1 l, list_checkpointed ids keys ds1 = (l, ds') ->
    (forall k, contents (ds_checkpoints ds1) k = contents (ds_checkpoints ds) k) ->
    l = omap (checkpointed_sandbox (ds_checkpoints ds) ids) keys) as IH'.
  { intros ds1 l1 E1 Hk. rewrite (IH _ _ E1). apply list_omap_ext. apply Forall2_same_length_lookup_2; [done|].
    intros i x y Hx Hy. simplify_eq. by apply checkpointed_sandbox_ext. }
  simpl. unfold checkpointed_sandbox at 1. case_decide; [by eapply IH'|].
  apply bind_step in E as (c & ds1 & Ec & E). apply onStore_step in Ec as (Hc & Hs & _).
  destruct (GetCheckpoint key (ds_checkpoints ds)) as [c' s1] eqn:Eg. simpl in Hc, Hs. subst c' s1.
  pose proof (GetCheckpoint_contents _ _ _ _ Eg) as Hk.
  pose proof (GetCheckpoint_reliable _ _ _ _ Hrel Eg) as Hd.
  destruct c as [cp|e]; rewrite Hd; simpl.
  - apply bind_step in E as (rest & ds2 & E2 & E). inv_ret E. f_equal. by eapply IH'.
  - apply bind_step in E as (x & ds2 & Ex & E).
    rewrite (GetCheckpoint_never_corrupt _ _ _ _ Hn Eg) in Ex. inv_ret Ex. by eapply IH'.
Qed.

(** The loop over the checkpoints asks docker nothing. *)
Lemma onStore_world {A} (m : M St A) (ds ds' : DS) a : onStore m ds = (a, ds') -> ds_world ds' = ds_world ds.
Proof. unfold onStore. destruct (m (ds_checkpoints ds)). by intros [= _ <-]. Qed.

Lemma list_checkpointed_world ids keys (ds ds' : DS) l :
  list_checkpointed ids keys ds = (l, ds') -> ds_world ds' = ds_world ds.
Proof.
  revert ds l. induction keys as [|key keys IH]; intros ds l E; simpl in E; [by inv_ret E|].
  case_decide; [by eapply IH|]. apply bind_step in E as (c & ds1 & Ec & E).
  apply onStore_world in Ec as <-. destruct c as [cp|e].
  - apply bind_step in E as (rest & ds2 & E2 & E). inv_ret E. by eapply IH.
  - apply bind_step in E as (x & ds2 & Ex & E). apply IH in E as ->.
    destruct (is_sentinel _ e); [by eapply onStore_world|by inv_ret Ex].
Qed.

(** Elements kept by a partial map that preserves an identifier. *)
Lemma NoDup_omap_id {A B I} (fa : A -> I) (fb : B -> I) (f : A -> option B) (l : list A) :
  (forall a b, f a = Some b -> fb b = fa a) -> NoDup (fa <$> l) -> NoDup (fb <$> omap f l).
Proof.
  intros Hf. induction l as [|a l IH]; intros Hl; [constructor|]. rewrite fmap_cons in Hl.
  apply NoDup_cons in Hl as [Ha Hl]. cbn. destruct (f a) as [b|] eqn:E; [|auto]. cbn.
  apply NoDup_cons. split; [|auto]. intros (b' & Hb & (a' & Ha' & E')%list_elem_of_omap)%list_elem_of_fmap.
  apply Ha. rewrite <- (Hf _ _ E), Hb, (Hf _ _ E'). by apply list_elem_of_fmap_2.
Qed.

(** What listing without a filter means: the sandboxes of docker's answer that
    convert, then those of the checkpoints docker does not have. *)
Definition converted (show : DockerContainer -> string) (c : DockerContainer) : option PodSandbox :=
  match containerToRuntimeAPISandbox show c with Ok p => Some p | Err _ => None end.
Definition complete_listing (show : DockerContainer -> string) (s : St)
  (containers : list DockerContainer) (keys : list string) : list PodSandbox :=
  let docker := omap (converted show) containers in
  docker ++ omap (checkpointed_sandbox s (ps_Id <$> docker)) keys.

Lemma list_converted_all show containers :
  list_converted show false containers = omap (converted show) containers.
Proof.
  apply list_omap_ext, Forall2_same_length_lookup_2; [done|]. intros i x y Hx Hy.
  assert (y = x) as -> by congruence. unfold converted. destruct (containerToRuntimeAPISandbox show x); [|done]. by rewrite decide_False by naive_solver.
Qed.

Lemma converted_id show c p : converted show c = Some p -> ps_Id p = dct_ID c.
Proof.
  unfold converted, containerToRuntimeAPISandbox. destruct (dct_Names c) as [|name ?]; [done|].
  destruct (parseSandboxName name); [|done]. destruct (extractLabels _). by intros [= <-].
Qed.

Lemma checkpointed_sandbox_id s ids key p : checkpointed_sandbox s ids key = Some p ->
  ps_Id p = key /\ key ∉ ids /\ ps_State p = SANDBOX_NOTREADY.
Proof.
  unfold checkpointed_sandbox. case_decide; [done|]. by intros (cp & _ & ->)%fmap_Some.
Qed.

(** Each sandbox is listed once, when docker and the store list each once. *)
Lemma complete_listing_NoDup show s containers keys :
  NoDup (dct_ID <$> containers) -> NoDup keys -> NoDup (ps_Id <$> complete_listing show s containers keys).
Proof.
  intros Hc Hk. unfold complete_listing. rewrite fmap_app. set (docker := omap (converted show) containers).
  apply NoDup_app. split_and!.
  - subst docker. apply (NoDup_omap_id dct_ID ps_Id (converted show)); [apply converted_id|done].
  - intros id Hid (p & -> & Hp)%list_elem_of_fmap. apply list_elem_of_omap in Hp as (key & _ & Hp).
    apply checkpointed_sandbox_id in Hp as (Eq & Hp & _). by rewrite Eq in Hid.
  - apply (NoDup_omap_id id ps_Id); [|by rewrite list_fmap_id].
    intros key p Hp. by apply checkpointed_sandbox_id in Hp as [-> _].
Qed.

(** A sandbox whose checkpoint verifies is listed. *)
Lemma complete_listing_complete show s containers keys key cp :
  key ∈ keys -> contents s key ≫= decode_checkpoint = Some cp ->
  key ∈ ps_Id <$> complete_listing show s containers keys.
Proof.
  intros Hk Hc. unfold complete_listing. rewrite fmap_app, elem_of_app.
  set (ids := ps_Id <$> omap (converted show) containers).
  destruct (decide (key ∈ ids)) as [|Hn]; [by left|right].
  apply list_elem_of_fmap. exists (checkpointToRuntimeAPISandbox key cp). split; [done|].
  apply list_elem_of_omap. exists key. split; [done|]. unfold checkpointed_sandbox.
  by rewrite decide_False, Hc.
Qed.

End RemoveList.

(** ** Properties *)

(** C1: Running a sandbox: on success the sandbox is the one docker created,
    its network is marked ready and its checkpoint is stored, decodes and
    verifies; on failure at most one sandbox's entries were written; no other
    sandbox's readiness or checkpoint is ever changed. *)
Theorem run_pod_sandbox_effects {W St : Type} `{DockerClient W} `{NetworkPlugin W} `{Clock W}
  `{HostOS W} `{StoreContract St} `{ServiceJSON} `{RefParser} `{Keyring} `{Spew} `{CheckpointJSON}
  (cfg : service_config) (config : PodSandboxConfig) (handler : string)
  (ds ds' : dockerService W St) (resp : option string) (e : option error) :
  RunPodSandbox cfg config handler ds = ((resp, e), ds') ->
  (e = None -> exists id blob,
     resp = Some id /\ ds_networkReady ds' = <[id := true]> (ds_networkReady ds)
     /\ contents (ds_checkpoints ds') id = Some blob
     /\ decode_checkpoint blob = Some (with_checksum (constructPodSandboxCheckpoint config))
     /\ forall k, k <> id -> contents (ds_checkpoints ds') k = contents (ds_checkpoints ds) k)
  /\ exists id, forall k, k <> id ->
       ds_networkReady ds' !! k = ds_networkReady ds !! k
       /\ contents (ds_checkpoints ds') k = contents (ds_checkpoints ds) k.
Proof.
  intros [([Fc Fr] & -> & He)|(id & b & Hr & Hc & Hs)]%RunPodSandbox_effect.
  { split; [done|]. exists "". intros k _. by rewrite Fc, Fr. }
  destruct (CreateCheckpoint id _ (ds_checkpoints ds)) as [r s'] eqn:Ec. simpl in *. subst s'.
  apply CreateCheckpoint_contents in Ec as [Hk Hd]. split.
  - intros He. destruct (Hs He) as (-> & -> & ->). destruct (Hd eq_refl) as (blob & Hb & Hdec).
    eauto 10.
  - exists id. intros k Hne. rewrite Hr, lookup_insert_ne by done. by rewrite Hk.
Qed.

(** C2: The network of a sandbox is torn down once: when it is known to be
    down, or the sandbox has the host network, stopping the sandbox does not
    depend on the network plugin at all: whatever the plugin, the result and
    the final state are the same. *)
Theorem stop_tears_down_once {W St : Type} `{D : DockerClient W} (P P' : NetworkPlugin W)
  `{S : Store St} `{Sp : Spew} `{J : CheckpointJSON} (id : string) (ds : dockerService W St) :
  ds_networkReady ds !! id = Some false
  \/ (exists ns name ds1, sandbox_info id ds = (Ok (ns, name, true), ds1)) ->
  @StopPodSandbox W St D P S Sp J id ds = @StopPodSandbox W St D P' S Sp J id ds.
Proof.
  intros Hor. unfold StopPodSandbox, try, bind.
  destruct (sandbox_info id ds) as [[[[ns name] host]|err] ds1] eqn:Ei; [|done].
  assert (forall P0 : NetworkPlugin W,
    @teardown_network W St P0 id ns name host ds1 = ([], ds1)) as Hq; [|by rewrite !Hq].
  intros P0. unfold teardown_network, bind, getNetworkReady, ret.
  rewrite (sandbox_info_ready _ _ _ _ Ei). rewrite decide_False; [done|].
  destruct Hor as [->|(? & ? & ? & [= <- <- -> <-])]; naive_solver.
Qed.

(** After a successful stop the sandbox has the host network or its
    network is marked down, so that a retry does not tear it down again; the
    readiness of the other sandboxes is untouched, whatever the outcome. *)
Theorem stop_pod_sandbox_network_down {W St : Type} `{DockerClient W} `{NetworkPlugin W}
  `{Store St} `{Spew} `{CheckpointJSON} (id : string) (ds ds' : dockerService W St) (r : res unit) :
  StopPodSandbox id ds = (r, ds') ->
  (forall k, k <> id -> ds_networkReady ds' !! k = ds_networkReady ds !! k)
  /\ (r = Ok tt ->
      ds_networkReady ds' !! id = Some false
      \/ exists ns name ds1, sandbox_info id ds = (Ok (ns, name, true), ds1)).
Proof.
  intros E. unfold StopPodSandbox, try in E. apply bind_step in E as (i & ds1 & Ei & E).
  pose proof (sandbox_info_ready _ _ _ _ Ei) as F1. destruct i as [[[ns name] host]|err]; [|inv_ret E; by rewrite F1].
  apply bind_step in E as (errs1 & ds2 & E1 & E). apply bind_step in E as (errs2 & ds3 & E2 & E).
  apply teardown_ready in E1 as [F2 Hdown]. apply stop_container_ready in E2 as F3. inv_ret E.
  split; [intros k Hk; rewrite F3, F2, F1; done|].
  destruct (errs1 ++ errs2) eqn:Ee; [|done]. intros _. apply app_nil in Ee as [-> ->].
  rewrite F3. destruct (Hdown eq_refl) as [->|]; [right; eauto|by left].
Qed.

(** C3: Removing a sandbox: on success neither its readiness nor its
    checkpoint is left, and a readiness entry that is still there means that
    docker could not remove the container, which is reported; the entries of
    other sandboxes are untouched, whatever the outcome. *)
Theorem remove_pod_sandbox_forgets {W St : Type} `{DockerClient W} `{HostOS W} `{StoreContract St}
  (id : string) (ds ds' : dockerService W St) (r : res unit) :
  RemovePodSandbox id ds = (r, ds') ->
  (forall k, k <> id ->
     ds_networkReady ds' !! k = ds_networkReady ds !! k
     /\ contents (ds_checkpoints ds') k = contents (ds_checkpoints ds) k)
  /\ (r = Ok tt -> ds_networkReady ds' !! id = None /\ contents (ds_checkpoints ds') id = None)
  /\ (ds_networkReady ds' !! id <> None -> is_ok r = false).
Proof.
  intros E. unfold RemovePodSandbox in E.
  apply bind_step in E as (l & ds1 & E1 & E). apply bind_step in E as (errs1 & ds2 & E2 & E).
  apply bind_step in E as (rm & ds3 & E3 & E).
  assert (frame ds ds3) as [Fc Fr].
  { etrans; [eapply quiet_elim; [|exact E1]; auto with go|].
    etrans; [eapply quiet_elim; [|exact E2]; auto with go|eapply quiet_elim; [|exact E3]; auto with go]. }
  apply bind_step in E as (errs2 & ds4 & E4 & E). apply bind_step in E as (c & ds5 & E5 & E). inv_ret E.
  apply onStore_Remove_contents in E5 as [F5 C5].
  assert (ds_checkpoints ds4 = ds_checkpoints ds3
          /\ (ds_networkReady ds4 = delete id (ds_networkReady ds3)
              \/ errs2 <> [] /\ ds_networkReady ds4 = ds_networkReady ds3)) as [C4 R4].
  { destruct rm as [|err]; [|destruct (IsContainerNotFoundError err)];
      unfold clearNetworkReady, bind, ret in E4; simplify_eq/=; auto. }
  rewrite F5. split_and!.
  - intros k Hk. rewrite C5, C4, Fc, decide_False by naive_solver. split; [|done].
    destruct R4 as [->|[_ ->]]; rewrite ?lookup_delete_ne by done; by rewrite Fr.
  - intros Hok. destruct R4 as [->|[Hne _]]; cycle 1.
    { destruct errs2; [done|]. destruct l, errs1; done. }
    rewrite lookup_delete_eq, C5. split; [done|].
    destruct c; [by rewrite decide_True|]. destruct l, errs1, errs2; done.
  - intros Hn. destruct R4 as [R4|[Hne _]]; [by rewrite R4, lookup_delete_eq in Hn|].
    destruct l, errs1, errs2; done.
Qed.

(** C4: Listing without a filter is docker's listing completed from the
    checkpoints, without a duplicate.  Docker is asked once, for every container
    with the label of sandboxes, running or not, and nothing else is asked; an
    error of its answer is returned, unless it says that there is no such
    container.  With a store whose reads do not fail the answer is, in order,
    every container docker listed whose name is that of a sandbox, then every
    checkpoint of the store that decodes and verifies and whose ID is not
    listed yet, as a sandbox that is not ready; so every sandbox with such a
    checkpoint is listed, and each is listed once when docker and the store
    list each ID once. *)
Theorem list_pod_sandbox_exact {W St : Type} `{DockerClient W} `{StoreContract St} `{Spew}
  `{CheckpointJSON} (show : DockerContainer -> string) (ds ds' : dockerService W St)
  (r : res (list PodSandbox)) :
  no_corrupt_sentinel (St := St) -> reliable_reads (St := St) ->
  ListPodSandbox show None ds = (r, ds') ->
  let '(answer, w') := ListContainers
      (mkListOptions true {[ "label" := {[ "io.kubernetes.docker.type=podsandbox" ]} ]}) (ds_world ds) in
  let listed := fst (Store_List (ds_checkpoints ds)) in
  let keys := match listed with Ok keys => keys | Err _ => [] end in
  ds_world ds' = w'
  /\ match r with
     | Err err => answer = Err err /\ IsContainerNotFoundError err = false
     | Ok l => exists containers,
         match answer with
         | Ok cs => containers = cs
         | Err err => IsContainerNotFoundError err = true /\ containers = []
         end
         /\ l = complete_listing show (ds_checkpoints ds) containers keys
         /\ (NoDup (dct_ID <$> containers) -> NoDup keys -> NoDup (ps_Id <$> l))
         /\ (is_ok listed = true -> forall key cp,
              contents (ds_checkpoints ds) key ≫= decode_checkpoint = Some cp -> key ∈ ps_Id <$> l)
     end.
Proof.
  intros Hn Hrel E. unfold ListPodSandbox in E.
  apply bind_step in E as (keys & ds1 & Ek & E).
  apply bind_step in Ek as (lr & ds0 & El & Ek). inv_ret Ek.
  pose proof (onStore_world _ _ _ _ El) as Hw1.
  apply onStore_step in El as (Hl & Hs & _). unfold ListCheckpoints, bind, ret in Hl, Hs.
  destruct (Store_List (ds_checkpoints ds)) as [lk sl] eqn:Esl. apply list_contents in Esl as [Hck Hkeys].
  apply bind_step in E as (a & ds2 & Er & E).
  assert (frame ds1 ds2) as [F _] by (by eapply quiet_elim; [|exact Er]; auto with go).
  unfold onW in Er. rewrite Hw1 in Er.
  change (mkListOptions _ _) with
    (mkListOptions true {[ "label" := {[ "io.kubernetes.docker.type=podsandbox" ]} ]}) in Er.
  destruct (ListContainers _ (ds_world ds)) as [answer w']. injection Er as <- Eds2.
  assert (ds_world ds2 = w') as Hw2 by (by rewrite <- Eds2). cbn [fst].
  set (keys := match lk with Ok keys => keys | Err _ => [] end).
  assert (match lr with Ok keys => keys | Err _ => [] end = keys) as Ekeys by (subst lr; by destruct lk).
  rewrite Ekeys in E. clear lr Hl Ekeys.
  assert (forall containers, (let* rest := list_checkpointed (ps_Id <$> list_converted show false containers) keys in
                              ret (Ok (list_converted show false containers ++ rest))) ds2 = (r, ds') ->
    ds_world ds' = w' /\ r = Ok (complete_listing show (ds_checkpoints ds) containers keys)) as Hgo.
  { intros containers Hrun. apply bind_step in Hrun as (rest & ds3 & E3 & Hrun).
    apply list_checkpointed_world in E3 as Hw3. inv_ret Hrun. split; [congruence|].
    apply list_checkpointed_exact in E3 as ->; [|done..]. rewrite list_converted_all.
    unfold complete_listing. do 2 f_equal. apply list_omap_ext, Forall2_same_length_lookup_2; [done|].
    intros i x y Hx Hy. assert (y = x) as -> by congruence. apply checkpointed_sandbox_ext.
    intros k. rewrite F. apply Hck. }
  destruct answer as [cs|err]; [|destruct (IsContainerNotFoundError err) eqn:Enf; [|inv_ret E; by split]].
  all: destruct (Hgo _ E) as [Hw ->]; split; [done|]; eexists; split; [by try split|]; split; [done|].
  all: split; [apply complete_listing_NoDup|]; intros Hok key cp Hc; destruct lk as [lk|]; [|done];
    (eapply complete_listing_complete; [|exact Hc]); apply Hkeys; by destruct (contents _ key).
Qed.

(** Listing never removes a corrupt checkpoint: whatever is asked for, the
    contents of the store stay as they were, although the code means to delete
    the checkpoints whose checksum does not verify.  (The error of a checksum
    mismatch is not the variable the listing compares with.) *)
Theorem list_pod_sandbox_keeps_checkpoints {W St : Type} `{DockerClient W} `{StoreContract St}
  `{Spew} `{CheckpointJSON} (show : DockerContainer -> string) (filter : option PodSandboxFilter)
  (ds ds' : dockerService W St) (r : res (list PodSandbox)) :
  no_corrupt_sentinel (St := St) -> ListPodSandbox show filter ds = (r, ds') ->
  ds_networkReady ds' = ds_networkReady ds
  /\ forall k, contents (ds_checkpoints ds') k = contents (ds_checkpoints ds) k.
Proof.
  intros Hn E. unfold ListPodSandbox in E.
  apply bind_step in E as (keys & ds1 & Ek & E).
  assert (ds_networkReady ds1 = ds_networkReady ds
          /\ forall k, contents (ds_checkpoints ds1) k = contents (ds_checkpoints ds) k) as [G1 G2].
  { destruct filter; [by inv_ret Ek|]. apply bind_step in Ek as (lr & ds0 & El & Ek). inv_ret Ek.
    apply onStore_step in El as (_ & Hs & Hr). split; [done|]. unfold ListCheckpoints, bind, ret in Hs.
    destruct (Store_List (ds_checkpoints ds)) as [lk sl] eqn:Esl. apply list_contents in Esl as [Hck _].
    by rewrite Hs. }
  apply bind_step in E as (x & ds2 & Er & E).
  assert (frame ds1 ds2) as [F F'] by (by eapply quiet_elim; [|exact Er]; auto with go).
  destruct (match x with Ok cs => Ok cs | Err err => if IsContainerNotFoundError err then Ok [] else Err err end)
    as [cs|err]; [|inv_ret E; split; [congruence|]; intros k; by rewrite F].
  apply bind_step in E as (rest & ds3 & E3 & E). inv_ret E.
  apply list_checkpointed_contents in E3 as [L1 L2]; [|done].
  split; [congruence|]. intros k. by rewrite L2, F.
Qed.

(** ** A sandbox in the simulated world *)

#[local] Existing Instance bits_spew.
#[local] Existing Instance bits_json.
#[local] Instance no_credentials : Keyring := fun _ => ([], false).

Definition failing (errs : gmap string error) : dockerService sim (gmap string string) :=
  mkDockerService (mkSim [] errs ∅ ∅ ∅ 0) ∅ ∅ ∅ ∅.

Definition dns_sandbox : PodSandboxConfig :=
  mkPodSandboxConfig (mkPodSandboxMetadata "web-0" "6fe1" "default" 3) "web-0" "/var/log/pods"
    (Some (mkDNSConfig ["10.96.0.10"] [] [])) [] ∅ ∅ None.

(** What running a sandbox returned, the readiness left for it, and the calls
    made. *)
Definition run_outcome (config : PodSandboxConfig) (errs : gmap string error)
  : option string * bool * option bool * list string :=
  let '((resp, e), ds') := RunPodSandbox sim_config config "" (failing errs) in
  (resp, bool_decide (is_Some e), ds_networkReady ds' !! makeSandboxName config,
   sim_calls (ds_world ds')).

(** The network of a sandbox is marked ready although running it failed:
    when the plugin cannot set the network up and the clean-up succeeds, and
    when the sandbox cannot be inspected to rewrite its resolv.conf.  The
    deferred function reads the variable the clean-up has overwritten, or one
    that the inner scope shadows; when the sandbox cannot be started the entry
    is left not ready, as meant. *)
Theorem failed_run_marks_network_ready :
  run_outcome example_sandbox {[ "setup" := Errorf "no IP addresses available" ]}
  = (Some (makeSandboxName example_sandbox), true, Some true,
     ["inspect_image"; "pull"; "create"; "start"; "setup"; "teardown"; "stop"])
  /\ run_outcome dns_sandbox {[ "inspect" := Errorf "context deadline exceeded" ]}
     = (None, true, Some true, ["inspect_image"; "pull"; "create"; "start"; "inspect"])
  /\ run_outcome example_sandbox {[ "start" := Errorf "no space left on device" ]}
     = (None, true, Some false, ["inspect_image"; "pull"; "create"; "start"]).
Proof. split_and!; vm_compute; reflexivity. Qed.

Definition sim_ran : dockerService sim (gmap string string) :=
  snd (RunPodSandbox sim_config example_sandbox "" sim_start).
Definition sim_stopped : dockerService sim (gmap string string) :=
  snd (StopPodSandbox (makeSandboxName example_sandbox) sim_ran).
Definition sim_removed : dockerService sim (gmap string string) :=
  snd (RemovePodSandbox (makeSandboxName example_sandbox) sim_stopped).

Lemma run_pod_sandbox_effects_witness :
  exists id, forall k, k <> id ->
    ds_networkReady sim_ran !! k = ds_networkReady sim_start !! k
    /\ contents (ds_checkpoints sim_ran) k = contents (ds_checkpoints sim_start) k.
Proof.
  assert (RunPodSandbox sim_config example_sandbox "" sim_start
          = ((Some (makeSandboxName example_sandbox), None), sim_ran)) as E
    by (vm_compute; reflexivity).
  destruct (run_pod_sandbox_effects _ _ _ _ _ _ _ E) as [_ H]. exact H.
Defined.

Lemma stop_tears_down_once_witness :
  @StopPodSandbox sim _ _ sim_network _ _ _ (makeSandboxName example_sandbox) sim_stopped
  = @StopPodSandbox sim _ _ (NoopNetworkPlugin sim) _ _ _ (makeSandboxName example_sandbox) sim_stopped.
Proof.
  apply (stop_tears_down_once sim_network (NoopNetworkPlugin sim)). left. vm_compute. reflexivity.
Defined.

Lemma stop_pod_sandbox_network_down_witness :
  ds_networkReady sim_stopped !! makeSandboxName example_sandbox = Some false
  \/ exists ns name ds1, sandbox_info (makeSandboxName example_sandbox) sim_ran
                         = (Ok (ns, name, true), ds1).
Proof.
  assert (StopPodSandbox (makeSandboxName example_sandbox) sim_ran = (Ok tt, sim_stopped)) as E
    by (vm_compute; reflexivity).
  destruct (stop_pod_sandbox_network_down _ _ _ _ E) as [_ H]. exact (H eq_refl).
Defined.

Lemma remove_pod_sandbox_forgets_witness :
  ds_networkReady sim_removed !! makeSandboxName example_sandbox = None
  /\ contents (ds_checkpoints sim_removed) (makeSandboxName example_sandbox) = None.
Proof.
  assert (RemovePodSandbox (makeSandboxName example_sandbox) sim_stopped = (Ok tt, sim_removed)) as E
    by (vm_compute; reflexivity).
  destruct (remove_pod_sandbox_forgets _ _ _ _ E) as (_ & H & _). exact (H eq_refl).
Defined.

Lemma sim_no_corrupt : no_corrupt_sentinel (St := gmap string string).
Proof.
  split.
  - intros k s. simpl. by destruct (s !! k).
  - intros blob cp. simpl. by destruct (decode (unbits blob)).
Qed.
Lemma sim_reliable : reliable_reads (St := gmap string string).
Proof. intros k s d H. simpl in *. by rewrite H. Qed.

(** A sandbox known by its checkpoint only. *)
Definition sim_orphan : dockerService sim (gmap string string) :=
  mkDockerService sim_empty
    (snd (CreateCheckpoint "c0ffee" example_checkpoint (∅ : gmap string string))) ∅ ∅ ∅.
Definition sim_orphan_listed := ListPodSandbox (fun _ => "") None sim_orphan.

(** A stopped sandbox, with its checkpoint, and one known by its checkpoint
    only. *)
Definition sim_both : dockerService sim (gmap string string) :=
  mkDockerService (ds_world sim_stopped)
    (snd (CreateCheckpoint "c0ffee" example_checkpoint (ds_checkpoints sim_stopped))) ∅ ∅ ∅.
Definition sim_both_listed := ListPodSandbox (fun _ => "") None sim_both.

Lemma list_pod_sandbox_exact_witness :
  exists l, fst sim_both_listed = Ok l /\ ps_Id <$> l = [makeSandboxName example_sandbox; "c0ffee"]
    /\ exists containers, dct_ID <$> containers = [makeSandboxName example_sandbox]
         /\ l = complete_listing (fun _ => "") (ds_checkpoints sim_both) containers
                  (match fst (Store_List (ds_checkpoints sim_both)) with Ok keys => keys | Err _ => [] end).
Proof.
  assert (exists l, fst sim_both_listed = Ok l /\ ps_Id <$> l = [makeSandboxName example_sandbox; "c0ffee"])
    as (l & Hl & Hids) by (eexists; vm_compute; split; reflexivity).
  exists l. split; [exact Hl|]. split; [exact Hids|].
  pose proof (list_pod_sandbox_exact (fun _ => "") sim_both (snd sim_both_listed) (fst sim_both_listed)
                sim_no_corrupt sim_reliable (surjective_pairing _)) as H.
  rewrite Hl in H. destruct (ListContainers _ (ds_world sim_both)) as [answer w] eqn:Ea.
  destruct H as (_ & cs & Hcs & H & _). exists cs. split; [|exact H].
  assert (answer = fst (answer, w)) as Hans by reflexivity. rewrite <- Ea in Hans. vm_compute in Hans. subst answer.
  rewrite Hcs. vm_compute. reflexivity.
Defined.

Lemma list_pod_sandbox_keeps_checkpoints_witness :
  contents (ds_checkpoints (snd sim_orphan_listed)) "c0ffee"
  = contents (ds_checkpoints sim_orphan) "c0ffee".
Proof.
  destruct (list_pod_sandbox_keeps_checkpoints (fun _ => "") None sim_orphan (snd sim_orphan_listed)
              (fst sim_orphan_listed) sim_no_corrupt (surjective_pairing _)) as [_ H].
  exact (H "c0ffee").
Defined.
