(* ===== verification/ConfigSpec.v ===== *)
(** * ConfigSpec: what docker is asked to create and what is read back

    The configurations [RunPodSandbox] and [CreateContainer] build, related to
    what the status and list operations report once docker returns them; the
    states of a container; removing containers that are gone. *)
From coqutil Require Import Datatypes.RecordSetters.
From S2P Require Import Prelude GoErrors GoPath GoTime Cri Naming Labels Cache Store Checkpoint Libdocker PluginManager Service Sim SecurityContext SandboxHelpers Containers Sandboxes.
Import DoubleBraceUpdate.

(** A docker container created from [cc], as docker reports it: its name with
    a slash, possibly the randomized one of a recovered conflict, its labels
    and its host configuration. *)
Definition reported_name (cc : ContainerCreateConfig) (suffix : option N) : string :=
  "/" +:+ from_option (fun r => randomizeName r (ccc_Name cc)) (ccc_Name cc) suffix.

Record reports (cc : ContainerCreateConfig) (suffix : option N) (j : ContainerJSON) : Prop := {
  rep_name : cj_Name j = reported_name cc suffix;
  rep_labels : dc_Labels (cj_Config j) = dc_Labels (ccc_Config cc);
  rep_host : cj_HostConfig j = ccc_HostConfig cc;
}.

(** ** Sandboxes *)

Lemma makeSandboxDockerConfig_spec {W} `{NetworkPlugin W} cfg c image cc :
  makeSandboxDockerConfig (W := W) cfg c image = Ok cc ->
  ccc_Name cc = makeSandboxName c
  /\ dc_Labels (ccc_Config cc) = sandbox_labels (psc_Labels c) (psc_Annotations c)
  /\ (hc_NetworkMode (ccc_HostConfig cc) = "host"
      <-> GetNetwork (sandbox_namespace_options c) = NS_NODE)
  /\ (hc_PidMode (ccc_HostConfig cc) = "host" <-> GetPid (sandbox_namespace_options c) = NS_NODE)
  /\ (hc_IpcMode (ccc_HostConfig cc) = "host" <-> GetIpc (sandbox_namespace_options c) = NS_NODE)
  /\ "no-new-privileges" ∈ hc_SecurityOpt (ccc_HostConfig cc)
  /\ hc_OomScoreAdj (ccc_HostConfig cc) = defaultSandboxOOMAdj.
Proof.
  unfold makeSandboxDockerConfig, applySandboxLinuxOptions, applySandboxResources, sandbox_namespace_options.
  destruct (MakePortsAndBindings (psc_PortMappings c)) as [ports bindings].
  destruct (psc_Linux c) as [lc|]; cbv beta iota zeta.
  2: { intros [= <-]; cbn. split_and!; try done. set_solver. }
  match goal with |- context [applySandboxSecurityContext (W := W) ?a ?b ?d ?e] =>
    destruct (applySandboxSecurityContext (W := W) a b d e) as [[config hc]|] eqn:E; [|done] end.
  apply applySandboxSecurityContext_keeps in E as (Hl & _ & _ & _ & Hn & Hp & Hi).
  destruct (GenerateExpectedCgroupParent cfg (lps_CgroupParent lc)); [|done].
  intros [= <-]; destruct config, hc; cbn in *; unfold RecordSetters.constant in *.
  split_and!; try done.
  - subst. case_decide; naive_solver.
  - subst. case_decide; naive_solver.
  - apply elem_of_app. right. by apply list_elem_of_singleton.
Qed.

(** C5: A sandbox is reported as it was asked for: from the docker container
    created for a sandbox configuration, also under the randomized name of a
    recovered conflict, the status has the metadata, the labels and the
    annotations of the configuration, and reports the host's network, PID or
    IPC namespace exactly when the configuration asked for it. *)
Theorem created_sandbox_roundtrip {W} `{NetworkPlugin W} (cfg : service_config)
  (c : PodSandboxConfig) (image : string) (cc : ContainerCreateConfig) (suffix : option N)
  (j : ContainerJSON) (createdAt : Z) (ips : list string) :
  makeSandboxDockerConfig (W := W) cfg c image = Ok cc -> reports cc suffix j ->
  sandbox_metadata_ok (psc_Metadata c) -> user_labels (psc_Labels c) ->
  psc_Labels c !! KubernetesContainerNameLabel = None ->
  parseSandboxName (cj_Name j) = Ok (psc_Metadata c)
  /\ let st := sandbox_status j (psc_Metadata c) createdAt ips in
     pss_Labels st = psc_Labels c /\ pss_Annotations st = psc_Annotations c
     /\ (pss_Network st = NS_NODE <-> GetNetwork (sandbox_namespace_options c) = NS_NODE)
     /\ (pss_Pid st = NS_NODE <-> GetPid (sandbox_namespace_options c) = NS_NODE)
     /\ (pss_Ipc st = NS_NODE <-> GetIpc (sandbox_namespace_options c) = NS_NODE).
Proof.
  intros (En & El & Hn & Hp & Hi & _)%makeSandboxDockerConfig_spec [Rn Rl Rh] Hm Hu Hk.
  split; [rewrite Rn; unfold reported_name; rewrite En; by apply sandbox_name_roundtrip; [|left]|].
  unfold sandbox_status. rewrite Rl, El.
  destruct (labels_roundtrip (psc_Labels c) (psc_Annotations c) "" "" Hu) as [_ Hs].
  rewrite (Hs Hk). cbn. unfold networkNamespaceMode, pidNamespaceMode, ipcNamespaceMode, namespaceModeHost.
  rewrite Rh, <- Hn, <- Hp, <- Hi. split_and!; try done; case_decide; naive_solver.
Qed.

(** ** Containers *)

Lemma applyContainerSecurityContext_keeps lc id config hc sep config' hc' :
  applyContainerSecurityContext (Some lc) id config hc sep = Ok (config', hc') ->
  dc_Labels config' = dc_Labels config /\ hc_NetworkMode hc' = "container:" +:+ id.
Proof.
  unfold applyContainerSecurityContext.
  destruct (modifyContainerConfig (lcc_SecurityContext lc) config) as [d|] eqn:Em; [|done].
  intros [= <- <-]. split.
  - destruct (lcc_SecurityContext lc) as [s|]; [|by simplify_eq/=].
    rewrite modifyContainerConfig_user in Em.
    destruct (sc_RunAsGroup s); [case_decide|]; by simplify_eq/=.
  - unfold modifyContainerNamespaceOptions, modifyHostOptionsForContainer. by case_match.
Qed.

Lemma updateCreateConfig_keeps cfg cc config sconfig id sep cc' :
  updateCreateConfig cfg cc config sconfig id sep = Ok cc' ->
  ccc_Name cc' = ccc_Name cc /\ dc_Labels (ccc_Config cc') = dc_Labels (ccc_Config cc)
  /\ (is_Some (cc_Linux config) -> hc_NetworkMode (ccc_HostConfig cc') = "container:" +:+ id).
Proof.
  unfold updateCreateConfig. destruct (cc_Linux config) as [lc|].
  - match goal with |- context [applyContainerSecurityContext ?a ?b ?c ?d ?e] =>
      destruct (applyContainerSecurityContext a b c d e) as [[d' h]|] eqn:Ea; [|done] end.
    apply applyContainerSecurityContext_keeps in Ea as [Hl Hn].
    destruct (psc_Linux sconfig) as [l|]; [|by intros [= <-]].
    destruct (GenerateExpectedCgroupParent cfg (lps_CgroupParent l)); [|done].
    intros [= <-]. cbn. by destruct h.
  - destruct (psc_Linux sconfig) as [l|]; [|intros [= <-]; by split_and!; [..|intros []]].
    destruct (GenerateExpectedCgroupParent cfg (lps_CgroupParent l)); [|done].
    intros [= <-]. cbn. by split_and!; [..|intros []].
Qed.

Section Created.
Context {W St : Type} `{DockerClient W} `{Clock W} `{HostOS W} `{SELinux W}.
Context `{ServiceJSON} `{Semver} `{SeccompCodec}.

Lemma build_create_config_spec cfg id config sconfig (ds ds' : dockerService W St) cc :
  build_create_config cfg id config sconfig ds = (Ok cc, ds') ->
  ccc_Name cc = makeContainerName sconfig config
  /\ dc_Labels (ccc_Config cc)
     = container_labels (cc_Labels config) (cc_Annotations config)
         (Join [psc_LogDirectory sconfig; cc_LogPath config]) id
  /\ (is_Some (cc_Linux config) -> hc_NetworkMode (ccc_HostConfig cc) = "container:" +:+ id).
Proof.
  unfold build_create_config, build_create_config_for. intros E.
  apply bind_step in E as ([v|] & ds1 & _ & E); [|done].
  apply bind_step in E as ([i|] & ds2 & _ & E); [|done].
  apply bind_step in E as ([hs|] & ds3 & _ & E); [|done].
  destruct (GenerateMountBindings _ _ _) as [mb|]; [|done].
  apply bind_step in E as ([[]|] & ds4 & _ & E); [|done].
  destruct (updateCreateConfig _ _ _ _ _ _) as [cc'|] eqn:Eu; [|done].
  apply bind_step in E as ([opts|] & ds5 & _ & E); [|done].
  apply updateCreateConfig_keeps in Eu as (Hn & Hl & Hm). unfold ret in E. injection E as <- _.
  destruct cc' as [? ? []]; cbn in *; unfold RecordSetters.constant in *. done.
Qed.

End Created.

(** C6: A container is listed as it was asked for: from the docker container
    made from the configuration [CreateContainer] builds, the list has the
    container's metadata, labels and annotations, the sandbox it was created
    in, and its log path can be read back; a container with Linux options
    shares the sandbox's network namespace. *)
Theorem created_container_roundtrip {W St : Type} `{DockerClient W} `{Clock W} `{HostOS W}
  `{SELinux W} `{ServiceJSON} `{Semver} `{SeccompCodec}
  (cfg : service_config) (id : string) (config : ContainerConfig) (sconfig : PodSandboxConfig)
  (ds ds' : dockerService W St) (cc : ContainerCreateConfig) (suffix : option N)
  (show : DockerContainer -> string) (c : DockerContainer) :
  build_create_config cfg id config sconfig ds = (Ok cc, ds') ->
  dct_Names c = [reported_name cc suffix] -> dct_Labels c = dc_Labels (ccc_Config cc) ->
  sandbox_metadata_ok (psc_Metadata sconfig) -> container_metadata_ok (cc_Metadata config) ->
  user_labels (cc_Labels config) ->
  (exists co, toRuntimeAPIContainer show c = Ok co
     /\ c_Metadata co = cc_Metadata config /\ c_PodSandboxId co = id
     /\ c_Labels co = cc_Labels config /\ c_Annotations co = cc_Annotations config)
  /\ dct_Labels c !! containerLogPathLabelKey
     = Some (Join [psc_LogDirectory sconfig; cc_LogPath config])
  /\ (is_Some (cc_Linux config) -> hc_NetworkMode (ccc_HostConfig cc) = "container:" +:+ id).
Proof.
  intros (En & El & Hm)%build_create_config_spec Hn Hl Hs Hc Hu. rewrite El in Hl.
  unfold toRuntimeAPIContainer. rewrite Hn, Hl.
  destruct (labels_roundtrip (cc_Labels config) (cc_Annotations config)
              (Join [psc_LogDirectory sconfig; cc_LogPath config]) id Hu) as [-> _].
  unfold reported_name. rewrite En, container_name_roundtrip; [|done..|by left].
  split_and!; [|by unfold container_labels; simplify_map_eq|done].
  eexists. split_and!; [done|done| |done|done].
  unfold label_or_empty, container_labels. by simplify_map_eq.
Qed.

(** The state of a container: running exactly when docker says so; exited
    when it has a finish time, or never ran but has an exit code, in which
    case both its times are its creation time; created otherwise.  The reason
    is set exactly when it exited, and names an out-of-memory kill first. *)
Theorem container_state_interpreted (st : DockerContainerState) (created started finished : Z) :
  let '(state, reason, message, started', finished') := interpret_state st created started finished in
  (state = CONTAINER_RUNNING <-> st_Running st = true)
  /\ (state = CONTAINER_EXITED
      <-> st_Running st = false /\ (finished <> zero_time \/ st_ExitCode st <> 0%Z))
  /\ state <> CONTAINER_UNKNOWN
  /\ (reason <> "" <-> state = CONTAINER_EXITED)
  /\ (reason = "OOMKilled" <-> st_Running st = false /\ finished <> zero_time /\ st_OOMKilled st = true)
  /\ (reason = "Completed" <-> st_Running st = false /\ finished <> zero_time
                               /\ st_OOMKilled st = false /\ st_ExitCode st = 0%Z)
  /\ (reason = "ContainerCannotRun" ->
      finished = zero_time /\ started' = created /\ finished' = created)
  /\ (message <> "" -> st_Running st = false /\ message = st_Error st).
Proof.
  unfold interpret_state, IsZero.
  destruct (st_Running st); [naive_solver|].
  destruct (Z.eqb_spec finished zero_time); simpl.
  - destruct (Z.eqb_spec (st_ExitCode st) 0); simpl; naive_solver.
  - destruct (st_OOMKilled st); [naive_solver|].
    destruct (Z.eqb_spec (st_ExitCode st) 0); naive_solver.
Qed.

(** ** Removing containers that are gone *)

Lemma not_found_wrapped (u : string) (e : error) :
  IsContainerNotFoundError e = true -> IsContainerNotFoundError (Errorf (u +:+ Error e)) = true.
Proof.
  intros He. pose proof (IsContainerNotFoundError_Errorf u "" e He) as Hw.
  by rewrite sapp_nil_r in Hw.
Qed.

Lemma log_path_not_found id u (e : error) :
  IsContainerNotFoundError e = true ->
  IsContainerNotFoundError (log_path_error id (Errorf (u +:+ Error e))) = true.
Proof.
  intros He. unfold log_path_error. rewrite <- !sapp_assoc. apply not_found_wrapped.
  by apply not_found_wrapped.
Qed.

(** A container that is already gone does not make the removal of its
    sandbox fail: when docker answers that it does not exist, to the inspect
    (after which docker is not asked to remove anything) or to the removal,
    [RemoveContainer] fails with an error that is still classified as not
    found, so the loop of [RemovePodSandbox] goes on to the next container and
    reports nothing for this one. *)
Theorem missing_container_ignored {W St : Type} `{DockerClient W} `{HostOS W}
  (id : string) (ids : list string) (ds : dockerService W St) :
  (exists e w, InspectContainer id (ds_world ds) = (Err e, w) /\ IsContainerNotFoundError e = true)
  \/ (exists ds2 e w, removeContainerLogSymlink id ds = (Ok tt, ds2)
        /\ ds_containerCleanupInfos ds2 !! id = None
        /\ RemoveContainer id (mkRemoveOptions true true) (ds_world ds2) = (Err e, w)
        /\ IsContainerNotFoundError e = true) ->
  exists e' ds', ds_RemoveContainer id ds = (Err e', ds') /\ IsContainerNotFoundError e' = true
    /\ remove_containers (id :: ids) ds = remove_containers ids ds'.
Proof.
  intros Hgone.
  assert (exists e' ds', ds_RemoveContainer id ds = (Err e', ds') /\ IsContainerNotFoundError e' = true)
    as (e' & ds' & Hr & He').
  { destruct Hgone as [(e & w & Hi & He)|(ds2 & e & w & Hs & Hc & Hrm & He)].
    - unfold ds_RemoveContainer, removeContainerLogSymlink, getContainerLogPath, try, bind, ret, onW.
      rewrite Hi. simpl. eexists _, _. split; [done|]. rewrite <- !sapp_assoc. by apply log_path_not_found.
    - unfold ds_RemoveContainer, try, bind. rewrite Hs.
      unfold performPlatformSpecificContainerForContainer, getContainerCleanupInfo, bind, ret, onW.
      rewrite Hc, Hrm. eexists _, _. split; [done|]. rewrite <- !sapp_assoc. by apply not_found_wrapped. }
  exists e', ds'. split_and!; [done..|]. simpl. unfold bind at 1. rewrite Hr, He'.
  unfold bind, ret. by destruct (remove_containers ids ds').
Qed.

(** ** Witnesses *)

Definition sandbox_config_example : ContainerCreateConfig :=
  match makeSandboxDockerConfig (W := sim) sim_config example_sandbox "pause" with
  | Ok cc => cc
  | Err _ => mkContainerCreateConfig "" zero_DockerConfig zero_HostConfig
  end.

Lemma created_sandbox_roundtrip_witness :
  parseSandboxName "/k8s_POD_web-0_default_6fe1_3_0000002a" = Ok (psc_Metadata example_sandbox).
Proof.
  assert (makeSandboxDockerConfig (W := sim) sim_config example_sandbox "pause"
          = Ok sandbox_config_example) as E by (vm_compute; reflexivity).
  set (j := mkContainerJSON "c1" "" (mkDockerContainerState true false 1 0 "" "" "") "" "" ""
              (reported_name sandbox_config_example (Some 42%N))
              (ccc_HostConfig sandbox_config_example) [] (ccc_Config sandbox_config_example) None).
  assert (reports sandbox_config_example (Some 42%N) j) as R by by split.
  destruct (created_sandbox_roundtrip sim_config example_sandbox "pause" sandbox_config_example
    (Some 42%N) j 0 [] E R ltac:(by repeat split) ltac:(apply map_Forall_empty)
    ltac:(reflexivity)) as [H _].
  exact H.
Defined.

#[local] Program Instance plain_codec : SeccompCodec := {|
  seccomp_rest := unit;
  seccomp_Unmarshal := fun _ => Ok (mkLinuxSeccomp [] tt);
  seccomp_Marshal := fun _ => Ok "{}";
  json_Compact := fun s => Ok s;
  SecurityProfile_String := sp_LocalhostRef;
|}.

Definition sim_sandbox : dockerService sim (gmap string string) :=
  mkDockerService (snd (CreateContainer sandbox_config_example sim_empty)) ∅ ∅ ∅ ∅.
Definition container_built :=
  build_create_config sim_config (makeSandboxName example_sandbox) example_container
    example_sandbox sim_sandbox.
Definition container_config_example : ContainerCreateConfig :=
  match fst container_built with
  | Ok cc => cc
  | Err _ => mkContainerCreateConfig "" zero_DockerConfig zero_HostConfig
  end.

Lemma created_container_roundtrip_witness :
  dc_Labels (ccc_Config container_config_example) !! containerLogPathLabelKey
  = Some "/var/log/pods/nginx/7.log".
Proof.
  assert (container_built = (Ok container_config_example, snd container_built)) as E
    by (rewrite (surjective_pairing container_built) at 1; f_equal; vm_compute; reflexivity).
  set (c := mkDockerContainer "c2" [reported_name container_config_example None] "" "" 0
              (dc_Labels (ccc_Config container_config_example)) "Up").
  destruct (created_container_roundtrip sim_config (makeSandboxName example_sandbox)
    example_container example_sandbox sim_sandbox (snd container_built) container_config_example None
    (fun _ => "") c E eq_refl eq_refl ltac:(by repeat split) ltac:(by split)
    ltac:(apply map_Forall_empty)) as (_ & H & _).
  exact H.
Defined.

Lemma missing_container_ignored_witness :
  exists e' ds', ds_RemoveContainer "c0" sim_sandbox = (Err e', ds')
    /\ IsContainerNotFoundError e' = true
    /\ remove_containers ["c0"; "c1"] sim_sandbox = remove_containers ["c1"] ds'.
Proof.
  apply missing_container_ignored. left. eexists _, _. split; [reflexivity|]. vm_compute. reflexivity.
Defined.

Lemma container_security_context_applied_witness :
  let lc := mkLinuxContainerConfig None (Some (mkLinuxContainerSecurityContext None false
              (Some (mkNamespaceOption NS_NODE NS_CONTAINER NS_POD "")) None (Some 1000%Z) None ""
              false [] "" None false ["/proc/kcore"] [])) in
  exists config' hc', applyContainerSecurityContext (Some lc) "s1" zero_DockerConfig zero_HostConfig "="
                      = Ok (config', hc')
    /\ hc_NetworkMode hc' = "container:s1" /\ dc_User config' = "1000".
Proof.
  intros lc. eexists _, _. split; [reflexivity|].
  destruct (container_security_context_applied lc "s1" zero_DockerConfig zero_HostConfig "=")
    as (H1 & _ & _ & _ & H2).
  split; [exact H1|]. exact (proj1 (proj2 (H2 _ eq_refl))).
Defined.
