(* ===== verification/PortForward.v ===== *)
(** * PortForward: port mappings, network namespaces and streaming endpoints

    core/sandbox_port_forward.go, core/container_exec.go ([Exec]) and
    core/container_attach.go: what the network plugins ask the service about a
    sandbox, and the endpoints that answer with a URL of the streaming server. *)
From S2P Require Import Prelude GoErrors GoPath Cri Naming Labels Cache Store MemFs Checkpoint RequestCache GoHash GoNet Libdocker PluginManager Hostport HostportSpec Service Sim SecurityContext SandboxHelpers Containers Sandboxes SandboxSpec.

(** ** Hairpin mode *)

Definition PromiscuousBridge : string := "promiscuous-bridge".
Definition HairpinVeth : string := "hairpin-veth".
Definition HairpinNone : string := "none".

Record NetworkPluginSettings := mkNetworkPluginSettings {
  nps_HairpinMode : string;
  nps_NonMasqueradeCIDR : string;
  nps_PluginName : string;
  nps_PluginBinDirString : string;
  nps_PluginBinDirs : list string;
  nps_PluginConfDir : string;
  nps_PluginCacheDir : string;
  nps_MTU : Z;
}.

Definition set_HairpinMode (mode : string) (s : NetworkPluginSettings) : NetworkPluginSettings :=
  mkNetworkPluginSettings mode (nps_NonMasqueradeCIDR s) (nps_PluginName s) (nps_PluginBinDirString s)
    (nps_PluginBinDirs s) (nps_PluginConfDir s) (nps_PluginCacheDir s) (nps_MTU s).

Definition effectiveHairpinMode : M NetworkPluginSettings (res unit) :=
  let* s := get in
  if decide (nps_HairpinMode s = PromiscuousBridge \/ nps_HairpinMode s = HairpinVeth) then
    if decide (nps_HairpinMode s = PromiscuousBridge /\ nps_PluginName s <> "kubenet") then
      do* put (set_HairpinMode HairpinVeth s) in ret (Ok tt)
    else ret (Ok tt)
  else if decide (nps_HairpinMode s <> HairpinNone) then
    ret (Err (Errorf ("unknown value: " +:+ quote (nps_HairpinMode s))))
  else ret (Ok tt).

(** ** Containers that run *)

(** [CheckContainerStatus] (libdocker/helpers.go). *)
Definition CheckContainerStatus {W} `{DockerClient W} (containerID : string)
  : M W (res ContainerJSON) :=
  let? container := InspectContainer containerID in
  if st_Running (cj_State container) then ret (Ok container)
  else ret (Err (Errorf ("container not running (" +:+ cj_ID container +:+ ")"))).

(** ** Port mappings of a sandbox *)

(** A checkpointed port mapping as the host port manager takes it. *)
Definition checkpointed_mapping (pm : PortMappingCp) : HostPortMapping :=
  mkHostPortMapping (pmc_HostPort pm) (pmc_ContainerPort pm) (pmc_Protocol pm) (pmc_HostIP pm).

Section PortMappings.
Context {W St : Type} `{DockerClient W} `{Store St} `{Spew} `{CheckpointJSON}.
Abbreviation DS := (dockerService W St).

Definition ds_GetNetNS (podSandboxID : string) : M DS (res string) :=
  let? r := onW (InspectContainer podSandboxID) in
  ret (getNetworkNamespace r).

(** No checkpoint: no mappings (nil).  Any other error: the checkpoint is
    deleted, whatever the error, and the error returned. *)
Definition ds_GetPodPortMappings (podSandboxID : string) : M DS (res (list HostPortMapping)) :=
  let* c := onStore (GetCheckpoint podSandboxID) in
  match c with
  | Err err =>
      if is_sentinel ErrCheckpointNotFound err then ret (Ok [])
      else
        let* _ := onStore (RemoveCheckpoint podSandboxID) in
        ret (Err err)
  | Ok checkpoint => ret (Ok (checkpointed_mapping <$> cd_PortMappings (cp_Data checkpoint)))
  end.

End PortMappings.

(** ** Streaming endpoints *)

Section Streaming.
Context {W St : Type} `{DockerClient W} `{Clock W} `{Rand W}.
Abbreviation DS := (dockerService W St).
(** Whether [ds.streamingServer] is set, and the server's URLs. *)
Variable streamingServer : bool.
Variable buildURL : string -> string -> string.

(** The service beside the server's request cache. *)
Abbreviation SDS := (requestCache * DS)%type.

Definition with_world (ds : DS) (w : W) : DS :=
  mkDockerService w (ds_checkpoints ds) (ds_networkReady ds) (ds_systemInfoCache ds)
    (ds_containerCleanupInfos ds).
Definition onService {A} (m : M DS A) : M SDS A := fun '(c, ds) =>
  let '(a, ds') := m ds in (a, (c, ds')).
Definition onServer {A} (m : M (requestCache * W) A) : M SDS A := fun '(c, ds) =>
  let '(a, (c', w)) := m (c, ds_world ds) in (a, (c', with_world ds w)).

(** The common shape of the three endpoints. *)
Definition endpoint (method containerID : string) (serve : M (requestCache * W) (res string))
  : M SDS (res string) :=
  if negb streamingServer then ret (Err (NewErrorStreamingDisabled method))
  else
    let? _ := onService (onW (CheckContainerStatus containerID)) in
    onServer serve.

Definition ds_Exec (req : ExecRequest) : M SDS (res string) :=
  endpoint "exec" (er_ContainerId req) (GetExec buildURL req).
Definition ds_Attach (req : AttachRequest) : M SDS (res string) :=
  endpoint "attach" (ar_ContainerId req) (GetAttach buildURL req).
Definition ds_PortForward (req : PortForwardRequest) : M SDS (res string) :=
  endpoint "port forward" (pf_PodSandboxId req) (GetPortForward buildURL req).

End Streaming.

(** ** Properties *)

Section Spec.
Context {W St : Type} `{DockerClient W} `{StoreContract St} `{Spew} `{CheckpointJSON}.
Abbreviation DS := (dockerService W St).

(** A port mapping of a sandbox configuration, as the host port manager gets
    it. *)
Definition config_mapping (pm : PortMapping) : HostPortMapping :=
  mkHostPortMapping (pm_HostPort pm) (pm_ContainerPort pm) (toCheckpointProtocol (pm_Protocol pm))
    (pm_HostIp pm).

Lemma config_mappings c :
  checkpointed_mapping <$> cd_PortMappings (cp_Data (with_checksum (constructPodSandboxCheckpoint c)))
  = config_mapping <$> psc_PortMappings c.
Proof. cbn. by rewrite <- list_fmap_compose. Qed.

(** The network plugin gets the port mappings a sandbox was configured
    with: while the checkpoint of the sandbox is the one written when it was
    created, [GetPodPortMappings] returns exactly the mappings of the
    configuration, in order, with the protocol's checkpointed name, and leaves
    the store alone.  It fails only when the store cannot read the
    checkpoint; it then deletes it, even though it may be intact, so the
    mappings can be lost.  Other checkpoints are never touched. *)
Theorem pod_port_mappings_read_back id c blob (ds ds' : DS) r :
  (forall s e s', Store_Read id s = (Err e, s') -> e <> Sentinel ErrCheckpointNotFound) ->
  contents (ds_checkpoints ds) id = Some blob ->
  decode_checkpoint blob = Some (with_checksum (constructPodSandboxCheckpoint c)) ->
  ds_GetPodPortMappings id ds = (r, ds') ->
  (forall k, k <> id -> contents (ds_checkpoints ds') k = contents (ds_checkpoints ds) k)
  /\ (r = Ok (config_mapping <$> psc_PortMappings c)
      /\ contents (ds_checkpoints ds') id = Some blob
      \/ exists e st, Store_Read id (ds_checkpoints ds) = (Err e, st) /\ r = Err e
         /\ contents (ds_checkpoints ds') id
            = if is_ok (fst (Store_Delete id st)) then None else Some blob).
Proof.
  intros Hre Hc Hd E. unfold ds_GetPodPortMappings in E.
  apply bind_step in E as (g & ds1 & Eg & E). apply onStore_step in Eg as (Eg & Es1 & _).
  destruct (Store_Read id (ds_checkpoints ds)) as [x st] eqn:Er.
  pose proof (read_contents _ _ _ _ Er) as [Hk Hx]. destruct x as [blob'|e].
  - assert (blob' = blob) as -> by congruence.
    rewrite (GetCheckpoint_read _ _ _ _ _ Er Hd) in Eg, Es1. subst g. cbn in Es1. inv_ret E.
    split; [done|]. left. split; [by rewrite <- config_mappings|by rewrite Hk].
  - assert (e <> Sentinel ErrKeyNotFound) as Hne by (intros ->; rewrite Hx in Hc; done).
    assert (GetCheckpoint id (ds_checkpoints ds) = (Err e, st)) as Eg'.
    { unfold GetCheckpoint, bind, ret. rewrite Er.
      by destruct (is_sentinel ErrKeyNotFound e) eqn:Es; [apply is_sentinel_eq in Es|]. }
    rewrite Eg' in Eg, Es1. subst g. cbn [snd fst] in E, Es1.
    destruct (is_sentinel ErrCheckpointNotFound e) eqn:Es.
    { apply is_sentinel_eq in Es. by apply Hre in Er. }
    apply bind_step in E as (d & ds2 & Ed & E). apply onStore_step in Ed as (Ed & Es2 & _).
    unfold RemoveCheckpoint in Ed, Es2. rewrite Es1 in Ed, Es2.
    destruct (Store_Delete id st) as [d' s2] eqn:Hd'. cbn in Ed, Es2. subst d. injection E as <- <-.
    pose proof (delete_contents _ _ _ _ Hd') as Hdel. rewrite Es2. split.
    + intros k Hki. by rewrite Hdel, decide_False by naive_solver.
    + right. exists e, st. split; [done|]. split; [done|]. rewrite Hd', Hdel, Hk, Hc. cbn [fst].
      destruct (is_ok d'); [by rewrite decide_True|by rewrite decide_False by naive_solver].
Qed.

End Spec.

(** ** Protocols *)

Section Protocols.
Context {W : Type} `{IPTables W} `{Sockets W} (Close : nat -> M W (res unit)).
Context (IsIPv6String : string -> bool) (port_order : gmap hostport nat -> list (hostport * nat)).

Lemma openLocalPort_sctp hp (w : W) :
  hp_protocol hp = "sctp" -> exists e, openLocalPort hp w = (Err e, w).
Proof. intros E. unfold openLocalPort. rewrite E. by eexists. Qed.

Lemma open_loop_sctp pod pms ports (w : W) pm :
  pm ∈ pms -> (0 < hpm_HostPort pm)%Z -> hpm_Protocol pm = protocolSCTP -> hpm_HostIP pm = "" ->
  exists e r, @open_loop W _ (local_PortOpener Close) IsIPv6String pod pms ports w = ((Some e, r.1), r.2).
Proof.
  intros Hin Hp Hpr Hip. revert ports w. induction pms as [|x pms IH]; intros ports w.
  { by apply not_elem_of_nil in Hin. }
  apply elem_of_cons in Hin as [<-|Hin]; cbn [open_loop].
  - rewrite decide_False by lia. rewrite decide_False by (by rewrite Hpr).
    rewrite decide_False by (by intros []). unfold bind. cbn [portOpener local_PortOpener].
    destruct (openLocalPort_sctp (to_hostport W pm) w) as [e ->]; [cbn; by rewrite Hpr|].
    by eexists _, (_, _).
  - do 3 (case_decide; [by apply IH|]). unfold bind.
    destruct (portOpener _ w) as [[s|e] w1]; [by apply IH|]. by eexists _, (_, _).
Qed.

(** The checkpoint keeps the protocol of a port in lower case, and the host
    port manager compares it with the upper-case constants, so for the port
    mappings of a sandbox neither of its special cases ever applies.  No UDP
    port is ever queued for clearing conntrack entries; and an SCTP host port,
    which the manager means not to open, is given to [openLocalPort], which
    does not know the protocol, so the pod's network cannot be set up, whatever
    the state of the host. *)
Theorem checkpointed_protocols_unknown (c : PodSandboxConfig) (pod : PodPortMapping) :
  ppm_PortMappings pod = config_mapping <$> psc_PortMappings c ->
  (forall b, conntrack_ports (gatherHostportMappings IsIPv6String pod b) = [])
  /\ forall pm, pm ∈ psc_PortMappings c -> pm_Protocol pm = Protocol_SCTP ->
     (0 < pm_HostPort pm)%Z -> pm_HostIp pm = "" ->
     forall w : W, is_ok (fst (@openHostports W _ (local_PortOpener Close) IsIPv6String port_order pod w))
                   = false.
Proof.
  intros Hpod. split.
  - intros b. unfold conntrack_ports.
    destruct (base.filter _ _) as [|m l] eqn:E; [done|exfalso].
    assert (m ∈ base.filter (fun pm => hpm_Protocol pm = ProtocolUDP)
                  (gatherHostportMappings IsIPv6String pod b)) as Hm by (rewrite E; left).
    apply list_elem_of_filter in Hm as [Hu Hm]. apply list_elem_of_filter in Hm as [_ Hm].
    rewrite Hpod in Hm. apply list_elem_of_fmap in Hm as (pm & -> & _).
    cbn in Hu. unfold toCheckpointProtocol in Hu. by destruct (pm_Protocol pm).
  - intros pm Hin Hpr Hp Hip w. unfold openHostports, bind.
    destruct (open_loop_sctp pod (ppm_PortMappings pod) ∅ w (config_mapping pm)) as (e & r & ->).
    + rewrite Hpod. by apply list_elem_of_fmap_2.
    + exact Hp.
    + cbn. by rewrite Hpr.
    + exact Hip.
    + by destruct (for_each _ _ _) as [[] w'].
Qed.

End Protocols.

(** ** Witnesses *)

#[local] Existing Instance bits_spew.
#[local] Existing Instance bits_json.

(** A sandbox with a TCP and an SCTP host port. *)
Definition sctp_sandbox : PodSandboxConfig :=
  mkPodSandboxConfig (mkPodSandboxMetadata "gw-0" "77aa" "default" 0) "" "" None
    [mkPortMapping Protocol_TCP 80 8080 ""; mkPortMapping Protocol_SCTP 3868 3868 ""] ∅ ∅ None.

Definition sctp_blob : string := bits (encode (with_checksum (constructPodSandboxCheckpoint sctp_sandbox))).
Definition sctp_ds : dockerService sim (gmap string string) :=
  mkDockerService sim_empty {[ "c0ffee" := sctp_blob ]} ∅ ∅ ∅.

Lemma sim_read_errors id (s : gmap string string) e s' :
  Store_Read id s = (Err e, s') -> e <> Sentinel ErrCheckpointNotFound.
Proof. cbn. destruct (s !! id); by intros [= <- _]. Qed.

Lemma pod_port_mappings_read_back_witness :
  fst (ds_GetPodPortMappings "c0ffee" sctp_ds)
  = Ok [mkHostPortMapping 8080 80 "tcp" ""; mkHostPortMapping 3868 3868 "sctp" ""].
Proof.
  assert (decode_checkpoint sctp_blob = Some (with_checksum (constructPodSandboxCheckpoint sctp_sandbox)))
    as Hd by (vm_compute; reflexivity).
  destruct (pod_port_mappings_read_back (St := gmap string string) "c0ffee" sctp_sandbox sctp_blob
    sctp_ds _ _ (sim_read_errors "c0ffee") (lookup_singleton_eq _ _) Hd (surjective_pairing _)) as [_ [[H _]|(e & st & H & _)]].
  - exact H.
  - vm_compute in H. discriminate H.
Defined.

#[local] Instance hsim_sockets : Sockets hsim := {|
  net_Listen := fun _ _ => ret (Ok 0%nat);
  net_ResolveUDPAddr := fun _ a => ret (Ok a);
  net_ListenUDP := fun _ _ => ret (Ok 0%nat);
|}.

Definition sctp_pod : PodPortMapping :=
  mkPodPortMapping "default" "gw-0" (config_mapping <$> psc_PortMappings sctp_sandbox) false
    [10; 0; 0; 9]%N.

(** Every socket call would succeed here, and still the ports are refused. *)
Lemma checkpointed_protocols_unknown_witness :
  is_ok (fst (@openHostports hsim _ (local_PortOpener (fun _ => ret (Ok tt))) hsim_is_v6 map_to_list
                sctp_pod (hm_world hsim_start))) = false.
Proof.
  destruct (checkpointed_protocols_unknown (W := hsim) (fun _ => ret (Ok tt)) hsim_is_v6 map_to_list
    sctp_sandbox sctp_pod eq_refl) as [_ H].
  apply (H (mkPortMapping Protocol_SCTP 3868 3868 "")).
  - right. left.
  - reflexivity.
  - reflexivity.
  - reflexivity.
Defined.

(** What it says. *)
Example sctp_refused :
  fst (@openHostports hsim _ (local_PortOpener (fun _ => ret (Ok tt))) hsim_is_v6 map_to_list
         sctp_pod (hm_world hsim_start))
  = Err (Errorf ("cannot open hostport 3868 for pod gw-0_default: unknown protocol "
                 +:+ quote "sctp")).
Proof. vm_compute. reflexivity. Qed.
