(* ===== verification/Images.v ===== *)
(** * Images: the image service

    core/image.go and the image conversions of core/convert.go: listing,
    inspecting, pulling and removing images, and the user an image runs as.
    The encoding of an image's verbose information as JSON is a parameter. *)
From S2P Require Import Prelude GoErrors GoPath GoTime Cri Naming Labels Cache Store Checkpoint Libdocker PluginManager Service.

(** ** Users of images *)

Definition parseUserFromImageUser (id : string) : string :=
  if decide (id = "") then id
  else if contains id ":" then default "" (head (split id ":"))
  else id.

(** The uid, and the user name. *)
Definition getUserFromImageUser (imageUser : string) : option Z * string :=
  let user := parseUserFromImageUser imageUser in
  if decide (user = "") then (None, "")
  else match parse_int64 user with
       | Err _ => (None, user)
       | Ok uid => (Some uid, "")
       end.

(** ** Data *)

(** [runtimeapi.Image]. *)
Record RuntimeImage := mkRuntimeImage {
  ri_Id : string;
  ri_RepoTags : list string;
  ri_RepoDigests : list string;
  ri_Size : Z;
  ri_Uid : option Z;
  ri_Username : string;
  ri_Pinned : bool;
}.

(** [imagespec.History]; the time in seconds since the epoch. *)
Record History := mkHistory {
  h_Created : Z;
  h_CreatedBy : string;
  h_Comment : string;
  h_EmptyLayer : bool;
}.

Record ImageStatusResponse := mkImageStatusResponse {
  isr_Image : option RuntimeImage;
  isr_Info : gmap string string;
}.

(** [runtimeapi.AuthConfig]. *)
Record RuntimeAuth := mkRuntimeAuth {
  ra_Username : string;
  ra_Password : string;
  ra_ServerAddress : string;
  ra_IdentityToken : string;
  ra_RegistryToken : string;
}.

(** The image specification: [imagespec.ImageConfig], [imagespec.Image] with
    its platform, and what the verbose information holds. *)
Record ImageConfig := mkImageConfig {
  ic_User : string;
  ic_ExposedPorts : gset string;
  ic_Env : list string;
  ic_Entrypoint : list string;
  ic_Cmd : list string;
  ic_Volumes : gset string;
  ic_WorkingDir : string;
  ic_Labels : gmap string string;
  ic_StopSignal : string;
}.
Record ImageSpec := mkImageSpec {
  sp_Created : Z;
  sp_Author : string;
  sp_Architecture : string;
  sp_OS : string;
  sp_Config : ImageConfig;
  sp_RootFS : RootFS;
  sp_History : list History;
}.
Record verboseImageInfo := mkVerboseImageInfo {
  vi_Labels : gmap string string;
  vi_ImageSpec : ImageSpec;
}.

(** [json.Marshal] of it. *)
Class ImageJSON := marshal_image_info : verboseImageInfo -> res string.

(** ** Conversions (convert.go) *)

Definition isPinned (image : string) (tags : list string) : bool :=
  existsb (fun tag => String.eqb tag image) tags.

Definition imageToRuntimeAPIImage (image : ImageSummary) (pinned : bool) : RuntimeImage :=
  mkRuntimeImage (is_ID image) (is_RepoTags image) (is_RepoDigests image) (uint64 (is_Size image))
    None "" pinned.

Definition imageInspectToRuntimeAPIImage (image : ImageInspect) (pinned : bool) : res RuntimeImage :=
  match ii_Config image with
  | None => Err (Errorf "unable to convert a nil pointer to a runtime API image")
  | Some config =>
      let '(uid, username) := getUserFromImageUser (dc_User config) in
      Ok (mkRuntimeImage (ii_ID image) (ii_RepoTags image) (ii_RepoDigests image)
            (uint64 (ii_Size image)) uid username pinned)
  end.

Definition history_entry (h : HistoryResponseItem) : History :=
  mkHistory (hi_Created h) (hi_CreatedBy h) (hi_Comment h) (hi_Size h =? 0)%Z.

(** The loop that reverses the history in place, swapping from both ends;
    each turn brings the indices closer, so the length is enough fuel. *)
Fixpoint swap_loop {A} (fuel left right : nat) (l : list A) : list A :=
  match fuel with
  | O => l
  | S fuel' =>
      if Nat.ltb left right then
        match l !! left, l !! right with
        | Some a, Some b => swap_loop fuel' (S left) (right - 1) (<[right := a]> (<[left := b]> l))
        | _, _ => l
        end
      else l
  end.

Definition toRuntimeAPIHistory (history : list HistoryResponseItem) : list History :=
  let result := history_entry <$> history in
  swap_loop (length result) 0 (length result - 1) result.

Definition toRuntimeAPIConfig (config : DockerConfig) : ImageConfig :=
  mkImageConfig (dc_User config) (dc_ExposedPorts config) (dc_Env config) (dc_Entrypoint config)
    (dc_Cmd config) (dc_Volumes config) (dc_WorkingDir config) (dc_Labels config)
    (dc_StopSignal config).

(** [digest.Parse] returns the text it was given, valid or not, and its error
    is dropped. *)
Definition digest_Parse (s : string) : string := s.
Definition toRuntimeAPIRootFS (rootfs : RootFS) : RootFS :=
  mkRootFS (rf_Type rootfs) (digest_Parse <$> rf_Layers rootfs).

(** An image without a configuration was refused before: the dereference is
    never reached. *)
Definition imageInspectToRuntimeAPIImageInfo `{ImageJSON} (image : ImageInspect)
  (history : list HistoryResponseItem) : res (gmap string string) :=
  match ParseDockerTimestamp (ii_Created image) with
  | Err err => Err err
  | Ok createdAt =>
      match ii_Config image with
      | None => Err nil_dereference_panic
      | Some config =>
          let imageSpec := mkImageSpec createdAt (ii_Author image) (ii_Architecture image) (ii_Os image)
            (toRuntimeAPIConfig config) (toRuntimeAPIRootFS (ii_RootFS image))
            (toRuntimeAPIHistory history) in
          match marshal_image_info (mkVerboseImageInfo (dc_Labels config) imageSpec) with
          | Err err => Err err
          | Ok m => Ok {[ "info" := m ]}
          end
      end
  end.

(** ** Pulling *)

Definition StatusBadGateway : Z := 502.
Definition StatusServiceUnavailable : Z := 503.
Definition StatusGatewayTimeout : Z := 504.

Definition filterHTTPError (err : error) : error :=
  match err with
  | JSONError code _ =>
      if decide (code = StatusBadGateway \/ code = StatusServiceUnavailable
                 \/ code = StatusGatewayTimeout)
      then Errorf ("RegistryUnavailable: " +:+ Error err)
      else err
  | _ => err
  end.

Definition pull_auth (auth : option RuntimeAuth) : AuthConfig :=
  match auth with
  | None => zero_AuthConfig
  | Some a => mkAuthConfig (ra_Username a) (ra_Password a) "" (ra_ServerAddress a)
                (ra_IdentityToken a) (ra_RegistryToken a)
  end.

Section Images.
Context {W : Type} `{DockerClient W} `{ImageJSON}.
Variable cfg : service_config.

(** ** The handlers *)

(** The image names a filter selects, if it names an image. *)
Definition ds_ListImages (filter : option string) : M W (res (list RuntimeImage)) :=
  let filters : gmap string (gset string) :=
    match filter with
    | Some image => if decide (image = "") then ∅ else {[ "reference" := {[ image ]} ]}
    | None => ∅
    end in
  let? images := ListImages (mkImageListOptions false false filters) in
  ret (Ok ((fun i => imageToRuntimeAPIImage i (isPinned (sandboxImage cfg) (is_RepoTags i)))
           <$> images)).

(** By reference, then by ID; None when the image is not there. *)
Definition inspect_image (image : string) : M W (res (option ImageInspect)) :=
  let* r := InspectImageByRef image in
  match r with
  | Ok i => ret (Ok (Some i))
  | Err err =>
      if negb (IsImageNotFoundError err) then ret (Err err)
      else
        let* r := InspectImageByID image in
        match r with
        | Ok i => ret (Ok (Some i))
        | Err err => if IsImageNotFoundError err then ret (Ok None) else ret (Err err)
        end
  end.

Definition ds_ImageStatus (image : string) (verbose : bool) : M W (res ImageStatusResponse) :=
  let? o := inspect_image image in
  match o with
  | None => ret (Ok (mkImageStatusResponse None ∅))
  | Some imageInspect =>
      match imageInspectToRuntimeAPIImage imageInspect
              (isPinned (sandboxImage cfg) (ii_RepoTags imageInspect)) with
      | Err err => ret (Err err)
      | Ok imageStatus =>
          if verbose then
            let? imageHistory := ImageHistory (ii_ID imageInspect) in
            match imageInspectToRuntimeAPIImageInfo imageInspect imageHistory with
            | Err err => ret (Err err)
            | Ok info => ret (Ok (mkImageStatusResponse (Some imageStatus) info))
            end
          else ret (Ok (mkImageStatusResponse (Some imageStatus) ∅))
      end
  end.

(** The client returns an image whenever it returns no error. *)
Definition getImageRef (image : string) : M W (res string) :=
  let? img := InspectImageByRef image in
  ret (Ok (match ii_RepoDigests img with d :: _ => d | [] => ii_ID img end)).

Definition ds_PullImage (image : string) (auth : option RuntimeAuth) : M W (res string) :=
  let* r := PullImage image (pull_auth auth) in
  match r with
  | Err err => ret (Err (filterHTTPError err))
  | Ok _ => getImageRef image
  end.

(** The loop over the references: an image that is already gone is fine. *)
Fixpoint remove_references (images : list string) : M W (res unit) :=
  match images with
  | [] => ret (Ok tt)
  | image :: images' =>
      let* r := RemoveImage image in
      match r with
      | Err err => if IsImageNotFoundError err then remove_references images' else ret (Err err)
      | Ok _ => remove_references images'
      end
  end.

Definition ds_RemoveImage (image : string) : M W (res unit) :=
  let* r := InspectImageByID image in
  match r with
  | Err err => if IsImageNotFoundError err then ret (Ok tt) else ret (Err err)
  | Ok i => remove_references (ii_RepoTags i ++ ii_RepoDigests i ++ [image])
  end.

End Images.

(** ** Theory *)

Lemma swap_loop_reverse {A} (fuel : nat) (pre mid post : list A) :
  (length mid <= fuel)%nat ->
  swap_loop fuel (length pre) (length pre + length mid - 1) (pre ++ mid ++ post)
  = pre ++ reverse mid ++ post.
Proof.
  revert pre mid post. induction fuel as [|fuel IH]; intros pre mid post Hf; cbn [swap_loop].
  { destruct mid; [by rewrite reverse_nil|cbn in Hf; lia]. }
  destruct mid as [|x mid].
  { rewrite (proj2 (Nat.ltb_ge _ _)) by (cbn; lia). by rewrite reverse_nil. }
  destruct mid as [|y mid' _] using rev_ind.
  { rewrite (proj2 (Nat.ltb_ge _ _)) by (cbn; lia). by rewrite reverse_singleton. }
  rewrite (proj2 (Nat.ltb_lt _ _)) by (cbn; rewrite length_app; cbn; lia).
  assert (length pre + length (x :: mid' ++ [y]) - 1 = length (pre ++ x :: mid')) as ->
    by (cbn; rewrite !length_app; cbn; lia).
  assert (pre ++ (x :: mid' ++ [y]) ++ post = (pre ++ x :: mid') ++ y :: post) as E
    by (cbn; by rewrite <- !app_assoc).
  rewrite E, (list_lookup_middle (pre ++ x :: mid') post y (length (pre ++ x :: mid'))) by done.
  rewrite <- app_assoc at 1. cbn [app].
  rewrite (list_lookup_middle pre (mid' ++ y :: post) x (length pre)) by done.
  assert (<[length pre := y]> ((pre ++ x :: mid') ++ y :: post) = (pre ++ y :: mid') ++ y :: post) as ->.
  { rewrite <- app_assoc, insert_app_r_alt by lia. rewrite Nat.sub_diag. by rewrite <- app_assoc. }
  assert (length (pre ++ x :: mid') = length (pre ++ y :: mid')) as -> by (by rewrite !length_app).
  rewrite insert_app_r_alt, Nat.sub_diag by lia. cbn [insert list_insert].
  assert ((pre ++ y :: mid') ++ x :: post = (pre ++ [y]) ++ mid' ++ x :: post) as ->
    by (by rewrite <- !app_assoc).
  assert (S (length pre) = length (pre ++ [y])) as -> by (rewrite length_app; cbn; lia).
  assert (length (pre ++ y :: mid') - 1 = length (pre ++ [y]) + length mid' - 1) as ->
    by (rewrite !length_app; cbn; lia).
  rewrite IH by (cbn in Hf; rewrite length_app in Hf; cbn in Hf; lia).
  rewrite reverse_cons, reverse_app. cbn. by rewrite <- !app_assoc.
Qed.

(** The loop that turns the engine's newest-first history round in place
    computes the reversal: the image's history is reported oldest first, entry
    by entry, the layers of size zero marked empty. *)
Theorem history_reversed (history : list HistoryResponseItem) :
  toRuntimeAPIHistory history = reverse (history_entry <$> history).
Proof.
  unfold toRuntimeAPIHistory.
  pose proof (swap_loop_reverse (length (history_entry <$> history)) [] (history_entry <$> history) []
                ltac:(done)) as H.
  by rewrite !app_nil_r in H.
Qed.

(** *** Users *)

Lemma lacks_app c (a b : string) : lacks c (a +:+ b) = lacks c a && lacks c b.
Proof. apply sforall_app. Qed.

Lemma itoa_lacks_colon (z : Z) : lacks ":" (itoa z) = true.
Proof.
  rewrite itoa_cases. destruct (z <? 0)%Z; rewrite ?lacks_app, utoa_lacks by done; done.
Qed.

Lemma parseUser_plain (u : string) : lacks ":" u = true -> parseUserFromImageUser u = u.
Proof.
  intros Hu. unfold parseUserFromImageUser. case_decide; [done|].
  unfold contains. by rewrite (cut_char_none _ _ Hu).
Qed.

Lemma parseUser_group (u g : string) :
  lacks ":" u = true -> parseUserFromImageUser (u +:+ ":" +:+ g) = u.
Proof.
  intros Hu. unfold parseUserFromImageUser. case_decide as Hd; [by destruct u|].
  change (u +:+ ":" +:+ g) with (u +:+ String ":" g) in *.
  unfold contains, split. rewrite cut_char_app by done.
  assert (exists n, String.length (u +:+ String ":" g) = S n) as [n ->].
  { rewrite slength_app. cbn. exists (String.length u + String.length g)%nat. lia. }
  cbn [split_go]. by rewrite cut_char_app.
Qed.

(** The user an image runs as.  The group never matters; a decimal number
    of 64 bits is taken as the uid it is, negative ones included; anything else,
    a number too large as well, is taken as the name of a user. *)
Theorem image_user_interpreted (u g : string) :
  lacks ":" u = true ->
  getUserFromImageUser (u +:+ ":" +:+ g) = getUserFromImageUser u
  /\ (forall z, in_int64 z -> u = itoa z -> getUserFromImageUser u = (Some z, ""))
  /\ (forall err, parse_int64 u = Err err -> getUserFromImageUser u = (None, u)).
Proof.
  intros Hu. unfold getUserFromImageUser. rewrite parseUser_group, parseUser_plain by done.
  split; [done|]. split.
  - intros z Hz ->. rewrite parse_int64_itoa by done. case_decide as Hd; [|done].
    rewrite itoa_cases in Hd. destruct (z <? 0)%Z; [done|]. by apply utoa_nonempty in Hd.
  - intros err Herr. case_decide as Hd; [by subst|]. by rewrite Herr.
Qed.

Lemma image_user_interpreted_witness :
  getUserFromImageUser "1000:staff" = (Some 1000%Z, "")
  /\ getUserFromImageUser "nginx:nginx" = (None, "nginx").
Proof.
  destruct (image_user_interpreted "1000" "staff" eq_refl) as (H1 & H2 & _).
  destruct (image_user_interpreted "nginx" "nginx" eq_refl) as (H3 & _ & H4).
  split.
  - exact (eq_trans H1 (H2 1000%Z ltac:(split; vm_compute; congruence) eq_refl)).
  - exact (eq_trans H3 (H4 ErrSyntax ltac:(vm_compute; reflexivity))).
Defined.

(** *** Removal *)

(** What the engine promises about references ([resolves]: some image answers
    to that tag, digest or ID): removing a reference, or hearing that it is not
    there, means that nothing answers to it, and never makes another one
    answer; inspecting changes nothing and finds only what answers. *)
Class ImageLaws (W : Type) `{DockerClient W} := {
  resolves : W -> string -> bool;
  RemoveImage_laws : forall r w x w', RemoveImage r w = (x, w') ->
    (forall r', resolves w' r' = true -> resolves w r' = true)
    /\ match x with
       | Ok _ => resolves w' r = false
       | Err e => IsImageNotFoundError e = true -> resolves w' r = false
       end;
  InspectImageByRef_laws : forall r w x w', InspectImageByRef r w = (x, w') ->
    (forall r', resolves w' r' = resolves w r') /\ (is_ok x = true -> resolves w r = true);
  InspectImageByID_laws : forall r w x w', InspectImageByID r w = (x, w') ->
    (forall r', resolves w' r' = resolves w r') /\ (is_ok x = true -> resolves w r = true);
}.

Section Removal.
Context {W : Type} `{ImageLaws W}.

Lemma remove_references_gone images (w w' : W) :
  remove_references images w = (Ok tt, w') ->
  (forall r, resolves w' r = true -> resolves w r = true)
  /\ Forall (fun r => resolves w' r = false) images.
Proof.
  revert w. induction images as [|r images IH]; intros w; cbn [remove_references].
  { intros [= <-]. by split. }
  unfold bind. destruct (RemoveImage r w) as [x w1] eqn:E.
  destruct (RemoveImage_laws _ _ _ _ E) as [Hm Hr]. intros Hrest.
  assert (remove_references images w1 = (Ok tt, w') /\ resolves w1 r = false) as [Hgo Hgone].
  { destruct x as [u|e]; [done|]. destruct (IsImageNotFoundError e); [auto|done]. }
  destruct (IH _ Hgo) as [Hm' Hall]. split; [auto|]. constructor; [|done].
  destruct (resolves w' r) eqn:Er; [|done]. apply Hm' in Er. congruence.
Qed.

Lemma inspect_image_gone image (w w' : W) o :
  resolves w image = false -> inspect_image image w = (Ok o, w') -> o = None.
Proof.
  intros Hg. unfold inspect_image, bind. destruct (InspectImageByRef image w) as [x w1] eqn:E1.
  destruct (InspectImageByRef_laws _ _ _ _ E1) as [H1 H1'].
  destruct x as [i|e]; [specialize (H1' eq_refl); congruence|].
  destruct (negb (IsImageNotFoundError e)); [done|].
  destruct (InspectImageByID image w1) as [y w2] eqn:E2.
  destruct (InspectImageByID_laws _ _ _ _ E2) as [_ H2'].
  destruct y as [i|e2]; [specialize (H2' eq_refl); rewrite H1 in H2'; congruence|].
  destruct (IsImageNotFoundError e2); by intros [= <- <-].
Qed.

(** What a removal does when the image is found by its ID, and when it is not. *)
Lemma RemoveImage_found image i (w w1 w' : W) :
  InspectImageByID image w = (Ok i, w1) -> ds_RemoveImage image w = (Ok tt, w') ->
  Forall (fun r => resolves w' r = false) (image :: ii_RepoTags i ++ ii_RepoDigests i)
  /\ forall `{ImageJSON} cfg verbose resp w'',
       ds_ImageStatus cfg image verbose w' = (Ok resp, w'') -> isr_Image resp = None.
Proof.
  intros E Hr. unfold ds_RemoveImage, bind in Hr. rewrite E in Hr.
  apply remove_references_gone in Hr as [_ [Ht [Hd Hi]%Forall_app]%Forall_app]. apply Forall_inv in Hi.
  split; [constructor; [exact Hi|by apply Forall_app]|].
  intros J cfg verbose resp w'' Hs. unfold ds_ImageStatus, try, bind in Hs.
  destruct (inspect_image image w') as [[o|e] w2] eqn:Eo; [|done].
  apply (inspect_image_gone image w') in Eo as ->; [|done]. by injection Hs as <- _.
Qed.

End Removal.

(** A reference that is not the ID of the image it resolves to: another text,
    with no digest, like a tag, or with a digest other than that of the ID,
    like the digest of a repository. *)
Definition not_its_id `{RefParser} (image : string) (i : ImageInspect) : Prop :=
  ii_ID i <> image
  /\ forall ref digest id, RefParse image = Some ref -> nm_Digest ref = Some digest ->
       DigestParse (ii_ID i) = Some id -> digest_eqb digest id = false.

Lemma not_its_id_unmatched `{RefParser} image i : not_its_id image i -> matchImageIDOnly i image = false.
Proof.
  intros [Hne Hd]. unfold matchImageIDOnly. rewrite decide_False by done.
  destruct (RefParse image) as [ref|] eqn:Er; [|done]. destruct (nm_Digest ref) as [digest|] eqn:Edg; [|done].
  destruct (DigestParse (ii_ID i)) as [id|] eqn:Eid; [|done]. by eapply Hd.
Qed.

(** C25: Removing an image is complete when the image is found by its ID, and
    does nothing otherwise.  For any docker client with the laws of
    [ImageLaws]: a removal that succeeds and found the image by its ID leaves
    nothing that answers to what was asked, to any of the image's tags or to
    any of its digests, whichever of them were already gone, and [ImageStatus]
    then reports no image; one that succeeds without finding it leaves every
    reference as it was.  And for the client of libdocker over any engine: a
    tag of an image that is there, or a digest other than that of its ID, is
    not found by ID, so removing the image by it reports success after the one
    inspection and makes no call that removes anything. *)
Theorem removed_image_is_gone :
  (forall {W} `{ImageLaws W} image (w w' : W), ds_RemoveImage image w = (Ok tt, w') ->
     match InspectImageByID image w with
     | (Ok i, _) =>
         Forall (fun r => resolves w' r = false) (image :: ii_RepoTags i ++ ii_RepoDigests i)
         /\ forall `{ImageJSON} cfg verbose resp w'',
              ds_ImageStatus cfg image verbose w' = (Ok resp, w'') -> isr_Image resp = None
     | (Err e, w1) => w' = w1 /\ IsImageNotFoundError e = true /\ forall r, resolves w' r = resolves w r
     end)
  /\ (forall {W} `{DockerAPI W} `{RefParser} (d : kubeDockerClient) pull image i (w w' : W),
     kc_inspectImageRaw d image w = (Ok i, w') -> not_its_id image i ->
     ds_RemoveImage (H := kube_DockerClient d pull) image w = (Ok tt, w')).
Proof.
  split.
  - intros W DC L image w w' Hr. destruct (InspectImageByID image w) as [[i|e] w1] eqn:E.
    + by eapply RemoveImage_found.
    + unfold ds_RemoveImage, bind in Hr. rewrite E in Hr. destruct (IsImageNotFoundError e); [|done].
      injection Hr as <-. split; [done|]. split; [done|]. by apply InspectImageByID_laws in E as [E _].
  - intros W API RP d pull image i w w' E Hid%not_its_id_unmatched. unfold ds_RemoveImage, bind. cbn.
    unfold kc_InspectImageByID, try, bind. rewrite E, Hid. done.
Qed.


(** Pulling reports the digest of what was pulled if the engine knows one,
    and its ID otherwise, for the credentials that were given; gateway errors of
    the registry are shortened and every other error is passed on as it is. *)
Theorem pull_image_reports {W} `{DockerClient W} image auth (w : W) :
  match PullImage image (pull_auth auth) w with
  | (Err (JSONError code msg), w1) =>
      ds_PullImage image auth w
      = (Err (if bool_decide (code ∈ [502%Z; 503%Z; 504%Z])
              then Errorf ("RegistryUnavailable: " +:+ msg) else JSONError code msg), w1)
  | (Err e, w1) => ds_PullImage image auth w = (Err e, w1)
  | (Ok _, w1) =>
      match InspectImageByRef image w1 with
      | (Ok i, w2) => ds_PullImage image auth w = (Ok (default (ii_ID i) (head (ii_RepoDigests i))), w2)
      | (Err e, w2) => ds_PullImage image auth w = (Err e, w2)
      end
  end.
Proof.
  unfold ds_PullImage, bind. destruct (PullImage image (pull_auth auth) w) as [[u|e] w1].
  - unfold getImageRef, try, bind. destruct (InspectImageByRef image w1) as [[i|e] w2]; [|done].
    unfold ret. destruct (ii_RepoDigests i); reflexivity.
  - destruct e; try reflexivity. cbn [filterHTTPError].
    unfold StatusBadGateway, StatusServiceUnavailable, StatusGatewayTimeout.
    case_decide as Hd; case_bool_decide as Hb; try reflexivity; exfalso;
      rewrite !elem_of_cons, elem_of_nil in Hb; tauto.
Qed.

(** ** A concrete engine: images by reference *)

Definition image_store : Type := gmap string ImageInspect.

Definition no_call {A} : M image_store (res A) := ret (Err (Errorf "not supported")).

Definition find_image (r : string) : M image_store (res ImageInspect) := fun w =>
  (match w !! r with Some i => Ok i | None => Err (ImageNotFoundError r) end, w).

#[local] Instance images_docker : DockerClient image_store := {|
  ListContainers := fun _ => no_call;
  InspectContainer := fun _ => no_call;
  CreateContainer := fun _ => no_call;
  StartContainer := fun _ => no_call;
  StopContainer := fun _ _ => no_call;
  UpdateContainerResources := fun _ _ => no_call;
  RemoveContainer := fun _ _ => no_call;
  InspectImageByRef := find_image;
  InspectImageByID := fun r w =>
    match w !! r with
    | Some i => (if decide (ii_ID i = r) then Ok i else Err (ImageNotFoundError r), w)
    | None => (Err (ImageNotFoundError r), w)
    end;
  ListImages := fun _ => no_call;
  PullImage := fun _ _ => no_call;
  RemoveImage := fun r w =>
    match w !! r with Some _ => (Ok tt, delete r w) | None => (Err (ImageNotFoundError r), w) end;
  ImageHistory := fun _ => no_call;
  Version := no_call;
  Info := no_call;
  CreateExec := fun _ _ => no_call;
  InspectExec := fun _ => no_call;
|}.

#[local] Program Instance images_laws : ImageLaws image_store := {|
  resolves := fun w r => bool_decide (is_Some (w !! r));
|}.
Next Obligation.
  intros r w x w' E. cbn in E. destruct (w !! r) as [i|] eqn:Er; injection E as <- <-.
  - split.
    + intros r' Hr. rewrite bool_decide_eq_true in *. destruct Hr as [j Hj].
      apply lookup_delete_Some in Hj as [_ Hj]. by exists j.
    + apply bool_decide_eq_false. intros [j Hj]. by apply lookup_delete_Some in Hj as [Hj _].
  - split; [done|]. intros _. rewrite bool_decide_eq_false, Er. by intros [].
Qed.
Next Obligation.
  intros r w x w' E. cbn in E. unfold find_image in E. destruct (w !! r) as [i|] eqn:Er; injection E as <- <-;
    split; try done. intros _. by rewrite bool_decide_eq_true, Er.
Qed.
Next Obligation.
  intros r w x w' E. cbn in E. destruct (w !! r) as [i|] eqn:Er; injection E as <- <-;
    split; try done. intros _. by rewrite bool_decide_eq_true, Er.
Qed.

Definition busybox : ImageInspect :=
  mkImageInspect "sha256:77" ["busybox:latest"; "busybox:1"] ["busybox@sha256:aa"] 4096
    "2024-01-01T00:00:00Z" (Some zero_DockerConfig) "" "amd64" "linux" (mkRootFS "layers" ["sha256:aa"]).
Definition busybox_store : image_store :=
  list_to_map ((fun r => (r, busybox)) <$> ["sha256:77"; "busybox:latest"; "busybox@sha256:aa"]).
Definition busybox_removed : image_store := snd (ds_RemoveImage "sha256:77" busybox_store).

Lemma busybox_found : InspectImageByID "sha256:77" busybox_store = (Ok busybox, busybox_store).
Proof. reflexivity. Qed.

(** An engine that has the image and answers nothing else, and a parser that
    takes every reference for a tag. *)
#[local] Instance busybox_api : DockerAPI unit :=
  let no A : M unit (res A * ctx_err) := fun w => ((Err (Errorf "not supported"), CtxNone), w) in
  {| ContainerList := fun _ _ => no _; ContainerInspect := fun _ _ => no _;
     ContainerCreate := fun _ _ => no _; ContainerStart := fun _ _ => no _;
     ContainerStop := fun _ _ _ => no _; ContainerRemove := fun _ _ _ => no _;
     ContainerUpdate := fun _ _ _ => no _;
     ImageInspectWithRaw := fun _ _ w => ((Ok busybox, CtxNone), w);
     ImageList := fun _ _ => no _; ImageRemove := fun _ _ => no _;
     ServerVersion := fun _ => no _; ServerInfo := fun _ => no _;
     ContainerExecCreate := fun _ _ _ => no _; ContainerExecInspect := fun _ _ => no _;
     API_ImageHistory := fun _ _ => no _ |}.
#[local] Instance tag_refs : RefParser := {|
  ParseNormalizedNamed := fun s => Ok (mkNamed true None s "latest" s);
  RefParse := fun s => Some (mkNamed true None s "latest" s);
  DigestParse := fun _ => None;
|}.

Lemma removed_image_is_gone_witness :
  Forall (fun r => bool_decide (is_Some (busybox_removed !! r)) = false)
    ["sha256:77"; "busybox:latest"; "busybox:1"; "busybox@sha256:aa"]
  /\ ds_RemoveImage (H := kube_DockerClient (newKubeDockerClient 0 60) (fun _ _ => ret (Ok tt)))
       "busybox:latest" tt = (Ok tt, tt).
Proof.
  assert (ds_RemoveImage "sha256:77" busybox_store = (Ok tt, busybox_removed)) as E
    by (vm_compute; reflexivity).
  pose proof (proj1 removed_image_is_gone _ _ _ "sha256:77" busybox_store busybox_removed E) as H.
  rewrite busybox_found in H. split; [exact (proj1 H)|].
  apply (proj2 removed_image_is_gone _ _ _ _ _ _ busybox); [reflexivity|].
  split; [discriminate|]. intros ref digest id Hr Hd. injection Hr as <-. discriminate Hd.
Defined.

(** By a tag, nothing is removed. *)
Example remove_by_tag :
  ds_RemoveImage "busybox:latest" busybox_store = (Ok tt, busybox_store).
Proof. reflexivity. Qed.

Example pull_unavailable :
  filterHTTPError (JSONError 503 "<html>") = Errorf "RegistryUnavailable: <html>"
  /\ filterHTTPError (JSONError 404 "no") = JSONError 404 "no".
Proof. by split. Qed.
