(* ===== verification/Stats.v ===== *)
(** * Stats: container statistics and image file system usage

    core/stats.go, core/stats_linux.go, core/imagefs.go and
    core/imagefs_linux.go.  The cache of writable-layer sizes is fed by one
    collecting goroutine per container; the goroutines, the channel of
    listings and the channels that stop them form a step relation over one
    state, in which a [*cstats] is a pointer into a heap, since the cache and
    the goroutine share it. *)
From S2P Require Import Prelude Regex GoErrors GoPath GoTime Cri Naming Labels Cache Store Checkpoint Libdocker PluginManager Service SecurityContext SandboxHelpers Containers Sim.

(** ** Data *)

Record cstats := mkCstats {
  containerID : string;
  rwLayerSize : Z;
  initialized : bool;
}.

(** What the client answers to [GetContainerStats], as far as it is used:
    the total CPU usage and the memory usage. *)
Record StatsJSON := mkStatsJSON { sj_TotalUsage : Z; sj_MemoryUsage : Z }.

(** The client's two calls about statistics ([SizeRw] is a pointer), and the
    error of a request's context. *)
Class StatsClient (W : Type) := {
  GetContainerStats : string -> M W (res StatsJSON);
  InspectContainerWithSize : string -> M W (res (option Z));
  ctx_Err : M W (option error);
}.

Record Statfs_t := mkStatfs {
  sf_Blocks : Z;
  sf_Bfree : Z;
  sf_Bsize : Z;
  sf_Files : Z;
  sf_Ffree : Z;
}.
Class StatFs (W : Type) := syscall_Statfs : string -> M W (res Statfs_t).

(** [runtimeapi.FilesystemUsage]. *)
Record FilesystemUsage := mkFilesystemUsage {
  fu_Timestamp : Z;
  fu_Mountpoint : string;
  fu_UsedBytes : option Z;
  fu_InodesUsed : option Z;
}.

Record ContainerStats := mkContainerStats {
  st_Id : string;
  st_Metadata : ContainerMetadata;
  st_Labels : gmap string string;
  st_Annotations : gmap string string;
  st_Timestamp : Z;
  st_UsageCoreNanoSeconds : Z;
  st_WorkingSetBytes : Z;
  st_WritableLayer : option FilesystemUsage;
}.

Record ImageFsInfoResponse := mkImageFsInfoResponse {
  ImageFilesystems : list FilesystemUsage;
  ContainerFilesystems : list FilesystemUsage;
}.

(** Where a [startCollect] goroutine is. *)
Inductive collector :=
| Collecting (backoffDuration : Z)
| Sleeping (backoffDuration sleepTime : Z)
| Stopped.

(** The cache with its goroutines: the map of pointers, the objects, the
    collecting goroutines, the [stopCollect] goroutines that wait to be
    received from, the buffer of [clist], the next pointer. *)
Record stats_state := mkStats {
  ss_stats : gmap string nat;
  ss_heap : gmap nat cstats;
  ss_collectors : gmap nat collector;
  ss_stopping : gset nat;
  ss_clist : option (list string);
  ss_next : nat;
}.

Definition maxBackoffDuration : Z := (20 * Minute)%Z.
Definition minCollectInterval : Z := Minute.

Definition newCstats (cid : string) : cstats := mkCstats cid 0 false.
Definition newContainerStatsCache : stats_state := mkStats ∅ ∅ ∅ ∅ None 0.

(** ** The collecting goroutine *)

(** One turn of the loop of [startCollect] once the client has answered: the
    object, and the backoff and the time to sleep; None when the size pointer
    of a successful answer is nil, whose dereference panics. *)
Definition collect_turn (backoffDuration : Z) (r : res (option Z)) (cs : cstats)
  : option (cstats * Z * Z) :=
  match r with
  | Err err =>
      let b :=
        if errors_Is err Canceled || errors_Is err DeadlineExceeded then
          let b := int64 (backoffDuration * 2) in
          if (maxBackoffDuration <=? b)%Z then maxBackoffDuration else b
        else backoffDuration in
      Some (cs, b, b)
  | Ok None => None
  | Ok (Some sizeRw) =>
      Some (mkCstats (containerID cs) (uint64 sizeRw) true, minCollectInterval, minCollectInterval)
  end.

Definition set_collector (p : nat) (c : collector) (s : stats_state) : stats_state :=
  mkStats (ss_stats s) (ss_heap s) (<[p := c]> (ss_collectors s)) (ss_stopping s) (ss_clist s)
    (ss_next s).

Definition collect (p : nat) (backoffDuration : Z) (r : res (option Z)) (s : stats_state)
  : option stats_state :=
  match ss_heap s !! p with
  | None => None
  | Some cs =>
      match collect_turn backoffDuration r cs with
      | None => None
      | Some (cs', b, sleepTime) =>
          Some (mkStats (ss_stats s) (<[p := cs']> (ss_heap s))
                  (<[p := Sleeping b sleepTime]> (ss_collectors s)) (ss_stopping s) (ss_clist s)
                  (ss_next s))
      end
  end.

(** ** The goroutine that follows the listings *)

Definition add_container (cid : string) (s : stats_state) : stats_state :=
  match ss_stats s !! cid with
  | Some _ => s
  | None =>
      let p := ss_next s in
      mkStats (<[cid := p]> (ss_stats s)) (<[p := newCstats cid]> (ss_heap s))
        (<[p := Collecting minCollectInterval]> (ss_collectors s)) (ss_stopping s) (ss_clist s)
        (S p)
  end.

(** [delete(c.stats, k); go cs.stopCollect()]. *)
Definition drop_container (k : string) (p : nat) (s : stats_state) : stats_state :=
  mkStats (delete k (ss_stats s)) (ss_heap s) (ss_collectors s) ({[ p ]} ∪ ss_stopping s)
    (ss_clist s) (ss_next s).

Definition cleanup (containerIDMap : gset string) (s : stats_state) : stats_state :=
  foldl (fun s '(k, p) => if decide (k ∈ containerIDMap) then s else drop_container k p s)
    s (map_to_list (ss_stats s)).

(** The body of the loop of [startStatsCollection] for one listing. *)
Definition follow_listing (clist : list string) (s : stats_state) : stats_state :=
  cleanup (list_to_set clist) (foldl (fun s cid => add_container cid s) s clist).

Definition set_clist (o : option (list string)) (s : stats_state) : stats_state :=
  mkStats (ss_stats s) (ss_heap s) (ss_collectors s) (ss_stopping s) o (ss_next s).

(** [for clist := range c.clist]: take a listing off the channel. *)
Definition receive_listing (s : stats_state) : stats_state :=
  match ss_clist s with
  | None => s
  | Some clist => follow_listing clist (set_clist None s)
  end.

(** [c.clist <- containers]: the buffer holds one listing, so a sender that
    finds it full is let go when the goroutine above has taken it. *)
Definition send_listing (clist : list string) (s : stats_state) : stats_state :=
  set_clist (Some clist) (receive_listing s).

(** ** What the other goroutines read *)

Definition getStats (cid : string) (s : stats_state) : option cstats :=
  match ss_stats s !! cid with
  | None => None
  | Some p => ss_heap s !! p
  end.
Definition isInitialized (cs : cstats) : bool := initialized cs.
Definition getContainerRWSize (cs : cstats) : Z := rwLayerSize cs.

(** The sum of [getWriteableLayer], the map visited in the given order. *)
Definition writeable_layer_order (s : stats_state) (order : list nat) : Z :=
  foldl (fun total p => uint64 (total + default 0 (rwLayerSize <$> ss_heap s !! p)))%Z 0%Z order.
Definition getWriteableLayer (s : stats_state) : Z :=
  writeable_layer_order s (snd <$> map_to_list (ss_stats s)).

(** ** The steps of the goroutines *)

Inductive stats_step : stats_state -> stats_state -> Prop :=
| step_send clist s :
    ss_clist s = None -> stats_step s (set_clist (Some clist) s)
| step_receive clist s :
    ss_clist s = Some clist -> stats_step s (receive_listing s)
| step_collect p b r s s' :
    ss_collectors s !! p = Some (Collecting b) -> collect p b r s = Some s' -> stats_step s s'
| step_wake p b d s :
    ss_collectors s !! p = Some (Sleeping b d) -> stats_step s (set_collector p (Collecting b) s)
| step_stop p b d s :
    ss_collectors s !! p = Some (Sleeping b d) -> p ∈ ss_stopping s ->
    stats_step s (mkStats (ss_stats s) (ss_heap s) (<[p := Stopped]> (ss_collectors s))
                    (ss_stopping s ∖ {[ p ]}) (ss_clist s) (ss_next s)).

Abbreviation stats_reachable := (rtc stats_step newContainerStatsCache).

(** ** The handlers *)

(** The sizes [imageFsInfo] adds up: each image's own bytes, and the set of
    the sizes shared. *)
Fixpoint image_sizes (images : list ImageSummary) (totalImageSize : Z) (sharedSizeMap : gset Z)
  : Z * gset Z :=
  match images with
  | [] => (totalImageSize, sharedSizeMap)
  | i :: images' =>
      if (is_SharedSize i =? -1)%Z then
        image_sizes images' (uint64 (totalImageSize + uint64 (is_Size i))) sharedSizeMap
      else
        image_sizes images'
          (uint64 (totalImageSize + uint64 (uint64 (is_Size i) - uint64 (is_SharedSize i))))
          ({[ is_SharedSize i ]} ∪ sharedSizeMap)
  end.

Definition add_shared (totalImageSize : Z) (order : list Z) : Z :=
  foldl (fun total k => uint64 (total + uint64 k)) totalImageSize order.

Definition imageFsStatsMinTTL : Z := (30 * Second)%Z.

Section Stats.
Context {W St : Type} `{DockerClient W} `{NetworkPlugin W} `{Clock W} `{HostOS W}.
Context `{Store St} `{StatsClient W} `{StatFs W}.
Variable cfg : service_config.
Abbreviation DS := (dockerService W St).
(** The service and its statistics cache. *)
Abbreviation SS := (stats_state * dockerService W St)%type.

Definition onDS {A} (m : M DS A) : M SS A := fun '(s, ds) =>
  let '(a, ds') := m ds in (a, (s, ds')).
Definition onStats {A} (f : stats_state -> A) : M SS A := fun '(s, ds) => (f s, (s, ds)).

Definition getContainerStats (container : Container) : M SS (res ContainerStats) :=
  let cid := c_Id container in
  let? dockerStats := onDS (onW (GetContainerStats cid)) in
  let* timestamp := onDS (onW Now) in
  let* cstat := onStats (getStats cid) in
  let layer :=
    match cstat with
    | Some cs =>
        if isInitialized cs then
          Some (mkFilesystemUsage timestamp (cfg_dockerRootDir cfg) (Some (getContainerRWSize cs)) None)
        else None
    | None => None
    end in
  ret (Ok (mkContainerStats cid (c_Metadata container) (c_Labels container)
             (c_Annotations container) timestamp (sj_TotalUsage dockerStats)
             (sj_MemoryUsage dockerStats) layer)).

Variable show : DockerContainer -> string.

Definition ds_ContainerStats (cid : string) : M SS (res ContainerStats) :=
  let? cs := onDS (ds_ListContainers show (Some (mkContainerFilter cid None "" ∅))) in
  match cs with
  | [c] => getContainerStats c
  | _ => ret (Err (Errorf ("container with id " +:+ cid +:+ " not found")))
  end.

(** The bodies of the errgroup in the order in which they finish: the first
    error a body returns is the group's, and it cancels the context of those
    that have not started. *)
Fixpoint collect_all (order : list Container) (results : list ContainerStats)
  : M SS (res (list ContainerStats)) :=
  match order with
  | [] => ret (Ok results)
  | c :: order' =>
      let* e := onDS (onW ctx_Err) in
      match e with
      | Some err => ret (Err err)
      | None =>
          let* r := getContainerStats c in
          match r with
          | Err _ => collect_all order' results
          | Ok stats => collect_all order' (results ++ [stats])
          end
      end
  end.

(** [ListContainerStats], given the order in which the workers finish. *)
Definition ds_ListContainerStats (finish : list Container -> list Container)
  (containerStatsFilter : option (string * string * gmap string string))
  : M SS (res (list ContainerStats)) :=
  let filter :=
    match containerStatsFilter with
    | Some (id, sandbox, labels) => mkContainerFilter id None sandbox labels
    | None => mkContainerFilter "" None "" ∅
    end in
  let? containers := onDS (ds_ListContainers show (Some filter)) in
  do* (fun '(s, ds) => (tt, (send_listing (c_Id <$> containers) s, ds))) in
  match containers with
  | [] => ret (Ok [])
  | _ => collect_all (finish containers) []
  end.

(** The order in which the set of shared sizes is visited is [elements];
    [image_fs_total] shows that it does not matter. *)
Definition imageFsInfo : M SS (res ImageFsInfoResponse) :=
  let? stat := onDS (onW (syscall_Statfs (cfg_dockerRootDir cfg))) in
  let iNodesUsed := uint64 (sf_Files stat - sf_Ffree stat) in
  let? images := onDS (onW (ListImages (mkImageListOptions true true ∅))) in
  let '(own, shared) := image_sizes images 0 ∅ in
  let totalImageSize := add_shared own (elements shared) in
  let* t1 := onDS (onW Now) in
  let* t2 := onDS (onW Now) in
  let* layers := onStats getWriteableLayer in
  ret (Ok (mkImageFsInfoResponse
             [mkFilesystemUsage t1 (cfg_dockerRootDir cfg) (Some totalImageSize) (Some iNodesUsed)]
             [mkFilesystemUsage t2 (cfg_dockerRootDir cfg) (Some layers) None])).

#[local] Instance stats_clock : Clock SS := onDS (onW Now).

(** [ImageFsInfo], with the package's cache. *)
Definition ds_ImageFsInfo
  : M (gmap string (entry ImageFsInfoResponse) * SS) (res ImageFsInfoResponse) :=
  let* r := Memoize "imagefs" imageFsStatsMinTTL imageFsInfo in
  ret (match r with
       | Err err => Err err
       | Ok (Some stats) => Ok stats
       | Ok None => Err type_assertion_panic
       end).

End Stats.

(** ** Theory *)

(** The loop of [cleanup] over any part of the map. *)
Lemma cleanup_loop (ids : gset string) (l : list (string * nat)) (s : stats_state) :
  let s' := foldl (fun s '(k, p) => if decide (k ∈ ids) then s else drop_container k p s) s l in
  ss_heap s' = ss_heap s /\ ss_collectors s' = ss_collectors s /\ ss_clist s' = ss_clist s
  /\ ss_next s' = ss_next s
  /\ (forall k, ss_stats s' !! k
        = if decide (k ∈ l.*1 /\ k ∉ ids) then None else ss_stats s !! k)
  /\ (forall p, p ∈ ss_stopping s' <-> p ∈ ss_stopping s \/ exists k, (k, p) ∈ l /\ k ∉ ids).
Proof.
  revert s. induction l as [|[k0 p0] l IH]; intros s; cbn [foldl].
  { repeat (split; [done|]). set_solver. }
  destruct (IH (if decide (k0 ∈ ids) then s else drop_container k0 p0 s))
    as (-> & -> & -> & -> & Hs & Hp).
  case_decide as Hk; cbn in *; repeat (split; [done|]); split.
  - intros k. rewrite Hs. repeat case_decide; set_solver.
  - intros p. rewrite Hp. set_solver.
  - intros k. rewrite Hs. destruct (decide (k = k0)) as [->|Hne].
    + rewrite lookup_delete_eq. repeat case_decide; set_solver.
    + rewrite lookup_delete_ne by done. repeat case_decide; set_solver.
  - intros p. rewrite Hp. set_solver.
Qed.

Lemma cleanup_spec (ids : gset string) (s : stats_state) :
  let s' := cleanup ids s in
  ss_heap s' = ss_heap s /\ ss_collectors s' = ss_collectors s /\ ss_clist s' = ss_clist s
  /\ ss_next s' = ss_next s
  /\ (forall k, ss_stats s' !! k = if decide (k ∈ ids) then ss_stats s !! k else None)
  /\ (forall p, p ∈ ss_stopping s' <->
        p ∈ ss_stopping s \/ exists k, ss_stats s !! k = Some p /\ k ∉ ids).
Proof.
  intros s'. destruct (cleanup_loop ids (map_to_list (ss_stats s)) s)
    as (H1 & H2 & H3 & H4 & Hs & Hp).
  repeat (split; [done|]). split.
  - intros k. unfold s', cleanup. rewrite Hs. repeat case_decide; try tauto.
    destruct (ss_stats s !! k) as [p|] eqn:E; [|done]. exfalso.
    apply elem_of_map_to_list in E. apply (list_elem_of_fmap_2 fst) in E. tauto.
  - intros p. unfold s', cleanup. rewrite Hp. by setoid_rewrite elem_of_map_to_list.
Qed.

(** [backoffDuration] and [sleepTime] are within the two constants. *)
Definition backoff_ok (b : Z) : Prop := (minCollectInterval <= b <= maxBackoffDuration)%Z.

Definition collector_ok (c : collector) : Prop :=
  match c with
  | Collecting b => backoff_ok b
  | Sleeping b d => backoff_ok b /\ d = b
  | Stopped => True
  end.

(** Every entry of the cache points to the object of its container, which a
    goroutine that nobody stops is collecting for; every goroutine that still
    runs is that of an entry, or is being stopped. *)
Record stats_ok (s : stats_state) : Prop := {
  ok_entry cid p : ss_stats s !! cid = Some p ->
    (exists cs, ss_heap s !! p = Some cs /\ containerID cs = cid) /\ p ∉ ss_stopping s
    /\ exists c, ss_collectors s !! p = Some c /\ c <> Stopped;
  ok_stopping p : p ∈ ss_stopping s ->
    is_Some (ss_heap s !! p) /\ exists c, ss_collectors s !! p = Some c /\ c <> Stopped;
  ok_running p c : ss_collectors s !! p = Some c -> c <> Stopped ->
    p ∈ ss_stopping s \/ exists cid, ss_stats s !! cid = Some p;
  ok_fresh p c : ss_collectors s !! p = Some c -> p < ss_next s;
  ok_backoff p c : ss_collectors s !! p = Some c -> collector_ok c;
}.

Lemma stats_ok_init : stats_ok newContainerStatsCache.
Proof. split; intros *; try (intros H; by rewrite lookup_empty in H); set_solver. Qed.

Lemma minCollectInterval_ok : backoff_ok minCollectInterval.
Proof. unfold backoff_ok, minCollectInterval, maxBackoffDuration, Minute, Second. lia. Qed.
#[export] Hint Resolve minCollectInterval_ok : core.

Lemma add_container_ok cid (s : stats_state) : stats_ok s -> stats_ok (add_container cid s).
Proof.
  intros Hok. unfold add_container. destruct (ss_stats s !! cid) as [q|] eqn:E; [done|].
  assert (forall p c, ss_collectors s !! p = Some c -> p <> ss_next s) as Hnew
    by (intros p c Hp ->; apply (ok_fresh _ Hok) in Hp; lia).
  split; cbn.
  - intros cid' p. rewrite lookup_insert_Some. intros [[<- <-]|[Hne Hp]].
    + rewrite !lookup_insert_eq. split; [by eexists|]. split; [|by eexists].
      intros Hin. destruct (ok_stopping _ Hok _ Hin) as (_ & c & Hc & _). by apply Hnew in Hc.
    + destruct (ok_entry _ Hok _ _ Hp) as ((cs & Hcs & Hid) & Hns & c & Hc & Hnc).
      rewrite !lookup_insert_ne by (by apply not_eq_sym, (Hnew p c)).
      split; [by eexists|]. split; [done|by eexists].
  - intros p Hin. destruct (ok_stopping _ Hok _ Hin) as (Hh & c & Hc & Hnc).
    rewrite !lookup_insert_ne by (by apply not_eq_sym, (Hnew p c)). split; [done|by eexists].
  - intros p c. rewrite lookup_insert_Some. intros [[<- <-]|[Hne Hp]] Hc.
    + right. exists cid. by rewrite lookup_insert_eq.
    + destruct (ok_running _ Hok _ _ Hp Hc) as [|[cid' Hcid]]; [by left|]. right. exists cid'.
      rewrite lookup_insert_ne; [done|congruence].
  - intros p c. rewrite lookup_insert_Some. intros [[<- <-]|[Hne Hp]]; [lia|].
    apply (ok_fresh _ Hok) in Hp. lia.
  - intros p c. rewrite lookup_insert_Some. intros [[<- <-]|[Hne Hp]]; [by cbn|].
    by apply (ok_backoff _ Hok) in Hp.
Qed.

Lemma add_containers_spec (clist : list string) (s : stats_state) :
  let s' := foldl (fun s cid => add_container cid s) s clist in
  (stats_ok s -> stats_ok s')
  /\ ss_stopping s' = ss_stopping s /\ ss_clist s' = ss_clist s /\ ss_next s <= ss_next s'
  /\ (forall cid p, ss_stats s !! cid = Some p -> ss_stats s' !! cid = Some p)
  /\ (forall p, p < ss_next s -> ss_heap s' !! p = ss_heap s !! p)
  /\ (forall cid, is_Some (ss_stats s' !! cid) <-> is_Some (ss_stats s !! cid) \/ cid ∈ clist)
  /\ (forall cid p, ss_stats s' !! cid = Some p -> ss_stats s !! cid = None ->
        ss_heap s' !! p = Some (newCstats cid)).
Proof.
  revert s. induction clist as [|cid0 clist IH]; intros s; cbn [foldl].
  { repeat (split; [done|]). split; [|intros ?? -> [=]]. intros cid. set_solver. }
  destruct (IH (add_container cid0 s)) as (Hok & Hst & Hcl & Hn & Hold & Hh & Hdom & Hnew).
  unfold add_container in *. destruct (ss_stats s !! cid0) as [q|] eqn:E.
  - repeat (split; [done|]). split; [|done]. intros cid. rewrite Hdom. split; [set_solver|].
    intros [|[->|]%elem_of_cons]; [by left|left; by exists q|by right].
  - cbn in *. split; [|split; [done|split; [done|split; [lia|split; [|split; [|split]]]]]].
    + intros Hs. apply Hok. pose proof (add_container_ok cid0 s Hs) as Ha.
      unfold add_container in Ha. by rewrite E in Ha.
    + intros cid p Hp. apply Hold. rewrite lookup_insert_ne; [done|congruence].
    + intros p Hp. rewrite Hh by lia. by rewrite lookup_insert_ne by lia.
    + intros cid. rewrite Hdom, lookup_insert_is_Some, elem_of_cons. destruct (decide (cid0 = cid)); naive_solver.
    + intros cid p Hp Hno. destruct (decide (cid = cid0)) as [->|Hne].
      * specialize (Hold cid0 (ss_next s)). rewrite lookup_insert_eq in Hold.
        specialize (Hold eq_refl). rewrite Hold in Hp. injection Hp as <-.
        rewrite Hh by lia. by rewrite lookup_insert_eq.
      * apply Hnew; [done|]. by rewrite lookup_insert_ne.
Qed.

(** Two entries never share an object. *)
Lemma entry_inj (s : stats_state) cid cid' p :
  stats_ok s -> ss_stats s !! cid = Some p -> ss_stats s !! cid' = Some p -> cid = cid'.
Proof.
  intros Hok H1 H2. destruct (ok_entry _ Hok _ _ H1) as ((cs & Hcs & <-) & _).
  destruct (ok_entry _ Hok _ _ H2) as ((cs' & Hcs' & <-) & _). congruence.
Qed.

Lemma cleanup_ok (ids : gset string) (s : stats_state) : stats_ok s -> stats_ok (cleanup ids s).
Proof.
  intros Hok. destruct (cleanup_spec ids s) as (Hh & Hc & _ & Hn & Hs & Hp).
  split; rewrite ?Hh, ?Hc, ?Hn; intros *.
  - rewrite Hs. case_decide as Hi; [|done]. intros E.
    destruct (ok_entry _ Hok _ _ E) as (H1 & H2 & H3). split; [done|]. split; [|done].
    rewrite Hp. intros [?|(k & Hk & Hnk)]; [done|]. by rewrite (entry_inj s _ _ _ Hok E Hk) in Hi.
  - rewrite Hp. intros [Hin|(k & Hk & _)]; [by apply ok_stopping|].
    destruct (ok_entry _ Hok _ _ Hk) as ((cs & Hcs & _) & _ & H3). split; [by exists cs|done].
  - intros Hc' Hne. destruct (ok_running _ Hok _ _ Hc' Hne) as [|[cid Hcid]].
    + left. apply Hp. by left.
    + destruct (decide (cid ∈ ids)) as [Hi|Hi].
      * right. exists cid. rewrite Hs. by rewrite decide_True.
      * left. apply Hp. right. by exists cid.
  - apply (ok_fresh _ Hok).
  - apply (ok_backoff _ Hok).
Qed.

Lemma set_clist_ok o (s : stats_state) : stats_ok s -> stats_ok (set_clist o s).
Proof. intros [H1 H2 H3 H4 H5]. by split. Qed.

Lemma follow_listing_ok clist (s : stats_state) : stats_ok s -> stats_ok (follow_listing clist s).
Proof. intros Hok. apply cleanup_ok. by apply add_containers_spec. Qed.

Lemma receive_listing_ok (s : stats_state) : stats_ok s -> stats_ok (receive_listing s).
Proof.
  intros Hok. unfold receive_listing. case_match; [|done].
  apply follow_listing_ok, set_clist_ok, Hok.
Qed.

Lemma collect_turn_ok b r cs cs' b' d :
  backoff_ok b -> collect_turn b r cs = Some (cs', b', d) ->
  backoff_ok b' /\ d = b' /\ containerID cs' = containerID cs.
Proof.
  unfold collect_turn, backoff_ok. pose proof minCollectInterval_ok as [_ Hm]. intros Hb.
  destruct r as [[z|]|err]; [intros [= <- <- <-]; cbn; lia || (split; [split; [lia|done]|done])|done|].
  intros [= <- <- <-]. split; [|done]. case_match; [|done].
  rewrite int64_id by (unfold in_int64, maxBackoffDuration, minCollectInterval, Minute, Second in *; lia).
  destruct (Z.leb_spec maxBackoffDuration (b * 2)); unfold minCollectInterval, Minute, Second in *; lia.
Qed.

(** Moving a goroutine that runs to another point where it runs. *)
Lemma move_collector_ok p c c' cs cs' (s : stats_state) :
  stats_ok s -> ss_collectors s !! p = Some c -> c <> Stopped ->
  c' <> Stopped -> collector_ok c' ->
  ss_heap s !! p = Some cs -> containerID cs' = containerID cs ->
  stats_ok (mkStats (ss_stats s) (<[p := cs']> (ss_heap s)) (<[p := c']> (ss_collectors s))
              (ss_stopping s) (ss_clist s) (ss_next s)).
Proof.
  intros Hok Hc Hn Hn' Hb Hcs Hid. split; cbn; intros *.
  - intros E. destruct (ok_entry _ Hok _ _ E) as ((cs0 & Hcs0 & Hid0) & Hs & c0 & Hc0 & Hn0).
    destruct (decide (p = p0)) as [<-|].
    + rewrite !lookup_insert_eq. split; [exists cs'; split; [done|congruence]|]. split; [done|by exists c'].
    + rewrite !lookup_insert_ne by done. split; [by exists cs0|]. split; [done|by exists c0].
  - intros Hin. destruct (ok_stopping _ Hok _ Hin) as (Hh & c0 & Hc0 & Hn0).
    destruct (decide (p = p0)) as [<-|].
    + rewrite !lookup_insert_eq. split; [done|by exists c'].
    + rewrite !lookup_insert_ne by done. split; [done|by exists c0].
  - rewrite lookup_insert_Some. intros [[<- <-]|[_ H]] Hne.
    + by apply (ok_running _ Hok _ _ Hc).
    + by apply (ok_running _ Hok _ _ H).
  - rewrite lookup_insert_Some. intros [[<- <-]|[_ H]].
    + by apply (ok_fresh _ Hok _ _ Hc).
    + by apply (ok_fresh _ Hok _ _ H).
  - rewrite lookup_insert_Some. intros [[<- <-]|[_ H]]; [done|]. by apply (ok_backoff _ Hok _ _ H).
Qed.

Lemma running_object (s : stats_state) p c :
  stats_ok s -> ss_collectors s !! p = Some c -> c <> Stopped -> exists cs, ss_heap s !! p = Some cs.
Proof.
  intros Hok Hc Hn. destruct (ok_running _ Hok _ _ Hc Hn) as [Hin|[cid Hcid]].
  - by apply (ok_stopping _ Hok) in Hin as [[cs ?] _]; exists cs.
  - apply (ok_entry _ Hok) in Hcid as [(cs & ? & _) _]. by exists cs.
Qed.

Lemma stats_step_ok (s s' : stats_state) : stats_step s s' -> stats_ok s -> stats_ok s'.
Proof.
  destruct 1 as [clist s Hn|clist s Hc|p b r s s' Hc Hr|p b d s Hc|p b d s Hc Hin]; intros Hok.
  - by apply set_clist_ok.
  - by apply receive_listing_ok.
  - unfold collect in Hr. destruct (ss_heap s !! p) as [cs|] eqn:Ecs; [|done].
    destruct (collect_turn b r cs) as [[[cs' b'] d]|] eqn:Et; [|done]. injection Hr as <-.
    apply collect_turn_ok in Et as (Hb & -> & Hid); [|by apply (ok_backoff _ Hok _ _ Hc)].
    by apply (move_collector_ok p (Collecting b) _ cs).
  - destruct (running_object _ _ _ Hok Hc) as [cs Hcs]; [done|].
    pose proof (move_collector_ok p _ (Collecting b) cs cs s Hok Hc) as Hm.
    rewrite (insert_id (ss_heap s)) in Hm by done. apply Hm; try done.
    by destruct (ok_backoff _ Hok _ _ Hc).
  - split; cbn; intros *.
    + intros E. destruct (ok_entry _ Hok _ _ E) as (H1 & H2 & c & H3 & H4).
      assert (p0 <> p) by congruence. rewrite lookup_insert_ne by done.
      split; [done|]. split; [set_solver|by exists c].
    + intros [Hi Hne]%elem_of_difference. rewrite lookup_insert_ne by set_solver. by apply ok_stopping.
    + rewrite lookup_insert_Some. intros [[<- <-]|[Hne H]] Hx; [done|].
      destruct (ok_running _ Hok _ _ H Hx) as [|?]; [left; set_solver|by right].
    + rewrite lookup_insert_Some. intros [[<- <-]|[_ H]]; by eapply (ok_fresh _ Hok).
    + rewrite lookup_insert_Some. intros [[<- <-]|[_ H]]; [done|]. by apply (ok_backoff _ Hok _ _ H).
Qed.

Lemma stats_reachable_ok (s : stats_state) : stats_reachable s -> stats_ok s.
Proof.
  intros H. remember newContainerStatsCache as s0 eqn:E. pose proof stats_ok_init as H0.
  rewrite <- E in H0. clear E. induction H; eauto using stats_step_ok.
Qed.

(** *** The cache follows the listings *)

Lemma getStats_entry (s : stats_state) cid p :
  stats_ok s -> ss_stats s !! cid = Some p -> exists cs, ss_heap s !! p = Some cs /\ getStats cid s = Some cs.
Proof.
  intros Hok E. destruct (ok_entry _ Hok _ _ E) as ((cs & Hcs & _) & _). exists cs.
  unfold getStats. by rewrite E.
Qed.

Lemma follow_listing_getStats (clist : list string) (s : stats_state) cid :
  stats_ok s ->
  getStats cid (follow_listing clist s)
  = if decide (cid ∈ clist) then Some (default (newCstats cid) (getStats cid s)) else None.
Proof.
  intros Hok. unfold follow_listing. set (s1 := foldl (fun s cid => add_container cid s) s clist).
  destruct (add_containers_spec clist s) as (Hok1 & _ & _ & _ & Hold & Hh & Hdom & Hnew).
  fold s1 in Hok1, Hold, Hh, Hdom, Hnew.
  destruct (cleanup_spec (list_to_set clist) s1) as (Hh2 & _ & _ & _ & Hs & _).
  unfold getStats at 1. rewrite Hs, Hh2.
  rewrite (decide_ext _ (cid ∈ clist)) by apply elem_of_list_to_set. case_decide as Hc; [|done].
  destruct (ss_stats s !! cid) as [p|] eqn:E.
  - rewrite (Hold _ _ E). destruct (getStats_entry _ _ _ Hok E) as (cs & Hcs & ->). cbn.
    rewrite Hh; [done|]. destruct (ok_entry _ Hok _ _ E) as (_ & _ & c & Hpc & _).
    by apply (ok_fresh _ Hok) in Hpc.
  - destruct (proj2 (Hdom cid) ltac:(by right)) as [p Hp]. rewrite Hp.
    rewrite (Hnew _ _ Hp E). unfold getStats. by rewrite E.
Qed.

Lemma getStats_set_clist o s cid : getStats cid (set_clist o s) = getStats cid s.
Proof. done. Qed.

(** C16: the goroutines of the statistics cache, in every state they can reach:
    each cached container has an object of its own, for which exactly one
    goroutine collects that nobody is stopping; and a goroutine that still runs
    belongs to a cached container or has someone waiting to stop it, so none
    leaks; each sleeps between one and twenty minutes. *)
Theorem stats_collectors_invariant (s : stats_state) :
  stats_reachable s ->
  (forall cid p, ss_stats s !! cid = Some p ->
     (exists cs, ss_heap s !! p = Some cs /\ containerID cs = cid) /\ p ∉ ss_stopping s
     /\ (exists c, ss_collectors s !! p = Some c /\ c <> Stopped)
     /\ forall cid', ss_stats s !! cid' = Some p -> cid' = cid)
  /\ (forall p c, ss_collectors s !! p = Some c -> c <> Stopped ->
        p ∈ ss_stopping s \/ exists cid, ss_stats s !! cid = Some p)
  /\ (forall p b d, ss_collectors s !! p = Some (Sleeping b d) ->
        (Minute <= d <= 20 * Minute)%Z).
Proof.
  intros Hok%stats_reachable_ok. split; [|split].
  - intros cid p E. destruct (ok_entry _ Hok _ _ E) as (H1 & H2 & H3).
    repeat (split; [done|]). intros cid' E'. by apply (entry_inj s _ _ p).
  - apply (ok_running _ Hok).
  - intros p b d E. by destruct (ok_backoff _ Hok _ _ E) as [H ->].
Qed.

(** One container listed, then none. *)
Definition dropped_listing : stats_state :=
  receive_listing (set_clist (Some []) (receive_listing
    (set_clist (Some ["a"]) newContainerStatsCache))).

Lemma dropped_listing_reachable : stats_reachable dropped_listing.
Proof.
  eapply rtc_l; [by apply (step_send ["a"])|].
  eapply rtc_l; [by apply (step_receive ["a"])|].
  eapply rtc_l; [apply (step_send []); reflexivity|].
  eapply rtc_l; [by apply (step_receive [])|]. apply rtc_refl.
Qed.

Lemma stats_collectors_invariant_witness :
  0 ∈ ss_stopping dropped_listing \/ exists cid, ss_stats dropped_listing !! cid = Some 0.
Proof.
  destruct (stats_collectors_invariant _ dropped_listing_reachable) as (_ & H & _).
  by apply (H 0 (Collecting Minute)).
Defined.

(** *** Stopping *)

Lemma Stopped_forever (s s' : stats_state) p :
  stats_ok s -> rtc stats_step s s' ->
  ss_collectors s !! p = Some Stopped -> ss_collectors s' !! p = Some Stopped.
Proof.
  intros Hok Hr. induction Hr as [s|s s1 s2 Hs Hr IH]; [done|]. intros Hp.
  apply IH; [by eapply stats_step_ok|]. clear IH Hr.
  destruct Hs as [clist s Hn|clist s Hc|q b r s s' Hc Hr|q b d s Hc|q b d s Hc Hin]; cbn; [done|..].
  - unfold receive_listing. rewrite Hc. unfold follow_listing.
    destruct (cleanup_spec (list_to_set clist)
      (foldl (fun s cid => add_container cid s) (set_clist None s) clist)) as (_ & -> & _).
    apply (set_clist_ok None) in Hok. change (ss_collectors (set_clist None s) !! p = Some Stopped) in Hp.
    clear Hc. revert Hok Hp. generalize (set_clist None s). clear s.
    induction clist as [|cid clist IH]; intros s Hok Hp; [done|]. apply IH; [by apply add_container_ok|].
    unfold add_container. case_match; [done|]. cbn.
    rewrite lookup_insert_ne; [done|]. apply (ok_fresh _ Hok) in Hp. lia.
  - unfold collect in Hr. destruct (ss_heap s !! q); [|done].
    destruct (collect_turn b r c) as [[[? ?] ?]|]; [|done]. injection Hr as <-. cbn.
    rewrite lookup_insert_ne; congruence.
  - rewrite lookup_insert_ne; congruence.
  - destruct (decide (q = p)) as [->|]; [by rewrite lookup_insert_eq|by rewrite lookup_insert_ne].
Qed.

Lemma stop_sleeping (s : stats_state) p b d :
  ss_collectors s !! p = Some (Sleeping b d) -> p ∈ ss_stopping s ->
  exists s', stats_step s s' /\ ss_collectors s' = <[p := Stopped]> (ss_collectors s)
    /\ ss_stats s' = ss_stats s /\ p ∉ ss_stopping s'.
Proof. intros Hc Hin. eexists. split; [by eapply step_stop|]. cbn. set_solver. Qed.

(** A goroutine that is being stopped can always finish, whatever the
    client answers to the size it is waiting for (unless it answers without a
    size): it takes at most two of its own steps, no other goroutine has to move
    and no entry of the cache changes; once stopped it never runs again. *)
Theorem stopping_collector_stops (s : stats_state) (p : nat) (r : res (option Z)) :
  stats_reachable s -> p ∈ ss_stopping s -> r <> Ok None ->
  exists n s', n <= 2 /\ nsteps stats_step n s s'
    /\ ss_collectors s' !! p = Some Stopped /\ p ∉ ss_stopping s'
    /\ ss_stats s' = ss_stats s
    /\ (forall q, q <> p -> ss_collectors s' !! q = ss_collectors s !! q)
    /\ (forall s'', rtc stats_step s' s'' -> ss_collectors s'' !! p = Some Stopped).
Proof.
  intros Hok%stats_reachable_ok Hin Hr.
  destruct (ok_stopping _ Hok _ Hin) as ([cs Hcs] & c & Hc & Hn).
  assert (forall n s1 s2, stats_ok s1 -> nsteps stats_step n s1 s2 -> stats_ok s2) as Hsteps.
  { intros n s1 s2 H1 Hns. induction Hns; eauto using stats_step_ok. }
  assert (exists n s', n <= 2 /\ nsteps stats_step n s s'
    /\ ss_collectors s' !! p = Some Stopped /\ p ∉ ss_stopping s' /\ ss_stats s' = ss_stats s
    /\ (forall q, q <> p -> ss_collectors s' !! q = ss_collectors s !! q))
    as (n & s' & Hle & Hns & Hst & Hnin & Hstats & Hq).
  { destruct c as [b|b d|]; [| |done].
    - destruct (collect_turn b r cs) as [[[cs' b'] d]|] eqn:Et.
      2: { destruct r as [[z|]|e]; done. }
      destruct (collect p b r s) as [s1|] eqn:E1; unfold collect in E1; rewrite Hcs, Et in E1; [|done].
      pose proof E1 as E1'. injection E1' as <-.
      edestruct (stop_sleeping (mkStats (ss_stats s) (<[p := cs']> (ss_heap s))
        (<[p := Sleeping b' d]> (ss_collectors s)) (ss_stopping s) (ss_clist s) (ss_next s)) p b' d)
        as (s' & Hs & Hcol & Hstats & Hnin); [apply lookup_insert_eq|done|].
      exists 2, s'. split; [lia|]. split.
      { econstructor; [|econstructor; [exact Hs|constructor]].
        eapply (step_collect p b r); [done|]. unfold collect. by rewrite Hcs, Et. }
      rewrite Hcol. cbn. rewrite lookup_insert_eq. repeat (split; [done|]).
      intros q Hq. by rewrite !lookup_insert_ne by done.
    - destruct (stop_sleeping s p b d Hc Hin) as (s' & Hs & Hcol & Hstats & Hnin).
      exists 1, s'. split; [lia|]. split; [econstructor; [exact Hs|constructor]|].
      rewrite Hcol, lookup_insert_eq. repeat (split; [done|]).
      intros q Hq. by rewrite lookup_insert_ne by done. }
  exists n, s'. repeat (split; [done|]). intros s'' Hrtc.
  eapply Stopped_forever; [|done..]. by eapply Hsteps.
Qed.

Lemma stopping_collector_stops_witness :
  exists n s', n <= 2 /\ nsteps stats_step n dropped_listing s'
    /\ ss_collectors s' !! 0 = Some Stopped.
Proof.
  destruct (stopping_collector_stops dropped_listing 0 (Err (Sentinel DeadlineExceeded))
    dropped_listing_reachable ltac:(by apply (bool_decide_unpack _)) ltac:(done))
    as (n & s' & H1 & H2 & H3 & _).
  exists n, s'. by split.
Defined.

(** *** Backing off *)

Definition is_timeout (err : error) : bool := errors_Is err Canceled || errors_Is err DeadlineExceeded.

(** The backoff after a sequence of answers. *)
Fixpoint backoff_after (b : Z) (answers : list (res (option Z))) (cs : cstats) : option Z :=
  match answers with
  | [] => Some b
  | r :: answers' =>
      match collect_turn b r cs with
      | None => None
      | Some (cs', b', _) => backoff_after b' answers' cs'
      end
  end.

Lemma backoff_after_timeouts errs k cs :
  Forall (fun e => is_timeout e = true) errs ->
  backoff_after (Z.min (2 ^ Z.of_nat k * Minute) (20 * Minute)) (Err <$> errs) cs
  = Some (Z.min (2 ^ Z.of_nat (k + length errs) * Minute) (20 * Minute)).
Proof.
  intros H. revert k. induction H as [|e errs He H IH]; intros k; cbn [fmap list_fmap backoff_after length].
  { by rewrite Nat.add_0_r. }
  cbn [collect_turn]. unfold is_timeout in He. rewrite He. cbn.
  replace (k + S (length errs))%nat with (S k + length errs)%nat by lia. rewrite <- (IH (S k)). f_equal.
  rewrite Nat2Z.inj_succ, Z.pow_succ_r by lia.
  assert (0 < 2 ^ Z.of_nat k)%Z by (apply Z.pow_pos_nonneg; lia).
  unfold maxBackoffDuration, Minute, Second in *.
  rewrite int64_id by (unfold in_int64; lia).
  case_match eqn:E; [apply Z.leb_le in E|apply Z.leb_gt in E]; lia.
Qed.

(** How long a goroutine sleeps.  Every timeout in a row doubles the
    pause, from one minute to a ceiling of twenty, without overflow; an answer
    brings it back to one minute, another error leaves it; and whatever the
    answers were the pause is within these bounds. *)
Theorem collect_backoff (cs : cstats) :
  (forall errs, Forall (fun e => is_timeout e = true) errs ->
     backoff_after minCollectInterval (Err <$> errs) cs
     = Some (Z.min (2 ^ Z.of_nat (length errs) * Minute) (20 * Minute)))
  /\ (forall answers b, backoff_after minCollectInterval answers cs = Some b ->
        (Minute <= b <= 20 * Minute)%Z
        /\ (forall size, collect_turn b (Ok (Some size)) cs
              = Some (mkCstats (containerID cs) (uint64 size) true, Minute, Minute))
        /\ (forall err, is_timeout err = false -> collect_turn b (Err err) cs = Some (cs, b, b))).
Proof.
  split.
  - intros errs H. apply (backoff_after_timeouts errs 0 cs) in H. exact H.
  - intros answers b Hb. assert (backoff_ok b) as Hok.
    { revert Hb. generalize minCollectInterval_ok. generalize minCollectInterval. generalize cs.
      induction answers as [|r answers IH]; intros cs' b0 H0; cbn; [by intros [= <-]|].
      destruct (collect_turn b0 r cs') as [[[cs1 b1] d]|] eqn:E; [|done].
      apply collect_turn_ok in E as (H1 & _); [|done]. by apply IH. }
    split; [exact Hok|]. split; [done|]. intros err He. cbn. unfold is_timeout in He. by rewrite He.
Qed.

(** *** Listing statistics *)

Section ListTheory.
Context {W St : Type} `{DockerClient W} `{NetworkPlugin W} `{Clock W} `{HostOS W}.
Context `{Store St} `{StatsClient W} `{StatFs W}.
Variable cfg : service_config.
Variable show : DockerContainer -> string.

Lemma getContainerStats_frame c (s s' : stats_state) (ds ds' : dockerService W St) r :
  getContainerStats cfg c (s, ds) = (r, (s', ds')) ->
  s' = s /\ match r with
            | Ok st => st_Id st = c_Id c
                /\ st_WritableLayer st
                   = match getStats (c_Id c) s with
                     | Some cs => if initialized cs
                         then Some (mkFilesystemUsage (st_Timestamp st) (cfg_dockerRootDir cfg)
                                      (Some (rwLayerSize cs)) None) else None
                     | None => None
                     end
            | Err _ => True
            end.
Proof.
  unfold getContainerStats, try, bind, onDS, onStats, onW, ret.
  destruct (GetContainerStats (c_Id c) (ds_world ds)) as [[x|e] w1]; [|by intros [= <- <- _]].
  destruct (Now _) as [t w2]. intros [= <- <- _]. split; [done|]. by split.
Qed.

Lemma collect_all_spec (order : list Container) acc (s s' : stats_state) (ds ds' : dockerService W St) r :
  collect_all cfg order acc (s, ds) = (r, (s', ds')) ->
  s' = s /\ match r with
            | Ok l => exists l', l = acc ++ l' /\ st_Id <$> l' `sublist_of` c_Id <$> order
            | Err _ => True
            end.
Proof.
  revert acc ds. induction order as [|c order IH]; intros acc ds; cbn [collect_all].
  { intros [= <- <- _]. split; [done|]. exists []. by rewrite app_nil_r. }
  unfold bind at 1. destruct (onDS (onW ctx_Err) (s, ds)) as [[e|] [s0 ds0]] eqn:E.
  { unfold onDS in E. destruct (onW ctx_Err ds). injection E as _ <- _. by intros [= <- <- _]. }
  assert (s0 = s) as -> by (unfold onDS in E; destruct (onW ctx_Err ds); by injection E).
  unfold bind. destruct (getContainerStats cfg c (s, ds0)) as [r0 [s1 ds1]] eqn:Eg.
  apply getContainerStats_frame in Eg as [-> Hg]. intros Hr.
  destruct r0 as [st|e0].
  - destruct (IH _ _ Hr) as [-> Hx]. split; [done|]. destruct r as [l|]; [|done].
    destruct Hx as (l' & -> & Hl'). exists (st :: l'). rewrite <- app_assoc. split; [done|].
    cbn. destruct Hg as [-> _]. by apply sublist_skip.
  - destruct (IH _ _ Hr) as [-> Hx]. split; [done|]. destruct r as [l|]; [|done].
    destruct Hx as (l' & -> & Hl'). exists l'. split; [done|]. cbn. by apply sublist_cons.
Qed.

Definition stats_filter (flt : option (string * string * gmap string string)) : ContainerFilter :=
  match flt with
  | Some (id, sandbox, labels) => mkContainerFilter id None sandbox labels
  | None => mkContainerFilter "" None "" ∅
  end.

(** Listing statistics, filtered or not, steers the cache.  It answers with
    one entry per container of the listing at most, in the order in which the
    workers finished, skipping those whose statistics failed; and once the
    listing has been taken from the channel the cache holds exactly the
    containers of that listing, with what was known of them, so a filtered
    call makes it forget every other container. *)
Theorem list_stats_steers_cache finish flt (s s' : stats_state) (ds ds' : dockerService W St) stats :
  stats_reachable s ->
  ds_ListContainerStats cfg show finish flt (s, ds) = (Ok stats, (s', ds')) ->
  exists containers ds1,
    ds_ListContainers show (Some (stats_filter flt)) ds = (Ok containers, ds1)
    /\ st_Id <$> stats `sublist_of` c_Id <$> (match containers with [] => [] | _ => finish containers end)
    /\ forall cid, getStats cid (receive_listing s')
         = if decide (cid ∈ c_Id <$> containers)
           then Some (default (newCstats cid) (getStats cid (receive_listing s))) else None.
Proof.
  intros Hok%stats_reachable_ok. unfold ds_ListContainerStats. fold (stats_filter flt).
  unfold try, bind at 1, onDS at 1.
  destruct (ds_ListContainers show (Some (stats_filter flt)) ds) as [[containers|e] ds1] eqn:E; [|done].
  unfold bind at 1. intros Hr. exists containers, ds1. split; [done|].
  assert (s' = send_listing (c_Id <$> containers) s
    /\ st_Id <$> stats `sublist_of` c_Id <$> (match containers with [] => [] | _ => finish containers end))
    as [-> Hsub].
  { destruct containers as [|c cs]; [by injection Hr as <- <- _|].
    apply collect_all_spec in Hr as [-> (l' & -> & Hl')]. by split. }
  split; [exact Hsub|]. intros cid. unfold receive_listing at 1, send_listing. cbn [set_clist ss_clist].
  rewrite follow_listing_getStats by (by apply set_clist_ok, set_clist_ok, receive_listing_ok).
  by rewrite !getStats_set_clist.
Qed.

End ListTheory.

(** *** Image file system usage *)

Definition sumZ (l : list Z) : Z := foldr Z.add 0%Z l.

Lemma sumZ_cons x l : sumZ (x :: l) = (x + sumZ l)%Z.
Proof. done. Qed.

Lemma uint64_add_l a b : uint64 (uint64 a + b) = uint64 (a + b).
Proof. unfold uint64, wrap_u. by rewrite Zplus_mod_idemp_l. Qed.
Lemma uint64_add_r a b : uint64 (a + uint64 b) = uint64 (a + b).
Proof. unfold uint64, wrap_u. by rewrite Zplus_mod_idemp_r. Qed.
Lemma uint64_small z : (0 <= z < 2 ^ 64)%Z -> uint64 z = z.
Proof. intros H. unfold uint64, wrap_u. by rewrite Z.mod_small. Qed.

Lemma foldl_uint64 {A} (f : A -> Z) (l : list A) t :
  foldl (fun total x => uint64 (total + f x)) (uint64 t) l = uint64 (t + sumZ (f <$> l)).
Proof.
  revert t. induction l as [|x l IH]; intros t; cbn [foldl].
  { cbn. by rewrite Z.add_0_r. }
  rewrite uint64_add_l, IH, fmap_cons, sumZ_cons. f_equal. lia.
Qed.

Lemma sumZ_perm (l l' : list Z) : l ≡ₚ l' -> sumZ l = sumZ l'.
Proof. induction 1; rewrite ?sumZ_cons; lia. Qed.

(** The bytes of an image that no other shares. *)
Definition own_bytes (i : ImageSummary) : Z :=
  if (is_SharedSize i =? -1)%Z then is_Size i else (is_Size i - is_SharedSize i)%Z.
(** The shared sizes, each once. *)
Definition shared_sizes (images : list ImageSummary) : gset Z :=
  list_to_set (base.filter (fun z => z <> (-1)%Z) (is_SharedSize <$> images)).

Lemma image_sizes_spec images t m :
  image_sizes images (uint64 t) m
  = (uint64 (t + sumZ (own_bytes <$> images)), shared_sizes images ∪ m).
Proof.
  unfold shared_sizes. revert t m. induction images as [|i images IH]; intros t m.
  { cbn. rewrite Z.add_0_r. f_equal. set_solver. }
  rewrite !fmap_cons, filter_cons, sumZ_cons. cbn [image_sizes]. unfold own_bytes at 1.
  destruct (Z.eqb_spec (is_SharedSize i) (-1)) as [E|E]; case_decide; try done.
  - rewrite uint64_add_r, uint64_add_l, IH. f_equal. f_equal. lia.
  - rewrite uint64_add_r.
    assert (uint64 (uint64 t + (uint64 (is_Size i) - uint64 (is_SharedSize i)))
            = uint64 (t + (is_Size i - is_SharedSize i))) as ->.
    { unfold uint64, wrap_u. by rewrite <- Zplus_mod_idemp_r, <- Zminus_mod, <- Zplus_mod. }
    rewrite IH. f_equal; [f_equal; lia|set_solver].
Qed.

(** The byte counts of [ImageFsInfo].  Images: the sum of what each image
    has to itself and of the distinct shared sizes, modulo 2^64, in whatever
    order the set of shared sizes is visited, hence the exact sum when it fits;
    the same for the writable layers of the cached containers. *)
Theorem image_fs_total (images : list ImageSummary) (s : stats_state) :
  (forall order, order ≡ₚ elements (shared_sizes images) ->
     let '(own, shared) := image_sizes images 0 ∅ in
     let exact := (sumZ (own_bytes <$> images) + sumZ order)%Z in
     elements shared ≡ₚ order
     /\ add_shared own order = uint64 exact
     /\ ((0 <= exact < 2 ^ 64)%Z -> add_shared own (elements shared) = exact))
  /\ (forall order, order ≡ₚ snd <$> map_to_list (ss_stats s) ->
     let sizes := (fun p => default 0%Z (rwLayerSize <$> ss_heap s !! p)) <$> order in
     writeable_layer_order s order = uint64 (sumZ sizes)
     /\ getWriteableLayer s = uint64 (sumZ sizes)).
Proof.
  split.
  - intros order Ho. pose proof (image_sizes_spec images 0 ∅) as E. change (uint64 0) with 0%Z in E.
    rewrite E. assert (shared_sizes images ∪ ∅ = shared_sizes images) as -> by set_solver.
    assert (forall l, l ≡ₚ order -> add_shared (uint64 (0 + sumZ (own_bytes <$> images))) l
              = uint64 (sumZ (own_bytes <$> images) + sumZ order)) as Hl.
    { intros l Hl. unfold add_shared.
      assert (forall t, foldl (fun total k => uint64 (total + uint64 k)) (uint64 t) l
                = uint64 (t + sumZ (id <$> l))) as F.
      { intros t. rewrite <- (foldl_uint64 id l t). generalize (uint64 t) as z.
        clear. induction l as [|x l IH]; intros z; cbn [foldl]; [done|].
        by rewrite uint64_add_r, IH. }
      rewrite F, list_fmap_id, (sumZ_perm _ _ Hl). done. }
    split; [by symmetry|]. split; [by apply Hl|]. intros Hb.
    rewrite Hl by (by symmetry). by apply uint64_small.
  - intros order Ho sizes. unfold getWriteableLayer, writeable_layer_order.
    set (f := fun p => default 0%Z (rwLayerSize <$> ss_heap s !! p)).
    pose proof (foldl_uint64 f order 0) as E1. pose proof (foldl_uint64 f (snd <$> map_to_list (ss_stats s)) 0) as E2.
    change (uint64 0) with 0%Z in E1, E2. rewrite Z.add_0_l in E1, E2.
    split; [exact E1|]. unfold f in E2. rewrite E2. f_equal. apply sumZ_perm. unfold sizes. by rewrite Ho.
Qed.

(** Two images of 100 bytes that share 60, and one of 7. *)
Lemma image_fs_total_witness :
  let images := [mkImageSummary "a" [] [] 100 60; mkImageSummary "b" [] [] 100 60;
                 mkImageSummary "c" [] [] 7 (-1)] in
  let '(own, shared) := image_sizes images 0 ∅ in add_shared own [60%Z] = 147%Z.
Proof.
  intros images. destruct (image_fs_total images newContainerStatsCache) as [H _].
  specialize (H [60%Z] ltac:(by apply (bool_decide_unpack _); vm_compute)).
  destruct (image_sizes images 0 ∅) as [own shared] eqn:E. destruct H as (_ & -> & _).
  vm_compute. reflexivity.
Defined.

(** ** A concrete run *)

#[local] Instance sim_stats : StatsClient sim := {|
  GetContainerStats := fun id => sim_op "stats" (ret (Ok (mkStatsJSON 5 4096)));
  InspectContainerWithSize := fun id => sim_op "inspect_size" (ret (Ok (Some 77%Z)));
  ctx_Err := ret None;
|}.

Definition main_name : string := "k8s_main_pod_ns_uid_0".
Definition sim_with_container : sim :=
  snd (CreateContainer (mkContainerCreateConfig main_name
         (mkDockerConfig "" "" ∅ false false false [] [] None "busybox" "" []
            {[ containerTypeLabelKey := containerTypeLabelContainer ]} ∅ "") zero_HostConfig) sim_empty).
Definition sim_service : dockerService sim (gmap string string) :=
  mkDockerService sim_with_container ∅ ∅ ∅ ∅.

(** The cache knows "a"; a listing finds only "main". *)
Definition cached_a : stats_state :=
  receive_listing (set_clist (Some ["a"]) newContainerStatsCache).
Definition listed : res (list ContainerStats) * (stats_state * dockerService sim (gmap string string)) :=
  ds_ListContainerStats sim_config (fun _ => "") id None (cached_a, sim_service).

Lemma cached_a_reachable : stats_reachable cached_a.
Proof.
  eapply rtc_l; [by apply (step_send ["a"])|].
  eapply rtc_l; [by apply (step_receive ["a"])|]. apply rtc_refl.
Qed.

Definition listed_stats : list ContainerStats :=
  match fst listed with Ok l => l | Err _ => [] end.

Lemma listed_ok : listed = (Ok listed_stats, (fst (snd listed), snd (snd listed))).
Proof.
  assert (is_ok (fst listed) = true) as H by (vm_compute; reflexivity).
  unfold listed_stats. destruct listed as [[l|e] [s ds]]; [reflexivity|discriminate H].
Qed.

Lemma list_stats_steers_cache_witness :
  st_Id <$> listed_stats = [main_name] /\ getStats "a" cached_a = Some (newCstats "a")
  /\ getStats "a" (receive_listing (fst (snd listed))) = None.
Proof.
  split; [vm_compute; reflexivity|]. split; [vm_compute; reflexivity|].
  pose proof listed_ok as E.
  destruct (list_stats_steers_cache sim_config (fun _ => "") id None cached_a _ sim_service _ _
              cached_a_reachable E) as (cs & ds1 & Hl & _ & H).
  apply (f_equal (fun x => result_map (fmap c_Id) (fst x))) in Hl. cbn [fst] in Hl.
  assert (c_Id <$> cs = [main_name]) as Hc by (symmetry; vm_compute in Hl; by injection Hl).
   specialize (H "a"). rewrite Hc in H. exact H.
Defined.
