(* ===== verification/Exec.v ===== *)
(** * Exec: commands in containers, attaching, forwarding and logs

    core/exec.go and core/container_exec.go ([ExecSync] and the exec handler),
    streaming/streaming.go and streaming/streaming_others.go (the streaming
    runtime), the streaming calls of libdocker/kube_docker_client.go, and the
    log requests of core/logs.go.  A connection to the daemon is the bytes it
    delivers and how it ends; the daemon multiplexes the two output streams of
    a command without a terminal on it, in frames with a header of eight bytes. *)
From S2P Require Import Prelude GoErrors Cri Naming Labels Cache Store Checkpoint Libdocker PluginManager Service Hostport PortForward Writers RequestCache Sim.

(** ** Connections *)

(** The bytes read until the end or until the error that ends them. *)
Record hijacked := mkHijacked { hj_bytes : string; hj_err : option error }.

Inductive StdType := Stdin | Stdout | Stderr | Systemerr | Unrecognized (n : N).

Definition std_type (c : ascii) : StdType :=
  match Ascii.N_of_ascii c with
  | 0%N => Stdin
  | 1%N => Stdout
  | 2%N => Stderr
  | 3%N => Systemerr
  | n => Unrecognized n
  end.

(** The header: the stream, three zero bytes, the size in big-endian order. *)
Definition frame_header (s : string) : option (StdType * N * string) :=
  match s with
  | String t (String _ (String _ (String _ (String a (String b (String c (String d rest))))))) =>
      let byte := Ascii.N_of_ascii in
      Some (std_type t, (((byte a * 256 + byte b) * 256 + byte c) * 256 + byte d)%N, rest)
  | _ => None
  end.

(** [io.Copy] of what remains of a raw connection, as if in one read: how the
    bytes are cut into reads is the connection's. *)
Definition io_Copy {Out} (out : string -> M Out wres) (c : hijacked) : M Out (option error) :=
  if decide (hj_bytes c = "") then ret (hj_err c)
  else
    let* '(n, err) := out (hj_bytes c) in
    ret (match err with
         | Some e => Some e
         | None => if (n =? len (hj_bytes c))%Z then hj_err c else Some (Sentinel ErrShortWrite)
         end).

(** [dockerstdcopy.StdCopy]: demultiplex; a frame that is cut off ends the
    copy.  Each frame takes at least its header, so the length is enough fuel. *)
Fixpoint StdCopy_loop {Out} (fuel : nat) (out errw : string -> M Out wres) (src : string)
  (rerr : option error) : M Out (option error) :=
  match fuel with
  | O => ret rerr
  | S fuel' =>
      match frame_header src with
      | None => ret rerr
      | Some (Unrecognized n, _, _) => ret (Some (Errorf ("Unrecognized input header: " +:+ utoa n)))
      | Some (stream, frameSize, rest) =>
          if (N.of_nat (String.length rest) <? frameSize)%N then ret rerr
          else
            let payload := stake (N.to_nat frameSize) rest in
            let rest' := sdrop (N.to_nat frameSize) rest in
            match stream with
            | Systemerr => ret (Some (Errorf ("error from daemon in stream: " +:+ payload)))
            | _ =>
                let w := match stream with Stderr => errw | _ => out end in
                let* '(n, err) := w payload in
                match err with
                | Some e => ret (Some e)
                | None => if (n =? len payload)%Z then StdCopy_loop fuel' out errw rest' rerr
                          else ret (Some (Sentinel ErrShortWrite))
                end
            end
      end
  end.
Definition StdCopy {Out} (out errw : string -> M Out wres) (c : hijacked) : M Out (option error) :=
  StdCopy_loop (String.length (hj_bytes c)) out errw (hj_bytes c) (hj_err c).

(** [redirectResponseToOutputStream]: a missing stream is discarded. *)
Definition io_Discard {Out} (p : string) : M Out wres := ret (len p, None).
Definition redirectResponseToOutputStream {Out} (tty : bool)
  (outputStream errorStream : option (string -> M Out wres)) (resp : hijacked) : M Out (option error) :=
  let out := default io_Discard outputStream in
  let errw := default io_Discard errorStream in
  if tty then io_Copy out resp else StdCopy out errw resp.

(** ** Options *)

Record LogsOptions := mkLogsOptions {
  lg_ShowStdout : bool;
  lg_ShowStderr : bool;
  lg_Since : string;
  lg_Timestamps : bool;
  lg_Follow : bool;
  lg_Tail : string;
}.

(** [v1.PodLogOptions]; times in seconds. *)
Record PodLogOptions := mkPodLogOptions {
  pl_SinceSeconds : option Z;
  pl_SinceTime : option Z;
  pl_Timestamps : bool;
  pl_Follow : bool;
  pl_TailLines : option Z;
  pl_LimitBytes : option Z;
}.

Record ExecSyncResponse := mkExecSyncResponse {
  es_Stdout : string;
  es_Stderr : string;
  es_ExitCode : Z;
}.

Record AttachOptions := mkAttachOptions {
  ao_Stream : bool;
  ao_Stdin : bool;
  ao_Stdout : bool;
  ao_Stderr : bool;
}.

(** ** The daemon, and the commands of the host *)

Class StreamAPI (W : Type) := {
  ContainerExecAttach : string -> bool -> M W (res hijacked * ctx_err);
  ContainerAttach : string -> AttachOptions -> M W (res hijacked * ctx_err);
  ContainerLogs : string -> LogsOptions -> M W (res hijacked * ctx_err);
  (** What the select of the exec handler sees first: the error of a context
      with this timeout (none for zero), or the end of the exec. *)
  ctx_Done : Z -> M W (option error);
  exec_LookPath : string -> M W (res string);
  (** Run a command with its arguments on a stream: its error and what it
      wrote to its error stream. *)
  command_Run : string -> list string -> M W (option error * string);
}.

(** The answer of an exec handler: an exit error carries the inspection. *)
Inductive exec_result :=
| ExecOK
| dockerExitError (Inspect : ExecInspect)
| ExecError (err : error).

Definition Exited (i : ExecInspect) : bool := negb (ei_Running i).
Definition ExitStatus (i : ExecInspect) : Z := ei_ExitCode i.

Definition maxMsgSize : Z := (1024 * 1024 * 16)%Z.

(** The sizes [handleResizing] passes on (height and width). *)
Definition handleResizing (resize : option (list (Z * Z))) : list (Z * Z) :=
  match resize with
  | None => []
  | Some sizes => base.filter (fun size => ~ (fst size < 1 \/ snd size < 1)%Z) sizes
  end.

Section Exec.
Context {W : Type} `{DockerClient W} `{StreamAPI W} `{Clock W}.

(** *** The client's streaming calls *)

Section Client.
Context {Out : Type}.
Variables outputStream errorStream : option (string -> M Out wres).

(** An action of the world, of the writers. *)
Definition onWorld {A} (m : M W A) : M (W * Out) A := fun '(w, o) =>
  let '(a, w') := m w in (a, (w', o)).
Definition onOut {A} (m : M Out A) : M (W * Out) A := fun '(w, o) =>
  let '(a, o') := m o in (a, (w, o')).

(** [holdHijackedConnection]: the output is copied until the connection ends;
    without an output stream only the end of the input is waited for. *)
Definition holdHijackedConnection (tty : bool) (resp : hijacked) : M Out (option error) :=
  match outputStream, errorStream with
  | None, None => ret None
  | _, _ => redirectResponseToOutputStream tty outputStream errorStream resp
  end.

Definition kc_StartExec (startExec : string) (tty : bool) : M (W * Out) (option error) :=
  let* r := onWorld (checked (ContainerExecAttach startExec tty)) in
  match r with
  | Err err => ret (Some err)
  | Ok resp => onOut (holdHijackedConnection tty resp)
  end.

Definition kc_AttachToContainer (id : string) (opts : AttachOptions) (tty : bool)
  : M (W * Out) (option error) :=
  let* r := onWorld (checked (ContainerAttach id opts)) in
  match r with
  | Err err => ret (Some err)
  | Ok resp => onOut (holdHijackedConnection tty resp)
  end.

Definition kc_Logs (id : string) (opts : LogsOptions) (tty : bool) : M (W * Out) (option error) :=
  let* r := onWorld (checked (ContainerLogs id opts)) in
  match r with
  | Err err => ret (Some err)
  | Ok resp => onOut (redirectResponseToOutputStream tty outputStream errorStream resp)
  end.

(** *** Exec (core/exec.go) *)

Definition maxRetries : Z := 5.

(** The loop that polls the exec until its process has ended; None when the
    fuel is used up. *)
Fixpoint poll_exec (fuel : nat) (execID : string) (retries : Z) : M W (option exec_result) :=
  match fuel with
  | O => ret None
  | S fuel' =>
      let* r := InspectExec execID in
      match r with
      | Err err => ret (Some (ExecError err))
      | Ok inspect =>
          if negb (ei_Running inspect) then
            if (ei_ExitCode inspect =? 0)%Z then ret (Some ExecOK)
            else ret (Some (dockerExitError inspect))
          else
            let retries := (retries + 1)%Z in
            if (retries =? maxRetries)%Z then ret (Some ExecOK)
            else poll_exec fuel' execID retries
      end
  end.

(** More than the five turns that [exec_polling_terminates] shows it takes. *)
Definition poll_fuel : nat := 6.

Definition ExecInContainer (containerID : string) (cmd : list string) (stdin : bool) (tty : bool)
  (timeout : Z) : M (W * Out) exec_result :=
  let createOpts := mkExecOptions tty stdin (bool_decide (is_Some outputStream))
                      (bool_decide (is_Some errorStream)) cmd in
  let* r := onWorld (CreateExec containerID createOpts) in
  match r with
  | Err err =>
      ret (ExecError (Errorf ("failed to exec in container - Exec setup failed - " +:+ Error err)))
  | Ok execID =>
      let* d := onWorld (ctx_Done timeout) in
      match d with
      | Some err => ret (ExecError err)
      | None =>
          let* e := kc_StartExec execID tty in
          match e with
          | Some err => ret (ExecError err)
          | None =>
              let* p := onWorld (poll_exec poll_fuel execID 0) in
              ret (default ExecOK p)
          end
      end
  end.

(** *** The streaming runtime *)

Definition ExecWithContext (containerID : string) (cmd : list string) (stdin tty : bool) (timeout : Z)
  : M (W * Out) exec_result :=
  let* r := onWorld (CheckContainerStatus containerID) in
  match r with
  | Err err => ret (ExecError err)
  | Ok container => ExecInContainer (cj_ID container) cmd stdin tty timeout
  end.

(** [StreamingRuntime.Exec]: no timeout. *)
Definition sr_Exec (containerID : string) (cmd : list string) (stdin tty : bool)
  : M (W * Out) exec_result := ExecWithContext containerID cmd stdin tty 0.

Definition attachContainer (containerID : string) (stdin tty : bool) : M (W * Out) (option error) :=
  kc_AttachToContainer containerID
    (mkAttachOptions true stdin (bool_decide (is_Some outputStream))
       (bool_decide (is_Some errorStream))) tty.

Definition sr_Attach (containerID : string) (stdin tty : bool) : M (W * Out) (option error) :=
  let* r := onWorld (CheckContainerStatus containerID) in
  match r with
  | Err err => ret (Some err)
  | Ok _ => attachContainer containerID stdin tty
  end.

End Client.

(** The command that forwards a port of a sandbox to a stream. *)
Definition forward_args (containerPid : Z) (socatPath : string) (port : Z) : list string :=
  ["-t"; itoa containerPid; "-n"; socatPath; "-"; "TCP4:localhost:" +:+ itoa port].

Definition portForward (podSandboxID : string) (port : Z) : M W (option error) :=
  let* r := InspectContainer podSandboxID in
  match r with
  | Err err => ret (Some err)
  | Ok container =>
      if negb (st_Running (cj_State container)) then
        ret (Some (Errorf ("container not running (" +:+ cj_ID container +:+ ")")))
      else
        let* s := exec_LookPath "socat" in
        match s with
        | Err _ => ret (Some (Errorf "unable to do port forwarding: socat not found"))
        | Ok socatPath =>
            let* n := exec_LookPath "nsenter" in
            match n with
            | Err _ => ret (Some (Errorf "unable to do port forwarding: nsenter not found"))
            | Ok nsenterPath =>
                let* '(err, stderr) :=
                  command_Run nsenterPath (forward_args (st_Pid (cj_State container)) socatPath port) in
                ret (match err with
                     | None => None
                     | Some e => Some (Errorf (Error e +:+ ": " +:+ stderr))
                     end)
            end
        end
  end.

Definition sr_PortForward (podSandboxID : string) (port : Z) : M W (option error) :=
  if (port <? 0)%Z || (65535 <? port)%Z then ret (Some (Errorf ("invalid port " +:+ itoa port)))
  else portForward podSandboxID port.

(** *** ExecSync *)

(** The two buffers behind their limits. *)
Abbreviation bufs := (Limited.LimitedWriter string * Limited.LimitedWriter string)%type.
Definition write_stdout (p : string) : M bufs wres := fun '(o, e) =>
  let '(r, o') := Limited.Write_ p o in (r, (o', e)).
Definition write_stderr (p : string) : M bufs wres := fun '(o, e) =>
  let '(r, e') := Limited.Write_ p e in (r, (o, e')).

(** The response to what the handler answered, with the two buffers. *)
Definition sync_response (r : exec_result) (b : bufs) : res ExecSyncResponse :=
  let resp exitCode :=
    Ok (mkExecSyncResponse (Limited.lw_W (fst b)) (Limited.lw_W (snd b)) exitCode) in
  match r with
  | ExecError err =>
      if errors_Is err DeadlineExceeded then Err (StatusError "DeadlineExceeded" (Error err))
      else Err err
  | ExecOK => resp 0%Z
  | dockerExitError inspect => resp (int32 (ExitStatus inspect))
  end.

Definition empty_bufs : bufs := (Limited.LimitWriter "" maxMsgSize, Limited.LimitWriter "" maxMsgSize).

Definition ExecSync (containerID : string) (cmd : list string) (req_Timeout : Z)
  : M W (res ExecSyncResponse) := fun w =>
  let timeout := int64 (req_Timeout * Second) in
  let '(r, (w', b)) :=
    ExecWithContext (Some write_stdout) (Some write_stderr) containerID cmd false false timeout
      (w, empty_bufs) in
  (sync_response r b, w').

(** *** Logs *)

Definition ReopenContainerLog : res unit :=
  Err (Errorf "docker does not support reopening container log files").

(** The log options the daemon is asked for, at time [now]. *)
Definition logs_options (logOptions : PodLogOptions) (now : Z) : LogsOptions :=
  let since := match pl_SinceSeconds logOptions with
               | Some s => ((now + int64 (int64 (- s) * Second)) / Second)%Z
               | None => 0%Z
               end in
  let since := default since (pl_SinceTime logOptions) in
  mkLogsOptions true true (itoa since) (pl_Timestamps logOptions) (pl_Follow logOptions)
    (match pl_TailLines logOptions with Some n => itoa n | None => "" end).

Section Logs.
Context {Out : Type}.
(** The two writers of the request, over one state. *)
Variables (stdout stderr : Writer Out).

Definition GetContainerLogs (containerID : string) (logOptions : PodLogOptions)
  : M (W * Out) (res unit) := fun '(w, o) =>
  let '(r, w1) := InspectContainer containerID w in
  match r with
  | Err err => (Err err, (w1, o))
  | Ok container =>
      let '(now, w2) := match pl_SinceSeconds logOptions with
                        | Some _ => Now w1
                        | None => (0%Z, w1)
                        end in
      let opts := logs_options logOptions now in
      let tty := dc_Tty (cj_Config container) in
      let '(e, (w3, o')) :=
        match pl_LimitBytes logOptions with
        | Some max =>
            let '(e, (w3, s)) :=
              kc_Logs (Some (@Shared.Write_ Out stdout)) (Some (@Shared.Write_ Out stderr))
                containerID opts tty (w2, Shared.mkState o max) in
            (e, (w3, Shared.delegate s))
        | None =>
            kc_Logs (Some (@Write Out stdout)) (Some (@Write Out stderr)) containerID opts tty (w2, o)
        end in
      (match e with
       | None => Ok tt
       | Some err => if errors_Is err errMaximumWrite then Ok tt else Err err
       end, (w3, o'))
  end.

End Logs.

Definition MaxContainerTerminationMessageLogLines : Z := 80.
Definition MaxContainerTerminationMessageLogLength : Z := (1024 * 2)%Z.

(** [GetContainerLogTail], over the ring buffer [circbuf] provides. *)
Definition GetContainerLogTail {B} (circbuf : Writer B) (NewBuffer : Z -> B) (buf_String : B -> string)
  (containerID : string) : M W (res string) := fun w =>
  let '(r, (w', buf)) :=
    GetContainerLogs circbuf circbuf containerID
      (mkPodLogOptions None None false false (Some MaxContainerTerminationMessageLogLines) None)
      (w, NewBuffer MaxContainerTerminationMessageLogLength) in
  (match r with
   | Err err => Err err
   | Ok _ => Ok (buf_String buf)
   end, w').

End Exec.

(** ** Theory: demultiplexing *)

(** A frame as the daemon sends it: the stream (true for stderr), the payload. *)
Abbreviation frame := (bool * string)%type.

Definition be32 (n : N) : string :=
  String (Ascii.ascii_of_N (n / 16777216 mod 256)) (String (Ascii.ascii_of_N (n / 65536 mod 256))
    (String (Ascii.ascii_of_N (n / 256 mod 256)) (String (Ascii.ascii_of_N (n mod 256)) ""))).

Definition encode_frame (f : frame) : string :=
  String (if fst f then Ascii.ascii_of_N 2 else Ascii.ascii_of_N 1)
    (String Ascii.zero (String Ascii.zero (String Ascii.zero
       (be32 (N.of_nat (String.length (snd f))) +:+ snd f)))).

Definition encode_frames (fs : list frame) : string := String.concat "" (encode_frame <$> fs).

Definition small_frame (f : frame) : Prop := (N.of_nat (String.length (snd f)) < 2 ^ 32)%N.

(** What the copy amounts to: one write per frame. *)
Fixpoint copy_frames {Out} (out errw : string -> M Out wres) (fs : list frame) : M Out (option error) :=
  match fs with
  | [] => ret None
  | (b, p) :: fs' =>
      let* '(n, err) := (if b : bool then errw else out) p in
      match err with
      | Some e => ret (Some e)
      | None => if (n =? len p)%Z then copy_frames out errw fs' else ret (Some (Sentinel ErrShortWrite))
      end
  end.

Lemma byte_of_N n : Ascii.N_of_ascii (Ascii.ascii_of_N (n mod 256)) = (n mod 256)%N.
Proof. apply Ascii.N_ascii_embedding. by apply N.mod_lt. Qed.

Lemma be32_value n : (n < 2 ^ 32)%N ->
  (((n / 16777216 mod 256 * 256 + n / 65536 mod 256) * 256 + n / 256 mod 256) * 256 + n mod 256)%N = n.
Proof.
  intros H. change (2 ^ 32)%N with (256 * (256 * (256 * 256)))%N in H.
  change 16777216%N with (256 * (256 * 256))%N. change 65536%N with (256 * 256)%N.
  rewrite <- !N.Div0.div_div.
  rewrite (N.mod_small (n / 256 / 256 / 256)) by (repeat apply N.Div0.div_lt_upper_bound; lia).
  pose proof (N.div_mod' n 256) as H1. pose proof (N.div_mod' (n / 256) 256) as H2.
  pose proof (N.div_mod' (n / 256 / 256) 256) as H3. lia.
Qed.

Lemma frame_header_bytes c n s :
  frame_header (String c (String Ascii.zero (String Ascii.zero (String Ascii.zero (be32 n +:+ s)))))
  = Some (std_type c,
      (((Ascii.N_of_ascii (Ascii.ascii_of_N (n / 16777216 mod 256)) * 256
         + Ascii.N_of_ascii (Ascii.ascii_of_N (n / 65536 mod 256))) * 256
        + Ascii.N_of_ascii (Ascii.ascii_of_N (n / 256 mod 256))) * 256
       + Ascii.N_of_ascii (Ascii.ascii_of_N (n mod 256)))%N, s).
Proof. reflexivity. Qed.

Lemma frame_header_encode f rest :
  small_frame f ->
  frame_header (encode_frame f +:+ rest)
  = Some (if fst f then Stderr else Stdout, N.of_nat (String.length (snd f)), snd f +:+ rest).
Proof.
  intros Hs. unfold encode_frame. destruct f as [b p]. cbn [fst snd].
  assert (forall c, String c (String Ascii.zero (String Ascii.zero (String Ascii.zero
            (be32 (N.of_nat (String.length p)) +:+ p)))) +:+ rest
          = String c (String Ascii.zero (String Ascii.zero (String Ascii.zero
              (be32 (N.of_nat (String.length p)) +:+ (p +:+ rest)))))) as ->
    by (intros c; by rewrite <- sapp_assoc).
  rewrite frame_header_bytes, !byte_of_N, be32_value by exact Hs. by destruct b.
Qed.

Lemma concat_empty_cons (a : string) (l : list string) :
  String.concat "" (a :: l) = a +:+ String.concat "" l.
Proof. destruct l; cbn; [by rewrite sapp_nil_r|done]. Qed.

Lemma encode_frames_cons f fs : encode_frames (f :: fs) = encode_frame f +:+ encode_frames fs.
Proof. apply concat_empty_cons. Qed.

Lemma StdCopy_frames {Out} (out errw : string -> M Out wres) fs fuel :
  Forall small_frame fs -> (String.length (encode_frames fs) <= fuel)%nat ->
  forall o, StdCopy_loop fuel out errw (encode_frames fs) None o = copy_frames out errw fs o.
Proof.
  intros Hs. revert fuel. induction Hs as [|[b p] fs Hp Hs IH]; intros fuel Hf o.
  { by destruct fuel. }
  rewrite encode_frames_cons in *. rewrite slength_app in Hf.
  destruct fuel as [|fuel]; [cbn in Hf; lia|]. cbn [StdCopy_loop].
  rewrite frame_header_encode by exact Hp. cbn [fst snd] in *.
  rewrite (proj2 (N.ltb_ge _ _)) by (rewrite slength_app; lia).
  rewrite Nnat.Nat2N.id, stake_app, sdrop_app.
  assert (String.length (encode_frames fs) <= fuel)%nat as Hf' by (cbn in Hf; lia).
  destruct b; cbn; unfold bind; match goal with |- context [?w p o] => destruct (w p o) as [[n [e|]] o'] end;
    try done; destruct (n =? len p)%Z; try done; by apply IH.
Qed.

Lemma StdCopy_encoded {Out} (out errw : string -> M Out wres) fs (o : Out) :
  Forall small_frame fs ->
  StdCopy out errw (mkHijacked (encode_frames fs) None) o = copy_frames out errw fs o.
Proof. intros Hs. by apply StdCopy_frames. Qed.

(** The bytes of one stream. *)
Definition stream_bytes (b : bool) (fs : list frame) : string :=
  String.concat "" (snd <$> base.filter (fun f => fst f = b) fs).

Lemma stream_bytes_cons b c p fs :
  stream_bytes b ((c, p) :: fs) = if decide (c = b) then p +:+ stream_bytes b fs else stream_bytes b fs.
Proof.
  unfold stream_bytes. rewrite filter_cons. cbn [fst]. case_decide; [|done].
  rewrite fmap_cons. apply concat_empty_cons.
Qed.

(** Two buffers, each kept or absent. *)
Definition keep_out (keep : bool) : option (string -> M (string * string) wres) :=
  if keep then Some (fun p '(a, e) => ((len p, None), (a +:+ p, e))) else None.
Definition keep_err (keep : bool) : option (string -> M (string * string) wres) :=
  if keep then Some (fun p '(a, e) => ((len p, None), (a, e +:+ p))) else None.

Lemma copy_frames_kept (ko ke : bool) fs a e :
  copy_frames (default io_Discard (keep_out ko)) (default io_Discard (keep_err ke)) fs (a, e)
  = (None, (if ko then a +:+ stream_bytes false fs else a, if ke then e +:+ stream_bytes true fs else e)).
Proof.
  revert a e. induction fs as [|[c p] fs IH]; intros a e.
  { unfold stream_bytes. cbn. rewrite !sapp_nil_r. by destruct ko, ke. }
  rewrite !stream_bytes_cons. cbn [copy_frames]. unfold bind.
  destruct c, ko, ke; repeat case_decide; try done;
    cbn [keep_out keep_err default from_option] in IH |- *;
    unfold io_Discard, ret, Datatypes.id in *; rewrite Z.eqb_refl, IH; by rewrite ?sapp_assoc.
Qed.

(** C18: The output of a command or a log reaches its readers exactly.
    Without a terminal, from the frames the daemon sends, in any number and of
    any size below 2^32, each payload is handed to its own stream, in order,
    up to the first write that fails or falls short, whose error is the
    result; so a reader of standard output gets the bytes of that stream, a
    reader of standard error those of the other, and an absent one nothing.
    With a terminal all the bytes go to standard output as they are, whatever
    they look like, and the error that ends the connection is the result. *)
Theorem demultiplexing_exact (fs : list frame) :
  Forall small_frame fs ->
  (forall {Out} (outputStream errorStream : option (string -> M Out wres)) (o : Out),
     redirectResponseToOutputStream false outputStream errorStream (mkHijacked (encode_frames fs) None) o
     = copy_frames (default io_Discard outputStream) (default io_Discard errorStream) fs o)
  /\ (forall ko ke a e,
      redirectResponseToOutputStream false (keep_out ko) (keep_err ke) (mkHijacked (encode_frames fs) None) (a, e)
      = (None, (if ko then a +:+ stream_bytes false fs else a, if ke then e +:+ stream_bytes true fs else e)))
  /\ (forall ko ke bytes err a e,
      redirectResponseToOutputStream true (keep_out ko) (keep_err ke) (mkHijacked bytes err) (a, e)
      = (err, (if ko then a +:+ bytes else a, e))).
Proof.
  intros Hs. unfold redirectResponseToOutputStream. split_and!.
  - intros Out outs errs o. by rewrite StdCopy_encoded.
  - intros ko ke a e. by rewrite StdCopy_encoded, copy_frames_kept.
  - intros ko ke bytes err a e. unfold io_Copy. cbn [hj_bytes hj_err]. case_decide as Hb.
    + subst bytes. rewrite sapp_nil_r. by destruct ko.
    + unfold bind. destruct ko; cbn [keep_out default from_option];
        unfold io_Discard, ret, Datatypes.id; by rewrite Z.eqb_refl.
Qed.

Lemma demultiplexing_exact_witness :
  redirectResponseToOutputStream false (keep_out true) (keep_err true)
    (mkHijacked (encode_frames [(false, "hi"); (true, "oops"); (false, "!")]) None) ("", "")
  = (None, ("hi!", "oops")).
Proof.
  destruct (demultiplexing_exact [(false, "hi"); (true, "oops"); (false, "!")]) as (_ & H & _);
    [repeat constructor|exact (H true true "" "")].
Defined.

Lemma len_app a b : len (a +:+ b) = (len a + len b)%Z.
Proof. unfold len. rewrite slength_app. lia. Qed.

(** Within its limit a buffer takes a write as it is. *)
Lemma limited_fits p b n :
  (len p < n < 2 ^ 63)%Z ->
  Limited.Write_ p (Limited.mkLimited b n) = ((len p, None), Limited.mkLimited (b +:+ p) (n - len p)).
Proof.
  intros [H1 H2]. pose proof (Shared.len_nonneg p). unfold Limited.Write_. cbn.
  rewrite (proj2 (Z.leb_gt _ _)) by lia. rewrite (proj2 (Z.ltb_ge _ _)) by lia. cbn.
  rewrite int64_id by (unfold in_int64; lia). done.
Qed.

Lemma copy_frames_fit fs bo no be ne :
  (len (stream_bytes false fs) < no < 2 ^ 63)%Z -> (len (stream_bytes true fs) < ne < 2 ^ 63)%Z ->
  exists no' ne',
  copy_frames write_stdout write_stderr fs (Limited.mkLimited bo no, Limited.mkLimited be ne)
  = (None, (Limited.mkLimited (bo +:+ stream_bytes false fs) no',
            Limited.mkLimited (be +:+ stream_bytes true fs) ne')).
Proof.
  revert bo no be ne. induction fs as [|[b p] fs IH]; intros bo no be ne Ho He.
  { exists no, ne. cbn. by rewrite !sapp_nil_r. }
  rewrite !stream_bytes_cons in *. pose proof (Shared.len_nonneg p).
  pose proof (Shared.len_nonneg (stream_bytes false fs)). pose proof (Shared.len_nonneg (stream_bytes true fs)).
  destruct b; repeat case_decide; try done; rewrite ?len_app in *; cbn [copy_frames]; unfold bind;
    cbn [write_stdout write_stderr]; rewrite limited_fits by lia; cbv beta iota zeta; rewrite Z.eqb_refl.
  - destruct (IH bo no (be +:+ p) (ne - len p)%Z) as (no' & ne' & ->); [lia|lia|].
    exists no', ne'. by rewrite sapp_assoc.
  - destruct (IH (bo +:+ p) (no - len p)%Z be ne) as (no' & ne' & ->); [lia|lia|].
    exists no', ne'. by rewrite sapp_assoc.
Qed.

(** Beyond it, the write that does not fit fails. *)
Lemma copy_frames_overflow fs bo no be ne :
  (0 <= no < 2 ^ 63)%Z -> (0 <= ne < 2 ^ 63)%Z ->
  (no < len (stream_bytes false fs))%Z \/ (ne < len (stream_bytes true fs))%Z ->
  fst (copy_frames write_stdout write_stderr fs (Limited.mkLimited bo no, Limited.mkLimited be ne))
  = Some (Sentinel ErrShortWrite).
Proof.
  assert (forall p b n, (0 <= n < 2 ^ 63)%Z ->
    (len p <= n)%Z /\ Limited.Write_ p (Limited.mkLimited b n)
      = ((len p, None), Limited.mkLimited (b +:+ p) (n - len p))
    \/ exists k l, Limited.Write_ p (Limited.mkLimited b n) = ((k, Some (Sentinel ErrShortWrite)), l))
    as Hstep.
  { intros p b n Hn. pose proof (Shared.len_nonneg p). unfold Limited.Write_. cbn.
    destruct (Z.leb_spec n 0); [right; by do 2 eexists|].
    destruct (Z.ltb_spec n (len p)); [right; by do 2 eexists|left]. split; [lia|].
    cbn. by rewrite int64_id by (unfold in_int64; lia). }
  revert bo no be ne. induction fs as [|[b p] fs IH]; intros bo no be ne Hno Hne Hover.
  { cbn in Hover. unfold len in Hover. cbn in Hover. lia. }
  rewrite !stream_bytes_cons in *. pose proof (Shared.len_nonneg p).
  destruct b; repeat case_decide; try done; rewrite ?len_app in *; cbn [copy_frames]; unfold bind;
    cbn [write_stdout write_stderr].
  - destruct (Hstep p be ne Hne) as [[Hle ->]|(k & l & ->)]; [|done]. cbv beta iota zeta.
    rewrite Z.eqb_refl. apply IH; lia.
  - destruct (Hstep p bo no Hno) as [[Hle ->]|(k & l & ->)]; [|done]. cbv beta iota zeta.
    rewrite Z.eqb_refl. apply IH; lia.
Qed.

(** ** Polling *)

Section Polling.
Context {W : Type} `{DockerClient W}.

(** The world after [k] inspections of the exec, and what the next one
    answers. *)
Definition inspected (execID : string) (k : nat) (w : W) : W :=
  Nat.iter k (fun w => snd (InspectExec execID w)) w.
Definition answer (execID : string) (k : nat) (w : W) : res ExecInspect :=
  fst (InspectExec execID (inspected execID k w)).

(** What the handler makes of the last answer. *)
Definition exec_verdict (a : res ExecInspect) : exec_result :=
  match a with
  | Err e => ExecError e
  | Ok i => if ei_Running i then ExecOK
            else if (ei_ExitCode i =? 0)%Z then ExecOK else dockerExitError i
  end.

Definition still_running (a : res ExecInspect) : Prop :=
  match a with Ok i => ei_Running i = true | Err _ => False end.

Lemma inspected_S execID k w :
  inspected execID (S k) w = inspected execID k (snd (InspectExec execID w)).
Proof. unfold inspected. by rewrite Nat.iter_succ_r. Qed.

Lemma poll_exec_run execID (j : nat) :
  (0 < j <= 5)%nat -> forall w, exists k, (k < j)%nat
  /\ (forall i, (i < k)%nat -> still_running (answer execID i w))
  /\ (still_running (answer execID k w) -> k = (j - 1)%nat)
  /\ forall fuel, (j <= fuel)%nat ->
       poll_exec fuel execID (5 - Z.of_nat j) w
       = (Some (exec_verdict (answer execID k w)), inspected execID (S k) w).
Proof.
  induction j as [|j IH]; intros Hj w; [lia|].
  destruct (InspectExec execID w) as [[i|e] w1] eqn:E.
  - destruct (ei_Running i) eqn:Er.
    + destruct (decide (j = 0)) as [->|Hne].
      * exists 0%nat. split; [lia|]. split; [lia|]. split; [done|]. intros [|fuel] Hf; [lia|].
        cbn [poll_exec]. unfold bind. rewrite E, Er. cbn [negb].
        unfold answer, inspected. cbn. rewrite E. cbn. by rewrite Er.
      * destruct (IH ltac:(lia) w1) as (k & Hk & Hrun & Hlast & Hpoll). exists (S k).
        assert (forall n, answer execID (S n) w = answer execID n w1) as Ha
          by (intros n; unfold answer; by rewrite inspected_S, E).
        split; [lia|]. split.
        { intros [|n] Hn; [unfold answer; cbn; by rewrite E|]. rewrite Ha. apply Hrun. lia. }
        split; [rewrite Ha; intros Hs; apply Hlast in Hs; lia|].
        intros [|fuel] Hf; [lia|]. cbn [poll_exec]. unfold bind. rewrite E, Er. cbn [negb].
        rewrite (proj2 (Z.eqb_neq _ _)) by (unfold maxRetries; lia).
        replace (5 - Z.of_nat (S j) + 1)%Z with (5 - Z.of_nat j)%Z by lia.
        rewrite Hpoll by lia. rewrite Ha, (inspected_S _ (S k)), E. done.
    + exists 0%nat. split; [lia|]. split; [lia|].
      split; [unfold answer; cbn; rewrite E; cbn; congruence|]. intros [|fuel] Hf; [lia|].
      cbn [poll_exec]. unfold bind. rewrite E, Er. cbn [negb].
      unfold answer, inspected. cbn. rewrite E. cbn. rewrite Er. by destruct (ei_ExitCode i =? 0)%Z.
  - exists 0%nat. split; [lia|]. split; [lia|]. split; [unfold answer; cbn; by rewrite E|].
    intros [|fuel] Hf; [lia|]. cbn [poll_exec]. unfold bind. rewrite E.
    unfold answer, inspected. cbn. by rewrite E.
Qed.

(** Polling an exec ends, whatever the daemon answers and for any fuel from
    five on: after at most five inspections, all but the last of which found
    the process running.  The last one decides, and a process that is still
    running at the fifth is reported as a success. *)
Theorem exec_polling_terminates (execID : string) (w : W) :
  exists k, (k < 5)%nat
  /\ (forall i, (i < k)%nat -> still_running (answer execID i w))
  /\ (still_running (answer execID k w) -> k = 4%nat)
  /\ forall fuel, (5 <= fuel)%nat ->
       poll_exec fuel execID 0 w
       = (Some (exec_verdict (answer execID k w)), inspected execID (S k) w).
Proof. exact (poll_exec_run execID 5 ltac:(lia) w). Qed.

End Polling.

(** ** Running a command to its end *)

Section Sync.
Context {W : Type} `{DockerClient W} `{StreamAPI W} `{Clock W}.

(** The daemon starts the command of a running container, delivers its output
    as frames, and polling gives [r]. *)
Record exec_runs (containerID : string) (cmd : list string) (timeout : Z) (fs : list frame)
  (r : exec_result) (w w' : W) : Prop := mk_exec_runs {
  er_container : ContainerJSON; er_id : string;
  er_w1 : W; er_w2 : W; er_w3 : W; er_w4 : W;
  er_status : CheckContainerStatus containerID w = (Ok er_container, er_w1);
  er_create : CreateExec (cj_ID er_container) (mkExecOptions false false true true cmd) er_w1
              = (Ok er_id, er_w2);
  er_in_time : ctx_Done timeout er_w2 = (None, er_w3);
  er_attach : ContainerExecAttach er_id false er_w3
              = ((Ok (mkHijacked (encode_frames fs) None), CtxNone), er_w4);
  er_poll : poll_exec poll_fuel er_id 0 er_w4 = (Some r, w');
}.

Lemma ExecSync_run containerID cmd t fs r (w w' : W) :
  exec_runs containerID cmd (int64 (t * Second)) fs r w w' -> Forall small_frame fs ->
  let '(e, b) := copy_frames write_stdout write_stderr fs empty_bufs in
  exists w'', ExecSync containerID cmd t w
    = (sync_response (match e with Some err => ExecError err | None => r end) b, w'')
  /\ (e = None -> w'' = w').
Proof.
  intros [c id w1 w2 w3 w4 E1 E2 E3 E4 E5] Hs.
  destruct (copy_frames _ _ _ _) as [e b] eqn:Ec.
  exists (match e with Some _ => w4 | None => w' end). split; [|by intros ->].
  unfold ExecSync, ExecWithContext, ExecInContainer, kc_StartExec, bind, onWorld, onOut.
  rewrite E1. cbv beta iota zeta.
  change (bool_decide (is_Some (Some write_stdout))) with true.
  change (bool_decide (is_Some (Some write_stderr))) with true. rewrite E2, E3.
  unfold checked, bind. rewrite E4. cbv beta iota zeta. cbn [contextError].
  unfold ret, holdHijackedConnection, redirectResponseToOutputStream. cbn [default from_option].
  rewrite StdCopy_encoded by exact Hs. unfold Datatypes.id. rewrite Ec.
  destruct e as [err|]; [done|]. cbv beta iota zeta. by rewrite E5.
Qed.

(** C19: what [ExecSync] answers for a command that runs: the exact bytes of its
    two streams, with its exit code as an [int32], which is no error when it is
    not zero, whatever the comment of the function says (zero when it is still running
    after the last inspection), while each stream stays below sixteen
    megabytes; but beyond them on either stream the whole call fails with the
    short write, and the output and the exit code are lost. *)
Theorem exec_sync_exact containerID cmd t fs r (w w' : W) :
  exec_runs containerID cmd (int64 (t * Second)) fs r w w' -> Forall small_frame fs ->
  ((len (stream_bytes false fs) < maxMsgSize)%Z -> (len (stream_bytes true fs) < maxMsgSize)%Z ->
   ExecSync containerID cmd t w
   = (match r with
      | ExecError err => sync_response r empty_bufs
      | ExecOK => Ok (mkExecSyncResponse (stream_bytes false fs) (stream_bytes true fs) 0)
      | dockerExitError i =>
          Ok (mkExecSyncResponse (stream_bytes false fs) (stream_bytes true fs) (int32 (ei_ExitCode i)))
      end, w'))
  /\ ((maxMsgSize < len (stream_bytes false fs))%Z \/ (maxMsgSize < len (stream_bytes true fs))%Z ->
      fst (ExecSync containerID cmd t w) = Err (Sentinel ErrShortWrite)).
Proof.
  intros Hr Hs. pose proof (ExecSync_run _ _ _ _ _ _ _ Hr Hs) as Hrun. unfold empty_bufs in Hrun.
  split.
  - intros Ho He. destruct (copy_frames_fit fs "" maxMsgSize "" maxMsgSize) as (no & ne & E);
      [unfold maxMsgSize in *; lia..|]. unfold Limited.LimitWriter in Hrun. rewrite E in Hrun.
    destruct Hrun as (w'' & -> & Hw). rewrite Hw by done. by destruct r.
  - intros Hover. pose proof (copy_frames_overflow fs "" maxMsgSize "" maxMsgSize) as E.
    unfold Limited.LimitWriter in Hrun. destruct (copy_frames _ _ _ _) as [e b]. cbn [fst] in E.
    rewrite E in Hrun by (unfold maxMsgSize in *; lia || exact Hover).
    destruct Hrun as (w'' & -> & _). done.
Qed.

End Sync.

(** ** Logs under a byte limit *)

(** A writer that records what reaches which stream. *)
#[local] Program Instance log_writer (b : bool) : Writer (list frame) := {|
  Write := fun p l => ((len p, None), l ++ [(b, p)]);
|}.
Next Obligation. intros b p w. cbn. unfold len. lia. Qed.
Next Obligation. intros b p w. cbn. lia. Qed.

(** The frames that [n] bytes are enough for, the last one cut. *)
Fixpoint clip_frames (n : Z) (fs : list frame) : list frame :=
  match fs with
  | [] => []
  | (b, p) :: fs' =>
      if (len p =? 0)%Z then clip_frames n fs'
      else if (n <=? 0)%Z then []
      else if (n <? len p)%Z then [(b, stake (Z.to_nat n) p)]
      else (b, p) :: clip_frames (n - len p) fs'
  end.

Lemma copy_frames_clipped fs : forall n l, (n < 2 ^ 63)%Z ->
  exists n',
  let '(e, s) := copy_frames (@Shared.Write_ (list frame) (log_writer false))
                   (@Shared.Write_ (list frame) (log_writer true)) fs (Shared.mkState l n) in
  s = Shared.mkState (l ++ clip_frames n fs) n'
  /\ (e = None \/ e = Some (Sentinel errMaximumWrite)).
Proof.
  assert (forall b p n l, Shared.Write_ (H := log_writer b) p (Shared.mkState l n) =
    if (len p =? 0)%Z then ((0%Z, None), Shared.mkState l n)
    else if (n <=? 0)%Z then ((0%Z, Some (Sentinel errMaximumWrite)), Shared.mkState l n)
    else if (n <? len p)%Z
      then ((len (stake (Z.to_nat n) p), Some (Sentinel errMaximumWrite)),
            Shared.mkState (l ++ [(b, stake (Z.to_nat n) p)])
              (if (0 <? len (stake (Z.to_nat n) p))%Z then int64 (n - len (stake (Z.to_nat n) p)) else n))
      else ((len p, None), Shared.mkState (l ++ [(b, p)]) (if (0 <? len p)%Z then int64 (n - len p) else n)))
    as Hw.
  { intros b p n l. unfold Shared.Write_, Shared.clip. cbn [Shared.limit Shared.delegate].
    destruct (len p =? 0)%Z; [done|]. destruct (n <=? 0)%Z; [done|]. by destruct (n <? len p)%Z. }
  induction fs as [|[b p] fs IH]; intros n l Hn.
  { exists n. cbn. rewrite app_nil_r. auto. }
  cbn [copy_frames clip_frames]. unfold bind.
  assert ((if b then Shared.Write_ (H := log_writer true) else Shared.Write_ (H := log_writer false))
          = Shared.Write_ (H := log_writer b)) as -> by (by destruct b).
  rewrite Hw. pose proof (Shared.len_nonneg p).
  destruct (Z.eqb_spec (len p) 0) as [E|E].
  { rewrite E. by apply IH. }
  destruct (Z.leb_spec n 0).
  { exists n. cbn. rewrite app_nil_r. auto. }
  destruct (Z.ltb_spec n (len p)); [eexists; cbn; auto|].
  rewrite Z.eqb_refl. rewrite (proj2 (Z.ltb_lt 0 (len p))) by lia.
  rewrite int64_id by (unfold in_int64; lia).
  destruct (IH (n - len p)%Z (l ++ [(b, p)]) ltac:(lia)) as [n' H']. exists n'.
  rewrite <- app_assoc in H'. exact H'.
Qed.

Definition frames_bytes (fs : list frame) : string := String.concat "" (snd <$> fs).

Lemma frames_bytes_cons b p fs : frames_bytes ((b, p) :: fs) = p +:+ frames_bytes fs.
Proof. apply concat_empty_cons. Qed.

Lemma stake_ge n s : (String.length s <= n)%nat -> stake n s = s.
Proof. revert n. induction s as [|c s IH]; intros [|n]; cbn; intros H; try done; [lia|]. f_equal. apply IH. lia. Qed.

Lemma stake_le_app n a b : (n <= String.length a)%nat -> stake n (a +:+ b) = stake n a.
Proof.
  revert n. induction a as [|c a IH]; intros [|n] H; cbn in H; try done; [lia|].
  change (String c a +:+ b) with (String c (a +:+ b)). cbn. f_equal. apply IH. lia.
Qed.

Lemma stake_ge_app n a b :
  (String.length a <= n)%nat -> stake n (a +:+ b) = a +:+ stake (n - String.length a) b.
Proof.
  revert n. induction a as [|c a IH]; intros n H; [by rewrite Nat.sub_0_r|].
  destruct n as [|n]; cbn in H; [lia|].
  change (String c (stake n (a +:+ b)) = String c (a +:+ stake (n - String.length a) b)).
  f_equal. apply IH. lia.
Qed.

Lemma stake_0 s : stake 0 s = "".
Proof. by destruct s. Qed.

Lemma clip_frames_bytes fs : forall n, frames_bytes (clip_frames n fs) = stake (Z.to_nat n) (frames_bytes fs).
Proof.
  induction fs as [|[b p] fs IH]; intros n; cbn [clip_frames].
  { by destruct (Z.to_nat n). }
  rewrite frames_bytes_cons. pose proof (Shared.len_nonneg p).
  destruct (Z.eqb_spec (len p) 0) as [E|E].
  { rewrite IH. destruct p; [done|]. unfold len in E. cbn in E. lia. }
  destruct (Z.leb_spec n 0).
  { replace (Z.to_nat n) with 0%nat by lia. by rewrite stake_0. }
  unfold len in *. destruct (Z.ltb_spec n (Z.of_nat (String.length p))).
  - rewrite stake_le_app by lia. rewrite frames_bytes_cons. apply sapp_nil_r.
  - rewrite stake_ge_app by lia. rewrite frames_bytes_cons, IH. do 2 f_equal. lia.
Qed.

Section LogsTheory.
Context {W : Type} `{DockerClient W} `{StreamAPI W} `{Clock W}.

(** Logs under a byte limit.  The two streams of the request together
    receive exactly the first bytes of the log, as many as the limit allows,
    each piece on its own stream and in the order of the log; and reaching the
    limit is not an error. *)
Theorem limited_logs_exact containerID (logOptions : PodLogOptions) (max : Z) (fs : list (bool * string))
  (c : ContainerJSON) (w w1 w2 w3 : W) (now : Z) :
  pl_LimitBytes logOptions = Some max -> (max < 2 ^ 63)%Z -> Forall small_frame fs ->
  InspectContainer containerID w = (Ok c, w1) -> dc_Tty (cj_Config c) = false ->
  match pl_SinceSeconds logOptions with Some _ => Now w1 | None => (0%Z, w1) end = (now, w2) ->
  ContainerLogs containerID (logs_options logOptions now) w2
    = ((Ok (mkHijacked (encode_frames fs) None), CtxNone), w3) ->
  GetContainerLogs (log_writer false) (log_writer true) containerID logOptions (w, [])
    = (Ok tt, (w3, clip_frames max fs))
  /\ frames_bytes (clip_frames max fs) = stake (Z.to_nat max) (frames_bytes fs).
Proof.
  intros Hmax Hb Hs Hc Htty Hnow Hlogs. split; [|apply clip_frames_bytes].
  destruct (copy_frames_clipped fs max [] Hb) as [n' Hcopy].
  destruct (copy_frames _ _ fs _) as [e s] eqn:Ec. destruct Hcopy as [-> He].
  unfold GetContainerLogs. rewrite Hc, Hnow, Hmax, Htty.
  unfold kc_Logs, bind, onWorld, checked, bind. rewrite Hlogs.
  cbv beta iota zeta. cbn [contextError]. unfold ret, onOut, redirectResponseToOutputStream.
  cbn [default from_option]. rewrite StdCopy_encoded by exact Hs. unfold Datatypes.id. rewrite Ec.
  by destruct He as [-> | ->].
Qed.

End LogsTheory.

(** ** A concrete daemon *)

Definition hello_frames : list frame := [(false, "hello "); (true, "warning"); (false, "world")].

#[local] Instance sim_stream : StreamAPI sim := {|
  ContainerExecAttach := fun _ _ w => ((Ok (mkHijacked (encode_frames hello_frames) None), CtxNone), w);
  ContainerAttach := fun _ _ w => ((Ok (mkHijacked (encode_frames hello_frames) None), CtxNone), w);
  ContainerLogs := fun _ _ w => ((Ok (mkHijacked (encode_frames hello_frames) None), CtxNone), w);
  ctx_Done := fun _ => ret None;
  exec_LookPath := fun p => ret (Ok ("/usr/bin/" +:+ p));
  command_Run := fun p args => let* _ := sim_op (join (p :: args) " ") (ret (Ok tt)) in ret (None, "");
|}.

Definition hello_name : string := "k8s_main_pod_ns_uid_0".
(** A container that runs. *)
Definition sim_running : sim :=
  snd (StartContainer hello_name
    (snd (CreateContainer (mkContainerCreateConfig hello_name zero_DockerConfig zero_HostConfig) sim_empty))).

Definition hello_container : ContainerJSON :=
  sim_run true (sim_created (mkContainerCreateConfig hello_name zero_DockerConfig zero_HostConfig)).

Lemma hello_inspected :
  InspectContainer hello_name sim_running
  = (Ok hello_container, snd (InspectContainer hello_name sim_running)).
Proof. vm_compute. reflexivity. Qed.

Lemma sim_running_status :
  CheckContainerStatus hello_name sim_running
  = (Ok hello_container, snd (InspectContainer hello_name sim_running)).
Proof. reflexivity. Qed.

(** The world once the exec has been polled. *)
Definition hello_end : sim := snd (ExecSync hello_name ["greet"] 10 sim_running).

Lemma hello_runs : exec_runs hello_name ["greet"] (int64 (10 * Second)) hello_frames ExecOK sim_running hello_end.
Proof.
  eapply mk_exec_runs; [exact sim_running_status|reflexivity..].
Qed.

Lemma small_hello : Forall small_frame hello_frames.
Proof. by repeat constructor. Qed.

Lemma exec_sync_exact_witness :
  fst (ExecSync hello_name ["greet"] 10 sim_running)
  = Ok (mkExecSyncResponse "hello world" "warning" 0).
Proof.
  destruct (exec_sync_exact _ _ _ _ _ _ _ hello_runs small_hello) as [H _].
  rewrite H by (vm_compute; reflexivity). reflexivity.
Defined.

(** Eight bytes of the log. *)
Lemma limited_logs_exact_witness :
  fst (GetContainerLogs (log_writer false) (log_writer true) hello_name
         (mkPodLogOptions None None false false None (Some 8%Z)) (sim_running, []))
  = Ok tt /\ clip_frames 8 hello_frames = [(false, "hello "); (true, "wa")].
Proof.
  split; [|reflexivity].
  destruct (limited_logs_exact (W := sim) (H := sim_docker) (H0 := sim_stream) (H1 := sim_time) hello_name (mkPodLogOptions None None false false None (Some 8%Z)) 8
    hello_frames hello_container sim_running (snd (InspectContainer hello_name sim_running))
    (snd (InspectContainer hello_name sim_running)) (snd (InspectContainer hello_name sim_running)) 0
    eq_refl eq_refl small_hello hello_inspected eq_refl eq_refl eq_refl) as [-> _]. reflexivity.
Defined.

(** The command that forwards port 80. *)
Example forwards_port :
  default "" (last (sim_calls (snd (sr_PortForward hello_name 80 sim_running))))
  = "/usr/bin/nsenter -t 4242 -n /usr/bin/socat - TCP4:localhost:80".
Proof. reflexivity. Qed.
