(* ===== verification/ExecSteps.v ===== *)
(** * ExecSteps: the goroutines of an exec

    core/exec.go and [StartExec] of libdocker/kube_docker_client.go.  [Exec]
    models what an exec answers; here are its three goroutines and the channels
    between them: the handler itself, the goroutine that waits to resize the
    terminal, and the one that runs [StartExec], whose context is not the
    handler's.  [execStarted] is unbuffered, [execErr] holds one result, [done]
    is closed when the handler returns. *)
From S2P Require Import Prelude GoErrors.
From stdpp Require Import relations.

(** ** State *)

(** Why the handler returned: its context ended, [StartExec] failed, or the
    exec was inspected after it had ended. *)
Inductive exec_end := ContextEnded | StartFailed (err : error) | Polled.
Inductive handler_pc := Waiting | Polling | Returned (o : exec_end).
Inductive resizer_pc := Selecting | Resizing | GaveUp.
(** [StartExec] attaches, announces the start, holds the connection; then its
    result is in the channel. *)
Inductive starter_pc := Attaching | Announcing | Holding | Finished.

Record exec_state := mkExecState {
  xs_handler : handler_pc;
  xs_resizer : resizer_pc;
  xs_starter : starter_pc;
  xs_done : bool;
  xs_execErr : option (option error);
}.

Definition exec_started : exec_state := mkExecState Waiting Selecting Attaching false None.

(** ** Steps *)

Inductive exec_step : exec_state -> exec_state -> Prop :=
(** [ContainerExecAttach] fails: the error goes into the buffer. *)
| attach_fails h r d e : exec_step (mkExecState h r Attaching d None)
    (mkExecState h r Finished d (Some (Some e)))
| attach_succeeds h r d x :
    exec_step (mkExecState h r Attaching d x) (mkExecState h r Announcing d x)
(** [sopts.ExecStarted <- struct{}{}] meets [<-execStarted]. *)
| announce h d x : exec_step (mkExecState h Selecting Announcing d x) (mkExecState h Resizing Holding d x)
(** The copying of the streams ends. *)
| hold_ends h r d e :
    exec_step (mkExecState h r Holding d None) (mkExecState h r Finished d (Some e))
(** [<-ctx.Done()]. *)
| context_ends r s d x :
    exec_step (mkExecState Waiting r s d x) (mkExecState (Returned ContextEnded) r s true x)
(** [err := <-execErr]. *)
| start_failed r s d e :
    exec_step (mkExecState Waiting r s d (Some (Some e))) (mkExecState (Returned (StartFailed e)) r s true None)
| start_succeeded r s d :
    exec_step (mkExecState Waiting r s d (Some None)) (mkExecState Polling r s d None)
| poll_ends r s d x : exec_step (mkExecState Polling r s d x) (mkExecState (Returned Polled) r s true x)
(** [<-done]. *)
| abandon h s x : exec_step (mkExecState h Selecting s true x) (mkExecState h GaveUp s true x).

Abbreviation exec_reachable := (rtc exec_step exec_started).

(** ** Theory *)

(** What holds between the goroutines. *)
Definition exec_ok (s : exec_state) : Prop :=
  (xs_done s = true <-> exists o, xs_handler s = Returned o)
  /\ (xs_resizer s = Resizing -> xs_starter s = Holding \/ xs_starter s = Finished)
  /\ (xs_starter s = Holding -> xs_resizer s = Resizing)
  /\ (xs_resizer s = GaveUp -> xs_done s = true)
  /\ (xs_starter s <> Finished -> xs_execErr s = None /\ (xs_handler s = Waiting \/ xs_handler s = Returned ContextEnded))
  /\ (xs_execErr s = Some None \/ xs_handler s = Polling \/ xs_handler s = Returned Polled ->
        xs_starter s = Finished /\ xs_resizer s = Resizing)
  /\ (xs_handler s = Waiting -> xs_starter s = Finished -> is_Some (xs_execErr s)).

Lemma exec_ok_init : exec_ok exec_started.
Proof.
  split; [split; [done|by intros []]|]. do 3 (split; [done|]). split; [by split; [|left]|].
  split; [by intros [|[|]]|done].
Qed.

Lemma exec_ok_step s s' : exec_step s s' -> exec_ok s -> exec_ok s'.
Proof.
  destruct 1; unfold exec_ok; cbn; intros (Hd & Hr & Hh & Hg & Hs & Hp & Hw); naive_solver.
Qed.

Lemma exec_ok_reachable s : exec_reachable s -> exec_ok s.
Proof.
  intros Hr. remember exec_started as s0 eqn:E. assert (exec_ok s0) as Hok by (subst; apply exec_ok_init).
  clear E. induction Hr as [|s1 s2 s3 Hstep _ IH]; [done|]. apply IH. by eapply exec_ok_step.
Qed.

(** Once the resizer has given up, nobody can receive the announcement. *)
Lemma stuck_forever s s' :
  rtc exec_step s s' -> xs_starter s = Announcing -> xs_resizer s = GaveUp ->
  xs_starter s' = Announcing.
Proof.
  induction 1 as [|s1 s2 s3 Hstep _ IH]; [done|]. intros Hs Hr. apply IH; by destruct Hstep.
Qed.

(** Steps other than the end of the handler's context. *)
Definition own_step (s s' : exec_state) : Prop :=
  exec_step s s' /\ (xs_handler s' = Returned ContextEnded -> xs_handler s = Returned ContextEnded).

Definition all_finished (s : exec_state) : Prop :=
  (exists o, xs_handler s = Returned o) /\ xs_starter s = Finished /\ xs_resizer s <> Selecting.

Lemma own_finish s : exec_ok s -> xs_starter s = Finished -> exists s', rtc own_step s s' /\ all_finished s'.
Proof.
  destruct s as [h r st d x]. unfold exec_ok. cbn. intros (Hd & _ & _ & _ & _ & _ & Hw) ->.
  assert (forall o x, exists s', rtc own_step (mkExecState (Returned o) r Finished true x) s' /\ all_finished s') as Hret.
  { intros o x'. destruct r; (eexists; split; [(apply rtc_once; split; [apply abandon|done]) || reflexivity|]);
      (split; [by eexists|done]). }
  assert (forall d x, exists s', rtc own_step (mkExecState Polling r Finished d x) s' /\ all_finished s') as Hpoll.
  { intros d' x'. destruct (Hret Polled x') as (s' & Hs & Hf). exists s'. split; [|done].
    eapply rtc_l; [split; [apply poll_ends|done]|exact Hs]. }
  destruct h as [| |o].
  - destruct (Hw eq_refl eq_refl) as [[e|] ->].
    + destruct (Hret (StartFailed e) None) as (s' & Hs & Hf). exists s'. split; [|done].
      eapply rtc_l; [split; [apply start_failed|done]|exact Hs].
    + destruct (Hpoll d None) as (s' & Hs & Hf). exists s'. split; [|done].
      eapply rtc_l; [split; [apply start_succeeded|done]|exact Hs].
  - apply Hpoll.
  - assert (d = true) as -> by (apply Hd; by eexists). apply Hret.
Qed.

Lemma own_finish_after s s1 :
  exec_ok s -> own_step s s1 -> (exec_ok s1 -> exists s', rtc own_step s1 s' /\ all_finished s') ->
  exists s', rtc own_step s s' /\ all_finished s'.
Proof.
  intros Hok Hs Hf. destruct Hf as (s' & Hr & Ha); [by eapply exec_ok_step; [apply Hs|]|].
  exists s'. split; [by eapply rtc_l|done].
Qed.

Lemma holding_finish s : exec_ok s -> xs_starter s = Holding -> exists s', rtc own_step s s' /\ all_finished s'.
Proof.
  intros Hok Hs. pose proof Hok as (_ & _ & _ & _ & He & _). destruct s as [h r st d x]; cbn in *. subst st.
  destruct He as [-> _]; [done|]. eapply own_finish_after; [done|split; [apply (hold_ends _ _ _ None)|done]|].
  intros Hok'. by apply own_finish.
Qed.

(** C17: the goroutines of an exec.  In every state they can reach, the terminal
    is resized only once the exec has started, and the handler inspects the
    exec only once its streams have been copied to the end.  All three
    goroutines can always finish, whether or not the handler's context ends,
    with one exception: when the context ended while [StartExec] was attaching
    and the resizer has seen that the handler returned, [StartExec] announces
    the start to nobody and never finishes; and this can happen. *)
Theorem exec_goroutines (s : exec_state) :
  exec_reachable s ->
  (xs_resizer s = Resizing -> xs_starter s = Holding \/ xs_starter s = Finished)
  /\ (xs_handler s = Polling \/ xs_handler s = Returned Polled ->
        xs_starter s = Finished /\ xs_resizer s = Resizing)
  /\ (xs_starter s = Announcing /\ xs_resizer s = GaveUp ->
        xs_handler s = Returned ContextEnded
        /\ forall s', rtc exec_step s s' -> xs_starter s' = Announcing)
  /\ (~ (xs_starter s = Announcing /\ xs_resizer s = GaveUp) ->
        exists s', rtc own_step s s' /\ all_finished s')
  /\ exists leak, exec_reachable leak /\ xs_starter leak = Announcing /\ xs_resizer leak = GaveUp.
Proof.
  intros Hr%exec_ok_reachable. pose proof Hr as (Hd & Hres & Hh & Hg & He & Hp & _).
  split; [done|]. split; [by auto|]. split; [|split].
  - intros [Hs Hgu]. split; [|intros s' Hs'; by eapply stuck_forever].
    destruct He as [_ [Hw| ->]]; [by rewrite Hs| |done].
    apply Hg, Hd in Hgu as [o Ho]. congruence.
  - intros Hn. destruct s as [h r st d x]; cbn in *. destruct st.
    + destruct He as [-> _]; [done|].
      eapply own_finish_after; [done|split; [apply (attach_fails _ _ _ (Errorf "no such exec"))|done]|].
      intros Hok. by apply own_finish.
    + destruct r; [| |by destruct Hn].
      * eapply own_finish_after; [done|split; [apply announce|done]|]. intros Hok. by apply holding_finish.
      * by destruct Hres.
    + by apply holding_finish.
    + by apply own_finish.
  - exists (mkExecState (Returned ContextEnded) GaveUp Announcing true None). split; [|done].
    eapply rtc_l; [apply context_ends|]. eapply rtc_l; [apply abandon|]. apply rtc_once, attach_succeeds.
Qed.

Lemma exec_goroutines_witness :
  let s := mkExecState Polling Resizing Finished false None in
  exec_reachable s /\ exists s', rtc own_step s s' /\ all_finished s'.
Proof.
  assert (exec_reachable (mkExecState Polling Resizing Finished false None)) as Hr.
  { eapply rtc_l; [apply attach_succeeds|]. eapply rtc_l; [apply announce|].
    eapply rtc_l; [apply (hold_ends _ _ _ None)|]. apply rtc_once, start_succeeded. }
  split; [exact Hr|]. destruct (exec_goroutines _ Hr) as (_ & _ & _ & H & _). apply H. by intros [].
Defined.
