(* ===== verification/Bandwidth.v ===== *)
(** * Bandwidth: traffic shaping with tc

    network/bandwidth/utils.go (the bandwidths a pod's annotations ask for)
    and network/bandwidth/linux.go (the shaper, which reads and writes the
    kernel's state through the text of the tc command).  The parser of
    quantities is a parameter. *)
From S2P Require Import Prelude Regex GoErrors GoNet GoText GoCidr.

(** [resource.ParseQuantity] with [Value]. *)
Class Quantities := ParseQuantity : string -> res Z.

(** ** Annotations (utils.go) *)

Definition minRsrc : Z := 1000.
Definition maxRsrc : Z := 1000000000000000.

Definition validateBandwidthIsReasonable (rsrc : Z) : res unit :=
  if (rsrc <? minRsrc)%Z then Err (Errorf "resource is unreasonably small (< 1kbit)")
  else if (maxRsrc <? rsrc)%Z then Err (Errorf "resource is unreasonably large (> 1Pbit)")
  else Ok tt.

Definition extract_one `{Quantities} (podAnnotations : gmap string string) (key : string) : res (option Z) :=
  match podAnnotations !! key with
  | None => Ok None
  | Some str =>
      match ParseQuantity str with
      | Err err => Err err
      | Ok v => match validateBandwidthIsReasonable v with
                | Err err => Err err
                | Ok _ => Ok (Some v)
                end
      end
  end.

Definition ingress_key : string := "kubernetes.io/ingress-bandwidth".
Definition egress_key : string := "kubernetes.io/egress-bandwidth".

(** Ingress and egress; a nil map behaves as an empty one. *)
Definition ExtractPodBandwidthResources `{Quantities} (podAnnotations : gmap string string)
  : res (option Z * option Z) :=
  match extract_one podAnnotations ingress_key with
  | Err err => Err err
  | Ok ingress =>
      match extract_one podAnnotations egress_key with
      | Err err => Err err
      | Ok egress => Ok (ingress, egress)
      end
  end.

(** ** The patterns *)

Definition digits : re := Many1 is_digit.
(** [class htb (1:\d+)] *)
Definition classShowMatcher : re := Seq (Lit "class htb ") (Cap (Seq (Lit "1:") digits)).
(** [filter parent 1:.*fh (\d+::\d+).*flowid (\d+:\d+)] *)
Definition classAndHandleMatcher : re :=
  Seq (Lit "filter parent 1:") (Seq (Many any) (Seq (Lit "fh ")
    (Seq (Cap (Seq digits (Seq (Lit "::") digits))) (Seq (Many any) (Seq (Lit "flowid ")
      (Cap (Seq digits (Seq (Lit ":") digits)))))))).

(** ** CIDRs in the text of tc *)

Section Shaper.
Context {W : Type} `{Execer W}.

Definition hexCIDR (cidr : string) : res string :=
  match ParseCIDRSloppy cidr with
  | Err err => Err err
  | Ok (ip, ipnet) =>
      Ok (hex_encode (ip_Mask ip (ipn_Mask ipnet)) +:+ "/" +:+ mask_String (ipn_Mask ipnet))
  end.

Definition asciiCIDR (cidr : string) : res string :=
  match split cidr "/" with
  | [a; b] =>
      match hex_decode a with
      | Err err => Err err
      | Ok ip =>
          match hex_decode b with
          | Err err => Err err
          | Ok mask => Ok (IP_String ip +:+ "/" +:+ utoa (N.of_nat (fst (mask_Size mask))))
          end
      end
  | _ => Err (Errorf ("unexpected CIDR format: " +:+ cidr))
  end.

(** ** The shaper *)

Variable iface : string.

(** Run tc for its output, for its error alone. *)
Definition tc_show (args : list string) : M W (res string) :=
  let* '(data, err) := CombinedOutput "tc" args in
  ret (match err with Some e => Err e | None => Ok data end).
Definition execAndLog (args : list string) : M W (res unit) :=
  let* '(_, err) := CombinedOutput "tc" args in
  ret (match err with Some e => Err e | None => Ok tt end).

(** The class IDs in the lines of [tc class show]. *)
Fixpoint class_ids (lines : list string) (classes : gset string) : res (gset string) :=
  match lines with
  | [] => Ok classes
  | text :: lines' =>
      let line := TrimSpace text in
      if decide (line = "") then class_ids lines' classes
      else match find_submatch classShowMatcher line with
           | Some [id] => class_ids lines' ({[ id ]} ∪ classes)
           | _ => Err (Errorf ("unexpected output from tc: " +:+ text))
           end
  end.

Definition class_id (n : nat) : string := "1:" +:+ utoa (N.of_nat n).

(** [for nextClass := 1; nextClass < 10000; nextClass++]. *)
Fixpoint first_free (fuel nextClass : nat) (classes : gset string) : option nat :=
  match fuel with
  | O => None
  | S fuel' =>
      if decide (class_id nextClass ∈ classes) then first_free fuel' (S nextClass) classes
      else Some nextClass
  end.
(** The turns of that loop (a unary constant would be large). *)
Definition class_space : nat := N.to_nat 9999.

Definition nextClassID : M W (res nat) :=
  let? data := tc_show ["class"; "show"; "dev"; iface] in
  ret (match class_ids (scan_lines data) ∅ with
       | Err err => Err err
       | Ok classes =>
           match first_free class_space 1 classes with
           | Some n => Ok n
           | None => Err (Errorf "exhausted class space, please try again")
           end
       end).

(** The class and the handle of each filter that matches: the line of the
    last filter is kept for the lines of its matches. *)
Fixpoint cidr_classes (spec : string) (lines : list string) (filter : string)
  (found : list (string * string)) : res (list (string * string)) :=
  match lines with
  | [] => Ok found
  | text :: lines' =>
      let line := TrimSpace text in
      if decide (line = "") then cidr_classes spec lines' filter found
      else if has_prefix line "filter" then cidr_classes spec lines' line found
      else if contains line spec then
        match find_submatch classAndHandleMatcher filter with
        | Some [handle; class] => cidr_classes spec lines' filter (found ++ [(class, handle)])
        | _ => Err (Errorf ("unexpected output from tc: " +:+ filter))
        end
      else cidr_classes spec lines' filter found
  end.

(** Found when the list is not empty. *)
Definition findCIDRClass (cidr : string) : M W (res (list (string * string))) :=
  let? data := tc_show ["filter"; "show"; "dev"; iface] in
  ret (match hexCIDR cidr with
       | Err err => Err err
       | Ok hex => cidr_classes ("match " +:+ hex) (scan_lines data) "" []
       end).

(** The division truncates towards zero. *)
Definition makeKBitString (rsrc : Z) : string := itoa (rsrc ÷ 1000) +:+ "kbit".

Definition makeNewClass (rate : string) : M W (res nat) :=
  let? class := nextClassID in
  let? _ := execAndLog ["class"; "add"; "dev"; iface; "parent"; "1:"; "classid"; class_id class;
                        "htb"; "rate"; rate] in
  ret (Ok class).

Definition limit_direction (direction cidr : string) (o : option Z) : M W (res unit) :=
  match o with
  | None => ret (Ok tt)
  | Some rsrc =>
      let? class := makeNewClass (makeKBitString rsrc) in
      execAndLog ["filter"; "add"; "dev"; iface; "protocol"; "ip"; "parent"; "1:0"; "prio"; "1"; "u32";
                  "match"; "ip"; direction; cidr; "flowid"; class_id class]
  end.

Definition Limit (cidr : string) (upload download : option Z) : M W (res unit) :=
  let? _ := limit_direction "dst" cidr download in
  limit_direction "src" cidr upload.

(** The status line, empty when the interface has no queueing discipline. *)
Definition interfaceExists : M W (res (bool * string)) :=
  let? data := tc_show ["qdisc"; "show"; "dev"; iface] in
  let value := TrimSpace data in
  ret (Ok (if decide (value = "") then (false, "")
           else match Fields value with
                | _ :: "noqueue" :: _ => (false, "")
                | _ => (true, value)
                end)).

Definition ReconcileCIDR (cidr : string) (upload download : option Z) : M W (res unit) :=
  let? found := findCIDRClass cidr in
  match found with
  | [] => Limit cidr upload download
  | _ => ret (Ok tt)
  end.

Definition initializeInterface : M W (res unit) :=
  execAndLog ["qdisc"; "add"; "dev"; iface; "root"; "handle"; "1:"; "htb"; "default"; "30"].
Definition deleteInterface (class : string) : M W (res unit) :=
  execAndLog ["qdisc"; "delete"; "dev"; iface; "root"; "handle"; class].

(** What [ReconcileInterface] does once the status line is known; None when
    [fields[2]] is out of range, which panics. *)
Definition reconcile_status (output : string) : option (M W (res unit)) :=
  let fields := split output " " in
  if Nat.ltb (length fields) 12 || negb (bool_decide (fields !! 1 = Some "htb"))
     || negb (bool_decide (fields !! 2 = Some "1:"))
  then match fields !! 2 with
       | None => None
       | Some class => Some (let? _ := deleteInterface class in initializeInterface)
       end
  else Some (ret (Ok tt)).

Definition ReconcileInterface : M W (option (res unit)) :=
  let* r := interfaceExists in
  match r with
  | Err err => ret (Some (Err err))
  | Ok (false, _) => let* r := initializeInterface in ret (Some r)
  | Ok (true, output) =>
      match reconcile_status output with
      | None => ret None
      | Some act => let* r := act in ret (Some r)
      end
  end.

Definition Reset (cidr : string) : M W (res unit) :=
  let? found := findCIDRClass cidr in
  match found with
  | [] => ret (Err (Errorf ("Failed to find cidr: " +:+ cidr +:+ " on interface: " +:+ iface)))
  | _ =>
      for_try found (fun '(class, handle) =>
        let? _ := execAndLog ["filter"; "del"; "dev"; iface; "parent"; "1:"; "proto"; "ip"; "prio"; "1";
                              "handle"; handle; "u32"] in
        execAndLog ["class"; "del"; "dev"; iface; "parent"; "1:"; "classid"; class])
  end.

Fixpoint cidr_lines (lines : list string) (result : list string) : res (list string) :=
  match lines with
  | [] => Ok result
  | text :: lines' =>
      let line := TrimSpace text in
      if decide (line = "") then cidr_lines lines' result
      else if contains line "match" then
        match split line " " with
        | [_; hex; _; _] =>
            match asciiCIDR hex with
            | Err err => Err err
            | Ok cidr => cidr_lines lines' (result ++ [cidr])
            end
        | _ => Err (Errorf ("unexpected output: " +:+ line))
        end
      else cidr_lines lines' result
  end.

Definition GetCIDRs : M W (res (list string)) :=
  let? data := tc_show ["filter"; "show"; "dev"; iface] in
  ret (cidr_lines (scan_lines data) []).

End Shaper.

(** ** The interface (interfaces.go) and its implementations *)

(** [ReconcileInterface] returns None when it panics. *)
Class Shaper (W : Type) := {
  shaper_Limit : string -> option Z -> option Z -> M W (res unit);
  shaper_Reset : string -> M W (res unit);
  shaper_ReconcileInterface : M W (option (res unit));
  shaper_ReconcileCIDR : string -> option Z -> option Z -> M W (res unit);
  shaper_GetCIDRs : M W (res (list string));
}.

(** [NewTCShaper] of linux.go. *)
Definition tcShaper {W} `{Execer W} (iface : string) : Shaper W := {|
  shaper_Limit := Limit iface;
  shaper_Reset := Reset iface;
  shaper_ReconcileInterface := ReconcileInterface iface;
  shaper_ReconcileCIDR := ReconcileCIDR iface;
  shaper_GetCIDRs := GetCIDRs iface;
|}.

Definition unimplemented {W A} : M W (res A) := ret (Err (Errorf "unimplemented")).

(** unsupported.go, on the other platforms. *)
Definition unsupportedShaper {W} (iface : string) : Shaper W := {|
  shaper_Limit := fun _ _ _ => unimplemented;
  shaper_Reset := fun _ => ret (Ok tt);
  shaper_ReconcileInterface := let* r := unimplemented in ret (Some r);
  shaper_ReconcileCIDR := fun _ _ _ => unimplemented;
  shaper_GetCIDRs := ret (Ok []);
|}.

(** fake_shaper.go. *)
Record FakeShaper := mkFakeShaper { fs_CIDRs : list string; fs_ResetCIDRs : list string }.
Definition fake_Shaper : Shaper FakeShaper := {|
  shaper_Limit := fun _ _ _ => unimplemented;
  shaper_Reset := fun cidr f => (Ok tt, mkFakeShaper (fs_CIDRs f) (fs_ResetCIDRs f ++ [cidr]));
  shaper_ReconcileInterface := let* r := unimplemented in ret (Some r);
  shaper_ReconcileCIDR := fun _ _ _ => unimplemented;
  shaper_GetCIDRs := fun f => (Ok (fs_CIDRs f), f);
|}.

(** ** Theory *)

#[local] Arguments String.append !s1 s2 : simpl nomatch.

(** *** Free classes *)

Lemma first_free_spec fuel n classes :
  match first_free fuel n classes with
  | Some k => n <= k < n + fuel /\ class_id k ∉ classes
              /\ forall m, n <= m < k -> class_id m ∈ classes
  | None => forall m, n <= m < n + fuel -> class_id m ∈ classes
  end.
Proof.
  revert n. induction fuel as [|fuel IH]; intros n; cbn [first_free]; [intros; lia|].
  case_decide as Hd.
  - specialize (IH (S n)). destruct (first_free fuel (S n) classes) as [k|].
    + destruct IH as (H1 & H2 & H3). split; [lia|]. split; [done|]. intros m Hm.
      destruct (decide (m = n)) as [->|]; [done|]. apply H3. lia.
    + intros m Hm. destruct (decide (m = n)) as [->|]; [done|]. apply IH. lia.
  - split; [lia|]. split; [done|]. intros; lia.
Qed.

Lemma class_id_inj n m : class_id n = class_id m -> n = m.
Proof. intros H%sapp_inj_l. apply (inj utoa) in H. lia. Qed.

(** Trimming leaves alone what does not end in space. *)
Lemma trim_right_app a b : trim_right b <> "" -> trim_right (a +:+ b) = a +:+ trim_right b.
Proof.
  intros Hb. induction a as [|c a IH]; cbn; [done|]. rewrite IH.
  by destruct a, (trim_right b).
Qed.

Lemma trim_right_solid a b :
  sforall (fun c => negb (is_space c)) a = true -> trim_right (a +:+ b) = a +:+ trim_right b.
Proof.
  induction a as [|c a IH]; cbn; [done|]. intros [Hc Ha]%andb_true_iff. rewrite (IH Ha).
  destruct (a +:+ trim_right b); [|done]. by destruct (is_space c).
Qed.

Lemma digit_not_space s : sforall is_digit s = true -> sforall (fun c => negb (is_space c)) s = true.
Proof.
  apply sforall_impl. intros c. unfold is_digit, is_space. set (n := Ascii.N_of_ascii c).
  intros H. apply andb_true_iff in H as [H1 H2]. apply N.leb_le in H1, H2.
  apply negb_true_iff, orb_false_iff. split.
  - apply andb_false_iff. right. apply N.leb_gt. lia.
  - apply N.eqb_neq. lia.
Qed.

(** What may follow a class ID in a line: a space. *)
Definition class_tail (t : string) : Prop := forall c t', t = String c t' -> c = " "%char.

Lemma class_tail_trim t : class_tail t -> class_tail (trim_right t).
Proof.
  intros H c t' E. destruct t as [|d t]; [done|]. specialize (H d t eq_refl) as ->.
  cbn in E. destruct (trim_right t); cbn in E; [done|]. by injection E as <- _.
Qed.

Lemma class_line_matches n t :
  class_tail t ->
  find_submatch classShowMatcher ("class htb " +:+ class_id n +:+ t) = Some [class_id n].
Proof.
  intros Ht. apply (prefers_find _ _ _ t). unfold classShowMatcher.
  eapply (prefers_seq _ _ _ []); [apply prefers_lit|]. apply prefers_cap.
  unfold class_id, digits. rewrite sapp_assoc. eapply (prefers_seq _ _ _ [] _ []); [apply prefers_lit|].
  apply prefers_many1; [apply utoa_digits|apply utoa_nonempty|].
  intros x t' E. by rewrite (Ht x t' E).
Qed.

Lemma class_ids_lines (ns : list (nat * string)) classes :
  Forall (fun p => class_tail (snd p)) ns ->
  class_ids ((fun p => "class htb " +:+ class_id (fst p) +:+ snd p) <$> ns) classes
  = Ok (list_to_set (class_id <$> (fst <$> ns)) ∪ classes).
Proof.
  revert classes. induction ns as [|[n t] ns IH]; intros classes H.
  { cbn. f_equal. set_solver. }
  apply Forall_cons in H as [Ht H]. cbn [fmap list_fmap fst snd class_ids] in *.
  assert (TrimSpace ("class htb " +:+ class_id n +:+ t) = "class htb " +:+ class_id n +:+ trim_right t) as ->.
  { unfold TrimSpace. change (trim_left ("class htb " +:+ class_id n +:+ t)) with ("class htb " +:+ class_id n +:+ t).
    assert (trim_right (class_id n +:+ t) = class_id n +:+ trim_right t) as E.
    { apply trim_right_solid. unfold class_id. rewrite sforall_app.
      by rewrite (digit_not_space _ (utoa_digits _)). }
    rewrite trim_right_app by (rewrite E; unfold class_id; by destruct (utoa (N.of_nat n))).
    by rewrite E. }
  case_decide as Hd; [discriminate Hd|].
  rewrite class_line_matches by (by apply class_tail_trim).
  rewrite IH by done. f_equal. cbn. set_solver.
Qed.

(** The class the shaper takes next.  For the lines tc prints for the
    classes that exist it is the smallest number from 1 to 9999 that none of
    them has; when all are taken it reports that the space is exhausted; and it
    changes nothing. *)
Theorem next_class_fresh {W} `{Execer W} iface (w w' : W) data (ns : list (nat * string)) :
  CombinedOutput "tc" ["class"; "show"; "dev"; iface] w = ((data, None), w') ->
  scan_lines data = (fun p => "class htb " +:+ class_id (fst p) +:+ snd p) <$> ns ->
  Forall (fun p => class_tail (snd p)) ns ->
  (exists n, nextClassID iface w = (Ok n, w') /\ (1 <= n)%nat /\ (Z.of_nat n <= 9999)%Z /\ n ∉ fst <$> ns
     /\ forall m, (1 <= m < n)%nat -> m ∈ fst <$> ns)
  \/ (nextClassID iface w = (Err (Errorf "exhausted class space, please try again"), w')
      /\ forall m, (1 <= m)%nat -> (Z.of_nat m <= 9999)%Z -> m ∈ fst <$> ns).
Proof.
  intros Hout Hlines Hts.
  assert (forall m, class_id m ∈ (list_to_set (class_id <$> (fst <$> ns)) ∪ ∅ : gset string)
            <-> m ∈ fst <$> ns) as Hin.
  { intros m. rewrite elem_of_union, elem_of_list_to_set, list_elem_of_fmap. split.
    - intros [(k & Hk%class_id_inj & Hk')|]; [by subst|set_solver].
    - intros Hm. left. by exists m. }
  unfold nextClassID, try, bind, tc_show, bind. rewrite Hout. cbv beta iota zeta. unfold ret.
  rewrite Hlines, class_ids_lines by done.
  assert (Z.of_nat class_space = 9999%Z) as Hspace by (unfold class_space; lia).
  pose proof (first_free_spec class_space 1 (list_to_set (class_id <$> (fst <$> ns)) ∪ ∅)) as Hf.
  destruct (first_free class_space 1 _) as [n|].
  - left. exists n. destruct Hf as (H1 & H2 & H3). rewrite Hin in H2.
    split; [done|]. split; [lia|]. split; [lia|]. split; [done|].
    intros m Hm. apply Hin, H3. lia.
  - right. split; [done|]. intros m H1 H2. apply Hin, Hf. lia.
Qed.

(** *** CIDRs *)

Lemma zip_with_land_bytes ip mask : Forall is_byte mask -> Forall is_byte (zip_with N.land ip mask).
Proof.
  intros H. revert ip. induction H as [|b mask Hb H IH]; intros [|a ip]; cbn; constructor; [|apply IH].
  by apply land_bytes.
Qed.

Lemma ip_Mask_bytes ip mask : Forall is_byte mask -> Forall is_byte (ip_Mask ip mask).
Proof.
  intros H. unfold ip_Mask. cbv zeta. match goal with |- context [if ?b then drop 12 mask else mask] =>
    assert (Forall is_byte (if b then drop 12 mask else mask)) as Hm
      by (destruct b; [by apply Forall_drop|done]); revert Hm; generalize (if b then drop 12 mask else mask) end.
  intros m Hm. match goal with |- context [if ?b then zip_with _ _ _ else _] => destruct b end;
    [by apply zip_with_land_bytes|constructor].
Qed.

Lemma hex_lacks_slash s : sforall is_hex s = true -> lacks "/" s = true.
Proof.
  apply sforall_impl. intros c Hc. destruct (Ascii.eqb_spec c "/") as [->|Hn]; [done|done].
Qed.

(** The two forms of a CIDR.  Whatever network was asked to be limited, the
    form written for tc reads back as that network with its host bits cleared,
    in Go's notation, for both families and every prefix length; so what
    [GetCIDRs] lists are the networks that were limited. *)
Theorem cidr_hex_roundtrip cidr ip net :
  ParseCIDRSloppy cidr = Ok (ip, net) ->
  exists hex, hexCIDR cidr = Ok hex /\ asciiCIDR hex = Ok (IPNet_String net).
Proof.
  intros Hp. unfold hexCIDR. rewrite Hp. eexists. split; [done|].
  apply parse_cidr_net in Hp as (ones & bytes & Hb & Ho & ->). cbn [ipn_Mask].
  set (mask := CIDRMask ones bytes). set (masked := ip_Mask ip mask).
  assert (Forall is_byte mask) as Hm by apply CIDRMask_bytes.
  assert (Forall is_byte masked) as Hn by (by apply ip_Mask_bytes).
  assert (mask_String mask = hex_encode mask) as ->
    by (unfold mask, mask_String; destruct bytes; [lia|done]).
  unfold asciiCIDR.
  assert (split (hex_encode masked +:+ "/" +:+ hex_encode mask) "/" = [hex_encode masked; hex_encode mask]) as ->.
  { pose proof (split_join "/" (hex_encode masked) [hex_encode mask]) as Hs.
    rewrite join_cons in Hs. cbn [join] in Hs. apply Hs.
    repeat constructor; apply hex_lacks_slash; by apply hex_encode_hex. }
  rewrite !hex_decode_encode by done. unfold IPNet_String, mask_Size. cbn [ipn_IP ipn_Mask].
  assert (mask_length mask = Some ones) as Hl by (by apply mask_length_CIDRMask). by rewrite Hl.
Qed.

(** *** Concrete runs *)

Definition tc_world : Type := (gmap string string * list (list string))%type.

(** A tc that prints fixed text and records what it is asked to do. *)
#[local] Instance tc_execer : Execer tc_world := {|
  CombinedOutput := fun cmd args '(out, calls) =>
    ((default "" (out !! default "" (head args)), None), (out, calls ++ [args]));
  LookPath := fun f => ret (Ok f);
|}.

Definition two_classes : string :=
  "class htb 1:1 root prio 0 rate 1000Kbit" +:+ newline +:+ "class htb 1:3 root" +:+ newline.

Lemma next_class_fresh_witness :
  fst (nextClassID "cbr0" (({[ "class" := two_classes ]}, []) : tc_world)) = Ok 2%nat.
Proof.
  destruct (next_class_fresh "cbr0" (({[ "class" := two_classes ]}, []) : tc_world)
    ({[ "class" := two_classes ]}, [["class"; "show"; "dev"; "cbr0"]]) two_classes
    [(1, " root prio 0 rate 1000Kbit"); (3, " root")]) as [(n & -> & H1 & H2 & H3 & H4)|[_ H]].
  - reflexivity.
  - vm_compute. reflexivity.
  - repeat constructor; by intros c t' [= <-].
  - assert (n = 2) as ->; [|done]. cbn in *.
    destruct (decide (n = 1)) as [->|]; [exfalso; apply H3; set_solver|].
    destruct (decide (n = 2)) as [|]; [done|]. specialize (H4 2 ltac:(lia)). set_solver.
  - specialize (H 2 ltac:(lia) ltac:(lia)). cbn in H. set_solver.
Defined.

(** The mask of a /16 is ffff0000, where the comment says ffffffff. *)
Lemma cidr_hex_roundtrip_witness :
  hexCIDR "10.1.2.3/16" = Ok "0a010000/ffff0000"
  /\ exists hex, hexCIDR "10.1.2.3/16" = Ok hex /\ asciiCIDR hex = Ok "10.1.0.0/16".
Proof.
  split; [reflexivity|].
  exact (cidr_hex_roundtrip "10.1.2.3/16" _ _ eq_refl).
Defined.

(** The pattern for the handle of a filter takes decimal digits only, where
    tc numbers filters in hexadecimal: of the eleventh filter of a table,
    800::80a, it reads 800::80.  Asked to lift the limits of an address whose
    filter that is, [Reset] deletes the filter 800::80 instead. *)
Theorem reset_truncates_handle {W} `{Execer W} iface cidr (w w' : W) :
  let data := "filter parent 1: protocol ip pref 1 u32 chain 0 fh 800::80a order 2058 key ht 800 bkt 0 flowid 1:11"
              +:+ newline +:+ "  match 0a010203/ffffffff at 16" +:+ newline in
  CombinedOutput "tc" ["filter"; "show"; "dev"; iface] w = ((data, None), w') ->
  hexCIDR cidr = Ok "0a010203/ffffffff" ->
  fst (findCIDRClass iface cidr w) = Ok [("1:11", "800::80")]
  /\ Reset iface cidr w
     = for_try [("1:11", "800::80")] (fun '(class, handle) =>
         let? _ := execAndLog ["filter"; "del"; "dev"; iface; "parent"; "1:"; "proto"; "ip"; "prio"; "1";
                               "handle"; handle; "u32"] in
         execAndLog ["class"; "del"; "dev"; iface; "parent"; "1:"; "classid"; class]) w'.
Proof.
  intros data Hout Hhex.
  assert (findCIDRClass iface cidr w = (Ok [("1:11", "800::80")], w')) as E.
  { unfold findCIDRClass, try, bind, tc_show, bind. rewrite Hout. cbv beta iota zeta. unfold ret.
    by rewrite Hhex. }
  rewrite E. split; [done|]. unfold Reset, try at 1, bind. by rewrite E.
Qed.

Definition eleventh : string :=
  "filter parent 1: protocol ip pref 1 u32 chain 0 fh 800::80a order 2058 key ht 800 bkt 0 flowid 1:11"
  +:+ newline +:+ "  match 0a010203/ffffffff at 16" +:+ newline.

Lemma reset_truncates_handle_witness :
  fst (findCIDRClass "cbr0" "10.1.2.3/32" (({[ "filter" := eleventh ]}, []) : tc_world))
  = Ok [("1:11", "800::80")].
Proof.
  exact (proj1 (reset_truncates_handle "cbr0" "10.1.2.3/32" (({[ "filter" := eleventh ]}, []) : tc_world)
    ({[ "filter" := eleventh ]}, [["filter"; "show"; "dev"; "cbr0"]]) eq_refl eq_refl)).
Defined.

(** A status line of two words: [fields[2]] is out of range. *)
Example reconcile_panics :
  fst (ReconcileInterface "cbr0" (({[ "qdisc" := "qdisc pfifo" ]}, []) : tc_world)) = None.
Proof. reflexivity. Qed.
