(* ===== verification/Cni.v ===== *)
(** * Cni: the CNI network plugin

    network/cni/cni.go and network/cni/cni_others.go, with the interface to the
    service ([network.Host]) and the lookup of pod IPs inside a network
    namespace (network/plugins.go) that both plugins share.  The CNI library
    is a parameter.  The goroutine that reloads the configuration every five
    seconds and the pod CIDR event can run between any two reads of the
    plugin's state: [between] stands for whatever they do there. *)
From stdpp Require Import sorting.
From S2P Require Import Prelude GoErrors GoNet GoText GoCidr Cri Naming Labels Cache Store Checkpoint Libdocker PluginManager Service Sim SandboxHelpers Sandboxes SandboxSpec Hostport PortForward Bandwidth.

(** ** Interfaces *)

(** [network.Host]: what a plugin asks of the service. *)
Class Host (W : Type) := {
  GetNetNS : string -> M W (res string);
  GetPodPortMappings : string -> M W (res (list HostPortMapping));
}.

(** The service is one (docker_service.go). *)
#[export] Instance service_Host {W St} `{DockerClient W} `{Store St} `{CheckpointJSON} `{Spew}
  : Host (dockerService W St) := {|
  GetNetNS := ds_GetNetNS;
  GetPodPortMappings := ds_GetPodPortMappings;
|}.

(** A CNI configuration: the plugin types of a list, or one plugin. *)
Record NetworkConfigList := mkNetworkConfigList { ncl_Name : string; ncl_Plugins : list string }.
Record NetworkConfig := mkNetworkConfig { nc_Name : string; nc_Type : string }.

(** The capability arguments the plugin sets. *)
Record cniPortMapping := mkCniPortMapping {
  cpm_HostPort : Z;
  cpm_ContainerPort : Z;
  cpm_Protocol : string;
  cpm_HostIP : string;
}.
Record cniBandwidthEntry := mkCniBandwidthEntry {
  IngressRate : Z;
  IngressBurst : Z;
  EgressRate : Z;
  EgressBurst : Z;
}.
Record cniDNSConfig := mkCniDNSConfig {
  dns_Servers : list string;
  dns_Searches : list string;
  dns_Options : list string;
}.
Record CapabilityArgs := mkCapabilityArgs {
  ca_portMappings : list cniPortMapping;
  ca_bandwidth : option cniBandwidthEntry;
  ca_ipRanges : list (list string);
  ca_dns : option cniDNSConfig;
}.

(** [libcni.RuntimeConf]. *)
Record RuntimeConf := mkRuntimeConf {
  rt_ContainerID : string;
  rt_NetNS : string;
  rt_IfName : string;
  rt_CacheDir : string;
  rt_Args : list (string * string);
  rt_CapabilityArgs : option CapabilityArgs;
}.

(** The CNI library; the first argument of a call on a network is the
    directories its plugins are searched in. *)
Class LibCNI (W : Type) := {
  cni_Result : Type;
  ConfFiles : string -> list string -> M W (res (list string));
  ConfListFromFile : string -> M W (res NetworkConfigList);
  ConfFromFile : string -> M W (res NetworkConfig);
  ConfListFromConf : NetworkConfig -> M W (res NetworkConfigList);
  ValidateNetworkList : list string -> NetworkConfigList -> M W (res (list string));
  AddNetworkList : list string -> NetworkConfigList -> RuntimeConf -> M W (res cni_Result);
  DelNetworkList : list string -> NetworkConfigList -> RuntimeConf -> M W (res unit);
}.

(** [json.Unmarshal] into a [runtimeapi.DNSConfig]. *)
Class DNSJSON := unmarshal_dns : string -> res DNSConfig.

(** ** State *)

Record cniNetwork := mkCniNetwork {
  cn_name : string;
  cn_NetworkConfig : NetworkConfigList;
  cn_CNIConfig : list string;
  cn_Capabilities : list string;
}.

Record cniNetworkPlugin := mkCni {
  cni_loNetwork : option cniNetwork;
  cni_defaultNetwork : option cniNetwork;
  cni_nsenterPath : string;
  cni_confDir : string;
  cni_binDirs : list string;
  cni_cacheDir : string;
  cni_podCidr : string;
}.

(** ** Constants *)

Definition CNIPluginName : string := "cni".
Definition DefaultInterfaceName : string := "eth0".
Definition portMappingsCapability : string := "portMappings".
Definition ipRangesCapability : string := "ipRanges".
Definition bandwidthCapability : string := "bandwidth".
Definition dnsCapability : string := "dns".
Definition MaxInt32 : Z := 2147483647.

(** A [ContainerID] under %q, which has no string form of its own. *)
Definition quote_id (id : ContainerID) : string :=
  "{" +:+ quote (cid_Type id) +:+ " " +:+ quote (cid_ID id) +:+ "}".

Definition SplitDirs (dirs : string) : list string := split dirs ",".

(** [sort.Strings]. *)
Fixpoint insert_string (x : string) (l : list string) : list string :=
  match l with
  | [] => [x]
  | y :: l' => match String.compare x y with Gt => y :: insert_string x l' | _ => x :: y :: l' end
  end.
Definition sort_Strings (l : list string) : list string := foldr insert_string [] l.

Definition getLoNetwork (binDirs : list string) : cniNetwork :=
  mkCniNetwork "lo" (mkNetworkConfigList "cni-loopback" ["loopback"]) binDirs [].

Definition buildDNSCapabilities (dnsConfig : DNSConfig) : option cniDNSConfig := None.

(** ** The address of a pod, read in its namespace (network/plugins.go) *)

Definition parse_pod_ip (output : string) : res string :=
  let line := default "" (head (split output newline)) in
  let fields := Fields line in
  if Nat.ltb (length fields) 4 then Err (Errorf ("unexpected address output " +:+ line +:+ " "))
  else match ParseCIDR (default "" (fields !! 3)) with
       | Err err => Err (Errorf ("CNI failed to parse ip from output " +:+ output +:+ " due to "
                                 +:+ Error err))
       | Ok (ip, _) => Ok (IP_String ip)
       end.

Definition getOnePodIP {W} `{Execer W} (nsenterPath netnsPath interfaceName addrType : string)
  : M W (res string) :=
  let* '(output, err) := CombinedOutput nsenterPath
    ["--net=" +:+ netnsPath; "-F"; "--"; "ip"; "-o"; addrType; "addr"; "show"; "dev"; interfaceName;
     "scope"; "global"] in
  ret (match err with
       | Some e => Err (Errorf ("unexpected command output " +:+ output +:+ " with error: " +:+ Error e))
       | None => parse_pod_ip output
       end).

Section Cni.
Context {W : Type} `{Execer W} `{Host W} `{LibCNI W} `{Quantities} `{DNSJSON}.
Abbreviation PS := (cniNetworkPlugin * W)%type.

Definition onWorld {A} (m : M W A) : M PS A := fun '(p, w) => let '(a, w') := m w in (a, (p, w')).
Definition plugin : M PS cniNetworkPlugin := fun '(p, w) => (p, (p, w)).
Definition set_plugin (f : cniNetworkPlugin -> cniNetworkPlugin) : M PS unit := fun '(p, w) => (tt, (f p, w)).

(** ** Choosing the default network *)

(** One turn of the loop over the configuration files: None to go on. *)
Definition try_conf_file (binDirs : list string) (confFile : string) : M W (option cniNetwork) :=
  let use (confList : NetworkConfigList) : M W (option cniNetwork) :=
    match ncl_Plugins confList with
    | [] => ret None
    | _ =>
        let* v := ValidateNetworkList binDirs confList in
        ret (match v with
             | Err _ => None
             | Ok caps => Some (mkCniNetwork (ncl_Name confList) confList binDirs caps)
             end)
    end in
  if has_suffix confFile ".conflist" then
    let* r := ConfListFromFile confFile in
    match r with
    | Err _ => ret None
    | Ok confList => use confList
    end
  else
    let* r := ConfFromFile confFile in
    match r with
    | Err _ => ret None
    | Ok conf =>
        if decide (nc_Type conf = "") then ret None
        else
          let* r := ConfListFromConf conf in
          match r with
          | Err _ => ret None
          | Ok confList => use confList
          end
    end.

Fixpoint first_network (binDirs : list string) (files : list string) : M W (option cniNetwork) :=
  match files with
  | [] => ret None
  | confFile :: files' =>
      let* r := try_conf_file binDirs confFile in
      match r with
      | Some n => ret (Some n)
      | None => first_network binDirs files'
      end
  end.

Definition getDefaultCNINetwork (confDir : string) (binDirs : list string) : M W (res cniNetwork) :=
  let? files := ConfFiles confDir [".conf"; ".conflist"; ".json"] in
  match files with
  | [] => ret (Err (Errorf ("no networks found in " +:+ confDir)))
  | _ =>
      let* r := first_network binDirs (sort_Strings files) in
      ret (match r with
           | Some n => Ok n
           | None => Err (Errorf ("no valid networks found in " +:+ confDir))
           end)
  end.

Definition set_defaultNetwork (n : cniNetwork) (p : cniNetworkPlugin) : cniNetworkPlugin :=
  mkCni (cni_loNetwork p) (Some n) (cni_nsenterPath p) (cni_confDir p) (cni_binDirs p) (cni_cacheDir p)
    (cni_podCidr p).
Definition set_podCidr (c : string) (p : cniNetworkPlugin) : cniNetworkPlugin :=
  mkCni (cni_loNetwork p) (cni_defaultNetwork p) (cni_nsenterPath p) (cni_confDir p) (cni_binDirs p)
    (cni_cacheDir p) c.
Definition set_nsenterPath (s : string) (p : cniNetworkPlugin) : cniNetworkPlugin :=
  mkCni (cni_loNetwork p) (cni_defaultNetwork p) s (cni_confDir p) (cni_binDirs p) (cni_cacheDir p)
    (cni_podCidr p).

Definition syncNetworkConfig : M PS unit :=
  let* p := plugin in
  let* r := onWorld (getDefaultCNINetwork (cni_confDir p) (cni_binDirs p)) in
  match r with
  | Err _ => ret tt
  | Ok network => set_plugin (set_defaultNetwork network)
  end.

Definition ProbeNetworkPlugins (confDir cacheDir : string) (binDirs : list string) : M W cniNetworkPlugin :=
  fun w =>
  let binDirs := base.filter (fun dir => dir <> "") binDirs in
  let '(_, (p, w')) :=
    syncNetworkConfig (mkCni (Some (getLoNetwork binDirs)) None "" confDir binDirs cacheDir "", w) in
  (p, w').

(** [Init]; the goroutine it starts repeats [syncNetworkConfig]. *)
Definition cni_Init : M PS (res unit) :=
  let? path := onWorld (LookPath "nsenter") in
  do* set_plugin (set_nsenterPath path) in
  do* syncNetworkConfig in
  ret (Ok tt).

(** [Event], with the details that are strings. *)
Definition cni_Event (name : string) (details : gmap string string) : M PS unit :=
  if decide (name <> NET_PLUGIN_EVENT_POD_CIDR_CHANGE) then ret tt
  else match details !! NET_PLUGIN_EVENT_POD_CIDR_CHANGE_DETAIL_CIDR with
       | None => ret tt
       | Some podCIDR =>
           set_plugin (fun p => if decide (cni_podCidr p <> "") then p else set_podCidr podCIDR p)
       end.

(** ** Pods *)

(** What other goroutines do to the plugin at one point. *)
Variable between : M PS unit.

Definition getDefaultNetwork : M PS (option cniNetwork) :=
  do* between in let* p := plugin in ret (cni_defaultNetwork p).

Definition checkInitialized : M PS (res unit) :=
  let* n := getDefaultNetwork in
  match n with
  | None => ret (Err (Errorf "cni config uninitialized"))
  | Some _ =>
      let* n := getDefaultNetwork in
      match n with
      | None => ret (Err nil_dereference_panic)
      | Some n =>
          let* p := plugin in
          ret (if bool_decide (ipRangesCapability ∈ cn_Capabilities n)
                  && bool_decide (cni_podCidr p = "")
               then Err (Errorf "cni config needs ipRanges but no PodCIDR set") else Ok tt)
      end
  end.

Definition cni_Status : M PS (res unit) := checkInitialized.

Definition cni_port_mappings (portMappings : list HostPortMapping) : list cniPortMapping :=
  (fun p => mkCniPortMapping (hpm_HostPort p) (hpm_ContainerPort p) (to_lower (hpm_Protocol p)) (hpm_HostIP p))
  <$> base.filter (fun p => ~ (hpm_HostPort p <= 0)%Z) portMappings.

Definition cni_bandwidth (ingress egress : option Z) : option cniBandwidthEntry :=
  match ingress, egress with
  | None, None => None
  | _, _ =>
      Some (mkCniBandwidthEntry (default 0%Z ingress) (from_option (fun _ => MaxInt32) 0%Z ingress)
              (default 0%Z egress) (from_option (fun _ => MaxInt32) 0%Z egress))
  end.

Definition cni_args (podName podNs id : string) : list (string * string) :=
  [("IgnoreUnknown", "1"); ("K8S_POD_NAMESPACE", podNs); ("K8S_POD_NAME", podName);
   ("K8S_POD_INFRA_CONTAINER_ID", id)].

Definition cni_buildCNIRuntimeConf (podName podNs : string) (podSandboxID : ContainerID)
  (podNetnsPath : string) (annotations options : gmap string string) : M PS (res RuntimeConf) :=
  let id := cid_ID podSandboxID in
  let* r := onWorld (GetPodPortMappings id) in
  match r with
  | Err err => ret (Err (Errorf ("could not retrieve port mappings: " +:+ Error err)))
  | Ok portMappings =>
      match ExtractPodBandwidthResources annotations with
      | Err err => ret (Err (Errorf ("failed to get pod bandwidth from annotations: " +:+ Error err)))
      | Ok (ingress, egress) =>
          let* p := plugin in
          let dns := match options !! "dns" with
                     | None => Ok None
                     | Some dnsOptions =>
                         match unmarshal_dns dnsOptions with
                         | Err err => Err (Errorf ("failed to unmarshal dns config " +:+ quote dnsOptions
                                                   +:+ ": " +:+ Error err))
                         | Ok dnsConfig => Ok (buildDNSCapabilities dnsConfig)
                         end
                     end in
          ret (match dns with
               | Err err => Err err
               | Ok dns =>
                   Ok (mkRuntimeConf id podNetnsPath DefaultInterfaceName (cni_cacheDir p)
                         (cni_args podName podNs id)
                         (Some (mkCapabilityArgs (cni_port_mappings portMappings)
                            (cni_bandwidth ingress egress) [[cni_podCidr p]] dns)))
               end)
      end
  end.

(** A network that is nil is dereferenced after the configuration is built. *)
Definition addToNetwork (network : option cniNetwork) (podName podNamespace : string)
  (podSandboxID : ContainerID) (podNetnsPath : string) (annotations options : gmap string string)
  : M PS (res cni_Result) :=
  let? rt := cni_buildCNIRuntimeConf podName podNamespace podSandboxID podNetnsPath annotations options in
  match network with
  | None => ret (Err nil_dereference_panic)
  | Some n => onWorld (AddNetworkList (cn_CNIConfig n) (cn_NetworkConfig n) rt)
  end.

Definition deleteFromNetwork (network : option cniNetwork) (podName podNamespace : string)
  (podSandboxID : ContainerID) (podNetnsPath : string) (annotations : gmap string string)
  : M PS (res unit) :=
  let? rt := cni_buildCNIRuntimeConf podName podNamespace podSandboxID podNetnsPath annotations ∅ in
  match network with
  | None => ret (Err nil_dereference_panic)
  | Some n =>
      let* r := onWorld (DelNetworkList (cn_CNIConfig n) (cn_NetworkConfig n) rt) in
      ret (match r with
           | Ok _ => Ok tt
           | Err err => if contains (Error err) "no such file or directory" then Ok tt else Err err
           end)
  end.

Definition cni_SetUpPod (namespace name : string) (id : ContainerID)
  (annotations options : gmap string string) : M PS (res unit) :=
  let? _ := checkInitialized in
  let* r := onWorld (GetNetNS (cid_ID id)) in
  match r with
  | Err err => ret (Err (Errorf ("CNI failed to retrieve network namespace path: " +:+ Error err)))
  | Ok netnsPath =>
      let* p := plugin in
      let* lo := match cni_loNetwork p with
                 | Some _ =>
                     let? _ := addToNetwork (cni_loNetwork p) name namespace id netnsPath annotations options in
                     ret (Ok tt)
                 | None => ret (Ok tt)
                 end in
      match lo with
      | Err err => ret (Err err)
      | Ok _ =>
          let* n := getDefaultNetwork in
          let? _ := addToNetwork n name namespace id netnsPath annotations options in
          ret (Ok tt)
      end
  end.

Definition cni_TearDownPod (namespace name : string) (id : ContainerID) : M PS (res unit) :=
  let? _ := checkInitialized in
  let* r := onWorld (GetNetNS (cid_ID id)) in
  let netnsPath := match r with Ok path => path | Err _ => "" end in
  let* p := plugin in
  let* _ := match cni_loNetwork p with
            | Some _ => deleteFromNetwork (cni_loNetwork p) name namespace id netnsPath ∅
            | None => ret (Ok tt)
            end in
  let* n := getDefaultNetwork in
  deleteFromNetwork n name namespace id netnsPath ∅.

Definition cni_GetPodNetworkStatus (IPv6DualStackEnabled : bool) (namespace name : string) (id : ContainerID)
  : M PS (res (option PodNetworkStatus)) :=
  let* r := onWorld (GetNetNS (cid_ID id)) in
  match r with
  | Err err => ret (Err (Errorf ("CNI failed to retrieve network namespace path: " +:+ Error err)))
  | Ok netnsPath =>
      let missing what := Errorf ("cannot find " +:+ what +:+ ", skipping pod network status for container "
                                  +:+ quote_id id) in
      if decide (netnsPath = "") then ret (Err (missing "the network namespace"))
      else
        let* p := plugin in
        let? ips := onWorld (GetPodIPs IPv6DualStackEnabled
                      (getOnePodIP (cni_nsenterPath p) netnsPath DefaultInterfaceName)) in
        ret (match ips with
             | [] => Err (missing "pod IPs in the network namespace")
             | ip :: _ => Ok (Some (mkPodNetworkStatus ip ips))
             end)
  end.

End Cni.

(** The plugin behind the interface of the plugin manager. *)
#[export] Instance cni_NetworkPlugin {W} `{Execer W} `{Host W} `{LibCNI W} `{Quantities} `{DNSJSON}
  : NetworkPlugin (cniNetworkPlugin * W) := {|
  Plugin_Name := CNIPluginName;
  Plugin_SetUpPod := cni_SetUpPod (ret tt);
  Plugin_TearDownPod := cni_TearDownPod (ret tt);
  Plugin_GetPodNetworkStatus := cni_GetPodNetworkStatus false;
  Plugin_Status := cni_Status (ret tt);
  Plugin_Event := cni_Event;
|}.

(** ** Theory *)

(** *** Sorting file names *)

Lemma insert_string_perm x l : insert_string x l ≡ₚ x :: l.
Proof.
  induction l as [|y l IH]; cbn; [done|]. case_match; [done..|]. rewrite IH. apply Permutation_swap.
Qed.
Lemma sort_Strings_perm l : sort_Strings l ≡ₚ l.
Proof. induction l as [|x l IH]; cbn; [done|]. by rewrite insert_string_perm, IH. Qed.

Lemma insert_string_sorted x l :
  StronglySorted String.le l -> StronglySorted String.le (insert_string x l).
Proof.
  induction 1 as [|y l Hs IH Hy]; cbn; [repeat constructor|].
  pose proof (compare_le x y) as Hc. destruct (String.compare x y).
  1,2: constructor; [by constructor|]; constructor; [done|];
       eapply Forall_impl; [done|]; intros z Hz; by etrans.
  constructor; [done|]. rewrite insert_string_perm. by constructor.
Qed.
Lemma sort_Strings_sorted l : StronglySorted String.le (sort_Strings l).
Proof. induction l; cbn; [constructor|]. by apply insert_string_sorted. Qed.

Lemma sort_Strings_unique l l' : l ≡ₚ l' -> sort_Strings l = sort_Strings l'.
Proof.
  intros Hp. apply (StronglySorted_unique String.le); try apply sort_Strings_sorted.
  by rewrite !sort_Strings_perm.
Qed.

Section Theory.
Context {W : Type} `{IE : Execer W} `{IS : Host W} `{IC : LibCNI W} `{IQ : Quantities} `{ID : DNSJSON}.

(** *** The choice of the default network *)

(** Reading configuration leaves the world alone. *)
Definition config_read_only : Prop :=
  forall binDirs f w, snd (try_conf_file binDirs f w) = w.

(** What a file gives at [w]. *)
Definition conf_of (binDirs : list string) (w : W) (f : string) : option cniNetwork :=
  fst (try_conf_file binDirs f w).

Lemma first_network_spec binDirs files w :
  config_read_only ->
  first_network binDirs files w = (head (omap (conf_of binDirs w) files), w).
Proof.
  intros Hro. induction files as [|f files IH]; [done|]. cbn [first_network omap list_omap].
  unfold bind. pose proof (Hro binDirs f w) as Hw. unfold conf_of at 1.
  destruct (try_conf_file binDirs f w) as [[n|] w']; cbn in Hw; subst w'; [done|]. exact IH.
Qed.

(** Which network pods are put on.  Among the configuration files of the
    directory it is the one of the first file by name that loads, has plugins
    and validates, in whatever order the directory lists them; every file before
    it is unusable, and when all are the error says so. *)
Theorem cni_default_network confDir binDirs files files' (w w' : W) :
  config_read_only ->
  ConfFiles confDir [".conf"; ".conflist"; ".json"] w = (Ok files, w') -> files ≡ₚ files' -> files <> [] ->
  (exists n f pre post, getDefaultCNINetwork confDir binDirs w = (Ok n, w')
     /\ sort_Strings files' = pre ++ f :: post /\ conf_of binDirs w' f = Some n
     /\ Forall (fun g => conf_of binDirs w' g = None) pre
     /\ Forall (String.le f) post)
  \/ (getDefaultCNINetwork confDir binDirs w = (Err (Errorf ("no valid networks found in " +:+ confDir)), w')
      /\ Forall (fun g => conf_of binDirs w' g = None) files').
Proof.
  intros Hro Hf Hp Hne. rewrite <- (sort_Strings_unique _ _ Hp).
  assert (getDefaultCNINetwork confDir binDirs w
    = (match head (omap (conf_of binDirs w') (sort_Strings files)) with
       | Some n => Ok n
       | None => Err (Errorf ("no valid networks found in " +:+ confDir))
       end, w')) as ->.
  { unfold getDefaultCNINetwork, try, bind. rewrite Hf. destruct files as [|f0 files]; [done|].
    by rewrite first_network_spec. }
  assert (forall l, (exists n f pre post, head (omap (conf_of binDirs w') l) = Some n
      /\ l = pre ++ f :: post /\ conf_of binDirs w' f = Some n
      /\ Forall (fun g => conf_of binDirs w' g = None) pre)
    \/ head (omap (conf_of binDirs w') l) = None /\ Forall (fun g => conf_of binDirs w' g = None) l) as Hl.
  { induction l as [|f l IH]; [by right|]. cbn [omap list_omap].
    destruct (conf_of binDirs w' f) as [n|] eqn:E.
    - left. by exists n, f, [], l.
    - destruct IH as [(n & f' & pre & post & -> & -> & Hn & Hpre)|[-> Hall]]; [left|right].
      + exists n, f', (f :: pre), post. repeat (split; [done|]). by constructor.
      + split; [done|by constructor]. }
  destruct (Hl (sort_Strings files)) as [(n & f & pre & post & -> & E & Hn & Hpre)|[-> Hall]]; [left|right].
  - exists n, f, pre, post. repeat (split; [done|]).
    pose proof (sort_Strings_sorted files) as Hs. rewrite E in Hs.
    apply StronglySorted_app in Hs as (_ & _ & Hs). by apply StronglySorted_inv in Hs as [_ Hs].
  - split; [done|]. by rewrite <- Hp, <- (sort_Strings_perm files).
Qed.

(** *** The network is never lost *)

(** An action that keeps a default network once there is one. *)
Definition keeps_network {A} (m : M (cniNetworkPlugin * W) A) : Prop :=
  forall p w, is_Some (cni_defaultNetwork p) ->
    is_Some (cni_defaultNetwork (fst (snd (m (p, w))))) /\ cni_loNetwork (fst (snd (m (p, w)))) = cni_loNetwork p.

Lemma cni_keeps_ret {A} (a : A) : keeps_network (ret a).
Proof. by intros p w Hp. Qed.

Lemma cni_keeps_bind {A B} (m : M _ A) (k : A -> M _ B) :
  keeps_network m -> (forall a, keeps_network (k a)) -> keeps_network (bind m k).
Proof.
  intros Hm Hk p w Hp. unfold bind. specialize (Hm p w Hp) as [H1 H2].
  destruct (m (p, w)) as [a [p' w']]. cbn in *. destruct (Hk a p' w' H1) as [H3 H4].
  split; [done|congruence].
Qed.

Lemma keeps_onWorld {A} (m : M W A) : keeps_network (onWorld m).
Proof. intros p w Hp. unfold onWorld. by destruct (m w). Qed.

Lemma keeps_plugin : keeps_network plugin.
Proof. by intros p w Hp. Qed.

Lemma cni_keeps_sync : keeps_network syncNetworkConfig.
Proof.
  apply cni_keeps_bind; [apply keeps_plugin|]. intros p0. apply cni_keeps_bind; [apply keeps_onWorld|].
  intros [n|e]; [|apply cni_keeps_ret]. intros p w Hp. cbn. split; [by exists n|done].
Qed.

Lemma keeps_Event name details : keeps_network (cni_Event name details).
Proof.
  unfold cni_Event. case_decide; [apply cni_keeps_ret|]. case_match; [|apply cni_keeps_ret].
  intros p w Hp. cbn. by case_decide.
Qed.

(** What other goroutines can do: reload the configuration, handle events,
    and act on the world, any number of times. *)
Inductive background : M (cniNetworkPlugin * W) unit -> Prop :=
| bg_none : background (ret tt)
| bg_sync m : background m -> background (do* syncNetworkConfig in m)
| bg_event name details m : background m -> background (do* cni_Event name details in m)
| bg_world (act : M W unit) m : background m -> background (do* onWorld act in m).

Lemma background_keeps m : background m -> keeps_network m.
Proof.
  induction 1; [apply cni_keeps_ret|..]; (apply cni_keeps_bind; [|done]).
  - apply cni_keeps_sync.
  - apply keeps_Event.
  - apply keeps_onWorld.
Qed.

(** Nothing in the world answers with the panic. *)
Definition no_panics : Prop :=
  (forall id w, fst (GetNetNS id w) <> Err nil_dereference_panic)
  /\ (forall b n rt w, fst (AddNetworkList b n rt w) <> Err nil_dereference_panic)
  /\ (forall b n rt w, fst (DelNetworkList b n rt w) <> Err nil_dereference_panic).

Lemma checkInitialized_ok between (p p' : cniNetworkPlugin) (w w' : W) r :
  background between -> checkInitialized between (p, w) = (r, (p', w')) ->
  r <> Err nil_dereference_panic /\ (r = Ok tt -> is_Some (cni_defaultNetwork p')).
Proof.
  intros Hb. apply background_keeps in Hb as Hk. unfold checkInitialized, getDefaultNetwork, bind, plugin, ret.
  destruct (between (p, w)) as [[] [p1 w1]] eqn:E1.
  destruct (cni_defaultNetwork p1) as [n|] eqn:En; [|by intros [= <- <- <-]].
  destruct (Hk p1 w1) as [H1 _]; [by exists n|].
  destruct (between (p1, w1)) as [[] [p2 w2]] eqn:E2. cbn in H1. destruct H1 as [n2 Hn2]. rewrite Hn2.
  intros [= <- <- <-]. split; [by case_match|by exists n2].
Qed.

Lemma buildCNIRuntimeConf_frame podName podNs id path annotations options (p : cniNetworkPlugin) (w : W) :
  fst (snd (cni_buildCNIRuntimeConf podName podNs id path annotations options (p, w))) = p
  /\ fst (cni_buildCNIRuntimeConf podName podNs id path annotations options (p, w)) <> Err nil_dereference_panic.
Proof.
  unfold cni_buildCNIRuntimeConf, bind, onWorld, plugin, ret.
  destruct (GetPodPortMappings (cid_ID id) w) as [[pms|e] w1]; [|done].
  destruct (ExtractPodBandwidthResources annotations) as [[ingress egress]|e]; [|done].
  cbn. split; [done|]. destruct (options !! "dns") as [s|]; [|done]. by destruct (unmarshal_dns s).
Qed.

Lemma addToNetwork_frame n podName podNs id path annotations options (p : cniNetworkPlugin) (w : W) :
  no_panics ->
  fst (snd (addToNetwork n podName podNs id path annotations options (p, w))) = p
  /\ (is_Some n -> fst (addToNetwork n podName podNs id path annotations options (p, w)) <> Err nil_dereference_panic).
Proof.
  intros (_ & Hadd & _). unfold addToNetwork, try, bind.
  destruct (buildCNIRuntimeConf_frame podName podNs id path annotations options p w) as [Hp Hn].
  destruct (cni_buildCNIRuntimeConf _ _ _ _ _ _ (p, w)) as [[rt|e] [p1 w1]]; cbn in *; subst;
    [|split; [done|intros _ Hx; apply Hn; congruence]].
  destruct n as [n|]; [|split; [done|by intros []]]. unfold onWorld.
  pose proof (Hadd (cn_CNIConfig n) (cn_NetworkConfig n) rt w1) as Ha.
  by destruct (AddNetworkList _ _ rt w1) as [r w2].
Qed.

Lemma deleteFromNetwork_frame n podName podNs id path annotations (p : cniNetworkPlugin) (w : W) :
  no_panics ->
  fst (snd (deleteFromNetwork n podName podNs id path annotations (p, w))) = p
  /\ (is_Some n -> fst (deleteFromNetwork n podName podNs id path annotations (p, w)) <> Err nil_dereference_panic).
Proof.
  intros (_ & _ & Hdel). unfold deleteFromNetwork, try, bind.
  destruct (buildCNIRuntimeConf_frame podName podNs id path annotations ∅ p w) as [Hp Hn].
  destruct (cni_buildCNIRuntimeConf _ _ _ _ _ _ (p, w)) as [[rt|e] [p1 w1]]; cbn in *; subst;
    [|split; [done|intros _ Hx; apply Hn; congruence]].
  destruct n as [n|]; [|split; [done|by intros []]]. unfold onWorld, ret.
  pose proof (Hdel (cn_CNIConfig n) (cn_NetworkConfig n) rt w1) as Hd.
  destruct (DelNetworkList _ _ rt w1) as [[?|e] w2]; cbn in *; [done|]. by destruct (contains _ _).
Qed.

Section Requests.
Context (between : M (cniNetworkPlugin * W) unit) (Hb : background between) (Hnp : no_panics).

(** What a request must answer: no panic, and the network stays chosen. *)
Definition keeps_answer (p : cniNetworkPlugin) (r : res unit) (p' : cniNetworkPlugin) : Prop :=
  r <> Err nil_dereference_panic
  /\ (is_Some (cni_defaultNetwork p) -> is_Some (cni_defaultNetwork p'))
  /\ (r = Ok tt -> is_Some (cni_defaultNetwork p')).

Lemma keeps_getDefaultNetwork : keeps_network (getDefaultNetwork between).
Proof.
  apply cni_keeps_bind; [by apply background_keeps|]. intros _.
  apply cni_keeps_bind; [apply keeps_plugin|]. intros q. apply cni_keeps_ret.
Qed.

Lemma keeps_checkInitialized : keeps_network (checkInitialized between).
Proof.
  apply cni_keeps_bind; [apply keeps_getDefaultNetwork|]. intros [n|]; [|apply cni_keeps_ret].
  apply cni_keeps_bind; [apply keeps_getDefaultNetwork|]. intros [n'|]; [|apply cni_keeps_ret].
  apply cni_keeps_bind; [apply keeps_plugin|]. intros q. apply cni_keeps_ret.
Qed.

Lemma getDefaultNetwork_some p w :
  is_Some (cni_defaultNetwork p) -> exists n p' w',
  getDefaultNetwork between (p, w) = (Some n, (p', w')) /\ is_Some (cni_defaultNetwork p').
Proof.
  intros Hp. destruct (background_keeps _ Hb p w Hp) as [[n Hn] _].
  unfold getDefaultNetwork, bind, plugin, ret. destruct (between (p, w)) as [[] [p2 w2]]. cbn in *.
  rewrite Hn. exists n, p2, w2. split; [done|by exists n].
Qed.

(** A request that starts with [checkInitialized]. *)
Lemma keeps_answer_checked (k : M (cniNetworkPlugin * W) (res unit)) p p' w w' r :
  (forall p1 w1 r1 p2 w2, is_Some (cni_defaultNetwork p1) -> k (p1, w1) = (r1, (p2, w2)) ->
     r1 <> Err nil_dereference_panic /\ is_Some (cni_defaultNetwork p2)) ->
  try (checkInitialized between) (fun _ => k) (p, w) = (r, (p', w')) -> keeps_answer p r p'.
Proof.
  intros Hk. unfold try, bind. pose proof (keeps_checkInitialized p w) as Hkeep.
  destruct (checkInitialized between (p, w)) as [c [p1 w1]] eqn:Ec.
  apply checkInitialized_ok in Ec as [Hc1 Hc2]; [|done]. cbn in Hkeep. destruct c as [[]|e].
  - intros Hrun. apply Hk in Hrun as [H1' H2']; [by split|by apply Hc2].
  - intros [= <- <- <-]. split; [done|]. split; [naive_solver|done].
Qed.

Lemma SetUpPod_keeps namespace name id annotations options p p' w w' r :
  cni_SetUpPod between namespace name id annotations options (p, w) = (r, (p', w')) -> keeps_answer p r p'.
Proof.
  destruct Hnp as (Hns & _). apply keeps_answer_checked. clear p p' w w' r.
  intros p1 w1 r p2 w2 Hp1. unfold bind at 1, onWorld at 1.
  pose proof (Hns (cid_ID id) w1) as Hn1. destruct (GetNetNS (cid_ID id) w1) as [[path|e] w3].
  2: { intros [= <- <- <-]. by split. }
  unfold bind at 1, plugin. unfold bind at 1.
  match goal with |- context [?m (p1, w3)] =>
    assert (exists lo w4, m (p1, w3) = (lo, (p1, w4)) /\ lo <> Err nil_dereference_panic) as (lo & w4 & -> & Hlo) end.
  { destruct (cni_loNetwork p1) as [l|] eqn:El; [|by eexists (Ok tt), w3].
    destruct (addToNetwork_frame (Some l) name namespace id path annotations options p1 w3 Hnp) as [Hf Hr].
    unfold try, bind. destruct (addToNetwork _ _ _ _ _ _ _ (p1, w3)) as [lo [p4 w4]]. cbn in *. subst.
    destruct lo as [x|e]; [by exists (Ok tt), w4|]. exists (Err e), w4.
    split; [done|]. intros [= ->]. apply Hr; [by exists l|done]. }
  destruct lo as [[]|e].
  2: { intros [= <- <- <-]. by split. }
  unfold bind at 1. destruct (getDefaultNetwork_some p1 w4 Hp1) as (n & p4 & w5 & -> & H4).
  destruct (addToNetwork_frame (Some n) name namespace id path annotations options p4 w5 Hnp) as [Hf Hr].
  unfold try, bind. destruct (addToNetwork _ _ _ _ _ _ _ (p4, w5)) as [x [p5 w6]]. cbn in *. subst p5.
  destruct x as [x|e]; intros [= <- <- <-]; split; try done. intros [= ->]. apply Hr; [by exists n|done].
Qed.

Lemma TearDownPod_keeps namespace name id p p' w w' r :
  cni_TearDownPod between namespace name id (p, w) = (r, (p', w')) -> keeps_answer p r p'.
Proof.
  apply keeps_answer_checked. clear p p' w w' r.
  intros p1 w1 r p2 w2 Hp1. unfold bind at 1, onWorld at 1. destruct (GetNetNS (cid_ID id) w1) as [rn w3].
  unfold bind at 1, plugin. unfold bind at 1. set (path := match rn with Ok path => path | Err _ => "" end).
  match goal with |- context [?m (p1, w3)] =>
    assert (exists lo w4, m (p1, w3) = (lo, (p1, w4))) as (lo & w4 & ->) end.
  { destruct (cni_loNetwork p1) as [l|] eqn:El; [|by eexists (Ok tt), w3].
    destruct (deleteFromNetwork_frame (Some l) name namespace id path ∅ p1 w3 Hnp) as [Hf _].
    destruct (deleteFromNetwork _ _ _ _ _ _ (p1, w3)) as [lo [p4 w4]]. cbn in *. subst. by exists lo, w4. }
  unfold bind. destruct (getDefaultNetwork_some p1 w4 Hp1) as (n & p4 & w5 & -> & H4). intros Hrun.
  destruct (deleteFromNetwork_frame (Some n) name namespace id path ∅ p4 w5 Hnp) as [Hf Hr].
  rewrite Hrun in Hf, Hr. cbn in *. subst. split; [apply Hr; by exists n|done].
Qed.

End Requests.

(** C20: the default network, once chosen, is never lost, whatever the reloads
    find and whatever events arrive between any two steps of a request; so
    setting up and tearing down a pod, which read it several times without
    holding the lock, never dereference nil, and leave it chosen. *)
Theorem cni_network_never_lost between (p p' : cniNetworkPlugin) (w w' : W) namespace name id annotations options r :
  background between -> no_panics ->
  (cni_SetUpPod between namespace name id annotations options (p, w) = (r, (p', w'))
   \/ cni_TearDownPod between namespace name id (p, w) = (r, (p', w'))) ->
  r <> Err nil_dereference_panic
  /\ (is_Some (cni_defaultNetwork p) -> is_Some (cni_defaultNetwork p'))
  /\ (r = Ok tt -> is_Some (cni_defaultNetwork p')).
Proof.
  intros Hb Hnp [Hrun|Hrun].
  - by eapply SetUpPod_keeps.
  - by eapply TearDownPod_keeps.
Qed.

End Theory.

(** *** The runtime configuration *)

Section Configured.
Context {W St : Type} `{ID : DockerClient W} `{IS : StoreContract St} `{IP : Spew} `{IJ : CheckpointJSON}.
Context `{IQ : Quantities} `{IN : DNSJSON}.
Abbreviation DS := (dockerService W St).

(** While the store can read the checkpoint of a sandbox, its port mappings
    are those it was configured with. *)
Lemma service_port_mappings id c blob l (ds ds' : DS) :
  (forall s e s', Store_Read id s = (Err e, s') -> e <> Sentinel ErrCheckpointNotFound) ->
  contents (ds_checkpoints ds) id = Some blob ->
  decode_checkpoint blob = Some (with_checksum (constructPodSandboxCheckpoint c)) ->
  GetPodPortMappings id ds = (Ok l, ds') -> l = config_mapping <$> psc_PortMappings c.
Proof.
  intros Hre Hc Hd E. cbn in E. unfold ds_GetPodPortMappings in E.
  apply bind_step in E as (g & ds1 & Eg & E). apply onStore_step in Eg as (Eg & Es1 & _).
  destruct (Store_Read id (ds_checkpoints ds)) as [x st] eqn:Er.
  pose proof (read_contents _ _ _ _ Er) as [_ Hx]. destruct x as [blob'|e].
  - assert (blob' = blob) as -> by congruence.
    rewrite (GetCheckpoint_read _ _ _ _ _ Er Hd) in Eg. subst g. inv_ret E. apply config_mappings.
  - assert (e <> Sentinel ErrKeyNotFound) as Hne by (intros ->; rewrite Hx in Hc; done).
    assert (GetCheckpoint id (ds_checkpoints ds) = (Err e, st)) as Eg'.
    { unfold GetCheckpoint, bind, ret. rewrite Er.
      by destruct (is_sentinel ErrKeyNotFound e) eqn:Es; [apply is_sentinel_eq in Es|]. }
    rewrite Eg' in Eg. subst g. cbn [fst] in E.
    destruct (is_sentinel ErrCheckpointNotFound e) eqn:Es.
    { apply is_sentinel_eq in Es. by apply Hre in Er. }
    by apply bind_step in E as (d & ds2 & _ & [= ]).
Qed.

(** The name CNI plugins know a protocol by. *)
Definition cni_protocol (p : Protocol) : string :=
  match p with Protocol_UDP => "udp" | Protocol_SCTP => "sctp" | _ => "tcp" end.

Lemma cni_config_mappings (c : PodSandboxConfig) :
  cni_port_mappings (config_mapping <$> psc_PortMappings c)
  = (fun pm => mkCniPortMapping (pm_HostPort pm) (pm_ContainerPort pm) (cni_protocol (pm_Protocol pm))
                 (pm_HostIp pm)) <$> base.filter (fun pm => (0 < pm_HostPort pm)%Z) (psc_PortMappings c).
Proof.
  unfold cni_port_mappings. induction (psc_PortMappings c) as [|pm l IH]; [done|].
  rewrite fmap_cons, !filter_cons. cbn [config_mapping hpm_HostPort].
  case_decide; case_decide; try lia; [|done]. rewrite !fmap_cons. f_equal; [|exact IH].
  cbn. by destruct (pm_Protocol pm).
Qed.

(** What the CNI plugins are told about a pod.  From the sandbox's own
    checkpoint, through the service, the configuration of the call carries
    exactly the port mappings the sandbox was configured with that have a
    positive host port, in order, under the lower-case protocol names, the
    bandwidth of the annotations within its reasonable bounds, and the node's
    pod CIDR; never a DNS configuration. *)
Theorem cni_conf_from_sandbox podName podNs (id : ContainerID) path annotations options c blob
  (p p' : cniNetworkPlugin) (ds ds' : DS) rt :
  (forall s e s', Store_Read (cid_ID id) s = (Err e, s') -> e <> Sentinel ErrCheckpointNotFound) ->
  contents (ds_checkpoints ds) (cid_ID id) = Some blob ->
  decode_checkpoint blob = Some (with_checksum (constructPodSandboxCheckpoint c)) ->
  cni_buildCNIRuntimeConf podName podNs id path annotations options (p, ds) = (Ok rt, (p', ds')) ->
  rt_NetNS rt = path /\ rt_ContainerID rt = cid_ID id /\ p' = p
  /\ exists ca, rt_CapabilityArgs rt = Some ca
  /\ ca_portMappings ca
     = (fun pm => mkCniPortMapping (pm_HostPort pm) (pm_ContainerPort pm) (cni_protocol (pm_Protocol pm))
                    (pm_HostIp pm)) <$> base.filter (fun pm => (0 < pm_HostPort pm)%Z) (psc_PortMappings c)
  /\ ca_ipRanges ca = [[cni_podCidr p]] /\ ca_dns ca = None
  /\ (forall b, ca_bandwidth ca = Some b ->
        (IngressRate b = 0 /\ IngressBurst b = 0 \/ 1000 <= IngressRate b <= 10 ^ 15 /\ IngressBurst b = 2 ^ 31 - 1)%Z
        /\ (EgressRate b = 0 /\ EgressBurst b = 0 \/ 1000 <= EgressRate b <= 10 ^ 15 /\ EgressBurst b = 2 ^ 31 - 1)%Z).
Proof.
  intros Hre Hc Hd. unfold cni_buildCNIRuntimeConf, bind, onWorld, plugin, ret.
  destruct (GetPodPortMappings (cid_ID id) ds) as [[pms|e] ds1] eqn:Eg; [|done].
  apply (service_port_mappings _ c blob) in Eg as ->; try done.
  destruct (ExtractPodBandwidthResources annotations) as [[ingress egress]|e] eqn:Eb; [|done].
  intros E. assert (exists dns, dns = None /\ rt = mkRuntimeConf (cid_ID id) path DefaultInterfaceName
    (cni_cacheDir p) (cni_args podName podNs (cid_ID id))
    (Some (mkCapabilityArgs (cni_port_mappings (config_mapping <$> psc_PortMappings c))
       (cni_bandwidth ingress egress) [[cni_podCidr p]] dns)) /\ p' = p) as (dns & -> & -> & ->).
  { exists None. destruct (options !! "dns") as [s|]; [destruct (unmarshal_dns s); [|done]|];
      by injection E as <- <- _. }
  repeat (split; [done|]). eexists. split; [done|]. cbn. split; [apply cni_config_mappings|].
  repeat (split; [done|]). intros b Hbw.
  assert (forall key o, extract_one annotations key = Ok o ->
            forall v, o = Some v -> (1000 <= v <= 10 ^ 15)%Z) as Hx.
  { intros key o. unfold extract_one, validateBandwidthIsReasonable, minRsrc, maxRsrc.
    destruct (annotations !! key) as [str|]; [|by intros [= <-]]. destruct (ParseQuantity str) as [z|]; [|done].
    destruct (Z.ltb_spec z 1000); [done|]. destruct (Z.ltb_spec 1000000000000000 z); [done|].
    intros [= <-] v [= <-]. lia. }
  unfold ExtractPodBandwidthResources in Eb.
  destruct (extract_one annotations ingress_key) as [i|] eqn:Ei; [|done].
  destruct (extract_one annotations egress_key) as [e|] eqn:Ee; [|done]. injection Eb as -> ->.
  unfold cni_bandwidth in Hbw. destruct ingress as [vi|], egress as [ve|]; try done; injection Hbw as <-; cbn;
    split; auto; right; (split; [first [exact (Hx _ _ Ei _ eq_refl)|exact (Hx _ _ Ee _ eq_refl)]|done]).
Qed.

End Configured.

(** ** A concrete node *)

Definition bridge_list : NetworkConfigList := mkNetworkConfigList "bridge" ["bridge"; "portmap"].

(** Three files: the first by name is broken, the second has no type. *)
#[local] Instance sim_cni : LibCNI sim := {|
  cni_Result := unit;
  ConfFiles := fun _ _ => ret (Ok ["20-b.conflist"; "00-a.conf"; "10-x.conf"]);
  ConfListFromFile := fun f => ret (Ok bridge_list);
  ConfFromFile := fun f => ret (if String.eqb f "00-a.conf" then Err (Errorf "bad JSON")
                                else Ok (mkNetworkConfig "x" ""));
  ConfListFromConf := fun c => ret (Ok (mkNetworkConfigList (nc_Name c) [nc_Type c]));
  ValidateNetworkList := fun _ _ => ret (Ok ["portMappings"]);
  AddNetworkList := fun _ _ _ => ret (Ok tt);
  DelNetworkList := fun _ _ _ => ret (Err (Errorf "stat: no such file or directory"));
|}.
#[local] Instance sim_host : Host sim := {|
  GetNetNS := fun _ => ret (Ok "/proc/4242/ns/net");
  GetPodPortMappings := fun _ => ret (Ok [mkHostPortMapping 8080 80 "tcp" ""; mkHostPortMapping 0 90 "tcp" ""]);
|}.
#[local] Instance sim_quantities : Quantities := fun s =>
  if String.eqb s "1M" then Ok 1000000%Z else Err (Errorf "quantities must match the regular expression").
#[local] Instance sim_dns : DNSJSON := fun _ => Ok (mkDNSConfig [] [] []).

Lemma sim_read_only : config_read_only (W := sim).
Proof.
  intros b f w. unfold try_conf_file, bind. cbn. destruct (has_suffix f ".conflist"); [done|].
  by destruct (String.eqb f "00-a.conf").
Qed.

Lemma cni_default_network_witness :
  fst (getDefaultCNINetwork "/etc/cni/net.d" [] sim_empty)
  = Ok (mkCniNetwork "bridge" bridge_list [] ["portMappings"]).
Proof.
  destruct (cni_default_network "/etc/cni/net.d" [] _ ["00-a.conf"; "10-x.conf"; "20-b.conflist"]
    sim_empty sim_empty sim_read_only eq_refl) as [(n & f & pre & post & -> & Hs & Hf & Hpre & _)|[_ Hall]];
    [exact (Permutation_app_comm ["20-b.conflist"] ["00-a.conf"; "10-x.conf"])|done|..].
  - cbn [fst]. f_equal. destruct (decide (f = "20-b.conflist")) as [->|Hne]; [by injection Hf as <-|].
    exfalso. vm_compute in Hs.
    assert (f ∈ ["00-a.conf"; "10-x.conf"; "20-b.conflist"]) as Hin
      by (rewrite Hs; apply elem_of_app; right; left).
    set_solver.
  - rewrite Forall_forall in Hall. specialize (Hall "20-b.conflist" ltac:(set_solver)). discriminate Hall.
Defined.

(** A plugin with its network; reloads and an event before every read. *)
Definition cni_ready : cniNetworkPlugin :=
  mkCni (Some (getLoNetwork [])) (Some (mkCniNetwork "bridge" bridge_list [] [])) "nsenter" "/etc/cni/net.d" []
    "/var/lib/cni" "".
Definition busy : M (cniNetworkPlugin * sim) unit :=
  do* syncNetworkConfig in
  do* cni_Event NET_PLUGIN_EVENT_POD_CIDR_CHANGE
        {[ NET_PLUGIN_EVENT_POD_CIDR_CHANGE_DETAIL_CIDR := "10.1.0.0/16" ]} in
  ret tt.

Lemma busy_background : background busy.
Proof. apply bg_sync, bg_event, bg_none. Qed.

Lemma sim_no_panics : no_panics (W := sim).
Proof. repeat split; done. Qed.

Lemma cni_network_never_lost_witness :
  fst (cni_SetUpPod busy "default" "web-0" (mkContainerID "docker" "c0ffee") ∅ ∅ (cni_ready, sim_empty)) = Ok tt
  /\ is_Some (cni_defaultNetwork (fst (snd
       (cni_TearDownPod busy "default" "web-0" (mkContainerID "docker" "c0ffee") (cni_ready, sim_empty))))).
Proof.
  split; [vm_compute; reflexivity|].
  destruct (cni_TearDownPod busy "default" "web-0" (mkContainerID "docker" "c0ffee") (cni_ready, sim_empty))
    as [r [p' w']] eqn:E.
  destruct (cni_network_never_lost busy cni_ready p' sim_empty w' "default" "web-0"
    (mkContainerID "docker" "c0ffee") ∅ ∅ r busy_background sim_no_panics (or_intror E)) as (_ & H & _).
  apply H. by eexists.
Defined.

#[local] Existing Instance bits_spew.
#[local] Existing Instance bits_json.

Definition sctp_pod_id : ContainerID := mkContainerID "docker" "c0ffee".

Lemma cni_conf_from_sandbox_witness :
  exists rt ca, fst (cni_buildCNIRuntimeConf (W := dockerService sim (gmap string string)) "gw-0" "default"
    sctp_pod_id "/proc/1/ns/net" ∅ ∅ (cni_ready, sctp_ds)) = Ok rt
  /\ rt_CapabilityArgs rt = Some ca
  /\ ca_portMappings ca = [mkCniPortMapping 8080 80 "tcp" ""; mkCniPortMapping 3868 3868 "sctp" ""].
Proof.
  assert (decode_checkpoint sctp_blob = Some (with_checksum (constructPodSandboxCheckpoint sctp_sandbox)))
    as Hd by (vm_compute; reflexivity).
  destruct (cni_buildCNIRuntimeConf (W := dockerService sim (gmap string string)) "gw-0" "default"
    sctp_pod_id "/proc/1/ns/net" ∅ ∅ (cni_ready, sctp_ds)) as [[rt|e] [p' ds']] eqn:E.
  - destruct (cni_conf_from_sandbox (W := sim) (St := gmap string string) "gw-0" "default" sctp_pod_id
      "/proc/1/ns/net" ∅ ∅ sctp_sandbox sctp_blob cni_ready p' sctp_ds ds' rt
      (sim_read_errors "c0ffee") (lookup_singleton_eq _ _) Hd E) as (_ & _ & _ & ca & H1 & H2 & _).
    exists rt, ca. split; [done|]. split; [exact H1|exact H2].
  - exfalso. apply (f_equal (fun x => is_ok (fst x))) in E. vm_compute in E. discriminate E.
Defined.
