(* ===== verification/Kubenet.v ===== *)
(** * Kubenet: the kubenet network plugin

    network/kubenet/kubenet_linux.go.  The plugin gives every pod an address on
    the bridge cbr0 through two CNI networks (loopback and bridge), shapes its
    traffic ([Bandwidth]), forwards its host ports (the host port managers of
    [Hostport], one per family, behind an interface) and remembers its
    addresses.  Calls for one pod are serialised by the plugin manager; [mu]
    makes each access to the remembered addresses one step. *)
From S2P Require Import Prelude GoErrors GoNet GoText GoCidr Cri Naming Labels Cache Store Checkpoint Libdocker PluginManager Service Hostport PortForward Bandwidth Cni.

(** ** Interfaces *)

(** [hostport.HostPortManager]. *)
Class HostPortManager (W : Type) := {
  HM_Add : string -> PodPortMapping -> string -> M W (res unit);
  HM_Remove : string -> PodPortMapping -> M W (res unit);
}.

(** The manager of [Hostport] is one. *)
Definition hostport_HostPortManager {W} `{IPTables W} `{PortOpener W} `{Conntrack W}
  (GetChainsFromTable : string -> gset string) (port_order : gmap hostport nat -> list (hostport * nat))
  (chain_order : gmap string string -> list (string * string)) : HostPortManager (hostportManager W) := {|
  HM_Add := fun id pm nat_interface =>
    hm_Add IsIPv6String GetChainsFromTable port_order chain_order id (Some pm) nat_interface;
  HM_Remove := fun id pm =>
    hm_Remove IsIPv6String GetChainsFromTable chain_order id (Some pm);
|}.

(** One half of a CNI result of version 0.2.0. *)
Record IPConfig := mkIPConfig { ipc_IP : IPNet; ipc_Gateway : IP }.
Record Result020 := mkResult020 { IP4 : option IPConfig; IP6 : option IPConfig }.

(** libcni on single networks, whose configurations are their text. *)
Class KubeCNI (W : Type) := {
  ConfFromBytes : string -> res string;
  AddNetwork : list string -> string -> RuntimeConf -> M W (res string);
  DelNetwork : list string -> string -> RuntimeConf -> M W (res unit);
  cnitypes020_GetResult : string -> res Result020;
}.

Record Link := mkLink { link_Promisc : Z; link_HardwareAddr : string }.
Class Netlink (W : Type) := {
  LinkByName : string -> M W (res Link);
  SetPromiscOn : string -> M W (res unit);
  AddrList : string -> M W (res (list IPNet));
  AddrDel : string -> IPNet -> M W unit;
}.

Class EbTables (W : Type) := {
  eb_FlushChain : string -> string -> M W (res unit);
  eb_GetVersion : M W (res string);
  eb_EnsureChain : string -> string -> M W (res bool);
  eb_EnsureRule : RulePosition -> string -> string -> list string -> M W (res bool);
}.

(** [net.Interfaces], [os.ReadDir] and the sysctls. *)
Record Interface := mkInterface {
  if_Up : bool;
  if_Loopback : bool;
  if_PointToPoint : bool;
  if_MTU : Z;
}.
Class NodeOS (W : Type) := {
  net_Interfaces : M W (res (list Interface));
  os_ReadDir : string -> M W (res (list string));
  SetSysctl : string -> Z -> M W (res unit);
  GetSysctl : string -> M W (res Z);
}.

(** ** Constants *)

Definition KubenetPluginName : string := "kubenet".
Definition BridgeName : string := "cbr0".
Definition DefaultCNIDir : string := "/opt/cni/bin".
Definition sysctlBridgeCallIPTables : string := "net/bridge/bridge-nf-call-iptables".
Definition fallbackMTU : Z := 1460.
Definition dedupChain : string := "KUBE-DEDUP".
Definition zeroCIDRv6 : string := "::/0".
Definition zeroCIDRv4 : string := "0.0.0.0/0".
Definition UseDefaultMTU : Z := 0.
Definition requiredCNIPlugins : list string := ["bridge"; "host-local"; "loopback"].

(** A JSON member with a string value. *)
Definition json_string (key value : string) : string :=
  dquote +:+ key +:+ dquote +:+ ": " +:+ dquote +:+ value +:+ dquote.
Definition json_raw (key value : string) : string := dquote +:+ key +:+ dquote +:+ ": " +:+ value.

Definition NET_CONFIG_TEMPLATE (bridge : string) (mtu : Z) (addIf : string) (hairpin : bool)
  (ranges routes : string) : string :=
  "{" +:+ newline +:+ "  " +:+ json_string "cniVersion" "0.1.0" +:+ "," +:+ newline
  +:+ "  " +:+ json_string "name" "kubenet" +:+ "," +:+ newline
  +:+ "  " +:+ json_string "type" "bridge" +:+ "," +:+ newline
  +:+ "  " +:+ json_string "bridge" bridge +:+ "," +:+ newline
  +:+ "  " +:+ json_raw "mtu" (itoa mtu) +:+ "," +:+ newline
  +:+ "  " +:+ json_string "addIf" addIf +:+ "," +:+ newline
  +:+ "  " +:+ json_raw "isGateway" "true" +:+ "," +:+ newline
  +:+ "  " +:+ json_raw "ipMasq" "false" +:+ "," +:+ newline
  +:+ "  " +:+ json_raw "hairpinMode" (bool_str hairpin) +:+ "," +:+ newline
  +:+ "  " +:+ json_raw "ipam" "{" +:+ newline
  +:+ "    " +:+ json_string "type" "host-local" +:+ "," +:+ newline
  +:+ "    " +:+ json_raw "ranges" ("[" +:+ ranges +:+ "]") +:+ "," +:+ newline
  +:+ "    " +:+ json_raw "routes" ("[" +:+ routes +:+ "]") +:+ newline
  +:+ "  }" +:+ newline +:+ "}".

Definition loopback_config : string :=
  "{" +:+ newline +:+ "  " +:+ json_string "cniVersion" "0.1.0" +:+ "," +:+ newline
  +:+ "  " +:+ json_string "name" "kubenet-loopback" +:+ "," +:+ newline
  +:+ "  " +:+ json_string "type" "loopback" +:+ newline +:+ "}".

(** ** State *)

#[export] Instance ContainerID_eq_dec : EqDecision ContainerID.
Proof. solve_decision. Defined.
#[export] Instance ContainerID_countable : Countable ContainerID.
Proof.
  apply (inj_countable' (fun i => (cid_Type i, cid_ID i)) (fun '(a, b) => mkContainerID a b)). by intros [].
Defined.

Record kubenetNetworkPlugin := mkKubenet {
  kn_netConfig : option string;
  kn_loConfig : string;
  kn_shaper : bool;
  kn_podIPs : gmap ContainerID (gset string);
  kn_mtu : Z;
  kn_nsenterPath : string;
  kn_hairpinMode : string;
  kn_ebtables : bool;
  kn_binDirs : list string;
  kn_nonMasqueradeCIDR : string;
  kn_cacheDir : string;
  kn_podCIDRs : list IPNet;
}.

Definition NewPlugin (networkPluginDirs : list string) (cacheDir : string) : kubenetNetworkPlugin :=
  mkKubenet None "" false ∅ 0 "" "" false (DefaultCNIDir :: networkPluginDirs) "10.0.0.0/8" cacheDir [].

Definition kn_set_podIPs (f : gmap ContainerID (gset string) -> gmap ContainerID (gset string))
  (p : kubenetNetworkPlugin) : kubenetNetworkPlugin :=
  mkKubenet (kn_netConfig p) (kn_loConfig p) (kn_shaper p) (f (kn_podIPs p)) (kn_mtu p) (kn_nsenterPath p)
    (kn_hairpinMode p) (kn_ebtables p) (kn_binDirs p) (kn_nonMasqueradeCIDR p) (kn_cacheDir p) (kn_podCIDRs p).
Definition kn_set_config (netConfig : option string) (podCIDRs : list IPNet) (p : kubenetNetworkPlugin)
  : kubenetNetworkPlugin :=
  mkKubenet netConfig (kn_loConfig p) (kn_shaper p) (kn_podIPs p) (kn_mtu p) (kn_nsenterPath p)
    (kn_hairpinMode p) (kn_ebtables p) (kn_binDirs p) (kn_nonMasqueradeCIDR p) (kn_cacheDir p) podCIDRs.
Definition kn_set_flags (shaper ebtables : bool) (p : kubenetNetworkPlugin) : kubenetNetworkPlugin :=
  mkKubenet (kn_netConfig p) (kn_loConfig p) shaper (kn_podIPs p) (kn_mtu p) (kn_nsenterPath p)
    (kn_hairpinMode p) ebtables (kn_binDirs p) (kn_nonMasqueradeCIDR p) (kn_cacheDir p) (kn_podCIDRs p).
Definition kn_set_init (loConfig : string) (mtu : Z) (nsenterPath hairpinMode nonMasqueradeCIDR : string)
  (p : kubenetNetworkPlugin) : kubenetNetworkPlugin :=
  mkKubenet (kn_netConfig p) loConfig (kn_shaper p) (kn_podIPs p) mtu nsenterPath hairpinMode
    (kn_ebtables p) (kn_binDirs p) nonMasqueradeCIDR (kn_cacheDir p) (kn_podCIDRs p).

(** ** The remembered addresses *)

Definition addPodIP (id : ContainerID) (ip : string) (p : kubenetNetworkPlugin) : kubenetNetworkPlugin :=
  kn_set_podIPs (fun m => <[id := {[ ip ]} ∪ default ∅ (m !! id)]> m) p.

Definition removePodIP (id : ContainerID) (ip : string) (p : kubenetNetworkPlugin) : kubenetNetworkPlugin :=
  kn_set_podIPs (fun m =>
    match m !! id with
    | None => m
    | Some ips => let ips' := ips ∖ {[ ip ]} in
                  if decide (ips' = ∅) then delete id m else <[id := ips']> m
    end) p.

(** ** Pure parts *)

(** [IPNet.Contains] and [utilnet.IPNetEqual]. *)
Definition to4_or (ip : IP) : IP := default ip (To4 ip).
Definition net_Contains (n : IPNet) (ip : IP) : bool :=
  let nn := to4_or (ipn_IP n) in
  let m := if Nat.eqb (length nn) 4 && Nat.eqb (length (ipn_Mask n)) 16 then drop 12 (ipn_Mask n)
           else ipn_Mask n in
  let ip := to4_or ip in
  Nat.eqb (length nn) (length m) && Nat.eqb (length ip) (length nn)
  && bool_decide (zip_with N.land nn m = zip_with N.land ip m).
Definition IPNetEqual (a b : IPNet) : bool :=
  bool_decide (ipn_Mask a = ipn_Mask b) && net_Contains a (ipn_IP b) && net_Contains b (ipn_IP a).

Definition getRangesConfig (podCIDRs : list IPNet) : string :=
  join ((fun n => newline +:+ "[{" +:+ newline +:+ json_string "subnet" (IPNet_String n) +:+ newline +:+ "}]")
        <$> podCIDRs) ",".

Definition route (dst : string) : string := "{" +:+ json_string "dst" dst +:+ "}".
Definition is_v4_net (n : IPNet) : bool := bool_decide (is_Some (To4 (ipn_IP n))).
Definition getRoutesConfig (podCIDRs : list IPNet) : string :=
  join ((if existsb is_v4_net podCIDRs then [route zeroCIDRv4] else [])
        ++ (if existsb (fun n => negb (is_v4_net n)) podCIDRs then [route zeroCIDRv6] else [])) ",".

(** The loop of [findMinMTU]: the least MTU met and its interface. *)
Fixpoint min_mtu (intfs : list Interface) (mtu : Z) (def : option Interface) : Z * option Interface :=
  match intfs with
  | [] => (mtu, def)
  | i :: intfs' =>
      if if_Up i && negb (if_Loopback i || if_PointToPoint i) && (if_MTU i <? mtu)%Z
      then min_mtu intfs' (if_MTU i) (Some i)
      else min_mtu intfs' mtu def
  end.

Definition no_interface : error := Errorf ("no suitable interface: " +:+ BridgeName).
Definition pick_mtu (intfs : list Interface) : res Interface :=
  let '(mtu, def) := min_mtu intfs 999999 None in
  match def with
  | Some i => if (999999 <=? mtu)%Z || (mtu <? 576)%Z then Err no_interface else Ok i
  | None => Err no_interface
  end.

(** The CIDRs parsed before the first that is none, and whether there is one. *)
Fixpoint parse_cidrs (cidrs : list string) (acc : list IPNet) : list IPNet * bool :=
  match cidrs with
  | [] => (acc, true)
  | c :: cidrs' =>
      match ParseCIDR c with
      | Err _ => (acc, false)
      | Ok (_, net) => parse_cidrs cidrs' (acc ++ [net])
      end
  end.

Section Kubenet.
Context {W : Type} `{Execer W} `{Host W} `{KubeCNI W} `{Netlink W} `{EbTables W} `{NodeOS W} `{Quantities}.
(** The iptables runners and the host port managers of the two families. *)
Context (iptables iptablesv6 : IPTables W) (hostportManager hostportManagerv6 : HostPortManager W).
(** The order in which a set of addresses is listed. *)
Context (UnsortedList : gset string -> list string).
Context (IPv6DualStackEnabled : bool).
Abbreviation KS := (kubenetNetworkPlugin * W)%type.

Definition kn_onWorld {A} (m : M W A) : M KS A := fun '(p, w) => let '(a, w') := m w in (a, (p, w')).
Definition kn_get : M KS kubenetNetworkPlugin := fun '(p, w) => (p, (p, w)).
Definition kn_update (f : kubenetNetworkPlugin -> kubenetNetworkPlugin) : M KS unit :=
  fun '(p, w) => (tt, (f p, w)).

Definition getCachedPodIPs (id : ContainerID) : M KS (option (list string)) :=
  let* p := kn_get in ret (UnsortedList <$> kn_podIPs p !! id).

(** ** Initialisation and events *)

Definition findMinMTU : M W (res Interface) :=
  let? intfs := net_Interfaces in ret (pick_mtu intfs).

Definition ensureMasqRule : M KS (res unit) :=
  let* p := kn_get in
  let cidr := kn_nonMasqueradeCIDR p in
  if decide (cidr <> zeroCIDRv4 /\ cidr <> zeroCIDRv6) then
    let ipt := if IsIPv6CIDRString cidr then iptablesv6 else iptables in
    let* r := kn_onWorld (@ipt_EnsureRule W ipt Append TableNAT ChainPostrouting
      ["-m"; "comment"; "--comment"; "kubenet: SNAT for outbound traffic from cluster";
       "-m"; "addrtype"; "!"; "--dst-type"; "LOCAL"; "!"; "-d"; cidr; "-j"; "MASQUERADE"]) in
    ret (match r with
         | Err err => Err (Errorf ("failed to ensure that " +:+ TableNAT +:+ " chain " +:+ ChainPostrouting
                                   +:+ " jumps to MASQUERADE: " +:+ Error err))
         | Ok _ => Ok tt
         end)
  else ret (Ok tt).

Definition kn_Init (hairpinMode nonMasqueradeCIDR : string) (mtu : Z) : M KS (res unit) :=
  let* p := kn_get in
  do* kn_update (kn_set_init (kn_loConfig p) (kn_mtu p) (kn_nsenterPath p) hairpinMode nonMasqueradeCIDR) in
  let* mtu := (if (mtu =? UseDefaultMTU)%Z then
                 let* link := kn_onWorld findMinMTU in
                 ret (match link with Ok i => if_MTU i | Err _ => fallbackMTU end)
               else ret mtu) in
  do* kn_update (kn_set_init (kn_loConfig p) mtu (kn_nsenterPath p) hairpinMode nonMasqueradeCIDR) in
  let* _ := kn_onWorld (CombinedOutput "modprobe" ["br-netfilter"]) in
  let* _ := kn_onWorld (SetSysctl sysctlBridgeCallIPTables 1) in
  match ConfFromBytes loopback_config with
  | Err err => ret (Err (Errorf ("failed to generate loopback config: " +:+ Error err)))
  | Ok lo =>
      do* kn_update (kn_set_init lo mtu (kn_nsenterPath p) hairpinMode nonMasqueradeCIDR) in
      let* path := kn_onWorld (LookPath "nsenter") in
      match path with
      | Err err => ret (Err (Errorf ("failed to find nsenter binary: " +:+ Error err)))
      | Ok nsenter =>
          do* kn_update (kn_set_init lo mtu nsenter hairpinMode nonMasqueradeCIDR) in
          ensureMasqRule
      end
  end.

Definition clearUnusedBridgeAddresses : M KS unit :=
  let* p := kn_get in
  let* bridge := kn_onWorld (LinkByName BridgeName) in
  match bridge with
  | Err _ => ret tt
  | Ok _ =>
      let* addrs := kn_onWorld (AddrList BridgeName) in
      match addrs with
      | Err _ => ret tt
      | Ok addrs =>
          for_each addrs (fun addr =>
            if existsb (fun n => IPNetEqual n addr) (kn_podCIDRs p) then ret tt
            else kn_onWorld (AddrDel BridgeName addr))
      end
  end.

(** The configuration the plugin writes for its CIDRs. *)
Definition net_config (p : kubenetNetworkPlugin) (podCIDRs : list IPNet) : string :=
  NET_CONFIG_TEMPLATE BridgeName (kn_mtu p) DefaultInterfaceName
    (bool_decide (kn_hairpinMode p = HairpinVeth)) (getRangesConfig podCIDRs) (getRoutesConfig podCIDRs).

(** The CIDRs of an event: only the first without dual stack. *)
Definition event_cidrs (podCIDR : string) : list string :=
  let l := split podCIDR "," in
  if negb IPv6DualStackEnabled && Nat.ltb 1 (length l) then take 1 l else l.

Definition kn_Event (name : string) (details : gmap string string) : M KS unit :=
  if decide (name <> NET_PLUGIN_EVENT_POD_CIDR_CHANGE) then ret tt
  else match details !! NET_PLUGIN_EVENT_POD_CIDR_CHANGE_DETAIL_CIDR with
       | None => ret tt
       | Some podCIDR =>
           let* p := kn_get in
           match kn_netConfig p with
           | Some _ => ret tt
           | None =>
               let '(nets, ok) := parse_cidrs (event_cidrs podCIDR) (kn_podCIDRs p) in
               do* kn_update (kn_set_config None nets) in
               if negb ok then ret tt
               else match ConfFromBytes (net_config p nets) with
                    | Ok conf => kn_update (kn_set_config (Some conf) nets)
                    | Err _ => clearUnusedBridgeAddresses
                    end
           end
       end.

(** ** Status *)

Fixpoint has_plugins (files required : list string) : bool :=
  match required with
  | [] => true
  | cniPlugin :: required' =>
      existsb (fun file => String.eqb (TrimSpace file) cniPlugin) files && has_plugins files required'
  end.

Definition checkRequiredCNIPluginsInOneDir (dir : string) : M W bool :=
  let* files := os_ReadDir dir in
  ret (match files with Err _ => false | Ok files => has_plugins files requiredCNIPlugins end).

Fixpoint checkRequiredCNIPlugins (binDirs : list string) : M W bool :=
  match binDirs with
  | [] => ret false
  | dir :: binDirs' =>
      let* b := checkRequiredCNIPluginsInOneDir dir in
      if b : bool then ret true else checkRequiredCNIPlugins binDirs'
  end.

Definition show_list (l : list string) : string := "[" +:+ join l " " +:+ "]".

Definition kn_Status : M KS (res unit) :=
  let* p := kn_get in
  match kn_netConfig p with
  | None => ret (Err (Errorf "kubenet does not have netConfig. This is most likely due to lack of PodCIDR"))
  | Some _ =>
      let* b := kn_onWorld (checkRequiredCNIPlugins (kn_binDirs p)) in
      ret (if b : bool then Ok tt
           else Err (Errorf ("could not locate kubenet required CNI plugins " +:+ show_list requiredCNIPlugins
                             +:+ " at [" +:+ join (quote <$> kn_binDirs p) " " +:+ "]")))
  end.

(** ** CNI calls *)

(** The error of the namespace is logged only, and its path left empty. *)
Definition kn_buildCNIRuntimeConf (ifName : string) (id : ContainerID) : M KS RuntimeConf :=
  let* r := kn_onWorld (GetNetNS (cid_ID id)) in
  let* p := kn_get in
  ret (mkRuntimeConf (cid_ID id) (match r with Ok path => path | Err _ => "" end) ifName (kn_cacheDir p) [] None).

Definition addContainerToNetwork (config : string) (ifName : string) (id : ContainerID) : M KS (res string) :=
  let* rt := kn_buildCNIRuntimeConf ifName id in
  let* p := kn_get in
  let* r := kn_onWorld (AddNetwork (kn_binDirs p) config rt) in
  ret (match r with
       | Err err => Err (Errorf ("error adding container to network: " +:+ Error err))
       | Ok r => Ok r
       end).

Definition delContainerFromNetwork (config : string) (ifName : string) (id : ContainerID) : M KS (res unit) :=
  let* rt := kn_buildCNIRuntimeConf ifName id in
  let* p := kn_get in
  let* r := kn_onWorld (DelNetwork (kn_binDirs p) config rt) in
  ret (match r with
       | Ok _ => Ok tt
       | Err err =>
           if contains (Error err) "no such file or directory" then Ok tt
           else Err (Errorf ("error removing container from network: " +:+ Error err))
       end).

(** ** The bridge *)

(** The shaper of the bridge, configured the first time it is asked for; the
    error of that is dropped, its panic is not. *)
Definition shaper : M KS (res unit) :=
  let* p := kn_get in
  if kn_shaper p then ret (Ok tt)
  else
    do* kn_update (kn_set_flags true (kn_ebtables p)) in
    let* r := kn_onWorld (ReconcileInterface BridgeName) in
    ret (match r with None => Err index_panic | Some _ => Ok tt end).

(** The rules of one gateway: accept its own packets, drop the others of its
    network that carry the bridge's address. *)
Fixpoint dedup_rules (macAddr : string) (podCIDRs : list IPNet) (podGateways : list IP) : M W (res unit) :=
  match podGateways, podCIDRs with
  | [], _ => ret (Ok tt)
  | _ :: _, [] => ret (Err index_panic)
  | gw :: gws, cidr :: cidrs =>
      let '(IPFamily, ipSrc) := if IsIPv6 gw then ("IPv6", "--ip6-src") else ("IPv4", "--ip-src") in
      let commonArgs := ["-p"; IPFamily; "-s"; macAddr; "-o"; "veth+"] in
      let? _ := eb_EnsureRule Prepend "filter" dedupChain
                  (commonArgs ++ [ipSrc; IP_String gw; "-j"; "ACCEPT"]) in
      let? _ := eb_EnsureRule Append "filter" dedupChain
                  (commonArgs ++ [ipSrc; IPNet_String cidr; "-j"; "DROP"]) in
      dedup_rules macAddr cidrs gws
  end.

Definition syncEbtablesDedupRules (macAddr : string) (podCIDRs : list IPNet) (podGateways : list IP)
  : M KS unit :=
  let* p := kn_get in
  do* (if kn_ebtables p then ret tt
       else do* kn_update (kn_set_flags (kn_shaper p) true) in
            let* _ := kn_onWorld (eb_FlushChain "filter" dedupChain) in ret tt) in
  let* _ := kn_onWorld (
    let? _ := eb_GetVersion in
    let? _ := eb_EnsureChain "filter" dedupChain in
    let? _ := eb_EnsureRule Append "filter" ChainOutput ["-j"; dedupChain] in
    dedup_rules macAddr podCIDRs podGateways) in
  ret tt.

Definition disableContainerDAD (id : ContainerID) : M KS (res unit) :=
  let key := "net/ipv6/conf/default/dad_transmits" in
  let* s := kn_onWorld (LookPath "sysctl") in
  match s with
  | Err err => ret (Err (Errorf ("could not find sysctl binary: " +:+ Error err)))
  | Ok sysctlBin =>
      let* n := kn_onWorld (GetNetNS (cid_ID id)) in
      match n with
      | Err err => ret (Err (Errorf ("failed to get netns: " +:+ Error err)))
      | Ok netnsPath =>
          if decide (netnsPath = "") then ret (Err (Errorf "pod has no network namespace"))
          else
            let* g := kn_onWorld (GetSysctl key) in
            match g with
            | Err err => ret (Err (Errorf ("ipv6 not enabled: " +:+ Error err)))
            | Ok _ =>
                let* p := kn_get in
                let* '(output, err) := kn_onWorld (CombinedOutput (kn_nsenterPath p)
                  ["--net=" +:+ netnsPath; "-F"; "--"; sysctlBin; "-w"; key +:+ "=0"]) in
                ret (match err with
                     | None => Ok tt
                     | Some e => Err (Errorf ("failed to write sysctl: output: " +:+ output +:+ " error: "
                                              +:+ Error e))
                     end)
            end
      end
  end.

(** ** Setting up *)

Definition no_ips (id : ContainerID) : error :=
  Errorf ("pod {" +:+ cid_Type id +:+ " " +:+ cid_ID id +:+ "} does not have recorded ips").

Definition ip_cidr (ip : string) : string := ip +:+ "/" +:+ (if IsIPv6String ip then "128" else "32").

Definition addTrafficShaping (id : ContainerID) (annotations : gmap string string) : M KS (res unit) :=
  let? _ := shaper in
  match ExtractPodBandwidthResources annotations with
  | Err err => ret (Err (Errorf ("error reading pod bandwidth annotations: " +:+ Error err)))
  | Ok (ingress, egress) =>
      let* ips := getCachedPodIPs id in
      match ips with
      | None => ret (Err (no_ips id))
      | Some iplist =>
          if decide (egress <> None \/ ingress <> None) then
            for_try iplist (fun ip =>
              let* r := kn_onWorld (ReconcileCIDR BridgeName (ip_cidr ip) egress ingress) in
              ret (match r with
                   | Err err => Err (Errorf ("failed to add pod to shaper: " +:+ Error err))
                   | Ok _ => Ok tt
                   end))
          else ret (Ok tt)
      end
  end.

(** An address that does not parse is nil. *)
Definition parse_or_nil (ip : string) : IP := default [] (ParseIP ip).

Definition addPortMapping (id : ContainerID) (name namespace : string) : M KS (res unit) :=
  let? portMappings := kn_onWorld (GetPodPortMappings (cid_ID id)) in
  match portMappings with
  | [] => ret (Ok tt)
  | _ =>
      let* ips := getCachedPodIPs id in
      match ips with
      | None => ret (Err (no_ips id))
      | Some iplist =>
          for_try iplist (fun ip =>
            let pm := mkPodPortMapping namespace name portMappings false (parse_or_nil ip) in
            let manager := if IsIPv6 (ppm_IP pm) then hostportManagerv6 else hostportManager in
            kn_onWorld (@HM_Add W manager (cid_ID id) pm BridgeName))
      end
  end.

(** The address, the gateway and the network of one half of a result. *)
Definition half_v4 (r : Result020) : option (IP * IP * IPNet) :=
  (fun c => let ip := default [] (To4 (ipn_IP (ipc_IP c))) in
            (ip, ipc_Gateway c, mkIPNet (ip_Mask ip (ipn_Mask (ipc_IP c))) (ipn_Mask (ipc_IP c)))) <$> IP4 r.
Definition half_v6 (r : Result020) : option (IP * IP * IPNet) :=
  (fun c => let ip := ipn_IP (ipc_IP c) in
            (ip, ipc_Gateway c, mkIPNet (ip_Mask ip (ipn_Mask (ipc_IP c))) (ipn_Mask (ipc_IP c)))) <$> IP6 r.

(** The bridge is made promiscuous, and packets it duplicates dropped. *)
Definition make_promiscuous (halves : list (IP * IP * IPNet)) : M KS (res unit) :=
  let* p := kn_get in
  if decide (kn_hairpinMode p = PromiscuousBridge) then
    let* l := kn_onWorld (LinkByName BridgeName) in
    match l with
    | Err err => ret (Err (Errorf ("failed to lookup " +:+ quote BridgeName +:+ ": " +:+ Error err)))
    | Ok link =>
        let* s := (if decide (link_Promisc link <> 1%Z) then kn_onWorld (SetPromiscOn BridgeName)
                   else ret (Ok tt)) in
        match s with
        | Err err => ret (Err (Errorf ("error setting promiscuous mode on " +:+ BridgeName +:+ ": " +:+ Error err)))
        | Ok _ =>
            do* syncEbtablesDedupRules (link_HardwareAddr link) (snd <$> halves) ((fun h => snd (fst h)) <$> halves) in
            ret (Ok tt)
        end
    end
  else ret (Ok tt).

Definition opt_list {A} (o : option A) : list A := match o with Some a => [a] | None => [] end.

(** The addresses tracked for a result: those that are not nil. *)
Definition result_ips (r : Result020) : list string :=
  IP_String <$> base.filter (fun ip : IP => ip <> [])
    ((fun h => fst (fst h)) <$> opt_list (half_v4 r) ++ opt_list (half_v6 r)).

Definition setup (namespace name : string) (id : ContainerID) (annotations : gmap string string)
  : M KS (res unit) :=
  let* _ := disableContainerDAD id in
  let* p := kn_get in
  let? _ := addContainerToNetwork (kn_loConfig p) "lo" id in
  let* p := kn_get in
  let? resT := addContainerToNetwork (default "" (kn_netConfig p)) DefaultInterfaceName id in
  match cnitypes020_GetResult resT with
  | Err err => ret (Err (Errorf ("unable to understand network config: " +:+ Error err)))
  | Ok res =>
      match result_ips res with
      | [] => ret (Err (Errorf "cni didn't report ipv4 ipv6"))
      | ips =>
          let? _ := make_promiscuous (opt_list (half_v4 res) ++ opt_list (half_v6 res)) in
          do* for_each ips (fun ip => kn_update (addPodIP id ip)) in
          let? _ := addTrafficShaping id annotations in
          addPortMapping id name namespace
      end
  end.

(** ** Tearing down *)

(** One turn of the loop over the addresses: the host ports and the shaping of
    one address; the errors met. *)
Definition teardown_ip (namespace name : string) (id : ContainerID) (portMappings : list HostPortMapping)
  (ip : string) : M KS (res (list error)) :=
  let isV6 := IsIPv6String ip in
  let* errs :=
    match portMappings with
    | [] => ret []
    | _ =>
        let manager := if isV6 then hostportManagerv6 else hostportManager in
        let* r := kn_onWorld (@HM_Remove W manager (cid_ID id)
                                (mkPodPortMapping namespace name portMappings false [])) in
        ret (match r with Err err => [err] | Ok _ => [] end)
    end in
  let? _ := shaper in
  let* _ := kn_onWorld (Reset BridgeName (ip_cidr ip)) in
  do* kn_update (removePodIP id ip) in
  ret (Ok errs).

Fixpoint teardown_ips (namespace name : string) (id : ContainerID) (portMappings : list HostPortMapping)
  (iplist : list string) (errList : list error) : M KS (res unit) :=
  match iplist with
  | [] => ret (match NewAggregate (Some <$> errList) with Some e => Err e | None => Ok tt end)
  | ip :: iplist' =>
      let? errs := teardown_ip namespace name id portMappings ip in
      teardown_ips namespace name id portMappings iplist' (errList ++ errs)
  end.

Definition err_list {A} (r : res A) : list error := match r with Err err => [err] | Ok _ => [] end.

Definition teardown (namespace name : string) (id : ContainerID) : M KS (res unit) :=
  let* p := kn_get in
  let* r1 := delContainerFromNetwork (kn_loConfig p) "lo" id in
  let* p := kn_get in
  let* r2 := delContainerFromNetwork (default "" (kn_netConfig p)) DefaultInterfaceName id in
  let errList := err_list r1 ++ err_list r2 in
  let* ips := getCachedPodIPs id in
  match ips with
  | None | Some [] => ret (Ok tt)
  | Some iplist =>
      let* pms := kn_onWorld (GetPodPortMappings (cid_ID id)) in
      teardown_ips namespace name id (match pms with Ok l => l | Err _ => [] end) iplist
        (errList ++ err_list pms)
  end.

(** ** The plugin's interface *)

Definition kn_SetUpPod (namespace name : string) (id : ContainerID) (annotations options : gmap string string)
  : M KS (res unit) :=
  let* s := kn_Status in
  match s with
  | Err err => ret (Err (Errorf ("kubenet cannot SetUpPod: " +:+ Error err)))
  | Ok _ =>
      let* r := setup namespace name id annotations in
      match r with
      | Err err => let* _ := teardown namespace name id in ret (Err err)
      | Ok _ => let* _ := ensureMasqRule in ret (Ok tt)
      end
  end.

Definition kn_TearDownPod (namespace name : string) (id : ContainerID) : M KS (res unit) :=
  let* p := kn_get in
  match kn_netConfig p with
  | None => ret (Err (Errorf "kubenet needs a PodCIDR to tear down pods"))
  | Some _ =>
      let? _ := teardown namespace name id in
      let* _ := ensureMasqRule in ret (Ok tt)
  end.

Definition kn_getNetworkStatus (id : ContainerID) : M KS (option PodNetworkStatus) :=
  let* ips := getCachedPodIPs id in
  ret (match ips with
       | None | Some [] => None
       | Some (ip :: l) =>
           Some (mkPodNetworkStatus (IP_String (parse_or_nil ip))
                   ((fun ip => IP_String (parse_or_nil ip)) <$> ip :: l))
       end).

Definition kn_GetPodNetworkStatus (namespace name : string) (id : ContainerID)
  : M KS (res (option PodNetworkStatus)) :=
  let* networkStatus := kn_getNetworkStatus id in
  match networkStatus with
  | Some s => ret (Ok (Some s))
  | None =>
      let* n := kn_onWorld (GetNetNS (cid_ID id)) in
      match n with
      | Err err => ret (Err (Errorf ("kubenet failed to retrieve network namespace path: " +:+ Error err)))
      | Ok netnsPath =>
          if decide (netnsPath = "") then
            ret (Err (Errorf ("cannot find the network namespace, skipping pod network status for container "
                              +:+ quote_id id)))
          else
            let* p := kn_get in
            let? ips := kn_onWorld (GetPodIPs IPv6DualStackEnabled
                          (getOnePodIP (kn_nsenterPath p) netnsPath DefaultInterfaceName)) in
            do* for_each ips (fun ip => kn_update (addPodIP id ip)) in
            let* s := kn_getNetworkStatus id in
            ret (Ok s)
      end
  end.

(** The plugin behind the interface of the plugin manager. *)
Definition kubenet_NetworkPlugin : NetworkPlugin KS := {|
  Plugin_Name := KubenetPluginName;
  Plugin_SetUpPod := kn_SetUpPod;
  Plugin_TearDownPod := kn_TearDownPod;
  Plugin_GetPodNetworkStatus := kn_GetPodNetworkStatus;
  Plugin_Status := kn_Status;
  Plugin_Event := kn_Event;
|}.

End Kubenet.

(** ** Theory *)

(** *** The remembered addresses *)

Lemma addPodIP_lookup id ip p k :
  kn_podIPs (addPodIP id ip p) !! k
  = if decide (k = id) then Some ({[ ip ]} ∪ default ∅ (kn_podIPs p !! id)) else kn_podIPs p !! k.
Proof.
  cbn. case_decide as Hk; [subst; by rewrite lookup_insert_eq|by rewrite lookup_insert_ne].
Qed.

Lemma removePodIP_lookup id ip p k :
  kn_podIPs (removePodIP id ip p) !! k
  = if decide (k = id) then
      match kn_podIPs p !! id with
      | Some ips => if decide (ips ∖ {[ ip ]} = ∅) then None else Some (ips ∖ {[ ip ]})
      | None => None
      end
    else kn_podIPs p !! k.
Proof.
  cbn. destruct (kn_podIPs p !! id) as [ips|] eqn:E.
  - case_decide; case_decide as Hk; subst; by rewrite ?lookup_delete_eq, ?lookup_insert_eq,
      ?lookup_delete_ne, ?lookup_insert_ne by done.
  - case_decide; by subst.
Qed.

Section Theory.
Context {W : Type} `{IE : Execer W} `{IS : Host W} `{IC : KubeCNI W} `{IL : Netlink W} `{IB : EbTables W}
  `{IN : NodeOS W} `{IQ : Quantities}.
Context (iptables iptablesv6 : IPTables W) (hostportManager hostportManagerv6 : HostPortManager W).
Context (UnsortedList : gset string -> list string) (UnsortedList_elements : forall s, UnsortedList s ≡ₚ elements s).
Context (IPv6DualStackEnabled : bool).
Abbreviation KS := (kubenetNetworkPlugin * W)%type.

(** Actions that leave the addresses of all pods alone. *)
Abbreviation keeps_ips := (preserves (fun s : KS => kn_podIPs (fst s))).

Lemma keeps_ips_world {A} (m : M W A) : keeps_ips (kn_onWorld m).
Proof. intros [p w]. unfold kn_onWorld. by destruct (m w). Qed.
Lemma keeps_ips_get : keeps_ips kn_get.
Proof. by intros []. Qed.
Lemma keeps_ips_cached id : keeps_ips (getCachedPodIPs UnsortedList id).
Proof. by intros []. Qed.
#[local] Hint Resolve keeps_ips_world keeps_ips_get keeps_ips_cached : preserves.

Ltac keeps := solve_preserves; try (intros [? ?]; reflexivity).

Lemma keeps_ips_shaper : keeps_ips shaper.
Proof. unfold shaper. keeps. Qed.
Lemma keeps_ips_DAD id : keeps_ips (disableContainerDAD id).
Proof. unfold disableContainerDAD. keeps. Qed.
Lemma keeps_ips_add config ifName id : keeps_ips (addContainerToNetwork config ifName id).
Proof. unfold addContainerToNetwork, kn_buildCNIRuntimeConf. keeps. Qed.
Lemma keeps_ips_del config ifName id : keeps_ips (delContainerFromNetwork config ifName id).
Proof. unfold delContainerFromNetwork, kn_buildCNIRuntimeConf. keeps. Qed.
Lemma keeps_ips_promiscuous halves : keeps_ips (make_promiscuous halves).
Proof. unfold make_promiscuous, syncEbtablesDedupRules. keeps. Qed.
Lemma keeps_ips_shaping id annotations : keeps_ips (addTrafficShaping UnsortedList id annotations).
Proof. unfold addTrafficShaping. apply preserves_try; [apply keeps_ips_shaper|]. intros ?. keeps. Qed.
Lemma keeps_ips_mapping id name namespace :
  keeps_ips (addPortMapping hostportManager hostportManagerv6 UnsortedList id name namespace).
Proof. unfold addPortMapping. keeps. Qed.
Lemma keeps_ips_masq : keeps_ips (ensureMasqRule iptables iptablesv6).
Proof. unfold ensureMasqRule. keeps. Qed.
Lemma keeps_ips_status : keeps_ips kn_Status.
Proof. unfold kn_Status. keeps. Qed.

(** *** Tearing down *)

Abbreviation tear_ip := (teardown_ip hostportManager hostportManagerv6).
Abbreviation tear_ips := (teardown_ips hostportManager hostportManagerv6).
Abbreviation tear := (teardown hostportManager hostportManagerv6 UnsortedList).

Lemma teardown_ip_frame namespace name id pms ip (p p' : kubenetNetworkPlugin) (w w' : W) r :
  tear_ip namespace name id pms ip (p, w) = (r, (p', w')) ->
  match r with
  | Ok _ => kn_podIPs p' = kn_podIPs (removePodIP id ip p)
  | Err e => kn_podIPs p' = kn_podIPs p /\ e = index_panic
  end.
Proof.
  unfold teardown_ip. unfold bind at 1.
  match goal with |- context [?m (p, w)] =>
    assert (keeps_ips m) as Hm by keeps; specialize (Hm (p, w)); destruct (m (p, w)) as [errs [p1 w1]] end.
  cbn in Hm. unfold try, bind at 1. pose proof (keeps_ips_shaper (p1, w1)) as Hs.
  assert (forall e, fst (shaper (p1, w1)) = Err e -> e = index_panic) as He.
  { unfold shaper, bind, kn_get, kn_update, kn_onWorld, ret. destruct (kn_shaper p1); [done|].
    destruct (ReconcileInterface BridgeName w1) as [[x|] w2]; cbn; congruence. }
  destruct (shaper (p1, w1)) as [[u|e] [p2 w2]]; cbn in Hs, He.
  - unfold bind, kn_onWorld, kn_update, ret. destruct (Reset BridgeName (ip_cidr ip) w2) as [x w3].
    intros [= <- <- _]. cbn. by rewrite Hs, Hm.
  - intros [= <- <- _]. split; [congruence|by apply He].
Qed.

Lemma teardown_ips_frame namespace name id pms iplist errs (p p' : kubenetNetworkPlugin) (w w' : W) r :
  tear_ips namespace name id pms iplist errs (p, w) = (r, (p', w')) ->
  (forall k, k <> id -> kn_podIPs p' !! k = kn_podIPs p !! k)
  /\ (r <> Err index_panic -> forall ips, kn_podIPs p !! id = Some ips ->
        kn_podIPs p' !! id = match iplist with
                             | [] => Some ips
                             | _ => if decide (ips ∖ list_to_set iplist = ∅) then None
                                    else Some (ips ∖ list_to_set iplist)
                             end)
  /\ (kn_podIPs p !! id = None -> kn_podIPs p' !! id = None)
  /\ (r = Ok tt -> errs = []).
Proof.
  revert errs p w. induction iplist as [|ip iplist IH]; intros errs p w; cbn [teardown_ips].
  { intros [= <- <- <-]. split; [done|]. split; [done|]. split; [done|]. by destruct errs. }
  unfold try, bind. destruct (tear_ip namespace name id pms ip (p, w)) as [[es|e] [p1 w1]] eqn:E;
    apply teardown_ip_frame in E.
  - intros Hrun. destruct (IH _ _ _ Hrun) as (Hk & Hid & Hnone & Hok).
    assert (forall k, kn_podIPs p1 !! k = kn_podIPs (removePodIP id ip p) !! k) as Hl by (by rewrite E).
    split; [|split; [|split]].
    + intros k Hne. rewrite Hk, Hl, removePodIP_lookup by done. by rewrite decide_False.
    + intros Hr ips Hips. specialize (Hl id). rewrite removePodIP_lookup, Hips, decide_True in Hl by done.
      case_decide as Hemp.
      * rewrite Hnone by done. rewrite decide_True; [done|]. set_solver.
      * rewrite (Hid Hr _ Hl). destruct iplist as [|ip' iplist].
        -- rewrite decide_False; [f_equal; set_solver|set_solver].
        -- assert (ips ∖ {[ip]} ∖ list_to_set (ip' :: iplist) = ips ∖ list_to_set (ip :: ip' :: iplist)) as ->
             by set_solver. done.
    + intros Hn. apply Hnone. rewrite Hl, removePodIP_lookup, Hn. by rewrite decide_True.
    + intros Hr. by apply Hok, app_eq_nil in Hr as [-> _].
  - destruct E as [E ->]. intros [= <- <- <-]. rewrite E. repeat split; try done.
Qed.

(** C21: tearing down a pod.  Whatever fails on the way, the addresses of the
    other pods stay remembered and those of this pod are forgotten; no error is
    lost while it has addresses, so a success then means that both its networks
    were deleted; but when none are remembered the call reports success
    whatever became of its networks. *)
Theorem kubenet_teardown namespace name id (p p' : kubenetNetworkPlugin) (w w' : W) r :
  tear namespace name id (p, w) = (r, (p', w')) -> r <> Err index_panic ->
  (forall ips, kn_podIPs p !! id = Some ips -> ips <> ∅) ->
  (forall k, k <> id -> kn_podIPs p' !! k = kn_podIPs p !! k)
  /\ kn_podIPs p' !! id = None
  /\ (kn_podIPs p !! id = None -> r = Ok tt)
  /\ (is_Some (kn_podIPs p !! id) -> r = Ok tt ->
        exists w1, delContainerFromNetwork (kn_loConfig p) "lo" id (p, w) = (Ok tt, (p, w1))
        /\ fst (delContainerFromNetwork (default "" (kn_netConfig p)) DefaultInterfaceName id (p, w1)) = Ok tt).
Proof.
  assert (forall c i (q : kubenetNetworkPlugin) (v : W), exists r v', delContainerFromNetwork c i id (q, v) = (r, (q, v')))
    as Hdel.
  { intros c i q v. unfold delContainerFromNetwork, kn_buildCNIRuntimeConf, bind, kn_onWorld, kn_get, ret.
    destruct (GetNetNS (cid_ID id) v) as [n v1]. destruct (DelNetwork _ _ _ v1) as [[x|e] v2]; by repeat eexists. }
  unfold teardown, bind, kn_get. intros Hrun Hr Hne.
  destruct (Hdel (kn_loConfig p) "lo" p w) as (r1 & w1 & E1). rewrite E1 in Hrun.
  destruct (Hdel (default "" (kn_netConfig p)) DefaultInterfaceName p w1) as (r2 & w2 & E2). rewrite E2 in Hrun.
  cbn [getCachedPodIPs] in Hrun. unfold getCachedPodIPs, bind, kn_get, ret in Hrun.
  destruct (kn_podIPs p !! id) as [ips|] eqn:Eips; cbn in Hrun.
  - specialize (Hne _ eq_refl). destruct (UnsortedList ips) as [|ip iplist] eqn:El.
    { exfalso. apply Hne. pose proof (UnsortedList_elements ips) as Hp. rewrite El in Hp.
      apply Permutation_nil in Hp. apply leibniz_equiv. by apply elements_empty_inv. }
    unfold kn_onWorld in Hrun. destruct (GetPodPortMappings (cid_ID id) w2) as [pms w3].
    apply teardown_ips_frame in Hrun as (Hk & Hid & _ & Hok).
    assert (ips ∖ list_to_set (ip :: iplist) = ∅) as Hemp.
    { rewrite <- El, (UnsortedList_elements ips), list_to_set_elements_L. set_solver. }
    specialize (Hid Hr _ Eips). rewrite decide_True in Hid by exact Hemp.
    split; [done|]. split; [done|]. split; [done|]. intros _ ->.
    specialize (Hok eq_refl). apply app_eq_nil in Hok as [Hok _]. apply app_eq_nil in Hok as [H1 H2].
    exists w1. rewrite E2. cbn. destruct r1 as [[]|]; [|done]. by destruct r2 as [[]|].
  - injection Hrun as <- <- <-. split; [done|]. split; [done|]. split; [done|]. by intros [].
Qed.

(** *** Setting up *)

Lemma add_ips_lookup id ips (p : kubenetNetworkPlugin) (w : W) :
  exists p', for_each ips (fun ip => kn_update (addPodIP id ip)) (p, w) = (tt, (p', w))
  /\ kn_netConfig p' = kn_netConfig p
  /\ (forall k, k <> id -> kn_podIPs p' !! k = kn_podIPs p !! k)
  /\ (ips <> [] -> kn_podIPs p' !! id = Some (list_to_set ips ∪ default ∅ (kn_podIPs p !! id)))
  /\ (ips = [] -> p' = p).
Proof.
  revert p. induction ips as [|ip ips IH]; intros p; [by exists p|]. cbn [for_each]. unfold bind, kn_update at 1.
  destruct (IH (addPodIP id ip p)) as (p' & -> & Hc & Hk & Hid & Hnil). exists p'.
  split; [done|]. split; [done|]. split; [|split; [|done]].
  - intros k Hne. rewrite Hk by done. rewrite addPodIP_lookup. by rewrite decide_False.
  - intros _. destruct ips as [|ip' ips].
    + rewrite (Hnil eq_refl), addPodIP_lookup, decide_True by done. f_equal. set_solver.
    + rewrite Hid by done. rewrite addPodIP_lookup, decide_True by done. cbn. f_equal. set_solver.
Qed.

(** A container added to a network through the plugin was added by libcni. *)
Lemma add_calls config ifName id raw (p p' : kubenetNetworkPlugin) (w w' : W) :
  addContainerToNetwork config ifName id (p, w) = (Ok raw, (p', w')) ->
  exists rt w1, AddNetwork (kn_binDirs p) config rt w1 = (Ok raw, w')
  /\ rt_ContainerID rt = cid_ID id /\ rt_IfName rt = ifName.
Proof.
  unfold addContainerToNetwork, kn_buildCNIRuntimeConf, bind, kn_onWorld, kn_get, ret.
  destruct (GetNetNS (cid_ID id) w) as [n w1].
  destruct (AddNetwork _ _ _ w1) as [[x|e] w2] eqn:E; [|done]. intros [= <- <- <-]. by eexists _, w1.
Qed.

(** Actions that change no more than what the shaper and the rules remember. *)
Lemma add_same config ifName id (p : kubenetNetworkPlugin) (w : W) :
  fst (snd (addContainerToNetwork config ifName id (p, w))) = p.
Proof.
  unfold addContainerToNetwork, kn_buildCNIRuntimeConf, bind, kn_onWorld, kn_get, ret.
  destruct (GetNetNS (cid_ID id) w) as [n w1]. by destruct (AddNetwork _ _ _ w1) as [[x|e] w2].
Qed.
Lemma DAD_same id (p : kubenetNetworkPlugin) (w : W) : fst (snd (disableContainerDAD id (p, w))) = p.
Proof.
  unfold disableContainerDAD, bind, kn_onWorld, kn_get, ret.
  destruct (LookPath "sysctl" w) as [[sysctlBin|e] w1]; [|done].
  destruct (GetNetNS (cid_ID id) w1) as [[netns|e] w2]; [|done]. case_decide; [done|].
  destruct (GetSysctl _ w2) as [[v|e] w3]; [|done].
  by destruct (CombinedOutput _ _ w3) as [[out [e|]] w4].
Qed.
Lemma status_same (p : kubenetNetworkPlugin) (w : W) : fst (snd (kn_Status (p, w))) = p.
Proof.
  unfold kn_Status, bind, kn_onWorld, kn_get, ret. destruct (kn_netConfig p); [|done].
  by destruct (checkRequiredCNIPlugins _ w).
Qed.

Abbreviation set_up := (setup hostportManager hostportManagerv6 UnsortedList).

Lemma setup_tracks namespace name id annotations (p p' : kubenetNetworkPlugin) (w w' : W) :
  set_up namespace name id annotations (p, w) = (Ok tt, (p', w')) ->
  exists raw res rt w1 w2, AddNetwork (kn_binDirs p) (default "" (kn_netConfig p)) rt w1 = (Ok raw, w2)
  /\ rt_ContainerID rt = cid_ID id /\ rt_IfName rt = DefaultInterfaceName
  /\ cnitypes020_GetResult raw = Ok res /\ result_ips res <> []
  /\ (forall k, k <> id -> kn_podIPs p' !! k = kn_podIPs p !! k)
  /\ kn_podIPs p' !! id = Some (list_to_set (result_ips res) ∪ default ∅ (kn_podIPs p !! id)).
Proof.
  unfold setup. unfold bind at 1. pose proof (DAD_same id p w) as Hd.
  destruct (disableContainerDAD id (p, w)) as [d [p1 w1]]. cbn in Hd. subst p1.
  unfold bind at 1, kn_get at 1. unfold try at 1, bind at 1.
  pose proof (add_same (kn_loConfig p) "lo" id p w1) as Ha.
  destruct (addContainerToNetwork (kn_loConfig p) "lo" id (p, w1)) as [[x|e] [p2 w2]]; [|done]. cbn in Ha. subst p2.
  unfold bind at 1, kn_get at 1. unfold try at 1, bind at 1.
  match goal with |- context [addContainerToNetwork ?c ?i id (p, w2)] =>
    pose proof (keeps_ips_add c i id (p, w2)) as Hb;
    destruct (addContainerToNetwork c i id (p, w2)) as [[raw|e] [p3 w3]] eqn:Ea end; [|done].
  cbn in Hb. apply add_calls in Ea as (rt & v & Hadd & Hcid & Hif).
  destruct (cnitypes020_GetResult raw) as [res|e] eqn:Er; [|done].
  destruct (result_ips res) as [|ip ips] eqn:Eips; [done|].
  unfold try at 1, bind at 1. match goal with |- context [make_promiscuous ?h (p3, w3)] =>
    pose proof (keeps_ips_promiscuous h (p3, w3)) as Hm; destruct (make_promiscuous h (p3, w3)) as [[m|e] [p4 w4]] end;
    [|done]. cbn in Hm. unfold bind at 1.
  destruct (add_ips_lookup id (ip :: ips) p4 w4) as (p5 & -> & _ & Hk & Hid & _).
  unfold try at 1, bind at 1. pose proof (keeps_ips_shaping id annotations (p5, w4)) as Hs.
  destruct (addTrafficShaping UnsortedList id annotations (p5, w4)) as [[y|e] [p6 w6]]; [|done]. cbn in Hs.
  intros Hrun. pose proof (keeps_ips_mapping id name namespace (p6, w6)) as Hp. rewrite Hrun in Hp. cbn in Hp.
  exists raw, res, rt, v, w3. rewrite Eips. do 5 (split; [done|]).
  assert (kn_podIPs p4 = kn_podIPs p) as E4 by congruence.
  rewrite Hp, Hs, <- E4. split; [exact Hk|]. by apply Hid.
Qed.

(** The status of a pod with one remembered address. *)
Lemma network_status_one id ip (p : kubenetNetworkPlugin) (w : W) :
  kn_podIPs p !! id = Some {[ ip ]} ->
  kn_getNetworkStatus UnsortedList id (p, w)
  = (Some (mkPodNetworkStatus (IP_String (parse_or_nil ip)) [IP_String (parse_or_nil ip)]), (p, w)).
Proof.
  intros E. unfold kn_getNetworkStatus, getCachedPodIPs, bind, kn_get, ret. rewrite E. cbn.
  pose proof (UnsortedList_elements {[ ip ]}) as Hp. rewrite elements_singleton in Hp.
  apply Permutation_singleton_r in Hp. by rewrite Hp.
Qed.

Lemma parse_printed_v4 a b c d :
  Forall is_byte [a; b; c; d] -> IP_String (parse_or_nil (IP_String [a; b; c; d])) = IP_String [a; b; c; d].
Proof.
  intros H. repeat (apply Forall_cons in H as [? H]). unfold parse_or_nil, ParseIP, parse_ip.
  by rewrite parse_ipv4_string by done.
Qed.

(** A pod that was set up was added to the configured bridge network, and
    is known by the addresses of the result, beside those remembered before;
    no other pod's addresses change; for a new pod
    with an IPv4 address, [GetPodNetworkStatus] then answers exactly that
    address from memory, without entering the pod's namespace. *)
Theorem kubenet_setup_tracks namespace name id annotations options (p p' : kubenetNetworkPlugin) (w w' : W) :
  kn_SetUpPod iptables iptablesv6 hostportManager hostportManagerv6 UnsortedList namespace name id
    annotations options (p, w) = (Ok tt, (p', w')) ->
  exists config raw res rt w1 w2, kn_netConfig p = Some config
  /\ AddNetwork (kn_binDirs p) config rt w1 = (Ok raw, w2)
  /\ rt_ContainerID rt = cid_ID id /\ rt_IfName rt = DefaultInterfaceName
  /\ cnitypes020_GetResult raw = Ok res /\ result_ips res <> []
  /\ (forall k, k <> id -> kn_podIPs p' !! k = kn_podIPs p !! k)
  /\ kn_podIPs p' !! id = Some (list_to_set (result_ips res) ∪ default ∅ (kn_podIPs p !! id))
  /\ forall a b c d, kn_podIPs p !! id = None -> Forall is_byte [a; b; c; d] ->
       result_ips res = [IP_String [a; b; c; d]] ->
       kn_GetPodNetworkStatus UnsortedList IPv6DualStackEnabled namespace name id (p', w')
       = (Ok (Some (mkPodNetworkStatus (IP_String [a; b; c; d]) [IP_String [a; b; c; d]])), (p', w')).
Proof.
  unfold kn_SetUpPod. unfold bind at 1. pose proof (status_same p w) as Hs.
  assert (fst (kn_Status (p, w)) = Ok tt -> exists config, kn_netConfig p = Some config) as Hc.
  { unfold kn_Status, bind, kn_get, ret. destruct (kn_netConfig p) as [config|]; [by exists config|done]. }
  destruct (kn_Status (p, w)) as [[[]|e] [p1 w1]]; [|done]. cbn in Hs, Hc. subst p1. unfold bind at 1.
  destruct (Hc eq_refl) as [config Hconfig].
  destruct (set_up namespace name id annotations (p, w1)) as [[[]|e] [p2 w2]] eqn:E.
  2: { unfold bind. by destruct (tear namespace name id (p2, w2)). }
  apply setup_tracks in E as (raw & res & rt & v & v' & Hadd & Hcid & Hif & Hres & Hne & Hk & Hid).
  rewrite Hconfig in Hadd. unfold bind at 1.
  pose proof (keeps_ips_masq (p2, w2)) as Hm. destruct (ensureMasqRule iptables iptablesv6 (p2, w2)) as [x [p3 w3]].
  cbn in Hm. intros [= <- <-]. exists config, raw, res, rt, v, v'. rewrite Hm.
  repeat (split; [done|]).
  intros a b c d Hnew Hb Hips. unfold kn_GetPodNetworkStatus, bind at 1.
  rewrite (network_status_one id (IP_String [a; b; c; d])).
  - by rewrite parse_printed_v4.
  - rewrite Hm, Hid, Hips, Hnew. cbn. f_equal. set_solver.
Qed.

(** *** Pod CIDRs *)

Lemma parse_cidrs_acc cidrs acc :
  parse_cidrs cidrs acc = (acc ++ fst (parse_cidrs cidrs []), snd (parse_cidrs cidrs [])).
Proof.
  revert acc. induction cidrs as [|c cidrs IH]; intros acc; cbn; [by rewrite app_nil_r|].
  destruct (ParseCIDR c) as [[ip net]|e]; [|cbn; by rewrite app_nil_r].
  rewrite (IH (acc ++ [net])), (IH [net]). cbn. by rewrite <- app_assoc.
Qed.

Definition cidr_event (podCIDR : string) : gmap string string :=
  {[ NET_PLUGIN_EVENT_POD_CIDR_CHANGE_DETAIL_CIDR := podCIDR ]}.
Definition change_cidr (podCIDR : string) : M KS unit :=
  kn_Event IPv6DualStackEnabled NET_PLUGIN_EVENT_POD_CIDR_CHANGE (cidr_event podCIDR).

Lemma change_cidr_first podCIDR (p : kubenetNetworkPlugin) (w : W) nets ok :
  kn_netConfig p = None -> parse_cidrs (event_cidrs IPv6DualStackEnabled podCIDR) [] = (nets, ok) ->
  (ok = true -> is_ok (ConfFromBytes (net_config p (kn_podCIDRs p ++ nets)))) ->
  change_cidr podCIDR (p, w)
  = (tt, (kn_set_config (if ok then match ConfFromBytes (net_config p (kn_podCIDRs p ++ nets)) with Ok conf => Some conf | Err _ => None end
             else None)
            (kn_podCIDRs p ++ nets) p, w)).
Proof.
  intros Hp Hn Hc. unfold change_cidr, kn_Event. rewrite decide_False by auto.
  unfold cidr_event. rewrite lookup_singleton_eq. unfold bind, kn_get. rewrite Hp.
  rewrite parse_cidrs_acc, Hn. cbn [fst snd]. unfold kn_update. destruct ok; [|done]. cbn.
  specialize (Hc eq_refl). by destruct (ConfFromBytes _).
Qed.

(** The pod CIDRs of the bridge network.  The networks of an accepted event
    are appended, in order, to those collected before; an event one of whose
    CIDRs does not parse configures nothing, yet the CIDRs before the bad one
    stay collected and are part of the configuration a later, correct event
    makes.  Once there is a configuration, no event changes anything. *)
Theorem kubenet_cidr_events s1 s2 (p : kubenetNetworkPlugin) (w : W) nets1 nets2 conf :
  kn_netConfig p = None ->
  parse_cidrs (event_cidrs IPv6DualStackEnabled s1) [] = (nets1, false) ->
  parse_cidrs (event_cidrs IPv6DualStackEnabled s2) [] = (nets2, true) ->
  ConfFromBytes (net_config p (kn_podCIDRs p ++ nets1 ++ nets2)) = Ok conf ->
  exists p1 p2, change_cidr s1 (p, w) = (tt, (p1, w)) /\ kn_netConfig p1 = None
  /\ change_cidr s2 (p1, w) = (tt, (p2, w)) /\ kn_netConfig p2 = Some conf
  /\ kn_podCIDRs p2 = kn_podCIDRs p ++ nets1 ++ nets2
  /\ forall name details w', kn_Event IPv6DualStackEnabled name details (p2, w') = (tt, (p2, w')).
Proof.
  intros Hp H1 H2 Hc.
  set (p1 := kn_set_config None (kn_podCIDRs p ++ nets1) p).
  set (p2 := kn_set_config (Some conf) (kn_podCIDRs p ++ nets1 ++ nets2) p).
  assert (net_config p1 (kn_podCIDRs p1 ++ nets2) = net_config p (kn_podCIDRs p ++ nets1 ++ nets2)) as Hconf
    by (subst p1; unfold net_config; cbn; by rewrite <- app_assoc).
  exists p1, p2. split; [by rewrite (change_cidr_first s1 p w nets1 false)|]. split; [done|]. split.
  { rewrite (change_cidr_first s2 p1 w nets2 true) by (rewrite ?Hconf, ?Hc; done).
    rewrite Hconf, Hc. subst p1 p2. cbn. by rewrite <- app_assoc. }
  split; [done|]. split; [done|]. intros name details w'. unfold kn_Event. case_decide; [done|].
  by destruct (details !! NET_PLUGIN_EVENT_POD_CIDR_CHANGE_DETAIL_CIDR).
Qed.

End Theory.

(** ** Examples *)

(** A node whose CNI plugins can add but not delete; a pod has one forwarded
    port; the world is the list of the host ports' pods. *)
Abbreviation node := (list string).
#[local] Instance node_execer : Execer node := {|
  CombinedOutput := fun _ _ => ret ("", None);
  LookPath := fun f => ret (Ok ("/usr/bin/" +:+ f));
|}.
#[local] Instance node_host : Host node := {|
  GetNetNS := fun _ => ret (Ok "/proc/1/ns/net");
  GetPodPortMappings := fun _ => ret (Ok [mkHostPortMapping 8080 80 "tcp" ""]);
|}.
Definition one_address : Result020 :=
  mkResult020 (Some (mkIPConfig (mkIPNet [10; 1; 0; 7]%N (CIDRMask 24 4)) [10; 1; 0; 1]%N)) None.
#[local] Instance node_cni : KubeCNI node := {|
  ConfFromBytes := fun s => Ok s;
  AddNetwork := fun _ config rt => ret (Ok "result");
  DelNetwork := fun _ config rt => ret (Err (Errorf "bridge: busy"));
  cnitypes020_GetResult := fun _ => Ok one_address;
|}.
#[local] Instance node_netlink : Netlink node := {|
  LinkByName := fun _ => ret (Ok (mkLink 1 "0a:58:0a:01:00:01"));
  SetPromiscOn := fun _ => ret (Ok tt);
  AddrList := fun _ => ret (Ok []);
  AddrDel := fun _ _ => ret tt;
|}.
#[local] Instance node_ebtables : EbTables node := {|
  eb_FlushChain := fun _ _ => ret (Ok tt);
  eb_GetVersion := ret (Ok "v2.0.10");
  eb_EnsureChain := fun _ _ => ret (Ok false);
  eb_EnsureRule := fun _ _ _ _ => ret (Ok false);
|}.
#[local] Instance node_os : NodeOS node := {|
  net_Interfaces := ret (Ok []);
  os_ReadDir := fun _ => ret (Ok ["bridge"; "host-local"; "loopback"]);
  SetSysctl := fun _ _ => ret (Ok tt);
  GetSysctl := fun _ => ret (Ok 1%Z);
|}.
#[local] Instance node_quantities : Quantities := fun _ => Ok 1000000%Z.
Definition node_iptables : IPTables node := {|
  ipt_IsIPv6 := false;
  ipt_EnsureChain := fun _ _ => ret (Ok true);
  ipt_EnsureRule := fun _ _ _ _ => ret (Ok true);
  ipt_SaveInto := fun _ => ret (Ok "");
  ipt_RestoreAll := fun _ => ret (Ok tt);
|}.
Definition node_hostports : HostPortManager node := {|
  HM_Add := fun id _ _ w => (Ok tt, id :: w);
  HM_Remove := fun id _ w => (Ok tt, base.filter (fun i => i <> id) w);
|}.
Definition listed (s : gset string) : list string := elements s.
Definition node_pod : ContainerID := mkContainerID "docker" "c0ffee".
Definition other_pod : ContainerID := mkContainerID "docker" "decaf".
Definition node_kubenet (ips : gmap ContainerID (gset string)) : kubenetNetworkPlugin :=
  kn_set_podIPs (fun _ => ips) (kn_set_config (Some "net") [] (NewPlugin [] "")).

Lemma kubenet_teardown_witness :
  exists r p' w', teardown node_hostports node_hostports listed "default" "web-0" node_pod
    (node_kubenet {[ node_pod := {[ "10.1.0.7" ]}; other_pod := {[ "10.1.0.8" ]} ]}, ["c0ffee"; "decaf"])
    = (r, (p', w')) /\ w' = ["decaf"] /\ is_ok r = false
  /\ kn_podIPs p' !! node_pod = None /\ kn_podIPs p' !! other_pod = Some {[ "10.1.0.8" ]}.
Proof.
  set (p := node_kubenet {[ node_pod := {[ "10.1.0.7" ]}; other_pod := {[ "10.1.0.8" ]} ]}).
  destruct (teardown node_hostports node_hostports listed "default" "web-0" node_pod (p, ["c0ffee"; "decaf"]))
    as [r [p' w']] eqn:E. exists r, p', w'. split; [done|].
  assert (w' = ["decaf"]) as Hw by (apply (f_equal (fun x => snd (snd x))) in E; vm_compute in E; done).
  assert (r <> Err index_panic) as Hr
    by (apply (f_equal fst) in E; vm_compute in E; rewrite <- E; discriminate).
  assert (is_ok r = false) as Hb by (apply (f_equal (fun x => is_ok (fst x))) in E; vm_compute in E; done).
  destruct (kubenet_teardown node_hostports node_hostports listed (fun s => Permutation_refl _)
    "default" "web-0" node_pod p p' ["c0ffee"; "decaf"] w' r E Hr) as (Hk & Hid & _).
  - subst p. cbn. rewrite lookup_insert_eq. intros ips [= <-]. apply non_empty_singleton_L.
  - split; [done|]. split; [done|]. split; [done|].
    rewrite Hk by done. reflexivity.
Defined.

Lemma kubenet_setup_tracks_witness :
  exists p' w', kn_SetUpPod node_iptables node_iptables node_hostports node_hostports listed "default" "web-0"
    node_pod ∅ ∅ (node_kubenet ∅, []) = (Ok tt, (p', w'))
  /\ fst (kn_GetPodNetworkStatus listed false "default" "web-0" node_pod (p', w'))
     = Ok (Some (mkPodNetworkStatus "10.1.0.7" ["10.1.0.7"])).
Proof.
  destruct (kn_SetUpPod node_iptables node_iptables node_hostports node_hostports listed "default" "web-0"
    node_pod ∅ ∅ (node_kubenet ∅, [])) as [r [p' w']] eqn:E.
  assert (r = Ok tt) as -> by (apply (f_equal fst) in E; vm_compute in E; done).
  exists p', w'. split; [done|].
  destruct (kubenet_setup_tracks node_iptables node_iptables node_hostports node_hostports listed
    (fun s => Permutation_refl _) false "default" "web-0" node_pod ∅ ∅ (node_kubenet ∅) p' [] w' E)
    as (config & raw & res & rt & w1 & w2 & _ & _ & _ & _ & Hres & _ & _ & _ & H).
  injection Hres as <-.
  rewrite (H 10 1 0 7)%N; [reflexivity|reflexivity|repeat constructor|reflexivity].
Defined.

Lemma kubenet_cidr_events_witness :
  exists p1 p2, change_cidr (W := node) true "10.1.0.0/16,nonsense" (NewPlugin [] "", []) = (tt, (p1, []))
  /\ change_cidr true "10.2.0.0/16" (p1, []) = (tt, (p2, []))
  /\ (IPNet_String <$> kn_podCIDRs p2) = ["10.1.0.0/16"; "10.2.0.0/16"].
Proof.
  destruct (kubenet_cidr_events (W := node) true "10.1.0.0/16,nonsense" "10.2.0.0/16" (NewPlugin [] "") []
    [mkIPNet [10; 1; 0; 0]%N (CIDRMask 16 4)] [mkIPNet [10; 2; 0; 0]%N (CIDRMask 16 4)]
    _ eq_refl ltac:(vm_compute; reflexivity) ltac:(vm_compute; reflexivity) eq_refl)
    as (p1 & p2 & E1 & _ & E2 & _ & Hp & _).
  exists p1, p2. split; [exact E1|]. split; [exact E2|]. rewrite Hp. vm_compute. reflexivity.
Defined.
