(* ===== verification/ContainerManager.v ===== *)
(** * ContainerManager: the docker daemon's own processes

    containermanager/container_manager_linux.go and helpers_linux.go: every
    five minutes the processes of docker are moved into a cgroup of their own,
    whose memory is limited, and given an OOM score.  The files under /proc,
    the cgroup library, the search for processes by name and the parsing of
    versions are parameters; what only reads the host is a function of it. *)
From S2P Require Import Prelude Regex GoErrors Cri Libdocker Service.

(** ** What the container manager relies on *)

(** [configs.Resources] and [configs.Cgroup], with the one device rule the
    manager writes; [Type] is a rune. *)
Record DeviceRule := mkDeviceRule {
  dr_Type : ascii;
  dr_Major : Z;
  dr_Minor : Z;
  dr_Permissions : string;
  dr_Allow : bool;
}.

Record CgroupResources := mkCgroupResources {
  cr_Memory : Z;
  cr_MemorySwap : Z;
  cr_SkipDevices : bool;
  cr_Devices : list DeviceRule;
}.

Record Cgroup := mkCgroup {
  cg_Name : string;
  cg_Parent : string;
  cg_Path : string;
  cg_Resources : CgroupResources;
}.

(** The files of the host, opencontainers/runc/libcontainer/cgroups, the
    packages procfs and oom of Kubernetes, and [fmt]'s [%q] of an integer. *)
Class ProcHost (W : Type) := {
  os_Readlink : string -> W -> res string;
  os_file : Type;
  os_Open : string -> W -> res os_file;
  (** [Read] with a buffer of that size: the bytes read *)
  file_Read : os_file -> nat -> W -> res string;
  cgroups_ParseCgroupFile : string -> W -> res (gmap string string);
  cgroups_IsCgroup2UnifiedMode : W -> bool;
  cgroups_NewNotFoundError : string -> error;
  cgroups_Manager : Type;
  cgroupfs_NewManager : Cgroup -> M W (res cgroups_Manager);
  manager_Apply : cgroups_Manager -> Z -> M W (res unit);
  manager_GetCgroups : cgroups_Manager -> W -> res Cgroup;
  procfs_PidOf : string -> W -> res (list Z);
  oom_ApplyOOMScoreAdj : Z -> Z -> M W (res unit);
  quote_rune : Z -> string;
}.

(** k8s.io/apimachinery's versions; [MustParseGeneric] is applied to a
    constant that is a version. *)
Class UtilVersion := {
  utilversion : Type;
  ParseGeneric : string -> res utilversion;
  MustParseGeneric : string -> utilversion;
  AtLeast : utilversion -> utilversion -> bool;
}.

(** [strconv.Atoi]. *)
Definition Atoi (s : string) : res Z :=
  match parse_int64 s with
  | Ok n => Ok n
  | Err e => Err (NumError "Atoi" s e)
  end.

Definition dockerMemoryLimitThresholdPercent : Z := 70.
Definition minDockerMemoryLimit : Z := (150 * 1024 * 1024)%Z.
Definition dockerOOMScoreAdj : Z := -999.

(** [\s] *)
Definition re_space (c : ascii) : bool :=
  let n := Ascii.N_of_ascii c in
  ((n =? 9) || (n =? 10) || (n =? 12) || (n =? 13) || (n =? 32))%N.

Definition memoryCapacityRegexp : re :=
  Seq (Lit "MemTotal:") (Seq (Many re_space) (Seq (Cap (Many1 is_digit)) (Lit " kB"))).

(** The capacity in bytes, from a match in kB. *)
Definition parseCapacity (b : string) (r : re) : res Z :=
  match find_submatch r b with
  | Some [group] =>
      match parse_uint 64 group with
      | Err e => Err (NumError "ParseUint" group e)
      | Ok m => Ok (uint64 (Z.of_N m * 1024))
      end
  | _ => Err (Errorf ("failed to match regexp in output: " +:+ quote b))
  end.

(** The memory limit of docker's cgroup, given what reading the capacity of
    the machine returned. *)
Definition memory_limit (memoryCapacity : res Z) : Z :=
  match memoryCapacity with
  | Err _ => minDockerMemoryLimit
  | Ok capacity =>
      let memoryLimit := (uint64 (capacity * dockerMemoryLimitThresholdPercent) / 100)%Z in
      if (memoryLimit <? minDockerMemoryLimit)%Z then minDockerMemoryLimit else memoryLimit
  end.

(** [devices.Wildcard] *)
Definition Wildcard : Z := -1.

Definition docker_cgroup (name : string) (memoryLimit : Z) : Cgroup := {|
  cg_Name := name;
  cg_Parent := "/";
  cg_Path := "";
  cg_Resources := {|
    cr_Memory := int64 memoryLimit;
    cr_MemorySwap := -1;
    cr_SkipDevices := true;
    cr_Devices := [ {| dr_Type := "a"; dr_Major := Wildcard; dr_Minor := Wildcard;
                       dr_Permissions := "rwm"; dr_Allow := true |} ];
  |};
|}.

Section ContainerManager.
Context {W : Type} {HO : HostOS W} {PH : ProcHost W} {DC : DockerClient W} {UV : UtilVersion}.

Record containerManager := mkContainerManager {
  cgroupsName : string;
  cgroupsManager : option cgroups_Manager;
}.

Definition NewContainerManager (name : string) : containerManager :=
  {| cgroupsName := name; cgroupsManager := None |}.

Definition getMemoryCapacity : M W (res Z) :=
  let? out := os_ReadFile "/proc/meminfo" in
  ret (parseCapacity out memoryCapacityRegexp).

Definition createCgroupManager (name : string) : M W (res cgroups_Manager) :=
  let* memoryCapacity := getMemoryCapacity in
  cgroupfs_NewManager (docker_cgroup name (memory_limit memoryCapacity)).

Definition isProcessRunningInHost (pid : Z) (w : W) : res bool :=
  match os_Readlink "/proc/1/ns/pid" w with
  | Err _ => Err (Errorf "failed to find pid namespace of init process")
  | Ok initPidNs =>
      match os_Readlink ("/proc/" +:+ itoa pid +:+ "/ns/pid") w with
      | Err _ => Err (Errorf ("failed to find pid namespace of process " +:+ quote_rune pid))
      | Ok processPidNs => Ok (bool_decide (initPidNs = processPidNs))
      end
  end.

(** The cgroup of a process. *)
Definition getContainer (pid : Z) (w : W) : res string :=
  match cgroups_ParseCgroupFile ("/proc/" +:+ itoa pid +:+ "/cgroup") w with
  | Err err => Err err
  | Ok cgs =>
      if cgroups_IsCgroup2UnifiedMode w then
        match cgs !! "" with
        | None => Err (cgroups_NewNotFoundError "unified")
        | Some c => Ok c
        end
      else
        match cgs !! "cpu" with
        | None => Err (cgroups_NewNotFoundError "cpu")
        | Some cpu =>
            match cgs !! "memory" with
            | None => Err (cgroups_NewNotFoundError "memory")
            | Some memory =>
                if decide (cpu <> memory) then
                  Err (Errorf ("cpu and memory cgroup hierarchy not unified.  cpu: " +:+ cpu
                               +:+ ", memory: " +:+ memory))
                else match cgs !! "name=systemd" with
                     | Some systemd => Ok systemd
                     | None => Ok cpu
                     end
            end
        end
  end.

(** The number in a pid file: the whole buffer is parsed, whatever part of
    it was read. *)
Definition pid_buffer : nat := N.to_nat 1024.
Fixpoint nuls (n : nat) : string :=
  match n with O => EmptyString | S n' => nuls n' +:+ String Ascii.zero EmptyString end.

Definition getPidFromPidFile (pidFile : string) (w : W) : res Z :=
  match os_Open pidFile w with
  | Err err => Err (Errorf ("error opening pid file " +:+ pidFile +:+ ": " +:+ Error err))
  | Ok file =>
      match file_Read file pid_buffer w with
      | Err err => Err (Errorf ("error reading pid file " +:+ pidFile +:+ ": " +:+ Error err))
      | Ok read =>
          let data := read +:+ nuls (pid_buffer - String.length read) in
          match Atoi data with
          | Err err => Err (Errorf ("error parsing " +:+ data +:+ " as a number: " +:+ Error err))
          | Ok pid => Ok pid
          end
      end
  end.

Definition getPidsForProcess (name pidFile : string) (w : W) : res (list Z) :=
  if decide (pidFile = "") then procfs_PidOf name w
  else match getPidFromPidFile pidFile w with
       | Ok pid => Ok [pid]
       | Err err =>
           match procfs_PidOf name w with
           | Ok pids => Ok pids
           | Err _ => Err err
           end
       end.

(** Move a process whose cgroup is [cont] into that of the manager unless
    they are the same: the errors met. *)
Definition apply_unless_in (cont path : string) (pid : Z) (m : cgroups_Manager) (errs : list error)
  : M W (list error) :=
  if decide (cont <> path) then
    let* r := manager_Apply m pid in
    ret (match r with
         | Ok _ => errs
         | Err err => errs ++ [Errorf ("failed to move PID " +:+ itoa pid +:+ " (in " +:+ quote cont
                                       +:+ ") to " +:+ quote path +:+ ": " +:+ Error err)]
         end)
  else ret errs.

(** The cgroup of a process and that of the manager, then the move. *)
Definition move_process (pid : Z) (m : cgroups_Manager) : M W (list error) :=
  let* w := get in
  let '(cont, errs) := match getContainer pid w with
    | Ok cont => (cont, [])
    | Err err => ("", [Errorf ("failed to find container of PID " +:+ itoa pid +:+ ": " +:+ Error err)])
    end in
  let '(path, errs) := match manager_GetCgroups m w with
    | Ok foundCgroups => (cg_Path foundCgroups, errs)
    | Err err => ("", errs ++ [Errorf ("failed to get cgroups for " +:+ itoa pid +:+ ": " +:+ Error err)])
    end in
  apply_unless_in cont path pid m errs.

Definition ensureProcessInContainerWithOOMScore (pid oomScoreAdj : Z) (manager : option cgroups_Manager)
  : M W (option error) :=
  let* w := get in
  match isProcessRunningInHost pid w with
  | Err err => ret (Some err)
  | Ok false => ret None
  | Ok true =>
      let* errs := match manager with Some m => move_process pid m | None => ret [] end in
      let* r := oom_ApplyOOMScoreAdj pid oomScoreAdj in
      ret (NewAggregate (Some <$> match r with
        | Ok _ => errs
        | Err err => errs ++ [Errorf ("failed to apply oom score " +:+ itoa oomScoreAdj +:+ " to PID "
                                      +:+ itoa pid +:+ ": " +:+ Error err)]
        end))
  end.

Fixpoint ensure_pids (name : string) (pids : list Z) (oomScoreAdj : Z) (manager : option cgroups_Manager)
  (errs : list error) : M W (list error) :=
  match pids with
  | [] => ret errs
  | pid :: pids' =>
      let* err := ensureProcessInContainerWithOOMScore pid oomScoreAdj manager in
      ensure_pids name pids' oomScoreAdj manager (match err with
        | Some err => errs ++ [Errorf ("errors moving " +:+ quote name +:+ " pid: " +:+ Error err)]
        | None => errs
        end)
  end.

Fixpoint ensure_procs (procs : list (string * string)) (oomScoreAdj : Z) (manager : option cgroups_Manager)
  (errs : list error) : M W (list error) :=
  match procs with
  | [] => ret errs
  | (name, file) :: procs' =>
      let* w := get in
      match getPidsForProcess name file w with
      | Err err =>
          ensure_procs procs' oomScoreAdj manager
            (errs ++ [Errorf ("failed to get pids for " +:+ quote name +:+ ": " +:+ Error err)])
      | Ok pids =>
          let* errs := ensure_pids name pids oomScoreAdj manager errs in
          ensure_procs procs' oomScoreAdj manager errs
      end
  end.

Definition dockerProcs (dockerAPIVersion : utilversion) : list (string * string) :=
  ("dockerd", "/var/run/docker.pid")
  :: (if AtLeast dockerAPIVersion (MustParseGeneric "1.23") then [("containerd", "")] else []).

Definition ensureDockerInContainer (dockerAPIVersion : utilversion) (oomScoreAdj : Z)
  (manager : option cgroups_Manager) : M W (option error) :=
  let* errs := ensure_procs (dockerProcs dockerAPIVersion) oomScoreAdj manager [] in
  ret (NewAggregate (Some <$> errs)).

Definition doWork (m : containerManager) : M W unit :=
  let* v := Version in
  match v with
  | Err _ => ret tt
  | Ok v =>
      match ParseGeneric (dv_APIVersion v) with
      | Err _ => ret tt
      | Ok version =>
          do* ensureDockerInContainer version dockerOOMScoreAdj (cgroupsManager m) in ret tt
      end
  end.

(** [Start] leaves the manager whose [doWork] its goroutine runs at once and
    then every five minutes: [ticks] of them. *)
Definition Start (m : containerManager) : M W (res containerManager) :=
  if decide (cgroupsName m <> "") then
    let? manager := createCgroupManager (cgroupsName m) in
    ret (Ok {| cgroupsName := cgroupsName m; cgroupsManager := Some manager |})
  else ret (Ok m).

Fixpoint ticks (n : nat) (m : containerManager) : M W unit :=
  match n with
  | O => ret tt
  | S n' => do* doWork m in ticks n' m
  end.
End ContainerManager.

(** ** The memory limit *)

(** The line of the capacity of the machine, in kB. *)
Definition kB_line (spaces : string) (n : N) (rest : string) : string :=
  "MemTotal:" +:+ (spaces +:+ (utoa n +:+ (" kB" +:+ rest))).

Lemma digit_not_re_space c : is_digit c = true -> re_space c = false.
Proof.
  unfold is_digit, re_space. set (k := Ascii.N_of_ascii c). intros [H1 H2]%andb_true_iff.
  apply N.leb_le in H1. repeat rewrite orb_false_iff. rewrite !N.eqb_neq. lia.
Qed.

Lemma kB_line_matches spaces n rest :
  sforall re_space spaces = true ->
  find_submatch memoryCapacityRegexp (kB_line spaces n rest) = Some [utoa n].
Proof.
  intros Hs. apply (prefers_find _ _ _ rest). unfold memoryCapacityRegexp, kB_line.
  pose proof (utoa_digits n) as Hd. pose proof (utoa_nonempty n) as Hne.
  eapply (prefers_seq _ _ _ []); [apply prefers_lit|].
  eapply (prefers_seq _ _ _ []); [apply prefers_many; [done|]|].
  { intros c t' E. apply digit_not_re_space. revert E Hd Hne. destruct (utoa n) as [|d s]; [done|].
    intros [= <- _] Hd _. cbn [sforall] in Hd. by apply andb_true_iff in Hd as [Hd _]. }
  eapply (prefers_seq _ _ _ [utoa n] _ []); [|apply prefers_lit].
  apply prefers_cap, prefers_many1; [done|done|]. by intros c t' [= <- _].
Qed.

Lemma memory_limit_bounds cap : (minDockerMemoryLimit <= memory_limit cap < 2 ^ 63)%Z.
Proof.
  unfold memory_limit, minDockerMemoryLimit. destruct cap as [c|]; [|lia].
  pose proof (Z.mod_pos_bound (c * dockerMemoryLimitThresholdPercent) (2 ^ 64) ltac:(lia)) as Hb.
  fold (wrap_u 64 (c * dockerMemoryLimitThresholdPercent)) in Hb.
  fold (uint64 (c * dockerMemoryLimitThresholdPercent)) in Hb.
  set (u := uint64 _) in *. clearbody u.
  assert (0 <= u / 100 < 2 ^ 63)%Z.
  { split; [apply Z.div_pos; lia|]. apply Z.div_lt_upper_bound; lia. }
  destruct (Z.ltb_spec (u / 100) (150 * 1024 * 1024)); lia.
Qed.

(** C27: the memory limit of docker's cgroup.  Whatever the host reports about
    its memory, the cgroup asked for has a limit of at least 150Mi that is not
    negative as a signed integer; when the host reports [n] kB in a line of
    /proc/meminfo's format, it is 70 percent of that, or 150Mi if that is
    more, provided seventy times the capacity does not overflow 64 bits. *)
Theorem cgroup_memory_limit {W} `{HostOS W} `{ProcHost W} (name : string) (w : W) :
  exists limit w',
    createCgroupManager name w = cgroupfs_NewManager (docker_cgroup name limit) w'
    /\ (minDockerMemoryLimit <= cr_Memory (cg_Resources (docker_cgroup name limit)) < 2 ^ 63)%Z
    /\ forall spaces n rest,
         os_ReadFile "/proc/meminfo" w = (Ok (kB_line spaces n rest), w') ->
         sforall re_space spaces = true ->
         (Z.of_N n * 1024 * 70 < 2 ^ 64)%Z ->
         cr_Memory (cg_Resources (docker_cgroup name limit))
         = Z.max minDockerMemoryLimit (Z.of_N n * 1024 * 70 / 100).
Proof.
  unfold createCgroupManager, getMemoryCapacity, try, bind.
  destruct (os_ReadFile "/proc/meminfo" w) as [r w'] eqn:Er. unfold ret.
  set (cap := match r with Ok a => _ | Err e => _ end). cbv beta.
  assert (exists c, cap w' = (c, w') /\ forall spaces n rest, r = Ok (kB_line spaces n rest) ->
    sforall re_space spaces = true -> (Z.of_N n * 1024 * 70 < 2 ^ 64)%Z ->
    c = Ok (Z.of_N n * 1024)%Z) as (c & -> & Hc).
  { unfold cap. destruct r as [out|e]; [|by eexists]. eexists. split; [done|].
    intros spaces n rest [= ->] Hs Hn. unfold parseCapacity. rewrite kB_line_matches by done.
    rewrite parse_uint_utoa by lia. f_equal. unfold uint64, wrap_u. apply Z.mod_small. lia. }
  exists (memory_limit c), w'. split; [done|]. cbn [docker_cgroup cg_Resources cr_Memory].
  pose proof (memory_limit_bounds c) as Hb. rewrite int64_id by (unfold in_int64; unfold minDockerMemoryLimit in Hb; lia).
  split; [done|]. intros spaces n rest [= ->] Hs Hn. rewrite (Hc spaces n rest eq_refl Hs Hn).
  unfold memory_limit, dockerMemoryLimitThresholdPercent, uint64, wrap_u. rewrite Z.mod_small by lia.
  destruct (Z.ltb_spec (Z.of_N n * 1024 * 70 / 100) minDockerMemoryLimit); lia.
Qed.

(** ** Pid files *)

Lemma nuls_length n : String.length (nuls n) = n.
Proof. induction n as [|n IH]; [done|]. cbn [nuls]. rewrite slength_app, IH. cbn. lia. Qed.

(** A pid file shorter than the buffer is never used: the bytes that were
    not read are part of the text parsed as a number.  So docker's processes
    are those found by name, and when that fails too the error is that of the
    pid file. *)
Theorem pid_file_never_read {W} `{ProcHost W} (name pidFile : string) (file : os_file) (data : string) (w : W) :
  pidFile <> "" ->
  os_Open pidFile w = Ok file ->
  file_Read file pid_buffer w = Ok data ->
  (Z.of_nat (String.length data) < 1024)%Z ->
  exists err, getPidFromPidFile pidFile w = Err err
    /\ getPidsForProcess name pidFile w
       = match procfs_PidOf name w with Ok pids => Ok pids | Err _ => Err err end.
Proof.
  intros Hne Ho Hr Hlen.
  assert (exists err, getPidFromPidFile pidFile w = Err err) as [err E].
  { unfold getPidFromPidFile. rewrite Ho, Hr.
    assert (exists k, (pid_buffer - String.length data)%nat = S k) as [k ->].
    { exists (pid_buffer - String.length data - 1)%nat. unfold pid_buffer. lia. }
    cbn [nuls]. rewrite <- sapp_assoc. unfold Atoi.
    pose proof (parse_int64_last (data +:+ nuls k) Ascii.zero) as Hp.
    destruct (parse_int64 _) as [z|]; [by destruct (Hp z)|by eexists]. }
  exists err. split; [done|]. unfold getPidsForProcess. by rewrite decide_False, E.
Qed.

(** ** The processes of docker *)

(** What the manager changes of a host: the OOM score of a process, and
    whether a process is in the manager's cgroup.  Setting either leaves the
    rest of the host, as far as the manager reads it, and every other process
    alone; the library's manager keeps the configuration it was made from, and
    the cgroup of a process is an absolute path. *)
Record same_reads {W} `{ProcHost W} (w w' : W) : Prop := mkSameReads {
  sr_Readlink : forall path, os_Readlink path w' = os_Readlink path w;
  sr_Open : forall path, os_Open path w' = os_Open path w;
  sr_Read : forall file n, file_Read file n w' = file_Read file n w;
  sr_PidOf : forall name, procfs_PidOf name w' = procfs_PidOf name w;
}.

Class ProcHostLaws (W : Type) `{ProcHost W} := {
  oom_score : W -> Z -> Z;
  in_cgroup : cgroups_Manager -> W -> Z -> Prop;
  adj_reads : forall pid adj w r w', oom_ApplyOOMScoreAdj pid adj w = (r, w') -> same_reads w w';
  adj_sets : forall pid adj w w', oom_ApplyOOMScoreAdj pid adj w = (Ok tt, w') -> oom_score w' pid = adj;
  adj_others : forall pid adj w r w' p, oom_ApplyOOMScoreAdj pid adj w = (r, w') -> p <> pid ->
    oom_score w' p = oom_score w p;
  adj_cgroups : forall pid adj w r w' m p, oom_ApplyOOMScoreAdj pid adj w = (r, w') ->
    in_cgroup m w' p <-> in_cgroup m w p;
  apply_reads : forall m pid w r w', manager_Apply m pid w = (r, w') -> same_reads w w';
  apply_sets : forall m pid w w', manager_Apply m pid w = (Ok tt, w') -> in_cgroup m w' pid;
  apply_others : forall m m' pid w r w' p, manager_Apply m pid w = (r, w') -> p <> pid ->
    in_cgroup m' w' p <-> in_cgroup m' w p;
  apply_scores : forall m pid w r w' p, manager_Apply m pid w = (r, w') -> oom_score w' p = oom_score w p;
  cgroup_absolute : forall path w cgs k c, cgroups_ParseCgroupFile path w = Ok cgs -> cgs !! k = Some c -> c <> "";
}.

(** The managers that [createCgroupManager] makes have no path. *)
Definition pathless {W} `{ProcHost W} (m : cgroups_Manager) : Prop :=
  forall w cg, manager_GetCgroups m w = Ok cg -> cg_Path cg = "".

Section Confined.
Context {W : Type} {PH : ProcHost W} {PL : ProcHostLaws W}.
Context (adj : Z) (manager : option cgroups_Manager).
Hypothesis no_path : forall m, manager = Some m -> pathless m.

(** A process the manager has dealt with. *)
Definition confined (w : W) (pid : Z) : Prop :=
  oom_score w pid = adj /\ forall m, manager = Some m -> in_cgroup m w pid.

(** What a step leaves of the processes outside [P]. *)
Record leaves (P : Z -> Prop) (w w' : W) : Prop := mkLeaves {
  lv_reads : same_reads w w';
  lv_scores : forall p, ~ P p -> oom_score w' p = oom_score w p;
  lv_cgroups : forall m p, ~ P p -> in_cgroup m w' p <-> in_cgroup m w p;
}.

Lemma same_reads_refl w : same_reads w w.
Proof. by split. Qed.

Lemma same_reads_trans w1 w2 w3 : same_reads w1 w2 -> same_reads w2 w3 -> same_reads w1 w3.
Proof.
  intros [A B C D] [A' B' C' D']. split; intros.
  - by rewrite A', A.
  - by rewrite B', B.
  - by rewrite C', C.
  - by rewrite D', D.
Qed.

Lemma leaves_refl P w : leaves P w w.
Proof. by split. Qed.

Lemma leaves_trans P w1 w2 w3 : leaves P w1 w2 -> leaves P w2 w3 -> leaves P w1 w3.
Proof.
  intros [R1 S1 C1] [R2 S2 C2]. split; [by eapply same_reads_trans| |].
  - intros p Hp. by rewrite S2, S1.
  - intros m p Hp. by rewrite C2, C1.
Qed.

Lemma leaves_mono (P Q : Z -> Prop) w w' : (forall p, P p -> Q p) -> leaves P w w' -> leaves Q w w'.
Proof. intros H [R S C]. split; [done| |]; eauto. Qed.

Lemma leaves_apply m pid w r w' : manager_Apply m pid w = (r, w') -> leaves (eq pid) w w'.
Proof.
  intros E. split; [by eapply apply_reads| |].
  - intros p _. by eapply apply_scores.
  - intros m' p Hp. eapply apply_others; [done|congruence].
Qed.

Lemma leaves_adj pid a w r w' : oom_ApplyOOMScoreAdj pid a w = (r, w') -> leaves (eq pid) w w'.
Proof.
  intros E. split; [by eapply adj_reads| |].
  - intros p Hp. eapply adj_others; [done|congruence].
  - intros m p _. by eapply adj_cgroups.
Qed.

Lemma leaves_confined P w w' pid : leaves P w w' -> ~ P pid -> confined w pid -> confined w' pid.
Proof.
  intros L Hp [Hs Hc]. split; [by rewrite (lv_scores _ _ _ L)|].
  intros m Hm. apply (lv_cgroups _ _ _ L m pid Hp). by apply Hc.
Qed.

Lemma host_same_reads w w' pid :
  same_reads w w' -> isProcessRunningInHost pid w' = isProcessRunningInHost pid w.
Proof. intros S. unfold isProcessRunningInHost. by rewrite !(sr_Readlink _ _ S). Qed.

Lemma pids_same_reads w w' name file :
  same_reads w w' -> getPidsForProcess name file w' = getPidsForProcess name file w.
Proof.
  intros S. unfold getPidsForProcess, getPidFromPidFile. rewrite (sr_PidOf _ _ S), (sr_Open _ _ S).
  destruct (os_Open file w); [by rewrite (sr_Read _ _ S)|done].
Qed.

Lemma getContainer_absolute pid w c : getContainer pid w = Ok c -> c <> "".
Proof.
  unfold getContainer. destruct (cgroups_ParseCgroupFile _ w) as [cgs|] eqn:E; [|done].
  intros H. repeat case_match; simplify_eq; by eapply cgroup_absolute.
Qed.

Lemma apply_unless_in_spec cont path pid m errs w errs' w' :
  apply_unless_in cont path pid m errs w = (errs', w') ->
  leaves (eq pid) w w'
  /\ (errs' = [] -> errs = [] /\ (cont <> path -> in_cgroup m w' pid)).
Proof.
  unfold apply_unless_in, bind, ret. case_decide as Hd.
  - destruct (manager_Apply m pid w) as [r w1] eqn:Ea. intros [= <- <-].
    split; [by eapply leaves_apply|]. destruct r as [[]|].
    + intros ->. split; [done|]. intros _. by eapply apply_sets.
    + by destruct errs.
  - intros [= <- <-]. split; [apply leaves_refl|]. by intros ->.
Qed.

(** Moving a process without an error puts it in the cgroup. *)
Lemma move_process_spec pid m w errs w' :
  pathless m -> move_process pid m w = (errs, w') ->
  leaves (eq pid) w w' /\ (errs = [] -> in_cgroup m w' pid).
Proof.
  intros Hm. unfold move_process, bind, get.
  destruct (getContainer pid w) as [cont|ec] eqn:Ec, (manager_GetCgroups m w) as [cg|eg] eqn:Eg;
    cbv beta iota zeta; intros [L H]%apply_unless_in_spec; (split; [exact L|]); intros He;
    destruct (H He) as [Hn Hin]; try done.
  apply Hin. rewrite (Hm w cg Eg). by eapply getContainer_absolute.
Qed.

(** One process: nothing happens to it when it is not a process of the host,
    and without an error it is confined. *)
Lemma ensure_process_spec pid w r w' :
  ensureProcessInContainerWithOOMScore pid adj manager w = (r, w') ->
  leaves (fun p => p = pid /\ isProcessRunningInHost pid w = Ok true) w w'
  /\ (r = None -> isProcessRunningInHost pid w = Ok true -> confined w' pid).
Proof.
  unfold ensureProcessInContainerWithOOMScore, bind, get, ret.
  destruct (isProcessRunningInHost pid w) as [[|]|e] eqn:Eh.
  2,3: intros [= <- <-]; split; [apply leaves_refl|done].
  intros H.
  assert (exists errs w1, leaves (eq pid) w w1
    /\ (errs = [] -> forall m, manager = Some m -> in_cgroup m w1 pid)
    /\ (let (r0, s') := oom_ApplyOOMScoreAdj pid adj w1 in
        (NewAggregate (Some <$> match r0 with Ok _ => errs | Err err => errs ++
           [Errorf ("failed to apply oom score " +:+ itoa adj +:+ " to PID " +:+ itoa pid +:+ ": " +:+ Error err)] end), s'))
       = (r, w')) as (errs & w1 & L1 & Hin & H').
  { destruct manager as [m|] eqn:Em.
    - destruct (move_process pid m w) as [errs w1] eqn:E1.
      apply move_process_spec in E1 as [L1 H1]; [|by apply no_path].
      exists errs, w1. split; [done|]. split; [|exact H]. intros He m' [= <-]. by apply H1.
    - exists [], w. split; [apply leaves_refl|]. split; [done|exact H]. }
  clear H. destruct (oom_ApplyOOMScoreAdj pid adj w1) as [ra w2] eqn:E2.
  injection H' as Hr <-. pose proof (leaves_adj _ _ _ _ _ E2) as L2. split.
  - apply (leaves_mono (eq pid)); [by intros p <-|]. by eapply leaves_trans.
  - intros -> _. rewrite NewAggregate_Some in Hr. destruct ra as [[]|].
    + destruct errs; [|done]. split; [by eapply adj_sets|].
      intros m Hm. eapply adj_cgroups; [done|]. by apply Hin.
    + by destruct errs.
Qed.

Definition on_host (w : W) (pid : Z) : Prop := isProcessRunningInHost pid w = Ok true.

(** The processes of one name. *)
Lemma ensure_pids_spec name pids errs w errs' w' :
  ensure_pids name pids adj manager errs w = (errs', w') ->
  leaves (fun p => p ∈ pids /\ on_host w p) w w'
  /\ (errs' = [] -> errs = []
      /\ forall pid, on_host w pid -> pid ∈ pids \/ confined w pid -> confined w' pid).
Proof.
  revert errs w. induction pids as [|pid pids IH]; intros errs w; cbn [ensure_pids].
  { intros [= <- <-]. split; [apply leaves_refl|]. intros ->. split; [done|]. set_solver. }
  unfold bind at 1. destruct (ensureProcessInContainerWithOOMScore pid adj manager w) as [r w1] eqn:E1.
  apply ensure_process_spec in E1 as [L1 H1]. intros E2. apply IH in E2 as [L2 H2].
  assert (forall p, on_host w1 p <-> on_host w p) as Hh.
  { intros p. unfold on_host. by rewrite (host_same_reads _ _ _ (lv_reads _ _ _ L1)). }
  split.
  { eapply leaves_trans; [eapply leaves_mono, L1|eapply leaves_mono, L2]; cbv beta.
    - intros p [-> Hp]. set_solver.
    - intros p [Hp Hp']. rewrite Hh in Hp'. set_solver. }
  intros Hn. destruct (H2 Hn) as [He Hc]. destruct r as [e|]; [by destruct errs|].
  split; [done|]. intros p Hp Hcase. apply Hc; [by apply Hh|].
  destruct (decide (p = pid)) as [->|Hne]; [right; by apply H1|].
  destruct Hcase as [[?|?]%elem_of_cons|Hc']; [done|by left|].
  right. apply (leaves_confined _ _ _ _ L1); [|done]. by intros [? _].
Qed.

(** A process of [procs] that runs on the host. *)
Definition docker_pid (procs : list (string * string)) (w : W) (pid : Z) : Prop :=
  exists name file pids, (name, file) ∈ procs /\ getPidsForProcess name file w = Ok pids
    /\ pid ∈ pids /\ on_host w pid.

Lemma ensure_procs_spec procs errs w errs' w' :
  ensure_procs procs adj manager errs w = (errs', w') ->
  leaves (docker_pid procs w) w w'
  /\ (errs' = [] -> errs = []
      /\ forall pid, on_host w pid -> docker_pid procs w pid \/ confined w pid -> confined w' pid).
Proof.
  revert errs w. induction procs as [|[name file] procs IH]; intros errs w; cbn [ensure_procs].
  { intros [= <- <-]. split; [apply leaves_refl|]. intros ->. split; [done|].
    intros pid _ [(? & ? & ? & Hx & _)|?]; [by apply elem_of_nil in Hx|done]. }
  unfold bind at 1. unfold get. cbv beta iota.
  destruct (getPidsForProcess name file w) as [pids|e] eqn:Ep.
  2:{ intros E. apply IH in E as [L H]. split.
      - eapply leaves_mono, L. intros p (n & f & ps & ? & ?). exists n, f, ps. split; [by right|done].
      - intros Hn. destruct (H Hn) as [He _]. by destruct errs. }
  unfold bind. destruct (ensure_pids name pids adj manager errs w) as [errs1 w1] eqn:E1.
  apply ensure_pids_spec in E1 as [L1 H1]. intros E2. apply IH in E2 as [L2 H2].
  pose proof (lv_reads _ _ _ L1) as R1.
  assert (forall p, docker_pid procs w1 p <-> docker_pid procs w p) as Hd.
  { intros p. unfold docker_pid, on_host. setoid_rewrite (host_same_reads _ _ _ R1).
    by setoid_rewrite (pids_same_reads _ _ _ _ R1). }
  split.
  { eapply leaves_trans; [eapply leaves_mono, L1|eapply leaves_mono, L2]; cbv beta.
    - intros p [Hp Hp']. exists name, file, pids. split; [by left|done].
    - intros p (n & f & ps & ? & ?)%Hd. exists n, f, ps. split; [by right|done]. }
  intros Hn. destruct (H2 Hn) as [He Hc]. destruct (H1 He) as [He' Hc1]. split; [done|].
  intros pid Hh Hcase. apply Hc; [unfold on_host; by rewrite (host_same_reads _ _ _ R1)|].
  destruct Hcase as [(n & f & ps & [?|Hin]%elem_of_cons & Hps & Hpid & _)|Hcf].
  - simplify_eq. right. apply Hc1; [done|]. left. congruence.
  - left. apply Hd. by exists n, f, ps.
  - right. apply Hc1; [done|by right].
Qed.
End Confined.

(** C26: one pass of the container manager.  Whatever fails, it changes
    nothing but processes of docker that run in the host's namespaces: those
    of dockerd and, from API version 1.23, of containerd.  When it reports no
    error, every one of them has the OOM score asked for and is in the
    manager's cgroup, if there is one. *)
Theorem docker_processes_confined {W} `{ProcHost W} `{!ProcHostLaws W} `{UtilVersion}
    (version : utilversion) (adj : Z) (manager : option cgroups_Manager) (w w' : W) (r : option error) :
  (forall m, manager = Some m -> pathless m) ->
  ensureDockerInContainer version adj manager w = (r, w') ->
  (forall pid, ~ docker_pid (dockerProcs version) w pid ->
     oom_score w' pid = oom_score w pid /\ forall m, in_cgroup m w' pid <-> in_cgroup m w pid)
  /\ (r = None -> forall pid, docker_pid (dockerProcs version) w pid ->
        oom_score w' pid = adj /\ forall m, manager = Some m -> in_cgroup m w' pid).
Proof.
  intros Hm. unfold ensureDockerInContainer, bind, ret.
  destruct (ensure_procs (dockerProcs version) adj manager [] w) as [errs w1] eqn:E.
  apply (ensure_procs_spec adj manager Hm) in E as [L Hc]. intros [= <- <-]. split.
  - intros pid Hp. split; [by apply (lv_scores _ _ _ L)|]. intros m. by apply (lv_cgroups _ _ _ L).
  - intros Hr pid Hp. rewrite NewAggregate_Some in Hr. destruct errs; [|done].
    destruct (Hc eq_refl) as [_ Hc']. apply Hc'; [|by left]. by destruct Hp as (? & ? & ? & _ & _ & _ & ?).
Qed.

(** ** A host *)

(** Processes 100 (dockerd) and 200 (containerd) run on the host, 300 (another
    containerd) in a container; the state is their OOM scores and the members
    of the one cgroup. *)
Module ExampleHost.
Record world := mkWorld { scores : Z -> Z; members : list Z }.

Definition read_link (path : string) : res string :=
  if decide (path = "/proc/300/ns/pid") then Ok "pid:[2]" else Ok "pid:[1]".

Definition named (name : string) : list Z :=
  if decide (name = "dockerd") then [100%Z]
  else if decide (name = "containerd") then [200%Z; 300%Z] else [].

#[export] Instance host : ProcHost world := {|
  os_Readlink := fun path _ => read_link path;
  os_file := unit;
  os_Open := fun _ _ => Ok tt;
  file_Read := fun _ _ _ => Ok "100";
  cgroups_ParseCgroupFile := fun _ _ => Ok {[ "" := "/system.slice/docker.service" ]};
  cgroups_IsCgroup2UnifiedMode := fun _ => true;
  cgroups_NewNotFoundError := fun s => Errorf ("mountpoint for " +:+ s +:+ " not found");
  cgroups_Manager := Cgroup;
  cgroupfs_NewManager := fun cg => ret (Ok cg);
  manager_Apply := fun _ pid w => (Ok tt, mkWorld (scores w) (pid :: members w));
  manager_GetCgroups := fun cg _ => Ok cg;
  procfs_PidOf := fun name _ => Ok (named name);
  oom_ApplyOOMScoreAdj := fun pid adj w =>
    (Ok tt, mkWorld (fun p => if decide (p = pid) then adj else scores w p) (members w));
  quote_rune := itoa;
|}.

#[export] Program Instance laws : ProcHostLaws world := {|
  oom_score := scores;
  in_cgroup := fun _ w pid => pid ∈ members w;
|}.
Next Obligation. intros pid adj w r w' [= <- <-]. by split. Qed.
Next Obligation. intros pid adj w w' [= <-]. cbn. by rewrite decide_True. Qed.
Next Obligation. intros pid adj w r w' p [= <- <-] Hp. cbn. by rewrite decide_False. Qed.
Next Obligation. by intros pid adj w r w' m p [= <- <-]. Qed.
Next Obligation. intros m pid w r w' [= <- <-]. by split. Qed.
Next Obligation. intros m pid w w' [= <-]. cbn. set_solver. Qed.
Next Obligation. intros m m' pid w r w' p [= <- <-] Hp. cbn. set_solver. Qed.
Next Obligation. by intros m pid w r w' p [= <- <-]. Qed.
Next Obligation.
  intros path w cgs k c [= <-] Hk. apply lookup_singleton_Some in Hk as [_ <-]. done.
Qed.

(** Versions by their minor number, of those with major number 1. *)
Definition minor (s : string) : res N :=
  match parse_uint 64 (trim_prefix s "1.") with
  | Ok n => Ok n
  | Err e => Err (NumError "ParseUint" s e)
  end.

#[export] Instance versions : UtilVersion := {|
  utilversion := N;
  ParseGeneric := minor;
  MustParseGeneric := fun s => match minor s with Ok n => n | Err _ => 0%N end;
  AtLeast := fun a b => (b <=? a)%N;
|}.

Definition start : world := mkWorld (fun _ => 0%Z) [].

#[export] Instance os : HostOS world := {|
  os_Stat := fun _ => ret (Ok tt);
  os_ReadFile := fun _ => ret (Ok (kB_line "       " 16384000 "
MemFree:          262144 kB
"));
  os_OpenTrunc := fun _ => ret (Ok O);
  os_WriteString := fun _ _ => ret (Ok tt);
  os_Close := fun _ => ret (Ok tt);
  os_Remove := fun _ => ret (Ok tt);
  os_Symlink := fun _ _ => ret (Ok tt);
  rand_Uint32 := ret 0%N;
|}.
End ExampleHost.
Import ExampleHost.

Lemma cgroup_memory_limit_witness :
  exists limit w', createCgroupManager "/docker" ExampleHost.start
                   = cgroupfs_NewManager (docker_cgroup "/docker" limit) w'
    /\ cr_Memory (cg_Resources (docker_cgroup "/docker" limit)) = 11744051200%Z.
Proof.
  destruct (cgroup_memory_limit "/docker" ExampleHost.start) as (limit & w' & E & _ & H).
  exists limit, w'. split; [exact E|].
  assert (w' = ExampleHost.start) as Hw.
  { change (createCgroupManager "/docker" ExampleHost.start) with
      (cgroupfs_NewManager (docker_cgroup "/docker" (memory_limit (parseCapacity
        (kB_line "       " 16384000 "
MemFree:          262144 kB
") memoryCapacityRegexp))) ExampleHost.start) in E. by injection E. }
  subst w'. rewrite (H "       " 16384000%N "
MemFree:          262144 kB
"); [reflexivity|reflexivity|reflexivity|reflexivity].
Defined.

Lemma pid_file_never_read_witness :
  exists err, getPidFromPidFile "/var/run/docker.pid" ExampleHost.start = Err err
    /\ getPidsForProcess "dockerd" "/var/run/docker.pid" ExampleHost.start = Ok [100%Z].
Proof.
  exact (pid_file_never_read "dockerd" "/var/run/docker.pid" tt "100" ExampleHost.start
           ltac:(discriminate) eq_refl eq_refl ltac:(reflexivity)).
Defined.

Lemma docker_processes_confined_witness :
  exists w', ensureDockerInContainer (MustParseGeneric "1.43") dockerOOMScoreAdj
               (Some (docker_cgroup "/docker" minDockerMemoryLimit : @cgroups_Manager _ host)) ExampleHost.start = (None, w')
    /\ oom_score w' 100 = (-999)%Z /\ oom_score w' 200 = (-999)%Z /\ oom_score w' 300 = 0%Z.
Proof.
  set (m := docker_cgroup "/docker" minDockerMemoryLimit : @cgroups_Manager _ host).
  destruct (ensureDockerInContainer (MustParseGeneric "1.43") dockerOOMScoreAdj (Some m) ExampleHost.start) as [r w'] eqn:E.
  assert (r = None) as -> by (vm_compute in E; by injection E).
  exists w'. split; [done|].
  destruct (docker_processes_confined (MustParseGeneric "1.43") dockerOOMScoreAdj (Some m) ExampleHost.start w' None) as [H1 H2].
  - intros m' [= <-] w cg [= <-]. reflexivity.
  - exact E.
  - specialize (H2 eq_refl). split; [|split].
    + apply (H2 100%Z). exists "dockerd", "/var/run/docker.pid", [100%Z].
      split; [by left|]. split; [reflexivity|]. split; [by left|reflexivity].
    + apply (H2 200%Z). exists "containerd", "", [200%Z; 300%Z].
      split; [right; by left|]. split; [reflexivity|]. split; [by left|reflexivity].
    + apply (H1 300%Z). intros (n & f & ps & _ & _ & _ & Hh). discriminate Hh.
Defined.
