(* ===== verification/StreamPairs.v ===== *)
(** * StreamPairs: port forwarding over one connection

    streaming/portforward: a connection carries the data and error streams of
    any number of forwarded connections.  The streams of one request are
    paired ([httpStreamHandler] of httpstream.go); the goroutine that receives
    streams, the monitor of each pair and the forwarding of each pair are
    interleaved steps over a heap of pairs, which goroutines keep pointers to.
    websocket.go has its streams paired from the start.  The SPDY and websocket
    connections and the forwarder are parameters.  (The streaming server uses
    the package of the kubelet that this one was copied to.) *)
From stdpp Require Import relations.
From S2P Require Import Prelude GoErrors.

(** ** Streams *)

(** A stream: its identifier (a [uint32]) and the headers the package reads,
    empty when they are absent. *)
Record stream := mkStream {
  st_id : N;
  st_type : string;
  st_port : string;
  st_request : string;
}.

#[export] Instance stream_eq_dec : EqDecision stream.
Proof. solve_decision. Defined.

Definition PortHeader : string := "port".
Definition StreamType : string := "streamType".
Definition StreamTypeError : string := "error".
Definition StreamTypeData : string := "data".

(** The function the SPDY connection calls for a new stream: the error that
    rejects it, or none when it is sent to the channel. *)
Definition httpStreamReceived (s : stream) : option error :=
  let portString := st_port s in
  if decide (portString = "") then Some (Errorf (quote PortHeader +:+ " header is required"))
  else
    match parse_uint 16 portString with
    | Err e =>
        Some (Errorf ("unable to parse " +:+ quote portString +:+ " as a port: "
                      +:+ Error (NumError "ParseUint" portString e)))
    | Ok port =>
        if (port <? 1)%N then Some (Errorf ("port " +:+ quote portString +:+ " must be > 0"))
        else
          let streamType := st_type s in
          if decide (streamType = "") then Some (Errorf (quote StreamType +:+ " header is required"))
          else if decide (streamType <> StreamTypeError /\ streamType <> StreamTypeData)
               then Some (Errorf ("invalid stream type " +:+ quote streamType))
               else None
    end.

(** The request a stream belongs to; streams without the header, of older
    clients, are numbered by the identifier of their error stream. *)
Definition requestID (s : stream) : string :=
  if decide (st_request s = "") then
    if decide (st_type s = StreamTypeError) then itoa (Z.of_N (st_id s))
    else if decide (st_type s = StreamTypeData) then itoa (Z.of_N (st_id s) - 2)
    else ""
  else st_request s.

(** ** Pairs *)

Record httpStreamPair := mkPair {
  p_requestID : string;
  p_dataStream : option stream;
  p_errorStream : option stream;
  (** the channel [complete] is closed *)
  p_complete : bool;
}.

Definition newPortForwardPair (requestID : string) : httpStreamPair :=
  mkPair requestID None None false.

Definition both (p : httpStreamPair) : bool :=
  match p_errorStream p, p_dataStream p with Some _, Some _ => true | _, _ => false end.

(** The end of [add]: close the channel when the pair is complete; closing it
    again panics ([None]). *)
Definition close_complete (p : httpStreamPair) : option (res bool * httpStreamPair) :=
  if both p then
    if p_complete p then None
    else Some (Ok true, mkPair (p_requestID p) (p_dataStream p) (p_errorStream p) true)
  else Some (Ok false, p).

Definition add (p : httpStreamPair) (s : stream) : option (res bool * httpStreamPair) :=
  if decide (st_type s = StreamTypeError) then
    match p_errorStream p with
    | Some _ => Some (Err (Errorf "error stream already assigned"), p)
    | None => close_complete (mkPair (p_requestID p) (p_dataStream p) (Some s) (p_complete p))
    end
  else if decide (st_type s = StreamTypeData) then
    match p_dataStream p with
    | Some _ => Some (Err (Errorf "data stream already assigned"), p)
    | None => close_complete (mkPair (p_requestID p) (Some s) (p_errorStream p) (p_complete p))
    end
  else close_complete p.

(** ** The handler *)

(** The goroutine of [run]: at its select, about to add a stream to a pair,
    about to print an error on a pair, after its loop. *)
Inductive loop_pc := LoopSelect | LoopAdd (s : stream) (pair : nat) | LoopPrint (pair : nat) (msg : string) | LoopExit.
(** [monitorStreamPair]: at its select, timed out, about to remove the pair,
    returned. *)
Inductive monitor_pc := MonWait | MonPrint | MonRemove | MonDone.

(** A goroutine in [portForward]; the result of the forwarder once it has
    returned. *)
Record forward := mkForward { fw_pair : nat; fw_result : option (option error) }.

(** The heap of pairs and, in the same order, their monitors; [h_streamPairs]
    maps a request to the address of its pair.  [h_writes] is what was written to error streams,
    [h_received] what was sent to the channel so far. *)
Record httpStreamHandler := mkHandler {
  h_heap : list httpStreamPair;
  h_monitors : list monitor_pc;
  h_streamPairs : gmap string nat;
  h_streamChan : list stream;
  h_loop : loop_pc;
  h_forwards : list forward;
  h_writes : list (stream * string);
  h_received : list stream;
  h_panicked : bool;
}.

Definition new_handler : httpStreamHandler := mkHandler [] [] ∅ [] LoopSelect [] [] [] false.

(** [handleHTTPStreams]: the handshake and the upgrade of the connection. *)
Definition handleHTTPStreams (handshake : res string) (upgraded : bool) : res httpStreamHandler :=
  match handshake with
  | Err err => Err err
  | Ok _ =>
      if upgraded then Ok new_handler else Err (Errorf "unable to upgrade httpstream connection")
  end.

Definition with_loop (pc : loop_pc) (h : httpStreamHandler) : httpStreamHandler :=
  mkHandler (h_heap h) (h_monitors h) (h_streamPairs h)
    (h_streamChan h) pc (h_forwards h) (h_writes h) (h_received h) (h_panicked h).
Definition with_heap (heap : list httpStreamPair) (h : httpStreamHandler) : httpStreamHandler :=
  mkHandler heap (h_monitors h) (h_streamPairs h)
    (h_streamChan h) (h_loop h) (h_forwards h) (h_writes h) (h_received h) (h_panicked h).
Definition with_monitors (ms : list monitor_pc) (h : httpStreamHandler) : httpStreamHandler :=
  mkHandler (h_heap h) ms (h_streamPairs h)
    (h_streamChan h) (h_loop h) (h_forwards h) (h_writes h) (h_received h) (h_panicked h).
Definition with_pairs (m : gmap string nat) (h : httpStreamHandler) : httpStreamHandler :=
  mkHandler (h_heap h) (h_monitors h) m
    (h_streamChan h) (h_loop h) (h_forwards h) (h_writes h) (h_received h) (h_panicked h).
Definition with_chan (c : list stream) (h : httpStreamHandler) : httpStreamHandler :=
  mkHandler (h_heap h) (h_monitors h) (h_streamPairs h)
    c (h_loop h) (h_forwards h) (h_writes h) (h_received h) (h_panicked h).
Definition with_forwards (fs : list forward) (h : httpStreamHandler) : httpStreamHandler :=
  mkHandler (h_heap h) (h_monitors h) (h_streamPairs h)
    (h_streamChan h) (h_loop h) fs (h_writes h) (h_received h) (h_panicked h).
Definition with_write (w : list (stream * string)) (h : httpStreamHandler) : httpStreamHandler :=
  mkHandler (h_heap h) (h_monitors h) (h_streamPairs h)
    (h_streamChan h) (h_loop h) (h_forwards h) (h_writes h ++ w) (h_received h) (h_panicked h).
Definition with_received (s : stream) (h : httpStreamHandler) : httpStreamHandler :=
  mkHandler (h_heap h) (h_monitors h) (h_streamPairs h)
    (h_streamChan h) (h_loop h) (h_forwards h) (h_writes h) (h_received h ++ [s]) (h_panicked h).
Definition panicking (h : httpStreamHandler) : httpStreamHandler :=
  mkHandler (h_heap h) (h_monitors h) (h_streamPairs h)
    (h_streamChan h) LoopExit (h_forwards h) (h_writes h) (h_received h) true.

Definition hasStreamPair (requestID : string) (h : httpStreamHandler) : bool :=
  bool_decide (is_Some (h_streamPairs h !! requestID)).

(** The pair of a request and whether it was created; its monitor starts. *)
Definition getStreamPair (requestID : string) (h : httpStreamHandler) : nat * bool * httpStreamHandler :=
  match h_streamPairs h !! requestID with
  | Some p => (p, false, h)
  | None =>
      let p := length (h_heap h) in
      (p, true,
       with_pairs (<[requestID := p]> (h_streamPairs h))
         (with_monitors (h_monitors h ++ [MonWait])
            (with_heap (h_heap h ++ [newPortForwardPair requestID]) h)))
  end.

Definition removeStreamPair (requestID : string) (h : httpStreamHandler) : httpStreamHandler :=
  with_pairs (delete requestID (h_streamPairs h)) h.

(** What [printError] writes. *)
Definition printError (p : httpStreamPair) (msg : string) : list (stream * string) :=
  match p_errorStream p with Some e => [(e, msg)] | None => [] end.

Definition set_monitor (k : nat) (m : monitor_pc) (h : httpStreamHandler) : httpStreamHandler :=
  with_monitors (<[k := m]> (h_monitors h)) h.

(** The case of [run] for a new stream, up to the call of [add]. *)
Definition run_receive (s : stream) (h : httpStreamHandler) : httpStreamHandler :=
  let '(p, _, h) := getStreamPair (requestID s) h in
  with_loop (LoopAdd s p) h.

(** The call of [add] and what follows it. *)
Definition run_add (s : stream) (k : nat) (h : httpStreamHandler) : httpStreamHandler :=
  match h_heap h !! k with
  | None => h
  | Some p =>
      match add p s with
      | None => panicking h
      | Some (r, p) =>
          let h := with_heap (<[k := p]> (h_heap h)) h in
          match r with
          | Err err =>
              with_loop (LoopPrint k ("error processing stream for request " +:+ requestID s +:+ ": "
                                      +:+ Error err)) h
          | Ok complete =>
              let h := with_loop LoopSelect h in
              if complete then with_forwards (h_forwards h ++ [mkForward k None]) h else h
          end
      end
  end.

(** [strconv.ParseInt(portString, 10, 32)], whose error is dropped: a value out
    of range is the nearest one. *)
Definition forward_port (portString : string) : Z :=
  match parse_int 32 portString with
  | Ok port => port
  | Err ErrSyntax => 0
  | Err ErrRange => if has_prefix portString "-" then - 2 ^ 31 else 2 ^ 31 - 1
  end.

Section Handler.
Context (conn pod uid : string) (forwarder : string -> string -> Z -> stream -> option error -> Prop).

(** What the end of [portForward] writes. *)
Definition forward_message (port : Z) (err : error) : string :=
  "error forwarding port " +:+ itoa port +:+ " to pod " +:+ pod +:+ ", uid " +:+ uid +:+ ": " +:+ Error err.

Definition timeout_message (p : httpStreamPair) : string :=
  "(conn=" +:+ conn +:+ ", request=" +:+ p_requestID p +:+ ") timed out waiting for streams".

(** The steps of one monitor. *)
Inductive monitor_step : httpStreamHandler -> httpStreamHandler -> Prop :=
| monitor_times_out h k :
    h_monitors h !! k = Some MonWait -> monitor_step h (set_monitor k MonPrint h)
| monitor_prints h k p :
    h_monitors h !! k = Some MonPrint -> h_heap h !! k = Some p ->
    monitor_step h (set_monitor k MonRemove (with_write (printError p (timeout_message p)) h))
| monitor_completes h k p :
    h_monitors h !! k = Some MonWait -> h_heap h !! k = Some p -> p_complete p = true -> monitor_step h (set_monitor k MonRemove h)
| monitor_removes h k p :
    h_monitors h !! k = Some MonRemove -> h_heap h !! k = Some p ->
    monitor_step h (set_monitor k MonDone (removeStreamPair (p_requestID p) h)).

Inductive handler_step : httpStreamHandler -> httpStreamHandler -> Prop :=
(** A stream is accepted; the channel holds one. *)
| stream_sent h s :
    httpStreamReceived s = None -> h_streamChan h = [] ->
    handler_step h (with_received s (with_chan [s] h))
| stream_taken h s rest :
    h_loop h = LoopSelect -> h_streamChan h = s :: rest -> handler_step h (run_receive s (with_chan rest h))
| stream_added h s k : h_loop h = LoopAdd s k -> handler_step h (run_add s k h)
| error_printed h k msg p :
    h_loop h = LoopPrint k msg -> h_heap h !! k = Some p ->
    handler_step h (with_loop LoopSelect (with_write (printError p msg) h))
| conn_closed h : h_loop h = LoopSelect -> handler_step h (with_loop LoopExit h)
| monitor_moves h h' : monitor_step h h' -> handler_step h h'
(** The forwarder returns. *)
| forwarder_returns h i k p d e r :
    h_forwards h !! i = Some (mkForward k None) ->
    h_heap h !! k = Some p -> p_dataStream p = Some d -> p_errorStream p = Some e ->
    forwarder pod uid (forward_port (st_port d)) d r ->
    handler_step h
      (with_forwards (<[i := mkForward k (Some r)]> (h_forwards h))
         (with_write (match r with
                      | Some err => [(e, forward_message (forward_port (st_port d)) err)]
                      | None => []
                      end) h)).

Abbreviation handler_reachable := (rtc handler_step new_handler).
End Handler.

(** ** Websockets *)

Definition dataChannel : nat := 0.
Definition errorChannel : nat := 1.

(** The ports of one element of the query parameter, after those read. *)
Fixpoint parse_ports (portString : string) (ps : list string) (ports : list Z) : res (list Z) :=
  match ps with
  | [] => Ok ports
  | p :: ps' =>
      match parse_uint 16 p with
      | Err e =>
          Err (Errorf ("unable to parse " +:+ quote portString +:+ " as a port: "
                       +:+ Error (NumError "ParseUint" p e)))
      | Ok port =>
          if (port <? 1)%N then Err (Errorf ("port " +:+ quote portString +:+ " must be > 0"))
          else parse_ports portString ps' (ports ++ [int32 (Z.of_N port)])
      end
  end.

Fixpoint parse_port_strings (portStrings : list string) (ports : list Z) : res (list Z) :=
  match portStrings with
  | [] => Ok ports
  | portString :: rest =>
      if decide (portString = "") then
        Err (Errorf ("query parameter " +:+ quote PortHeader +:+ " cannot be empty"))
      else match parse_ports portString (split portString ",") ports with
           | Err err => Err err
           | Ok ports => parse_port_strings rest ports
           end
  end.

(** The ports of [V4Options], from the values of the query parameter. *)
Definition NewV4Options (isWebSocketRequest : bool) (portStrings : list string) : res (list Z) :=
  if isWebSocketRequest then
    if decide (portStrings = []) then
      Err (Errorf ("query parameter " +:+ quote PortHeader +:+ " is required"))
    else parse_port_strings portStrings []
  else Ok [].

Definition BuildV4Options (ports : list Z) : res (list Z) := Ok ports.

(** [wsstream]'s channel types; streams are known by their channel. *)
Inductive ChannelType := ReadWriteChannel | WriteChannel.
Definition ws_channels (ports : list Z) : list ChannelType :=
  ports ≫= (fun _ => [ReadWriteChannel; WriteChannel]).

Record websocketStreamPair := mkWebsocketStreamPair {
  wp_port : Z;
  wp_dataStream : nat;
  wp_errorStream : nat;
}.

Definition ws_pairs (ports : list Z) : list websocketStreamPair :=
  imap (fun i port => mkWebsocketStreamPair port (i * 2 + dataChannel) (i * 2 + errorChannel)) ports.

(** The port as an unsigned 16-bit integer, little endian. *)
Definition portBytes (port : Z) : list Z :=
  let u := wrap_u 16 port in [Z.land u 255; Z.shiftr u 8].

(** What is written to a channel. *)
Inductive ws_write := WritePort (bytes : list Z) | WriteText (msg : string).

Definition ws_preamble (pairs : list websocketStreamPair) : list (nat * ws_write) :=
  pairs ≫= (fun p => [(wp_dataStream p, WritePort (portBytes (wp_port p)));
                      (wp_errorStream p, WritePort (portBytes (wp_port p)))]).

Section WebSocket.
Context {W : Type} (forwarder : string -> string -> Z -> nat -> M W (option error)) (pod uid : string).

Definition ws_portForward (p : websocketStreamPair) : M W (list (nat * ws_write)) :=
  let* err := forwarder pod uid (wp_port p) (wp_dataStream p) in
  ret (match err with
       | Some err => [(wp_errorStream p, WriteText (forward_message pod uid (wp_port p) err))]
       | None => []
       end).

(** The goroutines of [run], which share nothing, in the order they are
    started. *)
Fixpoint ws_run (pairs : list websocketStreamPair) : M W (list (nat * ws_write)) :=
  match pairs with
  | [] => ret []
  | p :: pairs' =>
      let* w := ws_portForward p in
      let* ws := ws_run pairs' in
      ret (w ++ ws)
  end.

(** What is written to the channels, once the connection is [opened]. *)
Definition handleWebSocketStreams (opened : res unit) (ports : list Z) : M W (res (list (nat * ws_write))) :=
  match opened with
  | Err err => ret (Err (Errorf ("unable to upgrade websocket connection: " +:+ Error err)))
  | Ok _ =>
      let pairs := ws_pairs ports in
      let* ws := ws_run pairs in
      ret (Ok (ws_preamble pairs ++ ws))
  end.
End WebSocket.

(** [ServePortForward]: what a request leads to. *)
Inductive port_forward_session :=
| HTTPStreams (h : res httpStreamHandler)
| WebSocketStreams (r : res (list (nat * ws_write))).

Definition ServePortForward {W} (forwarder : string -> string -> Z -> nat -> M W (option error))
  (pod uid : string) (isWebSocketRequest : bool) (handshake : res string) (upgraded : bool) (opened : res unit)
  (ports : list Z) : M W port_forward_session :=
  if isWebSocketRequest then
    let* r := handleWebSocketStreams forwarder pod uid opened ports in ret (WebSocketStreams r)
  else ret (HTTPStreams (handleHTTPStreams handshake upgraded)).

(** ** Theory *)

Definition slots (p : httpStreamPair) : list stream :=
  option_list (p_dataStream p) ++ option_list (p_errorStream p).

(** The streams the handler still has: in pairs, on their way to one, in the
    channel. *)
Definition held (h : httpStreamHandler) : list stream :=
  (h_heap h ≫= slots) ++ match h_loop h with LoopAdd s _ => [s] | _ => [] end ++ h_streamChan h.

(** A pair holds accepted streams of its own request, each in the slot of its
    type, and [complete] is closed when both are there. *)
Record pair_ok (p : httpStreamPair) : Prop := mkPairOk {
  po_data : forall d, p_dataStream p = Some d ->
    httpStreamReceived d = None /\ st_type d = StreamTypeData /\ requestID d = p_requestID p;
  po_error : forall e, p_errorStream p = Some e ->
    httpStreamReceived e = None /\ st_type e = StreamTypeError /\ requestID e = p_requestID p;
  po_complete : p_complete p = both p;
}.

(** The pair at [k] is [p] and its monitor has not returned. *)
Definition live (h : httpStreamHandler) (k : nat) (p : httpStreamPair) : Prop :=
  h_heap h !! k = Some p /\ exists m, h_monitors h !! k = Some m /\ m <> MonDone.

Record handler_ok (h : httpStreamHandler) : Prop := mkHandlerOk {
  ok_panic : h_panicked h = false;
  ok_len : length (h_monitors h) = length (h_heap h);
  ok_heap : Forall pair_ok (h_heap h);
  ok_map : forall id k, h_streamPairs h !! id = Some k <-> exists p, live h k p /\ p_requestID p = id;
  ok_add : forall s k, h_loop h = LoopAdd s k ->
    httpStreamReceived s = None /\ exists p, h_heap h !! k = Some p /\ p_requestID p = requestID s;
  ok_chan : Forall (fun s => httpStreamReceived s = None) (h_streamChan h);
  ok_once : NoDup (fw_pair <$> h_forwards h);
  ok_forwards : forall k, k ∈ fw_pair <$> h_forwards h
    <-> exists p, h_heap h !! k = Some p /\ p_complete p = true;
  ok_held : held h ⊆+ h_received h;
}.

Lemma received_type s : httpStreamReceived s = None -> st_type s = StreamTypeError \/ st_type s = StreamTypeData.
Proof.
  intros H. destruct (decide (st_type s = StreamTypeError)) as [|He]; [by left|].
  destruct (decide (st_type s = StreamTypeData)) as [|Hd]; [by right|]. revert H.
  unfold httpStreamReceived. repeat case_match; try done. by destruct n1.
Qed.

(** Adding a stream never closes a channel twice. *)
Lemma add_ok p s :
  pair_ok p -> httpStreamReceived s = None -> requestID s = p_requestID p ->
  exists r p', add p s = Some (r, p') /\ pair_ok p' /\ p_requestID p' = p_requestID p
    /\ ((exists e, r = Err e /\ p' = p)
        \/ (exists c, r = Ok c /\ slots p' ≡ₚ s :: slots p /\ p_complete p = false /\ p_complete p' = c)).
Proof.
  intros Hok Hr Hid. destruct p as [id d e c]. pose proof (po_complete _ Hok) as Hc.
  unfold add, close_complete. destruct (received_type s Hr) as [Ht|Ht]; rewrite Ht; cbn in *.
  - destruct e as [e|]; [eexists _, _; split; [done|]; split; [done|]; split; [done|]; left; by eexists|].
    assert (c = false) as -> by done.
    destruct d as [d|]; (eexists _, _; split; [done|]; split; [|split; [done|]; right; eexists; split; [done|]; cbn; split; [|done]]).
    + split; cbn; [apply (po_data _ Hok)| |done]. by intros e' [= <-].
    + apply Permutation_swap.
    + split; cbn; [done| |done]. by intros e' [= <-].
    + done.
  - destruct d as [d|]; [eexists _, _; split; [done|]; split; [done|]; split; [done|]; left; by eexists|].
    assert (c = false) as -> by (subst; unfold both; cbn; by destruct e).
    destruct e as [e|]; (eexists _, _; split; [done|]; split; [|split; [done|]; right; eexists; split; [done|]; cbn; split; [|done]]).
    + split; cbn; [|apply (po_error _ Hok)|done]. by intros d' [= <-].
    + done.
    + split; cbn; [|done|done]. by intros d' [= <-].
    + done.
Qed.

Lemma handler_ok_init : handler_ok new_handler.
Proof.
  split; cbn; try done; try (by constructor).
  - intros id k. rewrite lookup_empty. split; [done|]. by intros (p & [Hp _] & _).
  - intros k. split; [intros H; by apply elem_of_nil in H|]. by intros (p & Hp & _).
Qed.

(** Monitors never touch the pairs themselves. *)
Lemma set_monitor_ok h k m m' :
  h_monitors h !! k = Some m -> m <> MonDone -> m' <> MonDone -> handler_ok h -> handler_ok (set_monitor k m' h).
Proof.
  intros Hk Hm Hm' Hok. destruct Hok as [Hp Hl Hh Hmap Ha Hc Ho Hf Hs]. split; cbn; try done.
  - by rewrite length_insert.
  - intros id k'. rewrite Hmap. unfold live. cbn. split; intros (p & (Hhp & m0 & Hm0 & Hd) & Hid).
    + exists p. split; [|done]. split; [done|]. destruct (decide (k = k')) as [->|Hne].
      * exists m'. rewrite list_lookup_insert_eq by (by eapply lookup_lt_Some). done.
      * exists m0. by rewrite list_lookup_insert_ne.
    + exists p. split; [|done]. split; [done|]. destruct (decide (k = k')) as [->|Hne].
      * by exists m.
      * exists m0. by rewrite list_lookup_insert_ne in Hm0.
Qed.

Lemma with_write_ok w h : handler_ok h -> handler_ok (with_write w h).
Proof. intros [Hp Hl Hh Hmap Ha Hc Ho Hf Hs]. by split. Qed.

Lemma monitor_removes_ok h k p :
  h_monitors h !! k = Some MonRemove -> h_heap h !! k = Some p -> handler_ok h ->
  handler_ok (set_monitor k MonDone (removeStreamPair (p_requestID p) h)).
Proof.
  intros Hk Hhp Hok. destruct Hok as [Hp Hl Hh Hmap Ha Hc Ho Hf Hs]. split; cbn; try done.
  - by rewrite length_insert.
  - intros id k'. rewrite lookup_delete_Some, Hmap. unfold live. cbn. split.
    + intros (Hne & q & (Hq & m & Hm & Hd) & Hid). exists q. split; [|done]. split; [done|].
      exists m. rewrite list_lookup_insert_ne; [done|]. intros <-. congruence.
    + intros (q & (Hq & m & Hm & Hd) & Hid).
      destruct (decide (k = k')) as [<-|Hne].
      { rewrite list_lookup_insert_eq in Hm by (by eapply lookup_lt_Some). congruence. }
      rewrite list_lookup_insert_ne in Hm by done. split; [|by exists q; split; [split; [|exists m]|]].
      intros Hid'. apply Hne.
      assert (h_streamPairs h !! id = Some k) as H1.
      { apply Hmap. exists p. split; [split; [done|by exists MonRemove]|done]. }
      assert (h_streamPairs h !! id = Some k') as H2.
      { apply Hmap. exists q. split; [split; [done|by exists m]|done]. }
      congruence.
Qed.

Section HandlerTheory.
Context (conn pod uid : string) (forwarder : string -> string -> Z -> stream -> option error -> Prop).

Lemma monitor_step_ok h h' : monitor_step conn h h' -> handler_ok h -> handler_ok h'.
Proof.
  intros H Hok. destruct H.
  - by eapply set_monitor_ok.
  - eapply set_monitor_ok; [done|done|done|by apply with_write_ok].
  - by eapply set_monitor_ok.
  - by apply monitor_removes_ok.
Qed.
End HandlerTheory.

(** What a goroutine sees of the lists it does not write. *)
Lemma live_app h k p q ms :
  length ms = length (h_heap h) ->
  live (with_monitors (ms ++ [MonWait]) (with_heap (h_heap h ++ [q]) h)) k p
  <-> (h_heap h !! k = Some p /\ exists m, ms !! k = Some m /\ m <> MonDone)
      \/ (k = length (h_heap h) /\ p = q).
Proof.
  intros Hl. unfold live. cbn. split.
  - intros ([Hk|[Hk E]]%lookup_app_Some & m & Hm & Hd).
    + left. split; [done|]. apply lookup_lt_Some in Hk as Hlt. rewrite lookup_app_l in Hm by lia. by exists m.
    + apply list_lookup_singleton_Some in E as [E <-]. right. split; [lia|done].
  - intros [(Hk & m & Hm & Hd)|[-> ->]].
    + split; [by apply lookup_app_l_Some|]. exists m. split; [by apply lookup_app_l_Some|done].
    + split; [by apply list_lookup_middle|]. exists MonWait. split; [|done].
      rewrite <- Hl. by apply list_lookup_middle.
Qed.

(** The pair of a stream's request is there, and is its own. *)
Lemma getStreamPair_ok id h k c h' :
  handler_ok h -> getStreamPair id h = (k, c, h') ->
  handler_ok h' /\ (exists p, h_heap h' !! k = Some p /\ p_requestID p = id)
  /\ h_streamChan h' = h_streamChan h /\ h_loop h' = h_loop h /\ h_received h' = h_received h
  /\ held h' = held h.
Proof.
  intros Hok. unfold getStreamPair. destruct (h_streamPairs h !! id) as [k0|] eqn:E; intros [= <- <- <-].
  { apply (ok_map _ Hok) in E as (p & [Hp _] & Hid). split; [done|]. split; [by exists p|done]. }
  assert (held (with_pairs (<[id:=length (h_heap h)]> (h_streamPairs h))
     (with_monitors (h_monitors h ++ [MonWait]) (with_heap (h_heap h ++ [newPortForwardPair id]) h))) = held h) as Hheld.
  { unfold held. cbn. rewrite bind_app. cbn. by rewrite app_nil_r. }
  split; [|split; [|done]].
  2:{ exists (newPortForwardPair id). split; [|done]. cbn. by apply list_lookup_middle. }
  destruct Hok as [Hp Hl Hh Hmap Ha Hc Ho Hf Hs]. split; cbn [h_panicked]; try done.
  - cbn. rewrite !length_app. cbn. lia.
  - cbn. apply Forall_app. split; [done|]. by repeat constructor.
  - intros id' k. cbn [h_streamPairs with_pairs]. rewrite lookup_insert_Some.
    change (live (with_pairs _ ?x) k) with (live x k).
    setoid_rewrite (live_app h k _ _ (h_monitors h) Hl).
    change (h_heap h !! k = Some ?p /\ exists m, h_monitors h !! k = Some m /\ m <> MonDone) with (live h k p).
    rewrite Hmap. split.
    + intros [[<- <-]|[Hne (p & Hlive & Hid)]]; [by eexists; split; [right|]|exists p; split; [by left|done]].
    + intros (p & [Hlive|[-> ->]] & Hid); [|by left].
      right. split; [|by exists p]. intros ->.
      assert (h_streamPairs h !! id' = Some k) by (apply Hmap; by exists p). congruence.
  - intros s k Hk. cbn in *. destruct (Ha s k Hk) as (Hr & p & Hp' & Hid). split; [done|].
    exists p. split; [by apply lookup_app_l_Some|done].
  - intros k. cbn. rewrite Hf. split; intros (p & Hk & Hcp).
    + exists p. split; [by apply lookup_app_l_Some|done].
    + apply lookup_app_Some in Hk as [?|[_ [_ <-]%list_lookup_singleton_Some]]; [by exists p|done].
  - by rewrite Hheld.
Qed.

Lemma run_receive_ok h s rest :
  h_loop h = LoopSelect -> h_streamChan h = s :: rest -> handler_ok h ->
  handler_ok (run_receive s (with_chan rest h)).
Proof.
  intros Hl Hc Hok. unfold run_receive.
  destruct (getStreamPair (requestID s) (with_chan rest h)) as [[k c] h'] eqn:E.
  assert (handler_ok (with_chan rest h)) as Hok1.
  { destruct Hok as [Hp Hlen Hh Hmap Ha Hch Ho Hf Hs]. split; cbn; try done.
    - rewrite Hc in Hch. by apply Forall_cons in Hch as [_ ?].
    - etransitivity; [|exact Hs]. unfold held. cbn. rewrite Hl, Hc. cbn.
      apply submseteq_app; [done|]. by apply submseteq_cons. }
  apply (getStreamPair_ok _ _ _ _ _ Hok1) in E as (Hok' & Hk & Hch' & Hl' & Hr' & Hheld').
  assert (held (with_loop (LoopAdd s k) h') ≡ₚ held h) as Hperm.
  { transitivity (s :: held h').
    - unfold held. cbn in *. rewrite Hl', Hl. cbn. by rewrite <- Permutation_middle.
    - rewrite Hheld'. unfold held. cbn. rewrite Hl, Hc. cbn. by rewrite <- Permutation_middle. }
  assert (httpStreamReceived s = None) as Hv.
  { pose proof (ok_chan _ Hok) as H. rewrite Hc in H. by apply Forall_cons in H as [? _]. }
  destruct Hok' as [Hp Hlen Hh Hmap Ha Hch Ho Hf Hs]. split; cbn; try done.
  - intros s' k' [= <- <-]. done.
  - rewrite Hperm, Hr'. apply (ok_held _ Hok).
Qed.

Lemma heap_insert_bind (l : list httpStreamPair) k p p' s :
  l !! k = Some p -> slots p' ≡ₚ s :: slots p -> (<[k := p']> l) ≫= slots ≡ₚ s :: (l ≫= slots).
Proof.
  intros Hk Hp. apply lookup_lt_Some in Hk as Hlt.
  rewrite <- (list_insert_id l k p Hk) at 2.
  rewrite (insert_take_drop l k p' Hlt), (insert_take_drop l k p Hlt).
  rewrite !bind_app, !bind_cons, Hp. cbn. by rewrite <- Permutation_middle.
Qed.

Lemma run_add_ok h s k :
  h_loop h = LoopAdd s k -> handler_ok h -> handler_ok (run_add s k h).
Proof.
  intros Hl Hok. destruct (ok_add _ Hok s k Hl) as (Hv & p & Hk & Hid).
  pose proof (ok_heap _ Hok) as Hh. rewrite Forall_lookup in Hh. specialize (Hh k p Hk) as Hpk.
  destruct (add_ok p s Hpk Hv (eq_sym Hid)) as (r & p' & Hadd & Hp' & Hid' & Hcase).
  unfold run_add. rewrite Hk, Hadd. apply lookup_lt_Some in Hk as Hlt.
  assert (forall h0 k0 q, h_heap h0 = <[k := p']> (h_heap h) -> h_monitors h0 = h_monitors h ->
    live h0 k0 q <-> exists q0, live h k0 q0 /\ q = (if decide (k = k0) then p' else q0)) as Hlive.
  { intros h0 k0 q H1 H2. unfold live. rewrite H1, H2. destruct (decide (k = k0)) as [<-|Hne].
    - rewrite list_lookup_insert_eq by done. split; [intros ([= <-] & Hm); by exists p|by intros (q0 & [_ Hm] & ->)].
    - rewrite list_lookup_insert_ne by done. split; [intros ?; by exists q|by intros (q0 & ? & ->)]. }
  assert (forall h0, h_heap h0 = <[k := p']> (h_heap h) -> h_monitors h0 = h_monitors h ->
    h_streamPairs h0 = h_streamPairs h -> forall id k0,
    h_streamPairs h0 !! id = Some k0 <-> exists q, live h0 k0 q /\ p_requestID q = id) as Hmap'.
  { intros h0 H1 H2 H3 id k0. rewrite H3, (ok_map _ Hok). setoid_rewrite (Hlive h0 k0 _ H1 H2). split.
    - intros (q & Hq & Hqid). eexists. split; [by exists q|]. case_decide as Hd; [|done].
      destruct Hq as [Hq _]. subst k0. rewrite Hk in Hq. injection Hq as <-. congruence.
    - intros (q & (q0 & Hq & ->) & Hqid). exists q0. split; [done|]. case_decide as Hd; [|done].
      destruct Hq as [Hq _]. subst k0. rewrite Hk in Hq. injection Hq as <-. congruence. }
  destruct Hok as [Hp Hlen Hh' Hmap Ha Hc Ho Hf Hs].
  assert (Forall pair_ok (<[k := p']> (h_heap h))) as Hheap by by apply Forall_insert.
  destruct Hcase as [(e & -> & ->)|(c & -> & Hsl & Hcp & Hcp')].
  - rewrite (list_insert_id _ _ _ Hk) in Hheap |- *. split; cbn; try done.
    etransitivity; [|exact Hs]. unfold held. cbn. rewrite Hl. cbn.
    apply submseteq_app; [done|]. by apply submseteq_cons.
  - assert (forall k0, (exists q, <[k := p']> (h_heap h) !! k0 = Some q /\ p_complete q = true)
      <-> (k0 = k /\ c = true) \/ k0 ∈ fw_pair <$> h_forwards h) as Hfw.
    { intros k0. rewrite Hf. destruct (decide (k0 = k)) as [->|Hne].
      - rewrite list_lookup_insert_eq by done. split.
        + intros (q & [= <-] & Hq). left. by rewrite <- Hcp'.
        + intros [[_ ->]|(q & Hq & Hqc)]; [by exists p'|]. congruence.
      - rewrite list_lookup_insert_ne by done. split; [by right|]. by intros [[? _]|?]. }
    assert (held (with_loop LoopSelect (with_heap (<[k:=p']> (h_heap h)) h)) ≡ₚ held h) as Hperm.
    { unfold held. cbn. rewrite (heap_insert_bind _ _ _ _ _ Hk Hsl), Hl. cbn. by rewrite <- Permutation_middle. }
    set (h1 := with_loop LoopSelect (with_heap (<[k:=p']> (h_heap h)) h)) in *.
    destruct c; split; try done; try (cbn; by rewrite length_insert).
    + exact (Hmap' (with_forwards (h_forwards h ++ [mkForward k None]) h1) eq_refl eq_refl eq_refl).
    + cbn. rewrite fmap_app. cbn. apply NoDup_app. split; [done|]. split; [|by apply NoDup_singleton].
      intros k0 Hk0 ->%list_elem_of_singleton. apply Hf in Hk0 as (q & Hq & Hqc). congruence.
    + intros k0. cbn. rewrite Hfw, fmap_app, elem_of_app. cbn. rewrite list_elem_of_singleton. tauto.
    + change (held h1 ⊆+ h_received h). by rewrite Hperm.
    + exact (Hmap' h1 eq_refl eq_refl eq_refl).
    + intros k0. cbn. rewrite Hfw. naive_solver.
    + change (held h1 ⊆+ h_received h). by rewrite Hperm.
Qed.

Lemma handler_step_ok conn pod uid forwarder h h' :
  handler_step conn pod uid forwarder h h' -> handler_ok h -> handler_ok h'.
Proof.
  intros H Hok. destruct H as [h s Hs Hc|h s rest Hl Hc|h s k Hl|h k msg p Hl Hk|h Hl|h h' Hm|h i k p d e r Hi].
  - destruct Hok as [Hp Hlen Hh Hmap Ha Hch Ho Hf Hd]. split; cbn; try done.
    + by repeat constructor.
    + unfold held in *. cbn. rewrite Hc, app_nil_r in Hd.
      rewrite (app_assoc (h_heap h ≫= slots)). by apply submseteq_app.
  - by apply run_receive_ok.
  - by apply run_add_ok.
  - apply (with_write_ok (printError p msg)) in Hok.
    destruct Hok as [Hp Hlen Hh Hmap Ha Hch Ho Hf Hd]. split; cbn; try done.
    unfold held in *. cbn in *. by rewrite Hl in Hd.
  - destruct Hok as [Hp Hlen Hh Hmap Ha Hch Ho Hf Hd]. split; cbn; try done.
    unfold held in *. cbn in *. by rewrite Hl in Hd.
  - by eapply monitor_step_ok.
  - match goal with |- handler_ok (with_forwards _ (with_write ?w _)) => apply (with_write_ok w) in Hok end.
    destruct Hok as [Hp Hlen Hh Hmap Ha Hch Ho Hf Hd].
    assert (fw_pair <$> <[i:=mkForward k (Some r)]> (h_forwards h) = fw_pair <$> h_forwards h) as E.
    { rewrite list_fmap_insert. apply list_insert_id. cbn. rewrite list_lookup_fmap, Hi. done. }
    split; cbn; try done; by rewrite E.
Qed.

Lemma handler_reachable_ok conn pod uid forwarder h :
  rtc (handler_step conn pod uid forwarder) new_handler h -> handler_ok h.
Proof.
  intros Hr. remember new_handler as h0 eqn:E. assert (handler_ok h0) as Hok by (subst; apply handler_ok_init).
  clear E. induction Hr as [|h1 h2 h3 Hstep _ IH]; [done|]. apply IH. by eapply handler_step_ok.
Qed.

(** A number that fits in fewer bits reads the same in more. *)
Lemma parse_uint_loop_mono (max max' : N) s n m :
  (max <= max')%N -> (n <= max)%N -> parse_uint_loop max s n = Ok m -> parse_uint_loop max' s n = Ok m /\ (m <= max)%N.
Proof.
  intros Hm. revert n. induction s as [|c s IH]; intros n Hn; cbn [parse_uint_loop].
  - by intros [= <-].
  - destruct (is_digit c); [|done]. destruct (N.ltb_spec max (n * 10 + digit_val c)) as [|Hle]; [done|].
    rewrite (proj2 (N.ltb_ge max' (n * 10 + digit_val c))) by lia. by apply IH.
Qed.

(** The port of an accepted stream is a port, and the one forwarded to. *)
Lemma received_port s :
  httpStreamReceived s = None ->
  exists port, parse_uint 16 (st_port s) = Ok port /\ (1 <= port <= 65535)%N
    /\ forward_port (st_port s) = Z.of_N port.
Proof.
  unfold httpStreamReceived. case_decide as Hne; [done|].
  destruct (parse_uint 16 (st_port s)) as [port|e] eqn:E; [|done].
  destruct (N.ltb_spec port 1) as [|Hlo]; [done|]. intros _. exists port. split; [done|].
  pose proof (parse_uint_ok _ _ _ E) as Hd. unfold forward_port.
  rewrite parse_int_digits by done. unfold parse_uint in *. destruct (st_port s) as [|c t]; [done|].
  apply (parse_uint_loop_mono _ (2 ^ 32 - 1)) in E as [-> Hhi]; [|lia|lia].
  assert (port <= 65535)%N by lia. split; [lia|].
  destruct (Z.leb_spec (2 ^ (Z.of_N 32 - 1)) (Z.of_N port)) as [Hc|]; [|done].
  change (2 ^ (Z.of_N 32 - 1))%Z with 2147483648%Z in Hc. lia.
Qed.

(** C28: the pairing of streams.  Whatever the order of the goroutines, no
    channel is closed twice; the table has exactly the pairs whose monitor
    still runs, one for each request; a pair is forwarded at most once, and
    only when it has a data and an error stream of one request, both received,
    to the port of its data stream, which is a port; and no stream is in two
    pairs when the streams received are distinct. *)
Theorem port_forward_pairs conn pod uid forwarder h :
  rtc (handler_step conn pod uid forwarder) new_handler h ->
  h_panicked h = false
  /\ (forall id k, h_streamPairs h !! id = Some k <-> exists p, live h k p /\ p_requestID p = id)
  /\ NoDup (fw_pair <$> h_forwards h)
  /\ (forall f, f ∈ h_forwards h -> exists p d e port,
        h_heap h !! fw_pair f = Some p /\ p_dataStream p = Some d /\ p_errorStream p = Some e
        /\ st_type d = StreamTypeData /\ st_type e = StreamTypeError /\ requestID d = requestID e
        /\ d ∈ h_received h /\ e ∈ h_received h
        /\ parse_uint 16 (st_port d) = Ok port /\ (1 <= port <= 65535)%N
        /\ forward_port (st_port d) = Z.of_N port)
  /\ (NoDup (h_received h) -> NoDup (h_heap h ≫= slots)).
Proof.
  intros Hr. apply handler_reachable_ok in Hr as Hok. destruct Hok as [Hp Hlen Hh Hmap Ha Hc Ho Hf Hd].
  assert (h_heap h ≫= slots ⊆+ h_received h) as Hsub.
  { etransitivity; [|exact Hd]. apply submseteq_inserts_r. done. }
  do 3 (split; [done|]). split.
  2:{ intros Hn. apply submseteq_Permutation in Hsub as [l Hl]. rewrite Hl in Hn. by apply NoDup_app in Hn as [? _]. }
  intros f Hin. destruct (proj1 (Hf (fw_pair f))) as (p & Hk & Hcp).
  { by apply list_elem_of_fmap_2. }
  rewrite Forall_lookup in Hh. pose proof (Hh _ _ Hk) as Hpk.
  rewrite (po_complete _ Hpk) in Hcp. unfold both in Hcp.
  destruct (p_errorStream p) as [e|] eqn:Ee; [|done]. destruct (p_dataStream p) as [d|] eqn:Ed; [|done].
  destruct (po_data _ Hpk d Ed) as (Hrd & Htd & Hid), (po_error _ Hpk e Ee) as (Hre & Hte & Hie).
  destruct (received_port d Hrd) as (port & Hport). exists p, d, e, port.
  assert (forall s, s ∈ slots p -> s ∈ h_received h) as Hin'.
  { intros s Hs. eapply elem_of_submseteq; [|exact Hsub]. apply list_elem_of_bind. exists p.
    split; [done|]. by eapply list_elem_of_lookup_2. }
  unfold slots in Hin'. rewrite Ed, Ee in Hin'. cbn in Hin'.
  split_and!; try done; try (apply Hin'; set_solver); try apply Hport. congruence.
Qed.

(** *** The monitors end *)

Definition monitor_left (m : monitor_pc) : nat :=
  match m with MonWait => 3 | MonPrint => 2 | MonRemove => 1 | MonDone => 0 end.

Definition monitors_left (h : httpStreamHandler) : nat := sum_list_with monitor_left (h_monitors h).

Lemma sum_list_insert (l : list monitor_pc) k m m' :
  l !! k = Some m ->
  (sum_list_with monitor_left (<[k := m']> l) + monitor_left m
   = sum_list_with monitor_left l + monitor_left m')%nat.
Proof.
  revert k. induction l as [|x l IH]; intros [|k] H; cbn in *; simplify_eq; [lia|].
  specialize (IH k H). unfold insert in *. lia.
Qed.

Lemma monitor_step_left conn h h' :
  monitor_step conn h h' -> (monitors_left h' < monitors_left h)%nat /\ length (h_monitors h') = length (h_monitors h).
Proof.
  unfold monitors_left. intros H; destruct H as [h k Hm|h k p Hm _|h k p Hm _ _|h k p Hm _]; cbn;
    (split; [|by rewrite length_insert]);
    match goal with |- (sum_list_with _ (<[?k := ?m']> ?l) < _)%nat =>
      pose proof (sum_list_insert l k _ m' Hm) as E; cbn [monitor_left] in E; lia end.
Qed.

Lemma monitors_left_le h : (monitors_left h <= 3 * length (h_monitors h))%nat.
Proof.
  unfold monitors_left. induction (h_monitors h) as [|m l IH]; cbn; [done|]. destruct m; cbn; lia.
Qed.

(** C29: no pair stays in the table for ever.  The monitors of all pairs take
    at most three steps each, whatever their order and whether their pairs are
    complete, and when none of them can take a step the table is empty. *)
Theorem port_forward_monitors_end conn pod uid forwarder h :
  rtc (handler_step conn pod uid forwarder) new_handler h ->
  (forall n h', nsteps (monitor_step conn) n h h' -> (n <= 3 * length (h_heap h))%nat)
  /\ (forall h', rtc (monitor_step conn) h h' -> (forall h'', ~ monitor_step conn h' h'') ->
        h_streamPairs h' = ∅).
Proof.
  intros Hr. apply handler_reachable_ok in Hr as Hok. split.
  - intros n h' Hn. rewrite <- (ok_len _ Hok).
    assert (n + monitors_left h' <= monitors_left h)%nat as Hle.
    { clear Hr Hok. induction Hn as [|n h1 h2 h3 H1 _ IH]; [lia|]. apply monitor_step_left in H1 as [? _]. lia. }
    pose proof (monitors_left_le h). lia.
  - intros h' Hr' Hstuck.
    assert (handler_ok h') as Hok'.
    { clear Hr Hstuck. induction Hr' as [|h1 h2 h3 H1 _ IH]; [done|]. apply IH. by eapply monitor_step_ok. }
    apply map_empty. intros id. destruct (h_streamPairs h' !! id) as [k|] eqn:E; [|done].
    apply (ok_map _ Hok') in E as (p & (Hk & m & Hm & Hd) & _). exfalso. destruct m; [..|done].
    + eapply Hstuck. by eapply monitor_times_out.
    + eapply Hstuck. by eapply monitor_prints.
    + eapply Hstuck. by eapply monitor_removes.
Qed.

(** *** Two streams of an older client *)

Definition old_error : stream := mkStream 1 "error" "8080" "".
Definition old_data : stream := mkStream 3 "data" "8080" "".

(** The pair of the two times out on its monitor, and is forwarded all the
    same: the monitor chose the timer before the data stream was added. *)
Definition old_handler : httpStreamHandler := {|
  h_heap := [mkPair "1" (Some old_data) (Some old_error) true];
  h_monitors := [MonRemove];
  h_streamPairs := {[ "1" := 0%nat ]};
  h_streamChan := [];
  h_loop := LoopSelect;
  h_forwards := [mkForward 0 None];
  h_writes := [(old_error, timeout_message "c" (mkPair "1" (Some old_data) (Some old_error) true))];
  h_received := [old_error; old_data];
  h_panicked := false;
|}.

Lemma old_handler_reachable :
  rtc (handler_step "c" "pod" "uid" (fun _ _ _ _ _ => True)) new_handler old_handler.
Proof.
  eapply rtc_l; [by apply (stream_sent _ _ _ _ _ old_error)|].
  eapply rtc_l; [by eapply stream_taken|].
  eapply rtc_l; [by apply (stream_added _ _ _ _ _ old_error 0)|].
  eapply rtc_l; [by apply (stream_sent _ _ _ _ _ old_data)|].
  eapply rtc_l; [apply monitor_moves; by apply (monitor_times_out _ _ 0)|].
  eapply rtc_l; [by eapply stream_taken|].
  eapply rtc_l; [by apply (stream_added _ _ _ _ _ old_data 0)|].
  eapply rtc_l; [apply monitor_moves; by eapply (monitor_prints _ _ 0)|].
  reflexivity.
Qed.

Lemma port_forward_pairs_witness :
  NoDup (h_heap old_handler ≫= slots)
  /\ exists d, d ∈ h_received old_handler /\ forward_port (st_port d) = 8080%Z.
Proof.
  destruct (port_forward_pairs "c" "pod" "uid" (fun _ _ _ _ _ => True) old_handler old_handler_reachable)
    as (_ & _ & _ & Hf & Hn). split.
  - apply Hn. apply NoDup_cons. split; [|apply NoDup_singleton]. by intros [=]%list_elem_of_singleton.
  - destruct (Hf (mkForward 0 None)) as (p & d & e & port & Hk & Hd & _ & _ & _ & _ & Hin & _ & Hp & _ & Hport); [by left|].
    exists d. split; [exact Hin|]. cbn in Hk. injection Hk as <-. cbn in Hd. injection Hd as <-. reflexivity.
Defined.

Lemma port_forward_monitors_end_witness :
  exists h', rtc (monitor_step "c") old_handler h' /\ h_streamPairs h' = ∅.
Proof.
  exists (set_monitor 0 MonDone (removeStreamPair "1" old_handler)). split.
  - apply rtc_once. exact (monitor_removes "c" old_handler 0 (mkPair "1" (Some old_data) (Some old_error) true) eq_refl eq_refl).
  - apply (port_forward_monitors_end "c" "pod" "uid" (fun _ _ _ _ _ => True) old_handler old_handler_reachable).
    + apply rtc_once. exact (monitor_removes "c" old_handler 0 (mkPair "1" (Some old_data) (Some old_error) true) eq_refl eq_refl).
    + intros h'' H. inversion H as [? [|] Hm|? [|] ? Hm|? [|] ? Hm|? [|] ? Hm]; subst; discriminate Hm.
Defined.

(** *** Websockets *)

Lemma parse_ports_range portString ps acc ports :
  parse_ports portString ps acc = Ok ports -> Forall (fun p => 1 <= p <= 65535)%Z acc ->
  Forall (fun p => 1 <= p <= 65535)%Z ports.
Proof.
  revert acc. induction ps as [|p ps IH]; intros acc; cbn [parse_ports]; [by intros [= ->]|].
  destruct (parse_uint 16 p) as [port|] eqn:E; [|done]. destruct (N.ltb_spec port 1) as [|Hlo]; [done|].
  intros H Hacc. eapply IH; [exact H|]. apply Forall_app. split; [done|]. constructor; [|done].
  unfold parse_uint in E. destruct p; [done|].
  apply (parse_uint_loop_mono _ (2 ^ 16 - 1)) in E as [_ Hhi]; [|lia|lia].
  unfold int32. rewrite wrap_s_id by lia. lia.
Qed.

(** The ports of a websocket request are ports. *)
Lemma websocket_ports ports portStrings :
  NewV4Options true portStrings = Ok ports -> Forall (fun p => 1 <= p <= 65535)%Z ports.
Proof.
  unfold NewV4Options. case_decide; [done|].
  assert (forall acc, Forall (fun p => 1 <= p <= 65535)%Z acc ->
    parse_port_strings portStrings acc = Ok ports -> Forall (fun p => 1 <= p <= 65535)%Z ports) as H1.
  { clear. induction portStrings as [|p ps IH]; intros acc Hacc; cbn [parse_port_strings]; [by intros [= <-]|].
    case_decide; [done|]. destruct (parse_ports p (split p ",") acc) as [acc'|] eqn:E; [|done].
    apply IH. by eapply parse_ports_range. }
  by apply H1.
Qed.

(** A port in range is read back from its two bytes. *)
Lemma portBytes_value port :
  (0 <= port < 65536)%Z -> exists lo hi, portBytes port = [lo; hi] /\ (lo + 256 * hi = port)%Z.
Proof.
  intros H. eexists _, _. split; [done|]. unfold wrap_u. rewrite Z.mod_small by lia.
  change 255%Z with (Z.ones 8). rewrite Z.land_ones, Z.shiftr_div_pow2 by lia.
  pose proof (Z.div_mod port (2 ^ 8) ltac:(lia)). lia.
Qed.

(** A port that is not is cut off. *)
Example portBytes_wraps : portBytes 65616 = portBytes 80.
Proof. reflexivity. Qed.

Example old_client_pairs : requestID old_error = requestID old_data.
Proof. reflexivity. Qed.
