(* ===== verification/RemoteCommand.v ===== *)
(** * RemoteCommand: the streams of an exec or attach session

    streaming/remotecommand: a client opens the streams of a session one by
    one, and [waitForStreams] of the protocol's handler waits until the replies
    to as many as expected were sent, or the time is up (httpstream.go); the
    goroutines it starts, one for each stream, and the connection's callbacks
    are interleaved steps.  Then the command runs and its status is written to
    the error stream (exec.go).  The connection, JSON and the executor are
    parameters.  (The streaming server uses the package of the kubelet that
    this one was copied to.) *)
From stdpp Require Import relations.
From S2P Require Import Prelude GoErrors Cri Naming Labels Cache Store Checkpoint Libdocker PluginManager Service Exec.

(** ** Data *)

(** [Options]: the streams a session needs. *)
Record Options := mkOptions {
  o_Stdin : bool;
  o_Stdout : bool;
  o_Stderr : bool;
  o_TTY : bool;
}.

(** A stream of the connection with its type header. *)
Record rc_stream := mkRcStream { rs_id : N; rs_type : string }.

Definition StreamTypeStdin : string := "stdin".
Definition StreamTypeStdout : string := "stdout".
Definition StreamTypeStderr : string := "stderr".
Definition StreamTypeError : string := "error".
Definition StreamTypeResize : string := "resize".

(** [v1WriteStatusFunc] and [v4WriteStatusFunc]. *)
Inductive status_writer := v1WriteStatusFunc | v4WriteStatusFunc.

(** [context]; the fields are nil until their stream comes. *)
Record rc_context := mkContext {
  stdinStream : option rc_stream;
  stdoutStream : option rc_stream;
  stderrStream : option rc_stream;
  writeStatus : option (status_writer * rc_stream);
  resizeStream : option rc_stream;
  rc_tty : bool;
}.

Definition empty_context : rc_context := mkContext None None None None None false.

Inductive protocolHandler := v1ProtocolHandler | v2ProtocolHandler | v3ProtocolHandler | v4ProtocolHandler.

(** The handler of the negotiated protocol; no handler for another one. *)
Definition protocol_handler (protocol : string) : option protocolHandler :=
  if decide (protocol = "v4.channel.k8s.io") then Some v4ProtocolHandler
  else if decide (protocol = "v3.channel.k8s.io") then Some v3ProtocolHandler
  else if decide (protocol = "v2.channel.k8s.io") then Some v2ProtocolHandler
  else if decide (protocol = "" \/ protocol = "channel.k8s.io") then Some v1ProtocolHandler
  else None.

Definition supportsTerminalResizing (h : protocolHandler) : bool :=
  match h with v4ProtocolHandler | v3ProtocolHandler => true | v2ProtocolHandler | v1ProtocolHandler => false end.

Definition writer_of (h : protocolHandler) : status_writer :=
  match h with v4ProtocolHandler => v4WriteStatusFunc | _ => v1WriteStatusFunc end.

(** The streams the client is expected to open. *)
Definition expectedStreams (opts : Options) (h : protocolHandler) : nat :=
  let count (b : bool) (n : nat) := if b then S n else n in
  count (o_TTY opts && supportsTerminalResizing h)
    (count (o_Stderr opts) (count (o_Stdout opts) (count (o_Stdin opts) 1))).

(** ** Waiting for the streams *)

(** The cases of the switch on the type of a stream; nothing for an unexpected
    type. *)
Definition receive_stream (h : protocolHandler) (ctx : rc_context) (s : rc_stream) : option rc_context :=
  let '(mkContext i o e w z t) := ctx in
  if decide (rs_type s = StreamTypeError) then Some (mkContext i o e (Some (writer_of h, s)) z t)
  else if decide (rs_type s = StreamTypeStdin) then Some (mkContext (Some s) o e w z t)
  else if decide (rs_type s = StreamTypeStdout) then Some (mkContext i (Some s) e w z t)
  else if decide (rs_type s = StreamTypeStderr) then Some (mkContext i o (Some s) w z t)
  else if decide (rs_type s = StreamTypeResize) then
    if supportsTerminalResizing h then Some (mkContext i o e w (Some s) t) else None
  else None.

(** [waitStreamReply]: at its select, about to notify, received, stopped. *)
Inductive waiter_pc := WaitReply | Notifying | Counted | Stopped.
(** The loop of [waitForStreams]. *)
Inductive wait_loop := Receiving | Complete | TimedOut.

(** [ws_pending]: the callbacks of the connection that are sending a stream;
    [ws_taken]: the streams received so far that were of a known type. *)
Record wait_state := mkWait {
  ws_ctx : rc_context;
  ws_received : nat;
  ws_waiters : list waiter_pc;
  ws_pending : list rc_stream;
  ws_taken : list rc_stream;
  ws_loop : wait_loop;
}.

Definition wait_start : wait_state := mkWait empty_context 0 [] [] [] Receiving.

(** [case stream := <-streams]. *)
Definition take_stream (h : protocolHandler) (s : rc_stream) (pending : list rc_stream) (w : wait_state) : wait_state :=
  match receive_stream h (ws_ctx w) s with
  | Some ctx =>
      mkWait ctx (ws_received w) (ws_waiters w ++ [WaitReply]) pending (ws_taken w ++ [s]) (ws_loop w)
  | None => mkWait (ws_ctx w) (ws_received w) (ws_waiters w) pending (ws_taken w) (ws_loop w)
  end.

Definition set_waiter (i : nat) (pc : waiter_pc) (w : wait_state) : wait_state :=
  mkWait (ws_ctx w) (ws_received w) (<[i := pc]> (ws_waiters w)) (ws_pending w) (ws_taken w) (ws_loop w).

(** [case <-replyChan]. *)
Definition count_reply (expected : nat) (w : wait_state) : wait_state :=
  let received := S (ws_received w) in
  mkWait (ws_ctx w) received (ws_waiters w) (ws_pending w) (ws_taken w)
    (if decide (received = expected) then Complete else ws_loop w).

Definition end_loop (l : wait_loop) (w : wait_state) : wait_state :=
  mkWait (ws_ctx w) (ws_received w) (ws_waiters w) (ws_pending w) (ws_taken w) l.

Inductive wait_step (h : protocolHandler) (expected : nat) : wait_state -> wait_state -> Prop :=
(** The client opens a stream; its callback blocks until it is received. *)
| stream_opened w s :
    wait_step h expected w (mkWait (ws_ctx w) (ws_received w) (ws_waiters w) (ws_pending w ++ [s]) (ws_taken w) (ws_loop w))
| stream_received w s l1 l2 :
    ws_loop w = Receiving -> ws_pending w = l1 ++ s :: l2 ->
    wait_step h expected w (take_stream h s (l1 ++ l2) w)
| reply_sent w i : ws_waiters w !! i = Some WaitReply -> wait_step h expected w (set_waiter i Notifying w)
| reply_received w i :
    ws_loop w = Receiving -> ws_waiters w !! i = Some Notifying ->
    wait_step h expected w (count_reply expected (set_waiter i Counted w))
| time_out w : ws_loop w = Receiving -> wait_step h expected w (end_loop TimedOut w)
(** [stop] is closed when [waitForStreams] returns. *)
| waiter_stops w i :
    ws_loop w <> Receiving -> ws_waiters w !! i = Some WaitReply -> wait_step h expected w (set_waiter i Stopped w).

(** What [waitForStreams] returns once its loop has ended, with the streams
    that are reset and closed on the way out by the first protocol. *)
Definition wait_result (h : protocolHandler) (w : wait_state) : option (res rc_context * list rc_stream) :=
  let resets := match h with
    | v1ProtocolHandler => base.filter (fun s => rs_type s = StreamTypeError) (ws_taken w)
    | _ => []
    end in
  match ws_loop w with
  | Receiving => None
  | TimedOut => Some (Err (Errorf "timed out waiting for client to create streams"), resets)
  | Complete =>
      Some (Ok (ws_ctx w),
            match h with v1ProtocolHandler => option_list (stdinStream (ws_ctx w)) | _ => [] end ++ resets)
  end.

(** [createHTTPStreamStreams]: the context of the session, or that there is
    none (the error was answered or logged). *)
Definition createHTTPStreamStreams (opts : Options) (handshake : res string) (upgraded : bool)
  (wait : protocolHandler -> nat -> res rc_context) : res (option rc_context) :=
  match handshake with
  | Err _ => Ok None
  | Ok protocol =>
      if upgraded then
        match protocol_handler protocol with
        | None => Err nil_dereference_panic
        | Some h =>
            match wait h (expectedStreams opts h) with
            | Err _ => Ok None
            | Ok ctx =>
                Ok (Some (mkContext (stdinStream ctx) (stdoutStream ctx) (stderrStream ctx) (writeStatus ctx)
                            (resizeStream ctx) (o_TTY opts)))
            end
        end
      else Ok None
  end.

(** ** Websockets *)

Definition stdinChannel : N := 0.
Definition stdoutChannel : N := 1.
Definition stderrChannel : N := 2.
Definition errorChannel : N := 3.
Definition resizeChannel : N := 4.

Inductive ws_channel := ReadChannel | WriteChannel | IgnoreChannel.
Definition readChannel (real : bool) : ws_channel := if real then ReadChannel else IgnoreChannel.
Definition writeChannel (real : bool) : ws_channel := if real then WriteChannel else IgnoreChannel.

Definition createChannels (opts : Options) : list ws_channel :=
  [readChannel (o_Stdin opts); writeChannel (o_Stdout opts); writeChannel (o_Stderr opts); WriteChannel; ReadChannel].

(** The context of a websocket session and the channel on which the empty
    message announces it. *)
Definition createWebSocketStreams (opts : Options) (opened : res string) : option (rc_context * N) :=
  match opened with
  | Err _ => None
  | Ok negotiatedProtocol =>
      let v4 := decide (negotiatedProtocol = "v4.channel.k8s.io" \/ negotiatedProtocol = "v4.base64.channel.k8s.io") in
      Some (mkContext (Some (mkRcStream stdinChannel StreamTypeStdin))
              (Some (mkRcStream stdoutChannel StreamTypeStdout))
              (Some (mkRcStream stderrChannel StreamTypeStderr))
              (Some (if v4 then v4WriteStatusFunc else v1WriteStatusFunc, mkRcStream errorChannel StreamTypeError))
              (Some (mkRcStream resizeChannel StreamTypeResize)) (o_TTY opts),
            if o_Stdout opts then stdoutChannel else if o_Stderr opts then stderrChannel else errorChannel)
  end.

(** [createStreams]: a session by websocket or by streams of a connection. *)
Definition createStreams (isWebSocketRequest : bool) (opts : Options) (opened handshake : res string)
  (upgraded : bool) (wait : protocolHandler -> nat -> res rc_context) : res (option rc_context) :=
  if isWebSocketRequest then Ok (fst <$> createWebSocketStreams opts opened)
  else createHTTPStreamStreams opts handshake upgraded wait.

(** [handleResizeEvents]: the sizes sent on the channel, up to the first value
    that does not decode. *)
Fixpoint handleResizeEvents (decoded : list (option (Z * Z))) : list (Z * Z) :=
  match decoded with
  | Some size :: decoded' => size :: handleResizeEvents decoded'
  | _ => []
  end.

(** ** The status of a command *)

(** [metav1.Status], the fields that are set, and a cause of it. *)
Record StatusCause := mkStatusCause { sc_Type : string; sc_Message : string }.
Record Status := mkStatus {
  s_Status : string;
  s_Reason : string;
  s_Code : Z;
  s_Causes : list StatusCause;
  s_Message : string;
}.

(** [encoding/json] on statuses. *)
Class StatusJSON := {
  status_Marshal : Status -> res string;
  status_Unmarshal : string -> option Status;
}.

Definition StatusSuccess : string := "Success".
Definition StatusFailure : string := "Failure".
Definition NonZeroExitCodeReason : string := "NonZeroExitCode".
Definition ExitCodeCauseType : string := "ExitCode".

(** [apierrors.NewInternalError]. *)
Definition NewInternalError (err : error) : Status :=
  mkStatus StatusFailure "InternalError" 500 [mkStatusCause "" (Error err)]
    ("Internal error occurred: " +:+ Error err).

(** [Error()] of a [dockerExitError] (core/exec.go). *)
Definition exit_error_text (i : ExecInspect) : string :=
  "Error executing in Docker Container: " +:+ itoa (ei_ExitCode i).

Definition exec_failure (err : string) : Status :=
  NewInternalError (Errorf ("error executing command in container: " +:+ err)).

(** The status of what the executor returned. *)
Definition exec_status (r : exec_result) : Status :=
  match r with
  | ExecOK => mkStatus StatusSuccess "" 0 [] ""
  | dockerExitError i =>
      if Exited i then
        mkStatus StatusFailure NonZeroExitCodeReason 0
          [mkStatusCause ExitCodeCauseType (itoa (ExitStatus i))]
          ("command terminated with non-zero exit code: " +:+ exit_error_text i)
      else exec_failure (exit_error_text i)
  | ExecError err => exec_failure (Error err)
  end.

(** What a writer puts on its stream; the text of a status error is its
    message. *)
Definition write_status `{StatusJSON} (w : status_writer) (status : Status) : res (list string) :=
  match w with
  | v1WriteStatusFunc =>
      if decide (s_Status status = StatusSuccess) then Ok [] else Ok [s_Message status]
  | v4WriteStatusFunc =>
      match status_Marshal status with
      | Err err => Err err
      | Ok bs => Ok [bs]
      end
  end.

(** The end of [ServeExec], once the executor has returned: what is written to
    the error stream (an error of [writeStatus] is dropped), or the panic of a
    nil [writeStatus]. *)
Definition ServeExec `{StatusJSON} (ctx : rc_context) (r : exec_result) : res (list (rc_stream * string)) :=
  match writeStatus ctx with
  | None => Err nil_dereference_panic
  | Some (w, s) =>
      Ok (match write_status w (exec_status r) with
          | Ok texts => (fun text => (s, text)) <$> texts
          | Err _ => []
          end)
  end.

(** [watchErrorStream]: what the reader of an error stream is told. *)
Definition watchErrorStream (read : string * option error) (decode : string -> option error) : option error :=
  let '(message, err) := read in
  let decoded := if decide (message <> "") then decode message else None in
  match err with
  | Some e =>
      if is_sentinel EOF e then decoded else Some (Errorf ("error reading from error stream: " +:+ Error e))
  | None => decoded
  end.

(** ** Theory *)

(** The stream a context has of a type. *)
Definition slot (t : string) (ctx : rc_context) : option rc_stream :=
  if decide (t = StreamTypeError) then snd <$> writeStatus ctx
  else if decide (t = StreamTypeStdin) then stdinStream ctx
  else if decide (t = StreamTypeStdout) then stdoutStream ctx
  else if decide (t = StreamTypeStderr) then stderrStream ctx
  else if decide (t = StreamTypeResize) then resizeStream ctx
  else None.

(** The types of the streams a client is expected to open. *)
Definition expected_types (opts : Options) (h : protocolHandler) : list string :=
  StreamTypeError :: (if o_Stdin opts then [StreamTypeStdin] else [])
  ++ (if o_Stdout opts then [StreamTypeStdout] else [])
  ++ (if o_Stderr opts then [StreamTypeStderr] else [])
  ++ (if o_TTY opts && supportsTerminalResizing h then [StreamTypeResize] else []).

Lemma expected_types_length opts h : length (expected_types opts h) = expectedStreams opts h.
Proof. by destruct opts as [[] [] [] []], h. Qed.

Lemma receive_stream_slot h ctx s ctx' t :
  receive_stream h ctx s = Some ctx' ->
  slot t ctx' = (if decide (t = rs_type s) then Some s else slot t ctx)
  /\ (forall w, writeStatus ctx' = Some w -> writeStatus ctx = Some w \/ w = (writer_of h, s)).
Proof.
  destruct ctx as [i o e w z tt]. unfold receive_stream, slot. intros H.
  destruct (decide (t = rs_type s)) as [->|Hne].
  - repeat case_decide; simplify_eq; cbn; try done; try (split; [done|]; intros; simplify_eq; tauto).
    destruct (supportsTerminalResizing h); simplify_eq. split; [done|]. tauto.
  - repeat case_decide; simplify_eq; cbn; try congruence; try (split; [done|]; intros; simplify_eq; tauto).
    all: try (destruct (supportsTerminalResizing h); simplify_eq; cbn; try congruence; split; [done|]; tauto).
Qed.

Definition is_counted (pc : waiter_pc) : bool := match pc with Counted => true | _ => false end.
Definition counted (l : list waiter_pc) : nat := length (base.filter (fun pc => is_counted pc = true) l).
#[local] Arguments counted : simpl never.

Record wait_ok (h : protocolHandler) (expected : nat) (w : wait_state) : Prop := mkWaitOk {
  wo_len : length (ws_waiters w) = length (ws_taken w);
  wo_received : ws_received w = counted (ws_waiters w);
  wo_slots : forall t s, slot t (ws_ctx w) = Some s -> s ∈ ws_taken w /\ rs_type s = t;
  wo_taken : forall s, s ∈ ws_taken w -> is_Some (slot (rs_type s) (ws_ctx w));
  wo_writer : forall wr s, writeStatus (ws_ctx w) = Some (wr, s) -> wr = writer_of h;
  wo_complete : ws_loop w = Complete -> ws_received w = expected;
}.

Lemma counted_app l1 l2 : counted (l1 ++ l2) = (counted l1 + counted l2)%nat.
Proof. unfold counted. by rewrite filter_app, length_app. Qed.

Lemma counted_insert l i pc pc' :
  l !! i = Some pc ->
  (counted (<[i := pc']> l) + Nat.b2n (is_counted pc) = counted l + Nat.b2n (is_counted pc'))%nat.
Proof.
  intros H. apply lookup_lt_Some in H as Hlt. rewrite <- (list_insert_id l i pc H) at 2.
  rewrite (insert_take_drop l i pc' Hlt), (insert_take_drop l i pc Hlt).
  rewrite !(counted_app _ (_ :: _)). change (?x :: ?l) with ([x] ++ l). rewrite !counted_app.
  assert (forall p, counted [p] = Nat.b2n (is_counted p)) as E by by intros [].
  rewrite !E. lia.
Qed.

Lemma counted_le l : (counted l <= length l)%nat.
Proof. apply length_filter. Qed.

Lemma wait_ok_start h n : wait_ok h n wait_start.
Proof.
  split; cbn; try done.
  - intros t s H. unfold slot in H. by repeat case_decide.
  - intros s H. by apply elem_of_nil in H.
Qed.

Lemma set_waiter_ok h n w i pc pc' :
  ws_waiters w !! i = Some pc -> is_counted pc = is_counted pc' -> wait_ok h n w -> wait_ok h n (set_waiter i pc' w).
Proof.
  intros Hi Hc [Hl Hr Hs Ht Hw Hd]. split; cbn; try done.
  - by rewrite length_insert.
  - pose proof (counted_insert _ _ _ pc' Hi) as E. rewrite Hc in E. lia.
Qed.

Lemma wait_ok_step h n w w' : wait_step h n w w' -> wait_ok h n w -> wait_ok h n w'.
Proof.
  intros H Hok. destruct H as [w s|w s l1 l2 Hl Hp|w i Hi|w i Hl Hi|w Hl|w i Hl Hi].
  - by destruct Hok.
  - unfold take_stream. destruct (receive_stream h (ws_ctx w) s) as [ctx|] eqn:E; [|by destruct Hok].
    destruct Hok as [Hlen Hr Hs Ht Hw Hd].
    assert (forall t, slot t ctx = (if decide (t = rs_type s) then Some s else slot t (ws_ctx w))) as Hslot.
    { intros t. by apply (receive_stream_slot h (ws_ctx w) s ctx t). }
    split; cbn.
    + rewrite !length_app. cbn. lia.
    + rewrite counted_app, Hr. change (counted [WaitReply]) with 0%nat. lia.
    + intros t s'. rewrite Hslot. case_decide as Hd'; [intros [= <-]; set_solver|].
      intros Hs'. destruct (Hs t s' Hs'). set_solver.
    + intros s' Hin. rewrite Hslot. case_decide; [done|]. apply Ht. set_solver.
    + intros wr s' Hws. apply (receive_stream_slot h (ws_ctx w) s ctx StreamTypeError E) in Hws as [Hws|[= -> _]]; eauto.
    + by rewrite Hl.
  - by eapply set_waiter_ok.
  - destruct Hok as [Hlen Hr Hs Ht Hw Hd]. split; cbn; try done.
    + by rewrite length_insert.
    + pose proof (counted_insert _ _ _ Counted Hi) as E. cbn [is_counted Nat.b2n] in E. lia.
    + case_decide; [done|]. by rewrite Hl.
  - by destruct Hok.
  - by eapply set_waiter_ok.
Qed.

Lemma wait_reachable_ok h n w : rtc (wait_step h n) wait_start w -> wait_ok h n w.
Proof.
  intros Hr. remember wait_start as w0 eqn:E. assert (wait_ok h n w0) as Hok by (subst; apply wait_ok_start).
  clear E. induction Hr as [|w1 w2 w3 Hstep _ IH]; [done|]. apply IH. by eapply wait_ok_step.
Qed.

(** A session that is complete with one stream of each type has each expected
    one, and no other. *)
Lemma complete_slots opts h w :
  rtc (wait_step h (expectedStreams opts h)) wait_start w -> ws_loop w = Complete ->
  NoDup (rs_type <$> ws_taken w) -> (forall s, s ∈ ws_taken w -> rs_type s ∈ expected_types opts h) ->
  forall t, match slot t (ws_ctx w) with
            | Some s => t ∈ expected_types opts h /\ s ∈ ws_taken w /\ rs_type s = t
            | None => t ∉ expected_types opts h
            end.
Proof.
  intros Hr Hc Hn Hexp t. apply wait_reachable_ok in Hr as [Hlen Hrec Hs Ht Hw Hd].
  destruct (slot t (ws_ctx w)) as [s|] eqn:E.
  { destruct (Hs t s E) as [Hin <-]. split; [by apply Hexp|done]. }
  intros Hte. specialize (Hd Hc). rewrite Hrec, <- expected_types_length in Hd.
  assert (rs_type <$> ws_taken w ≡ₚ expected_types opts h) as Hperm.
  { apply submseteq_length_Permutation.
    - apply NoDup_submseteq; [done|]. intros x (s & -> & Hin)%list_elem_of_fmap. by apply Hexp.
    - rewrite length_fmap, <- Hlen, <- Hd. apply counted_le. }
  rewrite <- Hperm in Hte. apply list_elem_of_fmap in Hte as (s & -> & Hin).
  apply Ht in Hin. rewrite E in Hin. by destruct Hin.
Qed.

(** The exit code a client reads from a status. *)
Definition exit_code (st : Status) : option Z :=
  match base.filter (fun c => sc_Type c = ExitCodeCauseType) (s_Causes st) with
  | c :: _ => match parse_int64 (sc_Message c) with Ok code => Some code | Err _ => None end
  | [] => None
  end.

(** C30: a session over the connection's streams.  When [waitForStreams] is
    satisfied and the client has opened each expected stream once, whatever the
    order of streams and replies, the session has each stream asked for, and no
    other; and with the fourth protocol the status written to the error stream
    at the end tells the client the exit code of the command. *)
Theorem remote_command_session `{StatusJSON} (opts : Options) (h : protocolHandler) (w : wait_state) :
  (forall st, exists text, status_Marshal st = Ok text /\ status_Unmarshal text = Some st) ->
  rtc (wait_step h (expectedStreams opts h)) wait_start w -> ws_loop w = Complete ->
  NoDup (rs_type <$> ws_taken w) -> (forall s, s ∈ ws_taken w -> rs_type s ∈ expected_types opts h) ->
  exists ctx closed, wait_result h w = Some (Ok ctx, closed)
    /\ (forall t, match slot t ctx with
                  | Some s => t ∈ expected_types opts h /\ s ∈ ws_taken w /\ rs_type s = t
                  | None => t ∉ expected_types opts h
                  end)
    /\ (h = v4ProtocolHandler -> forall i, Exited i = true -> in_int64 (ExitStatus i) ->
          exists s text st, ServeExec ctx (dockerExitError i) = Ok [(s, text)]
            /\ s ∈ ws_taken w /\ rs_type s = StreamTypeError
            /\ status_Unmarshal text = Some st /\ exit_code st = Some (ExitStatus i)).
Proof.
  intros Hjson Hr Hc Hn Hexp. pose proof (complete_slots opts h w Hr Hc Hn Hexp) as Hslots.
  eexists (ws_ctx w), _. split; [unfold wait_result; by rewrite Hc|]. split; [exact Hslots|].
  intros -> i Hi Hcode. pose proof (Hslots StreamTypeError) as He.
  apply wait_reachable_ok in Hr as Hok. pose proof (wo_writer _ _ _ Hok) as Hw.
  unfold slot in He. rewrite decide_True in He by done.
  destruct (writeStatus (ws_ctx w)) as [[wr s]|] eqn:E; cbn in He.
  2:{ exfalso. apply He. by left. }
  rewrite (Hw wr s eq_refl) in E. destruct He as (_ & Hin & Ht).
  set (st := exec_status (dockerExitError i)). destruct (Hjson st) as (text & Hm & Hu).
  exists s, text, st. unfold ServeExec. rewrite E. cbn [write_status writer_of]. fold st. rewrite Hm.
  split; [done|]. split; [done|]. split; [done|]. split; [done|].
  unfold st, exec_status. rewrite Hi. unfold exit_code. cbn [s_Causes base.filter list_filter].
  rewrite decide_True by done. cbn [sc_Message]. by rewrite parse_int64_itoa.
Qed.

(** *** What does not end *)

(** C36: what the code leaves behind.  A goroutine about to notify when
    [waitForStreams] has returned waits for ever, and so does a callback of
    the connection that has a stream to hand over.  And because replies are
    counted, not types, a client that opens its standard output twice completes
    a session without error stream: whatever the command answers, the status
    is written through a nil function. *)
Theorem remote_command_leaks `{StatusJSON} (h : protocolHandler) :
  (forall expected w w', rtc (wait_step h expected) w w' -> ws_loop w <> Receiving ->
     (forall i, ws_waiters w !! i = Some Notifying -> ws_waiters w' !! i = Some Notifying)
     /\ (forall s, s ∈ ws_pending w -> s ∈ ws_pending w'))
  /\ (exists w ctx closed, rtc (wait_step h (expectedStreams (mkOptions false true false false) h)) wait_start w
        /\ wait_result h w = Some (Ok ctx, closed)
        /\ forall r, ServeExec ctx r = Err nil_dereference_panic).
Proof.
  split.
  - intros expected w w' Hr. induction Hr as [w|w1 w2 w3 Hstep _ IH]; [done|]. intros Hl.
    assert (ws_loop w2 <> Receiving
      /\ (forall i, ws_waiters w1 !! i = Some Notifying -> ws_waiters w2 !! i = Some Notifying)
      /\ (forall s, s ∈ ws_pending w1 -> s ∈ ws_pending w2)) as (Hl2 & Hw & Hp).
    { destruct Hstep as [w s|w s l1 l2 Hl'|w i Hi|w i Hl' Hi|w Hl'|w i Hl' Hi]; try done; cbn; split_and!; try done.
      - set_solver.
      - intros j Hj. destruct (decide (i = j)) as [<-|]; [congruence|]. by rewrite list_lookup_insert_ne.
      - intros j Hj. destruct (decide (i = j)) as [<-|]; [congruence|]. by rewrite list_lookup_insert_ne. }
    destruct (IH Hl2) as [IH1 IH2]. split; intros; eauto.
  - set (s1 := mkRcStream 1 StreamTypeStdout). set (s2 := mkRcStream 3 StreamTypeStdout).
    exists (mkWait (mkContext None (Some s2) None None None false) 2 [Counted; Counted] [] [s1; s2] Complete).
    eexists _, _. split; [|split; [done|by intros r]].
    assert (expectedStreams (mkOptions false true false false) h = 2%nat) as -> by by destruct h.
    eapply rtc_l; [apply (stream_opened h 2 _ s1)|].
    eapply rtc_l; [by apply (stream_received h 2 _ s1 [] [])|].
    eapply rtc_l; [apply (stream_opened h 2 _ s2)|].
    eapply rtc_l; [by apply (stream_received h 2 _ s2 [] [])|].
    eapply rtc_l; [by apply (reply_sent h 2 _ 0)|].
    eapply rtc_l; [by apply (reply_received h 2 _ 0)|].
    eapply rtc_l; [by apply (reply_sent h 2 _ 1)|].
    eapply rtc_l; [by apply (reply_received h 2 _ 1)|]. reflexivity.
Qed.

(** *** A session *)

(** A codec of statuses: their code as a number, in binary. *)
Definition status_tuple (st : Status) : string * string * Z * list (string * string) * string :=
  (s_Status st, s_Reason st, s_Code st, (fun c => (sc_Type c, sc_Message c)) <$> s_Causes st, s_Message st).
Definition tuple_status (t : string * string * Z * list (string * string) * string) : Status :=
  let '(a, b, c, l, d) := t in mkStatus a b c ((fun p => mkStatusCause (fst p) (snd p)) <$> l) d.

Lemma tuple_status_tuple st : tuple_status (status_tuple st) = st.
Proof.
  destruct st as [a b c l d]. cbn. f_equal. rewrite <- list_fmap_compose.
  rewrite <- (list_fmap_id l) at 2. apply list_fmap_ext. by intros ? [].
Qed.

#[local] Instance binary_json : StatusJSON := {|
  status_Marshal := fun st => Ok (bits (encode (status_tuple st)));
  status_Unmarshal := fun s => match decode (unbits s) with Some t => Some (tuple_status t) | None => None end;
|}.

Lemma binary_json_roundtrip st :
  exists text, status_Marshal st = Ok text /\ status_Unmarshal text = Some st.
Proof.
  eexists. split; [reflexivity|]. cbn [status_Unmarshal binary_json].
  by rewrite unbits_bits, decode_encode, tuple_status_tuple.
Qed.

Definition out_options : Options := mkOptions false true false false.
Definition out_stream : rc_stream := mkRcStream 1 StreamTypeStdout.
Definition err_stream : rc_stream := mkRcStream 3 StreamTypeError.

(** Standard output first, then the error stream; the replies in the other
    order. *)
Definition out_session : wait_state := {|
  ws_ctx := mkContext None (Some out_stream) None (Some (v4WriteStatusFunc, err_stream)) None false;
  ws_received := 2;
  ws_waiters := [Counted; Counted];
  ws_pending := [];
  ws_taken := [out_stream; err_stream];
  ws_loop := Complete;
|}.

Lemma out_session_reachable : rtc (wait_step v4ProtocolHandler 2) wait_start out_session.
Proof.
  eapply rtc_l; [apply (stream_opened _ 2 _ out_stream)|].
  eapply rtc_l; [apply (stream_opened _ 2 _ err_stream)|].
  eapply rtc_l; [by apply (stream_received _ 2 _ out_stream [] [err_stream])|].
  eapply rtc_l; [by apply (stream_received _ 2 _ err_stream [] [])|].
  eapply rtc_l; [by apply (reply_sent _ 2 _ 1)|].
  eapply rtc_l; [by apply (reply_received _ 2 _ 1)|].
  eapply rtc_l; [by apply (reply_sent _ 2 _ 0)|].
  eapply rtc_l; [by apply (reply_received _ 2 _ 0)|]. reflexivity.
Qed.

Lemma remote_command_session_witness :
  exists ctx text st, ServeExec ctx (dockerExitError (mkExecInspect "e" "c" false 3 7)) = Ok [(err_stream, text)]
    /\ status_Unmarshal text = Some st /\ exit_code st = Some 3%Z.
Proof.
  destruct (remote_command_session out_options v4ProtocolHandler out_session binary_json_roundtrip
              out_session_reachable eq_refl) as (ctx & closed & Hw & _ & He).
  - apply NoDup_cons. split; [|apply NoDup_singleton]. by intros [=]%list_elem_of_singleton.
  - intros s [->|[->|Hs]%elem_of_cons]%elem_of_cons; [right; by left|by left|by apply elem_of_nil in Hs].
  - destruct (He eq_refl (mkExecInspect "e" "c" false 3 7) eq_refl) as (s & text & st & Hs & Hin & Ht & Hu & Hc).
    { unfold in_int64, ExitStatus. cbn. lia. }
    exists ctx, text, st. split; [|done].
    apply elem_of_cons in Hin as [->|[->|Hin]%elem_of_cons]; [discriminate Ht|exact Hs|by apply elem_of_nil in Hin].
Defined.
