(* ===== verification/TimeFormat.v ===== *)
(** * TimeFormat: writing docker's timestamps

    [dockerTimestampToString] of libdocker/fake_client.go: the [Format] method
    of package time with the layout of [time.RFC3339Nano], the other direction
    of [GoTime].  A time is its nanoseconds since the Unix epoch, with the
    offset of its zone in seconds. *)
From S2P Require Import Prelude GoErrors GoTime.

(** ** The date of a day *)

(** The year that starts in March, and the day of it, of a day counted from
    the first of March of year 0: whole cycles of 400, 100, 4 years and one. *)
Definition march_year (n : Z) : Z * Z :=
  (let era := n / 146097 in
   let r := n mod 146097 in
   let c := Z.min (r / 36524) 3 in
   let r1 := r - c * 36524 in
   let q := r1 / 1461 in
   let r2 := r1 mod 1461 in
   let a := Z.min (r2 / 365) 3 in
   (400 * era + 100 * c + 4 * q + a, r2 - 365 * a))%Z.

Definition civil_from_days (n : Z) : Z * Z * Z :=
  (let '(y, doy) := march_year n in
   let mp := (5 * doy + 2) / 153 in
   let d := doy - (153 * mp + 2) / 5 + 1 in
   if mp <? 10 then (y, mp + 3, d) else (y + 1, mp - 9, d))%Z.

(** ** The text *)

Definition digit_char (x : Z) : ascii := Ascii.ascii_of_N (48 + Z.to_N x).

(** The last [w] digits of a number. *)
Fixpoint fixed (w : nat) (x : Z) : string :=
  match w with
  | O => ""
  | S w => fixed w (x / 10) +:+ String (digit_char (x mod 10)) ""
  end.

(** [appendInt]: padded with zeros to a width. *)
Definition appendInt (x : Z) (width : nat) : string :=
  if (x <? 0)%Z then
    "-" +:+ (if (- x <? 10 ^ Z.of_nat width)%Z then fixed width (- x) else utoa (Z.to_N (- x)))
  else if (x <? 10 ^ Z.of_nat width)%Z then fixed width x else utoa (Z.to_N x).

(** A text without its zeros at the end. *)
Fixpoint cut_zeros (s : string) : string :=
  match s with
  | EmptyString => EmptyString
  | String c s' =>
      match cut_zeros s' with
      | EmptyString => if Ascii.eqb c "0" then EmptyString else String c ""
      | t => String c t
      end
  end.

Definition frac_text (ns : Z) : string :=
  match cut_zeros (fixed 9 ns) with EmptyString => "" | ds => "." +:+ ds end.

(** The zone in minutes, towards zero. *)
Definition zone_text (offset : Z) : string :=
  if (offset =? 0)%Z then "Z"
  else
    let zone := Z.quot offset 60 in
    (if (zone <? 0)%Z then "-" else "+")
    +:+ appendInt (Z.abs zone / 60) 2 +:+ ":" +:+ appendInt (Z.abs zone mod 60) 2.

Definition dockerTimestampToString (offset t : Z) : string :=
  let wall := (t + offset * nanos)%Z in
  let secs := (wall / nanos)%Z in
  let '(year, month, day) := civil_from_days (secs / 86400 + days_from_civil 1970 1 1)%Z in
  let sod := (secs mod 86400)%Z in
  appendInt year 4 +:+ "-" +:+ appendInt month 2 +:+ "-" +:+ appendInt day 2 +:+ "T"
  +:+ appendInt (sod / 3600) 2 +:+ ":" +:+ appendInt (sod mod 3600 / 60) 2 +:+ ":" +:+ appendInt (sod mod 60) 2
  +:+ frac_text (wall mod nanos) +:+ zone_text offset.

(** The year the text shows. *)
Definition wall_year (offset t : Z) : Z :=
  fst (fst (civil_from_days ((t + offset * nanos) / nanos / 86400 + days_from_civil 1970 1 1)))%Z.

Example format_2024 : dockerTimestampToString 0 1709210096789000000 = "2024-02-29T12:34:56.789Z".
Proof. vm_compute. reflexivity. Qed.
Example format_zone : dockerTimestampToString (-16200) 0 = "1969-12-31T19:30:00-04:30".
Proof. vm_compute. reflexivity. Qed.

(** ** Theory *)

#[local] Ltac Zify.zify_post_hook ::= Z.to_euclidean_division_equations.

(** *** The calendar *)

(** Cycles of years: the year and the day recompose, and a day 365 is only in a
    year before a leap year. *)
Lemma march_year_spec n y doy : march_year n = (y, doy) ->
  (365 * y + y / 4 - y / 100 + y / 400 + doy = n /\ 0 <= doy <= 365
   /\ (doy = 365 -> is_leap (y + 1) = true))%Z.
Proof.
  unfold march_year. intros [= <- <-].
  set (era := (n / 146097)%Z). set (r := (n mod 146097)%Z).
  assert (n = 146097 * era + r /\ 0 <= r < 146097)%Z as [Hn Hr] by (unfold era, r; lia).
  clearbody era r. subst n. set (c := Z.min (r / 36524) 3).
  assert (0 <= c <= 3 /\ 0 <= r - c * 36524 <= 36524 /\ (c < 3 -> r - c * 36524 < 36524))%Z as (Hc & Hr1 & Hc3)
    by (unfold c; lia).
  clearbody c. set (r1 := (r - c * 36524)%Z) in *. assert (r = r1 + c * 36524)%Z as Er by lia. clearbody r1. subst r.
  set (q := (r1 / 1461)%Z). set (r2 := (r1 mod 1461)%Z).
  assert (r1 = 1461 * q + r2 /\ 0 <= r2 < 1461 /\ 0 <= q <= 24)%Z as (Hr1' & Hr2 & Hq) by (unfold q, r2; lia).
  clearbody q r2. subst r1. set (a := Z.min (r2 / 365) 3).
  assert (0 <= a <= 3 /\ 0 <= r2 - 365 * a <= 365 /\ (r2 - 365 * a = 365 -> a = 3))%Z as (Ha & Hd & Ha3)
    by (unfold a; lia).
  clearbody a. set (y := (400 * era + 100 * c + 4 * q + a)%Z).
  assert (y / 4 = 100 * era + 25 * c + q /\ y / 100 = 4 * era + c /\ y / 400 = era)%Z as (E4 & E100 & E400)
    by (unfold y; lia).
  split; [rewrite E4, E100, E400; unfold y; lia|]. split; [done|].
  intros H365. assert (a = 3 /\ (q < 24 \/ c = 3))%Z as [-> Hl] by lia. unfold is_leap, y.
  apply andb_true_iff. split; [lia|]. apply orb_true_iff.
  destruct Hl as [Hl| ->]; [left; apply negb_true_iff|destruct (decide (q = 24)%Z) as [->|]; [right|left; apply negb_true_iff]]; lia.
Qed.

(** A date of the calendar, and its day is the one it was made from. *)
Lemma civil_from_days_spec n y m d : civil_from_days n = (y, m, d) ->
  days_from_civil y m d = n /\ (1 <= m <= 12)%Z /\ (1 <= d <= days_in m y)%Z.
Proof.
  unfold civil_from_days. destruct (march_year n) as [y0 doy] eqn:E.
  apply march_year_spec in E as (Hn & Hd & Hl). set (mp := ((5 * doy + 2) / 153)%Z).
  assert (0 <= mp <= 11)%Z as Hmp by (unfold mp; lia).
  assert ((153 * mp + 2) / 5 <= doy)%Z as Hlo by (unfold mp; lia).
  assert (doy < (153 * (mp + 1) + 2) / 5)%Z as Hhi by (unfold mp; lia).
  clearbody mp. set (k := ((153 * mp + 2) / 5)%Z) in *. intros H.
  assert (m = (if mp <? 10 then mp + 3 else mp - 9) /\ y = (if mp <? 10 then y0 else y0 + 1)
          /\ d = doy - k + 1)%Z as (Hm & Hy & Hday) by (destruct (Z.ltb_spec mp 10); by simplify_eq).
  assert (((m + 9) mod 12 = mp) /\ (if m <=? 2 then y - 1 else y) = y0 /\ 1 <= m <= 12)%Z as (Em & Ey & Hm12).
  { destruct (Z.ltb_spec mp 10), (Z.leb_spec m 2); lia. }
  split; [unfold days_from_civil; rewrite Em, Ey; fold k; lia|]. split; [done|]. split; [lia|].
  unfold days_in. repeat case_match; unfold k in *; try lia.
  all: assert (mp = 11)%Z as -> by (destruct (Z.ltb_spec mp 10); lia).
  destruct (decide (doy = 365)%Z) as [Hl'|]; [|lia]. specialize (Hl Hl'). congruence.
Qed.

(** *** Digits *)

Lemma digit_char_spec x : (0 <= x < 10)%Z ->
  is_digit (digit_char x) = true /\ Z.of_N (digit_val (digit_char x)) = x.
Proof.
  intros H. assert (x = 0 \/ x = 1 \/ x = 2 \/ x = 3 \/ x = 4 \/ x = 5 \/ x = 6 \/ x = 7 \/ x = 8 \/ x = 9)%Z as Hc by lia.
  repeat destruct Hc as [->|Hc]; try subst x; by vm_compute.
Qed.

Lemma digit_at_char x s i : (0 <= x < 10)%Z -> String.get i s = Some (digit_char x) -> digit_at s i = Some x.
Proof. intros [H1 H2]%digit_char_spec E. unfold digit_at. by rewrite E, H1, H2. Qed.

Lemma appendInt_fixed x w : (0 <= x < 10 ^ Z.of_nat w)%Z -> appendInt x w = fixed w x.
Proof. intros Hx. unfold appendInt. destruct (Z.ltb_spec x 0), (Z.ltb_spec x (10 ^ Z.of_nat w)); lia || done. Qed.

Lemma num_elem_fixed v elem what b lo hi x rest :
  (0 <= x < 100)%Z -> (lo <= x <= hi)%Z ->
  num_elem v elem what b lo hi (appendInt x 2 +:+ rest) = Ok (x, rest).
Proof.
  intros Hx Hr. rewrite appendInt_fixed by (cbn; lia). unfold num_elem, getnum.
  rewrite (digit_at_char (x / 10 mod 10) _ 0), (digit_at_char (x mod 10) _ 1) by (lia || done).
  replace (x / 10 mod 10 * 10 + x mod 10)%Z with x by lia.
  destruct (Z.ltb_spec x lo), (Z.ltb_spec hi x); lia || done.
Qed.

Lemma year_elem_fixed v y rest : (0 <= y < 10000)%Z -> year_elem v (appendInt y 4 +:+ rest) = Ok (y, rest).
Proof.
  intros Hy. rewrite appendInt_fixed by (cbn; lia). unfold year_elem.
  rewrite (digit_at_char (y / 10 / 10 / 10 mod 10) _ 0), (digit_at_char (y / 10 / 10 mod 10) _ 1),
    (digit_at_char (y / 10 mod 10) _ 2), (digit_at_char (y mod 10) _ 3) by (lia || done).
  do 2 f_equal. lia.
Qed.

(** *** The fraction *)

Lemma digits_val_app acc a b : digits_val acc (a +:+ b) = digits_val (digits_val acc a) b.
Proof. revert acc. induction a as [|c a IH]; intros acc; [done|]. apply IH. Qed.

Lemma fixed_length w x : String.length (fixed w x) = w.
Proof. revert x. induction w as [|w IH]; intros x; [done|]. cbn [fixed]. rewrite slength_app, IH. simpl. lia. Qed.

Lemma fixed_val w x : (0 <= x)%Z -> (x < 10 ^ Z.of_nat w)%Z -> digits_val 0 (fixed w x) = x.
Proof.
  revert x. induction w as [|w IH]; intros x H0 H1; [cbn in *; lia|]. cbn [fixed].
  rewrite Nat2Z.inj_succ, Z.pow_succ_r in H1 by lia. rewrite digits_val_app, IH by lia. cbn [digits_val].
  rewrite (proj2 (digit_char_spec (x mod 10) ltac:(lia))). lia.
Qed.

Lemma fixed_digits w x : sforall is_digit (fixed w x) = true.
Proof.
  revert x. induction w as [|w IH]; intros x; [done|]. cbn [fixed]. rewrite sforall_app, IH. cbn.
  by rewrite (proj1 (digit_char_spec (x mod 10) ltac:(lia))).
Qed.

(** What is trimmed is zeros. *)
Lemma cut_zeros_spec s : exists n, s = cut_zeros s +:+ Nat.iter n (String "0") "".
Proof.
  induction s as [|c s [n IH]]; [by exists O|]. cbn [cut_zeros]. destruct (cut_zeros s) as [|c' t].
  - destruct (Ascii.eqb_spec c "0") as [->|]; [exists (S n)|exists n]; by rewrite IH.
  - exists n. by rewrite IH at 1.
Qed.

Lemma zeros_val n acc : digits_val acc (Nat.iter n (String "0") "") = (acc * 10 ^ Z.of_nat n)%Z.
Proof.
  revert acc. induction n as [|n IH]; intros acc; [cbn; lia|]. cbn [Nat.iter nat_rect digits_val].
  change (Nat.iter n _ "") with (Nat.iter n (String "0") ""). rewrite IH, Nat2Z.inj_succ, Z.pow_succ_r by lia.
  change (digit_val "0") with 0%N. lia.
Qed.

Definition no_digit (s : string) : Prop := forall c t, s = String c t -> is_digit c = false.

Lemma digits_prefix_app d rest : sforall is_digit d = true -> no_digit rest -> digits_prefix (d +:+ rest) = d.
Proof.
  intros Hd Hr. induction d as [|c d IH].
  - change ("" +:+ rest) with rest. destruct rest as [|c t]; [done|]. cbn. by rewrite (Hr c t).
  - cbn in Hd. apply andb_true_iff in Hd as [Hc Hd]. change (String c d +:+ rest) with (String c (d +:+ rest)).
    cbn. by rewrite Hc, IH.
Qed.

Lemma frac_elem_text ns rest : (0 <= ns < nanos)%Z -> no_digit rest ->
  (forall c t, rest = String c t -> comma_or_period c = false) ->
  frac_elem (frac_text ns +:+ rest) = (ns, rest).
Proof.
  intros Hns Hr Hc. unfold frac_text. destruct (cut_zeros_spec (fixed 9 ns)) as [n E].
  pose proof (fixed_val 9 ns ltac:(lia) ltac:(unfold nanos in Hns; cbn; lia)) as Hv.
  pose proof (fixed_length 9 ns) as Hlen. pose proof (fixed_digits 9 ns) as Hd.
  rewrite E in Hv, Hlen, Hd. rewrite digits_val_app, zeros_val in Hv. rewrite slength_app in Hlen.
  rewrite sforall_app in Hd. apply andb_true_iff in Hd as [Hd _].
  assert (String.length (Nat.iter n (String "0") "") = n) as Hz 
    by (clear; induction n as [|n IH]; [done|exact (f_equal S IH)]).
  rewrite Hz in Hlen. destruct (cut_zeros (fixed 9 ns)) as [|c ds] eqn:Et.
  - cbn in Hv. subst ns. change ("" +:+ rest) with rest. unfold frac_elem. destruct rest as [|c t]; [done|].
    by rewrite (Hc c t).
  - change (("." +:+ String c ds) +:+ rest) with (String "." (String c ds +:+ rest)). unfold frac_elem.
    change (comma_or_period ".") with true. cbv iota. rewrite digits_prefix_app by done.
    rewrite sdrop_app. f_equal. unfold parseNanoseconds.
    assert (stake 9 (String c ds) = String c ds) as ->.
    { rewrite <- (sapp_nil_r (String c ds)) at 1.
      replace 9 with (String.length (String c ds) + n)%nat by done.
      clear. generalize (String c ds) as s. induction s as [|a s IH]; [by destruct n|]. cbn. f_equal. apply IH. }
    rewrite <- Hv. do 2 f_equal. lia.
Qed.

(** *** The zone and the whole *)

Lemma skip1_char v c rest : skip1 v c (String c "" +:+ rest) = Ok rest.
Proof. change (String c "" +:+ rest) with (String c rest). unfold skip1. by rewrite Ascii.eqb_refl. Qed.

Lemma getnum_fixed x : (0 <= x < 100)%Z -> getnum (fixed 2 x) true = Some (x, "").
Proof.
  intros Hx. unfold getnum.
  rewrite (digit_at_char (x / 10 mod 10) _ 0), (digit_at_char (x mod 10) _ 1) by (lia || done).
  change (sdrop 2 (fixed 2 x)) with "". do 2 f_equal. lia.
Qed.

Lemma zone_elem_signed v (plus : bool) hr mm : (0 <= hr < 24)%Z -> (0 <= mm < 60)%Z ->
  zone_elem v ((if plus then "+" else "-") +:+ appendInt hr 2 +:+ ":" +:+ appendInt mm 2)
  = Ok ((if plus then hr * 60 + mm else - (hr * 60 + mm)) * 60, "")%Z.
Proof.
  intros Hh Hm. rewrite !appendInt_fixed by (cbn; lia). set (rest := fixed 2 hr +:+ ":" +:+ fixed 2 mm).
  assert (forall c, String.length (String c rest) = 6%nat) as Hlen.
  { intros c. cbn [String.length]. unfold rest. by rewrite !slength_app, !fixed_length. }
  assert (forall c, String.get 3 (String c rest) = Some (Ascii.ascii_of_N 58)) as Hcolon by done.
  assert (forall c, stake 2 (sdrop 4 (String c rest)) = fixed 2 mm) as Hmm by done.
  assert (stake 2 rest = fixed 2 hr) as Hhr by done.
  assert (forall c, sdrop 6 (String c rest) = "") as Hend by done.
  clearbody rest. unfold zone_elem. destruct plus;
    [change ("+" +:+ rest) with (String "+" rest)|change ("-" +:+ rest) with (String "-" rest)];
    cbv beta iota zeta;
    [change (Ascii.eqb "+" "Z") with false|change (Ascii.eqb "-" "Z") with false]; cbv iota;
    rewrite bool_decide_true by (rewrite Hlen; lia); rewrite bool_decide_true by done; cbn [negb];
    rewrite Hhr, Hmm, !getnum_fixed by lia;
    (destruct (Z.ltb_spec 60 mm); [lia|]); (destruct (Z.ltb_spec 24 hr); [lia|]); cbn [Ascii.eqb Bool.eqb];
    rewrite Hend; do 2 f_equal; lia.
Qed.

Lemma zone_elem_text v offset :
  (offset mod 60 = 0)%Z -> (-86400 < offset < 86400)%Z -> zone_elem v (zone_text offset) = Ok (offset, "").
Proof.
  intros Hm Ho. unfold zone_text. destruct (Z.eqb_spec offset 0) as [->|Hne]; [done|]. cbv zeta.
  destruct (Z.ltb_spec (Z.quot offset 60) 0).
  - rewrite (zone_elem_signed v false) by lia. do 2 f_equal. lia.
  - rewrite (zone_elem_signed v true) by lia. do 2 f_equal. lia.
Qed.

(** The zone ends the fraction. *)
Lemma zone_text_head offset c t : zone_text offset = String c t ->
  is_digit c = false /\ comma_or_period c = false.
Proof.
  unfold zone_text. destruct (offset =? 0)%Z; [by intros [= <- <-]|].
  destruct (_ <? 0)%Z; by intros [= <- _].
Qed.

(** Timestamps read back: for a zone of whole minutes within a day and a year
    of at most four digits, the parser reads a time from its text, to the
    nanosecond. *)
Lemma docker_timestamp_roundtrip (offset t : Z) :
  (offset mod 60 = 0)%Z -> (-86400 < offset < 86400)%Z -> (0 <= wall_year offset t < 10000)%Z ->
  ParseDockerTimestamp (dockerTimestampToString offset t) = Ok t.
Proof.
  intros Hm Ho Hy. unfold ParseDockerTimestamp. unfold wall_year in Hy.
  set (s := dockerTimestampToString offset t). assert (s = dockerTimestampToString offset t) as Es by done.
  clearbody s. unfold dockerTimestampToString in Es. set (wall := (t + offset * nanos)%Z) in *.
  set (secs := (wall / nanos)%Z) in *. destruct (civil_from_days _) as [[year month] day] eqn:Ec.
  apply civil_from_days_spec in Ec as (Hd & Hmo & Hda). cbn [fst] in Hy. cbv zeta in Es.
  assert (days_in month year <= 31)%Z as H31 by (unfold days_in; repeat case_match; lia).
  rewrite Es at 2. rewrite year_elem_fixed by lia. cbn [then_].
  repeat (first [rewrite skip1_char|rewrite num_elem_fixed by lia]; cbn [then_]).
  rewrite frac_elem_text; [|unfold nanos; lia|intros c u E; by destruct (zone_text_head _ _ _ E)..].
  rewrite zone_elem_text by done. cbn [then_].
  destruct (Z.ltb_spec day 1); [lia|]. destruct (Z.ltb_spec (days_in month year) day); [lia|]. cbn [orb].
  f_equal. unfold Date, unix_days. rewrite Hd. unfold secs. subst wall. unfold nanos. lia.
Qed.

(** The times docker starts from, and one of a leap day in a zone west of
    Greenwich. *)
Lemma docker_timestamp_roundtrip_witness :
  ParseDockerTimestamp (dockerTimestampToString 0 zero_time) = Ok zero_time
  /\ ParseDockerTimestamp (dockerTimestampToString (-12600) 951872399000000001) = Ok 951872399000000001%Z.
Proof.
  split; apply docker_timestamp_roundtrip; first [reflexivity|lia|vm_compute; split; first [discriminate|reflexivity]].
Defined.
