(* ===== verification/FakeDocker.v ===== *)
(** * FakeDocker: the fake docker client

    libdocker/fake_client.go: a docker engine in memory, for running the
    service without one; here a concrete [DockerClient] under the service.
    Containers are known by pointers that the lists and the map share only
    through their IDs, so a container is a value; what an inspection returns is
    read before the next call.  The clock, the random numbers, the
    process ID, the local time zone and the formatting of credentials are
    parameters; sleeping is
    left out. *)
From coqutil Require Import Datatypes.RecordSetters.
From S2P Require Import Prelude GoErrors GoTime TimeFormat GoText Cri Naming Labels Cache Store Checkpoint Libdocker PluginManager Service Stats.
Import DoubleBraceUpdate.

(** ** State *)

(** The [n]th readings of the client's clock and of [time.Now] (two at a time),
    the [n]th random number, and the offset of the local zone at a time. *)
Class FakeEnv := {
  fake_Now : nat -> Z;
  time_Now : nat -> Z;
  fake_Uint32 : nat -> N;
  os_Getpid : Z;
  zone_offset : Z -> Z;
  marshal_auth : AuthConfig -> string;
}.

(** A time of the local zone as docker writes it. *)
Definition timestamp_text `{FakeEnv} (t : Z) : string := dockerTimestampToString (zone_offset t) t.

Record CalledDetail := mkCalledDetail { cd_name : string; cd_arguments : list string }.

Record FakeDockerClient := mkFakeDockerClient {
  f_RunningContainerList : list DockerContainer;
  f_ExitedContainerList : list DockerContainer;
  f_ContainerMap : gmap string ContainerJSON;
  f_ImageInspects : gmap string ImageInspect;
  f_Images : list ImageSummary;
  f_ImageIDsNeedingAuth : gmap string AuthConfig;
  f_Errors : gmap string error;
  f_called : list CalledDetail;
  f_pulled : list string;
  f_EnableTrace : bool;
  f_Created : list string;
  f_Started : list string;
  f_Stopped : list string;
  f_Removed : list string;
  f_ImagesPulled : list string;
  f_VersionInfo : DockerVersion;
  f_Information : DockerInfo;
  f_ExecInspect : ExecInspect;
  f_execCmd : list string;
  f_ImageHistoryMap : gmap string (list HistoryResponseItem);
  f_ContainerStatsMap : gmap string StatsJSON;
  (** how often the clock was read and a random number drawn *)
  f_ticks : nat;
}.

Definition fakeDockerVersion : string := "23.0.0".
Definition fakeImageSize : Z := 1024.
Definition dockerNamePrefix : string := "/".

Definition NewFakeDockerClient : FakeDockerClient := {|
  f_RunningContainerList := []; f_ExitedContainerList := []; f_ContainerMap := ∅;
  f_ImageInspects := ∅; f_Images := []; f_ImageIDsNeedingAuth := ∅; f_Errors := ∅;
  f_called := []; f_pulled := []; f_EnableTrace := true;
  f_Created := []; f_Started := []; f_Stopped := []; f_Removed := []; f_ImagesPulled := [];
  f_VersionInfo := mkDockerVersion fakeDockerVersion (trim_suffix MinimumDockerAPIVersion ".0");
  f_Information := mkDockerInfo "" "" "" "" {[ "runc" := ∅ ]};
  f_ExecInspect := mkExecInspect "" "" false 0 0; f_execCmd := [];
  f_ImageHistoryMap := ∅; f_ContainerStatsMap := ∅; f_ticks := 0;
|}.

Definition WithVersion (version apiVersion : string) (f : FakeDockerClient) : FakeDockerClient :=
  f{{f_VersionInfo := mkDockerVersion version apiVersion}}.
Definition WithTraceDisabled (f : FakeDockerClient) : FakeDockerClient := f{{f_EnableTrace := false}}.

(** ** Tracing and errors *)

Definition appendCalled (c : CalledDetail) (f : FakeDockerClient) : FakeDockerClient :=
  if f_EnableTrace f then f{{f_called ::= (fun l => l ++ [c])}} else f.

Definition called (name : string) : FakeDockerClient -> FakeDockerClient := appendCalled (mkCalledDetail name []).

Definition appendPulled (pull : string) (f : FakeDockerClient) : FakeDockerClient :=
  if f_EnableTrace f then f{{f_pulled ::= (fun l => l ++ [pull])}} else f.

Definition appendContainerTrace (traceCategory containerName : string) (f : FakeDockerClient) : FakeDockerClient :=
  let app l := l ++ [containerName] in
  if f_EnableTrace f then
    if decide (traceCategory = "Created") then f{{f_Created ::= app}}
    else if decide (traceCategory = "Started") then f{{f_Started ::= app}}
    else if decide (traceCategory = "Stopped") then f{{f_Stopped ::= app}}
    else if decide (traceCategory = "Removed") then f{{f_Removed ::= app}}
    else f
  else f.

Definition InjectError (fn : string) (err : error) (f : FakeDockerClient) : FakeDockerClient :=
  f{{f_Errors ::= <[fn := err]>}}.
Definition InjectErrors (errs : gmap string error) (f : FakeDockerClient) : FakeDockerClient :=
  f{{f_Errors ::= (fun m => errs ∪ m)}}.
Definition ClearErrors (f : FakeDockerClient) : FakeDockerClient := f{{f_Errors := (∅ : gmap string error)}}.
Definition ClearCalls (f : FakeDockerClient) : FakeDockerClient :=
  f{{f_called := []; f_pulled := []; f_Created := []; f_Started := []; f_Stopped := []; f_Removed := [] }}.
Definition getCalledNames (f : FakeDockerClient) : list string := cd_name <$> f_called f.
(** Whether the calls are those expected; nil and empty lists are not told apart. *)
Definition AssertCalls (calls : list string) (f : FakeDockerClient) : bool :=
  bool_decide (calls = getCalledNames f).

Definition popError (op : string) : M FakeDockerClient (option error) := fun f =>
  match f_Errors f !! op with
  | Some err => (Some err, f{{f_Errors ::= delete op}})
  | None => (None, f)
  end.

(** An operation that is recorded and fails at once with an injected error. *)
Definition fake_op {A} (name op : string) (act : M FakeDockerClient (res A)) : M FakeDockerClient (res A) :=
  do* modify (called name) in
  let* err := popError op in
  match err with
  | Some err => ret (Err err)
  | None => act
  end.

(** ** Containers *)

(** [FakeContainer]; a zero time is [zero_time]. *)
Record FakeContainer := mkFakeContainer {
  fc_ID : string;
  fc_Name : string;
  fc_Running : bool;
  fc_ExitCode : Z;
  fc_Pid : Z;
  fc_CreatedAt : Z;
  fc_StartedAt : Z;
  fc_FinishedAt : Z;
  fc_Config : option DockerConfig;
  fc_HostConfig : option HostConfig;
}.

(** Docker's container modes: [container:<name or id>]. *)
Definition IsContainer (mode : string) : bool := has_prefix mode "container:".
Definition ConnectedContainer (mode : string) : string :=
  if IsContainer mode then trim_prefix mode "container:" else "".

(** FNV-1a over 64 bits, and a number in hexadecimal. *)
Fixpoint fnv64a_go (h : N) (s : string) : N :=
  match s with
  | EmptyString => h
  | String c s' => fnv64a_go ((N.lxor h (Ascii.N_of_ascii c) * 1099511628211) mod 2 ^ 64)%N s'
  end.
Definition fnv64a (s : string) : N := fnv64a_go 14695981039346656037 s.

Fixpoint trim_zeros (s : string) : string :=
  match s with
  | String c ((String _ _) as s') => if Ascii.eqb c "0" then trim_zeros s' else s
  | _ => s
  end.

Definition GetFakeContainerID (name : string) : string := trim_zeros (hex_pad 16 (fnv64a name)).

Section Fake.
Context {FE : FakeEnv}.

Definition convertFakeContainer (c : FakeContainer) : ContainerJSON :=
  let config := default zero_DockerConfig (fc_Config c) in
  mkContainerJSON (fc_ID c) (timestamp_text (fc_CreatedAt c))
    (mkDockerContainerState (fc_Running c) false (fc_Pid c) (fc_ExitCode c) ""
       (timestamp_text (fc_StartedAt c)) (timestamp_text (fc_FinishedAt c)))
    (dc_Image config) "" "" (fc_Name c) (default zero_HostConfig (fc_HostConfig c)) [] config
    (Some (mkNetworkSettings "" "")).

Definition set_fake_container (f : FakeDockerClient) (c : FakeContainer) : FakeDockerClient :=
  let container := mkDockerContainer (fc_ID c) [fc_Name c] "" "" 0
                     (match fc_Config c with Some config => dc_Labels config | None => ∅ end) "" in
  let f := f{{f_ContainerMap ::= <[fc_ID c := convertFakeContainer c]>}} in
  if fc_Running c then f{{f_RunningContainerList ::= (fun l => l ++ [container])}}
  else f{{f_ExitedContainerList ::= (fun l => l ++ [container])}}.

Definition SetFakeContainers (containers : list FakeContainer) (f : FakeDockerClient) : FakeDockerClient :=
  foldl set_fake_container
    (f{{f_ContainerMap := (∅ : gmap string ContainerJSON); f_RunningContainerList := [];
        f_ExitedContainerList := [] }}) containers.

Definition toDockerContainerStatus (state : string) : string :=
  if has_prefix state StatusCreatedPrefix then "created"
  else if has_prefix state StatusRunningPrefix then "running"
  else if has_prefix state StatusExitedPrefix then "exited"
  else "unknown".

(** Whether a container matches the label filters, the first one that does
    not or is malformed deciding. *)
Fixpoint match_labels (labels : gmap string string) (filters : list string) : res bool :=
  match filters with
  | [] => Ok true
  | labelFilter :: filters' =>
      match split labelFilter "=" with
      | [k; v] => if decide (default "" (labels !! k) <> v) then Ok false else match_labels labels filters'
      | _ => Err (Errorf ("invalid label filter " +:+ quote labelFilter))
      end
  end.

Fixpoint filter_labels (filters : list string) (l : list DockerContainer) : res (list DockerContainer) :=
  match l with
  | [] => Ok []
  | c :: l' =>
      match match_labels (dct_Labels c) filters with
      | Err err => Err err
      | Ok m =>
          match filter_labels filters l' with
          | Err err => Err err
          | Ok r => Ok (if m then c :: r else r)
          end
      end
  end.

(** The values of a filter, in an order of the set. *)
Definition Filters_Get (options : ListOptions) (field : string) : list string :=
  elements (default ∅ (lo_Filters options !! field)).

Definition filter_containers (options : ListOptions) (containerList : list DockerContainer)
  : res (list DockerContainer) :=
  let idFilters := Filters_Get options "id" in
  let containerList := if decide (idFilters = []) then containerList
                       else base.filter (fun c => dct_ID c ∈ idFilters) containerList in
  let statusFilters := Filters_Get options "status" in
  let containerList := match statusFilters with
    | [s] => base.filter (fun c => toDockerContainerStatus (dct_Status c) = s) containerList
    | _ => containerList
    end in
  let labelFilters := Filters_Get options "label" in
  if decide (labelFilters = []) then Ok containerList else filter_labels labelFilters containerList.

(** A call that returns a value with an error: the caller sees the error. *)
Definition with_error {A} (err : option error) (r : res A) : res A :=
  match r, err with
  | Ok _, Some err => Err err
  | r, _ => r
  end.

Definition fake_ListContainers (options : ListOptions) : M FakeDockerClient (res (list DockerContainer)) :=
  do* modify (called "list") in
  let* err := popError "list" in
  let* f := get in
  let all := f_RunningContainerList f ++ (if lo_All options then f_ExitedContainerList f else []) in
  ret (with_error err (filter_containers options all)).

Definition fake_inspect (op id : string) : M FakeDockerClient (res ContainerJSON) :=
  do* modify (called op) in
  let* err := popError op in
  let* f := get in
  ret (match f_ContainerMap f !! id with
       | Some container => with_error err (Ok container)
       | None =>
           match err with
           | Some err => Err err
           | None => Err (Errorf ("container " +:+ quote id +:+ " not found"))
           end
       end).

Definition fake_InspectContainer := fake_inspect "inspect_container".

(** The writable layer of a fake container has 40 bytes. *)
Definition fake_InspectContainerWithSize (id : string) : M FakeDockerClient (res (option Z)) :=
  let* r := fake_inspect "inspect_container_withsize" id in
  ret (result_map (fun _ => Some 40%Z) r).

(** [f.Clock.Now()] and [f.RandGenerator.Uint32()]. *)
Definition tick : M FakeDockerClient nat := fun f => (f_ticks f, f{{f_ticks ::= S}}).

Definition fake_CreateContainer (c : ContainerCreateConfig) : M FakeDockerClient (res string) :=
  fake_op "create" "create"
    (let name := dockerNamePrefix +:+ ccc_Name c in
     let id := GetFakeContainerID name in
     do* modify (appendContainerTrace "Created" id) in
     let* n := tick in
     let timestamp := fake_Now n in
     let entry := mkDockerContainer id [name] (dc_Image (ccc_Config c)) "" (timestamp / nanos)
                    (dc_Labels (ccc_Config c)) "" in
     let container := convertFakeContainer
       (mkFakeContainer id name false 0 0 timestamp zero_time zero_time (Some (ccc_Config c)) (Some (ccc_HostConfig c))) in
     do* modify (fun f => f{{f_RunningContainerList ::= cons entry; f_ContainerMap ::= <[id := container]>}}) in
     ret (Ok id)).

Definition set_status (status : string) (c : DockerContainer) : DockerContainer :=
  mkDockerContainer (dct_ID c) (dct_Names c) (dct_Image c) (dct_ImageID c) (dct_Created c) (dct_Labels c) status.

Definition updateContainerStatus (id status : string) (f : FakeDockerClient) : FakeDockerClient :=
  f{{f_RunningContainerList ::= fmap (fun c => if decide (dct_ID c = id) then set_status status c else c)}}.

(** The address of a started container, from a random number. *)
Definition fake_address (r : N) : string :=
  let byte n := utoa (n mod 256) in
  "10." +:+ byte (N.shiftr r 16) +:+ "." +:+ byte (N.shiftr r 8) +:+ "." +:+ byte r.

Definition started (timestamp : Z) (address : string) (c : ContainerJSON) : ContainerJSON :=
  let st := cj_State c in
  c{{cj_State := mkDockerContainerState true (st_OOMKilled st) os_Getpid (st_ExitCode st) (st_Error st)
                   (timestamp_text timestamp) (st_FinishedAt st);
     cj_NetworkSettings ::= fmap (fun n => mkNetworkSettings address (nset_GlobalIPv6Address n))}}.

(** An unknown container is a nil pointer, dereferenced before it is tested. *)
Definition fake_StartContainer (id : string) : M FakeDockerClient (res unit) :=
  fake_op "start" "start"
    (do* modify (appendContainerTrace "Started" id) in
     let* f := get in
     match f_ContainerMap f !! id with
     | None => ret (Err nil_dereference_panic)
     | Some container =>
         let mode := hc_NetworkMode (cj_HostConfig container) in
         let hostContainerID := ConnectedContainer mode in
         if IsContainer mode && negb (bool_decide (hostContainerID ∈ dct_ID <$> f_RunningContainerList f)) then
           ret (Err (Errorf ("failed to start container " +:+ dquote +:+ id +:+ dquote
             +:+ ": Error response from daemon: cannot join network of a non running container: " +:+ hostContainerID)))
         else
           let* n := tick in
           do* modify (fun f => f{{f_ContainerMap ::=
                 <[id := started (fake_Now n) (fake_address (fake_Uint32 n)) container]>}}) in
           do* modify (updateContainerStatus id StatusRunningPrefix) in
           ret (Ok tt)
     end).

Definition stopped (timestamp : Z) (c : ContainerJSON) : ContainerJSON :=
  let st := cj_State c in
  c{{cj_State := mkDockerContainerState false (st_OOMKilled st) (st_Pid st) (st_ExitCode st) (st_Error st)
                   (st_StartedAt st) (timestamp_text timestamp)}}.

(** The newest exited container comes first. *)
Definition move_exited (id : string) (f : FakeDockerClient) : FakeDockerClient :=
  let exited := base.filter (fun c => dct_ID c = id) (f_RunningContainerList f) in
  f{{f_ExitedContainerList ::= (fun l => reverse exited ++ l);
     f_RunningContainerList ::= base.filter (fun c => dct_ID c <> id)}}.

(** The stopped container; an unknown one is made up. *)
Definition stopped_container (id : string) (n : nat) (f : FakeDockerClient) : ContainerJSON :=
  match f_ContainerMap f !! id with
  | None =>
      convertFakeContainer
        (mkFakeContainer id id false 0 0 zero_time (time_Now (2 * n) - nanos) (time_Now (2 * n + 1)) None None)
  | Some c => stopped (fake_Now n) c
  end.

Definition fake_StopContainer (id : string) (timeout : Z) : M FakeDockerClient (res unit) :=
  fake_op "stop" "stop"
    (do* modify (appendContainerTrace "Stopped" id) in
     do* modify (updateContainerStatus id StatusExitedPrefix) in
     do* modify (move_exited id) in
     let* n := tick in
     let* f := get in
     let container := stopped_container id n f in
     do* modify (fun f => f{{f_ContainerMap ::= <[id := container]>}}) in
     ret (Ok tt)).

(** The list without the first container of an ID. *)
Fixpoint remove_first (id : string) (l : list DockerContainer) : list DockerContainer :=
  match l with
  | [] => []
  | c :: l' => if decide (dct_ID c = id) then l' else c :: remove_first id l'
  end.

Definition fake_RemoveContainer (id : string) (opts : RemoveOptions) : M FakeDockerClient (res unit) :=
  fake_op "remove" "remove"
    (let* f := get in
     if decide (id ∈ dct_ID <$> f_ExitedContainerList f) then
       do* modify (fun f => appendContainerTrace "Removed" id
             (f{{f_ContainerMap ::= delete id; f_ExitedContainerList ::= remove_first id}})) in
       ret (Ok tt)
     else if decide (id ∈ dct_ID <$> f_RunningContainerList f) then
       match f_ContainerMap f !! id with
       | None => ret (Err nil_dereference_panic)
       | Some container =>
           if st_Running (cj_State container) then ret (Err (Errorf "container not stopped"))
           else
             do* modify (fun f => appendContainerTrace "Removed" id
                   (f{{f_ContainerMap ::= delete id; f_RunningContainerList ::= remove_first id}})) in
             ret (Ok tt)
       end
     else ret (Err (Errorf "container not stopped"))).

Definition fake_UpdateContainerResources (id : string) (updateConfig : Resources) : M FakeDockerClient (res unit) :=
  ret (Ok tt).

Definition fake_Logs (id : string) : M FakeDockerClient (option error) :=
  do* modify (called "logs") in popError "logs".

(** ** Images *)

Definition createImageInspectFromRef (ref : string) : ImageInspect :=
  mkImageInspect ref [ref] [] fakeImageSize "" (Some zero_DockerConfig) "" "" "" (mkRootFS "" []).
Definition createImageInspectFromImage (image : ImageSummary) : ImageInspect :=
  mkImageInspect (is_ID image) (is_RepoTags image) [] fakeImageSize "" (Some zero_DockerConfig) "" "" ""
    (mkRootFS "" []).
Definition createImageFromImageInspect (inspect : ImageInspect) : ImageSummary :=
  mkImageSummary (ii_ID inspect) (ii_RepoTags inspect) [] fakeImageSize 0.

(** [InspectImageByRef] and [InspectImageByID]. *)
Definition fake_InspectImage (name : string) : M FakeDockerClient (res ImageInspect) :=
  fake_op "inspect_image" "inspect_image"
    (let* f := get in
     ret (match f_ImageInspects f !! name with
          | Some result => Ok result
          | None => Err (ImageNotFoundError name)
          end)).

Definition isAuthorizedForImage (image : string) (auth : AuthConfig) (f : FakeDockerClient) : bool :=
  match f_ImageIDsNeedingAuth f !! image with
  | None => true
  | Some reqd => bool_decide (ac_Username auth = ac_Username reqd /\ ac_Password auth = ac_Password reqd)
  end.

Definition fake_PullImage (image : string) (auth : AuthConfig) : M FakeDockerClient (res unit) :=
  fake_op "pull" "pull"
    (let* f := get in
     if isAuthorizedForImage image auth f then
       let inspect := createImageInspectFromRef image in
       do* modify (fun f => appendPulled (image +:+ " using " +:+ marshal_auth auth)
                              (f{{f_ImageInspects ::= <[image := inspect]>}})) in
       do* modify (fun f => f{{f_Images ::= (fun l => l ++ [createImageFromImageInspect inspect]);
                               f_ImagesPulled ::= (fun l => l ++ [image])}}) in
       ret (Ok tt)
     else ret (Err (ImageNotFoundError image))).

Definition fake_ListImages (opts : ImageListOptions) : M FakeDockerClient (res (list ImageSummary)) :=
  do* modify (called "list_images") in
  let* err := popError "list_images" in
  let* f := get in
  ret (with_error err (Ok (f_Images f))).

Fixpoint remove_first_image (id : string) (l : list ImageSummary) : list ImageSummary :=
  match l with
  | [] => []
  | i :: l' => if decide (is_ID i = id) then l' else i :: remove_first_image id l'
  end.

Definition fake_RemoveImage (image : string) : M FakeDockerClient (res unit) :=
  do* modify (appendCalled (mkCalledDetail "remove_image" [image])) in
  let* err := popError "remove_image" in
  match err with
  | Some err => ret (Err err)
  | None => do* modify (fun f => f{{f_Images ::= remove_first_image image}}) in ret (Ok tt)
  end.

Definition InjectImages (images : list ImageSummary) (f : FakeDockerClient) : FakeDockerClient :=
  f{{f_Images ::= (fun l => l ++ images);
     f_ImageInspects ::= (fun m =>
       foldl (fun m i => <[is_ID i := createImageInspectFromImage i]> m) m images)}}.
Definition MakeImagesPrivate (images : list ImageSummary) (auth : AuthConfig) (f : FakeDockerClient) : FakeDockerClient :=
  f{{f_ImageIDsNeedingAuth ::= (fun m => foldl (fun m i => <[is_ID i := auth]> m) m images)}}.
Definition ResetImages (f : FakeDockerClient) : FakeDockerClient :=
  f{{f_Images := []; f_ImageInspects := (∅ : gmap string ImageInspect);
     f_ImageIDsNeedingAuth := (∅ : gmap string AuthConfig)}}.
Definition InjectImageInspects (inspects : list ImageInspect) (f : FakeDockerClient) : FakeDockerClient :=
  f{{f_Images ::= (fun l => l ++ (createImageFromImageInspect <$> inspects));
     f_ImageInspects ::= (fun m => foldl (fun m i => <[ii_ID i := i]> m) m inspects)}}.

(** ** The rest of the interface *)

Definition fake_Version : M FakeDockerClient (res DockerVersion) :=
  let* f := get in
  let* err := popError "version" in
  ret (with_error err (Ok (f_VersionInfo f))).
Definition fake_Info : M FakeDockerClient (res DockerInfo) :=
  let* f := get in ret (Ok (f_Information f)).

Definition fake_CreateExec (id : string) (opts : ExecOptions) : M FakeDockerClient (res string) :=
  do* modify (fun f => called "create_exec" (f{{f_execCmd := eo_Cmd opts}})) in
  ret (Ok "12345678").
Definition fake_StartExec (startExec : string) : M FakeDockerClient (option error) :=
  do* modify (called "start_exec") in ret None.
Definition fake_AttachToContainer (id : string) : M FakeDockerClient (option error) :=
  do* modify (called "attach") in ret None.
Definition fake_InspectExec (id : string) : M FakeDockerClient (res ExecInspect) :=
  let* err := popError "inspect_exec" in
  let* f := get in
  ret (with_error err (Ok (f_ExecInspect f))).
Definition fake_ResizeExecTTY (id : string) (height width : Z) : M FakeDockerClient (option error) :=
  do* modify (called "resize_exec") in ret None.
Definition fake_ResizeContainerTTY (id : string) (height width : Z) : M FakeDockerClient (option error) :=
  do* modify (called "resize_container") in ret None.

Definition fake_ImageHistory (id : string) : M FakeDockerClient (res (list HistoryResponseItem)) :=
  do* modify (called "image_history") in
  let* f := get in ret (Ok (default [] (f_ImageHistoryMap f !! id))).
Definition InjectImageHistory (data : gmap string (list HistoryResponseItem)) (f : FakeDockerClient) : FakeDockerClient :=
  f{{f_ImageHistoryMap := data}}.
Definition InjectContainerStats (data : gmap string StatsJSON) (f : FakeDockerClient) : FakeDockerClient :=
  f{{f_ContainerStatsMap := data}}.
Definition fake_GetContainerStats (id : string) : M FakeDockerClient (res StatsJSON) :=
  do* modify (called "get_container_stats") in
  let* f := get in
  ret (match f_ContainerStatsMap f !! id with
       | Some stats => Ok stats
       | None => Err (Errorf ("container " +:+ quote id +:+ " not found"))
       end).

(** The client is a docker client, for any service. *)
#[export] Instance fake_docker : DockerClient FakeDockerClient := {|
  ListContainers := fake_ListContainers;
  InspectContainer := fake_InspectContainer;
  CreateContainer := fake_CreateContainer;
  StartContainer := fake_StartContainer;
  StopContainer := fake_StopContainer;
  UpdateContainerResources := fake_UpdateContainerResources;
  RemoveContainer := fake_RemoveContainer;
  InspectImageByRef := fake_InspectImage;
  InspectImageByID := fake_InspectImage;
  ListImages := fake_ListImages;
  PullImage := fake_PullImage;
  RemoveImage := fake_RemoveImage;
  ImageHistory := fake_ImageHistory;
  Version := fake_Version;
  Info := fake_Info;
  CreateExec := fake_CreateExec;
  InspectExec := fake_InspectExec;
|}.
End Fake.

(** ** The puller *)

Definition FakeDockerPuller_Pull {W} `{DockerClient W} (image : string) : M W (res unit) :=
  PullImage image zero_AuthConfig.
Definition FakeDockerPuller_GetImageRef {W} `{DockerClient W} (image : string) : M W (res string) :=
  let* r := InspectImageByRef image in
  ret (match r with
       | Ok _ => Ok image
       | Err err => if IsImageNotFoundError err then Ok "" else Err err
       end).


(** ** The life of a container *)

(** Where a container is: created, running and exited are those of docker; a
    container can be started again while it stays in the list of the exited
    ones, and be known without being listed. *)
Inductive phase := Absent | PCreated | PRunning | PExited | PRestarted | PUnlisted.

(** What the phases depend on: the IDs of the two lists and which of the known
    containers run. *)
Record view := mkView { v_running : list string; v_exited : list string; v_map : gmap string bool }.

Definition view_of (f : FakeDockerClient) : view :=
  mkView (dct_ID <$> f_RunningContainerList f) (dct_ID <$> f_ExitedContainerList f)
    ((fun c => st_Running (cj_State c)) <$> f_ContainerMap f).

Definition phase_of (v : view) (id : string) : phase :=
  match (v_map v !! id : option bool) with
  | None => Absent
  | Some running =>
      if decide (id ∈ v_exited v) then (if running then PRestarted else PExited)
      else if decide (id ∈ v_running v) then (if running then PRunning else PCreated)
      else PUnlisted
  end.

(** No container is listed twice, and those listed are known. *)
Definition view_ok (v : view) : Prop :=
  NoDup (v_running v ++ v_exited v)
  /\ forall id, id ∈ v_running v \/ id ∈ v_exited v -> is_Some (v_map v !! id).

(** The calls that change containers, and what each does to the phase of its
    container: whether it succeeds, and the phase after it.  A container that
    cannot join its network does not start. *)
Inductive life_call :=
| LCreate (c : ContainerCreateConfig)
| LStart (id : string)
| LStop (id : string) (timeout : Z)
| LRemove (id : string) (opts : RemoveOptions).

Definition life_id (op : life_call) : string :=
  match op with
  | LCreate c => GetFakeContainerID (dockerNamePrefix +:+ ccc_Name c)
  | LStart id | LStop id _ | LRemove id _ => id
  end.

Definition life_step (op : life_call) (joins : bool) (p : phase) : bool * phase :=
  match op, p with
  | LCreate _, _ => (true, PCreated)
  | LStart _, Absent => (false, Absent)
  | LStart _, p =>
      if joins then (true, match p with
                           | PCreated | PRunning => PRunning
                           | PExited | PRestarted => PRestarted
                           | p => p
                           end)
      else (false, p)
  | LStop _ _, (Absent | PUnlisted) => (true, PUnlisted)
  | LStop _ _, _ => (true, PExited)
  | LRemove _ _, (PCreated | PExited | PRestarted) => (true, Absent)
  | LRemove _ _, p => (false, p)
  end.

(** Whether the network the container of an ID joins is there. *)
Definition joins (f : FakeDockerClient) (id : string) : bool :=
  match f_ContainerMap f !! id with
  | None => true
  | Some c =>
      let mode := hc_NetworkMode (cj_HostConfig c) in
      negb (IsContainer mode)
      || bool_decide (ConnectedContainer mode ∈ dct_ID <$> f_RunningContainerList f)
  end.

Section FakeTheory.
Context {FE : FakeEnv}.

Definition run_life (op : life_call) : M FakeDockerClient (option error) :=
  match op with
  | LCreate c => let* r := CreateContainer c in ret (match r with Ok _ => None | Err e => Some e end)
  | LStart id => let* r := StartContainer id in ret (match r with Ok _ => None | Err e => Some e end)
  | LStop id t => let* r := StopContainer id t in ret (match r with Ok _ => None | Err e => Some e end)
  | LRemove id o => let* r := RemoveContainer id o in ret (match r with Ok _ => None | Err e => Some e end)
  end.

(** *** Views *)

Lemma view_called n f : view_of (called n f) = view_of f.
Proof. unfold called, appendCalled. by destruct (f_EnableTrace f). Qed.

Lemma view_trace k id f : view_of (appendContainerTrace k id f) = view_of f.
Proof. unfold appendContainerTrace. destruct (f_EnableTrace f); [|done]. by repeat case_decide. Qed.

Lemma map_called n f : f_ContainerMap (called n f) = f_ContainerMap f.
Proof. unfold called, appendCalled. by destruct (f_EnableTrace f). Qed.

Lemma map_trace k id f : f_ContainerMap (appendContainerTrace k id f) = f_ContainerMap f.
Proof. unfold appendContainerTrace. destruct (f_EnableTrace f); [|done]. by repeat case_decide. Qed.

Lemma errors_called n f : f_Errors (called n f) = f_Errors f.
Proof. unfold called, appendCalled. by destruct (f_EnableTrace f). Qed.

Lemma errors_trace k id f : f_Errors (appendContainerTrace k id f) = f_Errors f.
Proof. unfold appendContainerTrace. destruct (f_EnableTrace f); [|done]. by repeat case_decide. Qed.

Lemma fake_op_run {A} name op (act : M FakeDockerClient (res A)) f :
  f_Errors f = ∅ -> fake_op name op act f = act (called name f).
Proof.
  intros He. unfold fake_op, bind, modify, popError. rewrite errors_called, He, lookup_empty. done.
Qed.

Lemma ids_set_status id s (l : list DockerContainer) :
  dct_ID <$> ((fun c => if decide (dct_ID c = id) then set_status s c else c) <$> l) = dct_ID <$> l.
Proof. rewrite <- list_fmap_compose. apply list_fmap_ext. intros ? c _. cbn. by case_decide. Qed.

Lemma ids_filter (P : string -> Prop) `{!forall x, Decision (P x)} (l : list DockerContainer) :
  dct_ID <$> base.filter (fun c => P (dct_ID c)) l = base.filter P (dct_ID <$> l).
Proof.
  induction l as [|c l IH]; [done|]. rewrite filter_cons, fmap_cons, filter_cons.
  case_decide; [rewrite fmap_cons|]; by rewrite IH.
Qed.

Fixpoint remove_id (id : string) (l : list string) : list string :=
  match l with
  | [] => []
  | x :: l' => if decide (x = id) then l' else x :: remove_id id l'
  end.

Lemma ids_remove_first id l : dct_ID <$> remove_first id l = remove_id id (dct_ID <$> l).
Proof. induction l as [|c l IH]; [done|]. cbn. case_decide; [done|]. cbn. by rewrite IH. Qed.

Lemma filter_keeps (P : string -> Prop) `{!forall x, Decision (P x)} (l : list string) :
  (forall x, x ∈ l -> P x) -> base.filter P l = l.
Proof.
  intros Hp. induction l as [|x l IH]; [done|]. rewrite filter_cons, decide_True by (apply Hp; by left).
  f_equal. apply IH. intros y Hy. apply Hp. by right.
Qed.

Lemma remove_id_spec id l : NoDup l -> remove_id id l = base.filter (fun x => x <> id) l.
Proof.
  induction 1 as [|x l Hx Hn IH]; [done|]. cbn [remove_id]. rewrite filter_cons.
  destruct (decide (x = id)) as [->|]; [|by rewrite decide_True, IH].
  rewrite decide_False by tauto. symmetry. apply filter_keeps. by intros y Hy ->.
Qed.

(** What each call does to the view. *)
Definition life_view (op : life_call) (v : view) : view :=
  let id := life_id op in
  match op with
  | LCreate _ => mkView (id :: v_running v) (v_exited v) (<[id := false]> (v_map v))
  | LStart _ => mkView (v_running v) (v_exited v) (<[id := true]> (v_map v))
  | LStop _ _ =>
      mkView (base.filter (fun x => x <> id) (v_running v))
        (reverse (base.filter (fun x => x = id) (v_running v)) ++ v_exited v) (<[id := false]> (v_map v))
  | LRemove _ _ =>
      if decide (id ∈ v_exited v) then mkView (v_running v) (remove_id id (v_exited v)) (delete id (v_map v))
      else mkView (remove_id id (v_running v)) (v_exited v) (delete id (v_map v))
  end.

Lemma v_map_lookup f id :
  v_map (view_of f) !! id = (fun c => st_Running (cj_State c)) <$> f_ContainerMap f !! id.
Proof. cbn. by rewrite lookup_fmap. Qed.

(** *** Phases *)

Lemma view_ok_spec v :
  view_ok v <-> NoDup (v_running v) /\ NoDup (v_exited v)
    /\ (forall id, id ∈ v_running v -> id ∈ v_exited v -> False)
    /\ (forall id, id ∈ v_running v \/ id ∈ v_exited v -> is_Some (v_map v !! id)).
Proof. unfold view_ok. rewrite NoDup_app. naive_solver. Qed.

Lemma phase_create c v :
  view_ok v -> v_map v !! life_id (LCreate c) = None ->
  let v' := life_view (LCreate c) v in
  view_ok v' /\ phase_of v' (life_id (LCreate c)) = PCreated
  /\ forall id, id <> life_id (LCreate c) -> phase_of v' id = phase_of v id.
Proof.
  set (i := life_id (LCreate c)). intros (Hr & He & Hd & Hk)%view_ok_spec Hf v'.
  assert (i ∉ v_running v /\ i ∉ v_exited v) as [Hi1 Hi2].
  { split; intros Hi; destruct (Hk i ltac:(tauto)); congruence. }
  split; [|split].
  - apply view_ok_spec. cbn. fold i. split; [by constructor|]. split; [done|]. split.
    + intros id [->|?]%elem_of_cons; [done|]. by apply Hd.
    + intros id Hid. destruct (decide (id = i)) as [->|]; [by rewrite lookup_insert_eq|].
      rewrite lookup_insert_ne by done. apply Hk. destruct Hid as [[->|?]%elem_of_cons|?]; [done|by left|by right].
  - unfold phase_of. cbn. fold i. rewrite lookup_insert_eq, decide_False by done. by rewrite decide_True by left.
  - intros id Hne. unfold phase_of. cbn. fold i. rewrite lookup_insert_ne by done.
    destruct (v_map v !! id); [|done]. case_decide; [done|].
    destruct (decide (id ∈ v_running v)) as [Hi|Hi];
      [rewrite decide_True by (by right)|rewrite decide_False by (by intros [->|?]%elem_of_cons)]; done.
Qed.

Lemma phase_start id v :
  view_ok v -> is_Some (v_map v !! id) ->
  let v' := life_view (LStart id) v in
  view_ok v' /\ phase_of v' id = snd (life_step (LStart id) true (phase_of v id))
  /\ forall id', id' <> id -> phase_of v' id' = phase_of v id'.
Proof.
  intros (Hr & He & Hd & Hk)%view_ok_spec [b Hb] v'. split; [|split].
  - apply view_ok_spec. cbn. split_and!; try done. intros id' Hid'.
    destruct (decide (id' = id)) as [->|]; [by rewrite lookup_insert_eq|]. rewrite lookup_insert_ne by done. by apply Hk.
  - unfold phase_of. cbn. rewrite lookup_insert_eq, Hb. by destruct b; repeat case_decide.
  - intros id' Hne. unfold phase_of. cbn. by rewrite lookup_insert_ne.
Qed.

Lemma phase_stop id t v :
  view_ok v ->
  let v' := life_view (LStop id t) v in
  view_ok v' /\ phase_of v' id = snd (life_step (LStop id t) true (phase_of v id))
  /\ forall id', id' <> id -> phase_of v' id' = phase_of v id'.
Proof.
  intros (Hr & He & Hd & Hk)%view_ok_spec v'.
  assert (forall id', id' ∈ base.filter (fun x => x <> id) (v_running v) <-> id' <> id /\ id' ∈ v_running v) as H1.
  { intros id'. by rewrite list_elem_of_filter. }
  assert (forall id', id' ∈ reverse (base.filter (fun x => x = id) (v_running v)) ++ v_exited v
            <-> (id' = id /\ id ∈ v_running v) \/ id' ∈ v_exited v) as H2.
  { intros id'. rewrite elem_of_app, elem_of_reverse, list_elem_of_filter. naive_solver. }
  split; [|split].
  - apply view_ok_spec. cbn. split; [by apply NoDup_filter|]. split; [|split].
    + apply NoDup_app. split; [|split; [|done]].
      * rewrite reverse_Permutation. by apply NoDup_filter.
      * intros id' [-> Hin]%elem_of_reverse%list_elem_of_filter Hx. by apply (Hd id).
    + intros id'. rewrite H1, H2. intros [? ?] [[? _]|?]; [done|]. by eapply Hd.
    + intros id'. rewrite H1, H2. intros Hid'. destruct (decide (id' = id)) as [->|]; [by rewrite lookup_insert_eq|].
      rewrite lookup_insert_ne by done. apply Hk. tauto.
  - unfold phase_of. cbn [v_map v_exited v_running life_view life_id v']. rewrite lookup_insert_eq.
    destruct (decide (id ∈ v_running v)) as [Hir|Hir].
    { rewrite decide_True by (apply H2; tauto). destruct (Hk id ltac:(tauto)) as [b ->].
      rewrite decide_False by (intros ?; by eapply Hd). by destruct b. }
    destruct (decide (id ∈ v_exited v)) as [Hie|Hie].
    { rewrite decide_True by (apply H2; tauto). destruct (Hk id ltac:(tauto)) as [b ->]. by destruct b. }
    rewrite decide_False by (rewrite H2; tauto). rewrite decide_False by (rewrite H1; tauto).
    by destruct (v_map v !! id).
  - intros id' Hne. unfold phase_of. cbn [v_map v_exited v_running life_view life_id v']. rewrite lookup_insert_ne by done.
    destruct (v_map v !! id'); [|done].
    destruct (decide (id' ∈ v_exited v)); [rewrite decide_True by (apply H2; tauto); done|].
    rewrite (decide_False (P := id' ∈ reverse _ ++ _)) by (rewrite H2; tauto).
    destruct (decide (id' ∈ v_running v)); [rewrite decide_True by (apply H1; tauto)|rewrite decide_False by (rewrite H1; tauto)]; done.
Qed.

Lemma phase_remove id o v :
  view_ok v -> (id ∈ v_running v \/ id ∈ v_exited v) ->
  let v' := life_view (LRemove id o) v in
  view_ok v' /\ phase_of v' id = Absent
  /\ forall id', id' <> id -> phase_of v' id' = phase_of v id'.
Proof.
  intros (Hr & He & Hd & Hk)%view_ok_spec Hl v'.
  assert (exists r e, v' = mkView r e (delete id (v_map v))
    /\ NoDup r /\ NoDup e /\ (forall x, x ∈ r <-> x <> id /\ x ∈ v_running v)
    /\ (forall x, x ∈ e <-> x <> id /\ x ∈ v_exited v)) as (r & e & -> & Hnr & Hne & H1 & H2).
  { unfold v', life_view, life_id. case_decide as Hid; eexists _, _; (split; [reflexivity|]);
      rewrite remove_id_spec by done.
    - split; [done|]. split; [by apply NoDup_filter|]. split; intros x; [|by rewrite list_elem_of_filter].
      split; [|by intros [_ ?]]. intros Hx. split; [|done]. intros ->. by eapply Hd.
    - split; [by apply NoDup_filter|]. split; [done|]. split; intros x; [by rewrite list_elem_of_filter|].
      split; [|by intros [_ ?]]. intros Hx. split; [|done]. by intros ->. }
  split; [|split].
  - apply view_ok_spec. cbn. split_and!; try done.
    + intros x. rewrite H1, H2. intros [_ ?] [_ ?]. by eapply Hd.
    + intros x. rewrite H1, H2. intros Hx. rewrite lookup_delete_ne by naive_solver. apply Hk. tauto.
  - unfold phase_of. cbn. by rewrite lookup_delete_eq.
  - intros x Hx. unfold phase_of. cbn. rewrite lookup_delete_ne by done. destruct (v_map v !! x); [|done].
    destruct (decide (x ∈ v_exited v)); [by rewrite decide_True by (apply H2; tauto)|].
    rewrite (decide_False (P := x ∈ e)) by (rewrite H2; tauto).
    destruct (decide (x ∈ v_running v)); [by rewrite decide_True by (apply H1; tauto)|by rewrite decide_False by (rewrite H1; tauto)].
Qed.

(** *** The calls *)

Lemma view_status id s f : view_of (updateContainerStatus id s f) = view_of f.
Proof. unfold view_of. cbn. by rewrite ids_set_status. Qed.

Lemma known_phase f id :
  phase_of (view_of f) id = Absent <-> f_ContainerMap f !! id = None.
Proof.
  unfold phase_of. rewrite v_map_lookup. destruct (f_ContainerMap f !! id) as [c|]; cbn; [|done].
  split; [|done]. by repeat case_match.
Qed.

(** What a call does when no error is injected: it succeeds as its step says,
    with its effect on the view, or fails and leaves the view alone. *)
Definition life_result (op : life_call) (f : FakeDockerClient) (err : option error) (f' : FakeDockerClient) : Prop :=
  f_Errors f' = ∅
  /\ if fst (life_step op (joins f (life_id op)) (phase_of (view_of f) (life_id op)))
     then err = None /\ view_of f' = life_view op (view_of f)
     else is_Some err /\ view_of f' = view_of f.

Lemma create_runs c f :
  f_Errors f = ∅ -> exists err f', run_life (LCreate c) f = (err, f') /\ life_result (LCreate c) f err f'.
Proof.
  intros He. unfold run_life, bind. cbn [CreateContainer fake_docker]. unfold fake_CreateContainer.
  rewrite fake_op_run by done. unfold bind, modify, tick, ret. cbv beta iota zeta.
  eexists _, _. split; [reflexivity|].
  set (f1 := appendContainerTrace _ _ _).
  assert (view_of f1 = view_of f) as Hv by (unfold f1; by rewrite view_trace, view_called).
  assert (f_Errors f1 = ∅) as He1 by (unfold f1; by rewrite errors_trace, errors_called).
  split; [exact He1|]. split; [done|]. rewrite <- Hv. unfold view_of, life_view, life_id. cbn. f_equal.
  by rewrite fmap_insert.
Qed.

Lemma start_runs id f :
  f_Errors f = ∅ -> exists err f', run_life (LStart id) f = (err, f') /\ life_result (LStart id) f err f'.
Proof.
  intros He. unfold run_life, bind. cbn [StartContainer fake_docker]. unfold fake_StartContainer.
  rewrite fake_op_run by done. unfold bind, modify, tick, ret, get. cbv beta iota zeta.
  set (f1 := appendContainerTrace _ _ _).
  assert (view_of f1 = view_of f) as Hv by (unfold f1; by rewrite view_trace, view_called).
  assert (f_Errors f1 = ∅) as He1 by (unfold f1; by rewrite errors_trace, errors_called).
  assert (f_ContainerMap f1 = f_ContainerMap f) as Hm by (unfold f1; by rewrite map_trace, map_called).
  assert (dct_ID <$> f_RunningContainerList f1 = dct_ID <$> f_RunningContainerList f) as Hids by exact (f_equal v_running Hv).
  rewrite Hm. destruct (f_ContainerMap f !! id) as [c|] eqn:Ec.
  2:{ eexists _, _. split; [reflexivity|]. split; [exact He1|]. cbn [life_id].
      rewrite (proj2 (known_phase f id) Ec). cbn. by split; [eexists|]. }
  assert (phase_of (view_of f) id <> Absent) as Hp by (rewrite known_phase; congruence).
  rewrite Hids. unfold life_result. cbn [life_id].
  assert (joins f id = negb (IsContainer (hc_NetworkMode (cj_HostConfig c))
     && negb (bool_decide (ConnectedContainer (hc_NetworkMode (cj_HostConfig c)) ∈ dct_ID <$> f_RunningContainerList f)))) as ->.
  { unfold joins. rewrite Ec. cbv zeta. rewrite negb_andb, negb_involutive. done. }
  destruct (IsContainer _ && _); cbn [negb].
  - eexists _, _. split; [reflexivity|]. split; [exact He1|].
    assert (fst (life_step (LStart id) false (phase_of (view_of f) id)) = false) as -> by by destruct (phase_of _ _).
    by split; [eexists|].
  - eexists _, _. split; [reflexivity|]. split; [exact He1|].
    assert (fst (life_step (LStart id) true (phase_of (view_of f) id)) = true) as -> by by destruct (phase_of _ _).
    split; [done|]. rewrite view_status, <- Hv. unfold view_of, life_view. cbn. f_equal. by rewrite fmap_insert.
Qed.

Lemma stop_runs id t f :
  f_Errors f = ∅ -> exists err f', run_life (LStop id t) f = (err, f') /\ life_result (LStop id t) f err f'.
Proof.
  intros He. unfold run_life, bind. cbn [StopContainer fake_docker]. unfold fake_StopContainer.
  rewrite fake_op_run by done. unfold bind, modify, tick, ret, get. cbv beta iota zeta.
  set (f1 := updateContainerStatus _ _ _).
  assert (view_of f1 = view_of f) as Hv by (unfold f1; by rewrite view_status, view_trace, view_called).
  assert (f_Errors f1 = ∅) as He1 by (unfold f1; change (f_Errors (appendContainerTrace "Stopped" id (called "stop" f)) = ∅); by rewrite errors_trace, errors_called).
  assert (fst (life_step (LStop id t) (joins f id) (phase_of (view_of f) id)) = true) as Hs by by destruct (phase_of _ _).
  set (container := stopped_container _ _ _).
  assert (st_Running (cj_State container) = false) as Hc by (unfold container, stopped_container; by case_match).
  clearbody container f1. eexists _, _. split; [reflexivity|]. split; [exact He1|]. cbn [life_id]. rewrite Hs.
  split; [done|]. rewrite <- Hv. unfold view_of, life_view, life_id. cbn. f_equal.
  - exact (ids_filter (fun x => x <> id) (f_RunningContainerList f1)).
  - rewrite fmap_app. f_equal. rewrite <- (ids_filter (fun x => x = id) (f_RunningContainerList f1)). apply fmap_reverse.
  - by rewrite fmap_insert, Hc.
Qed.

Lemma remove_runs id o f :
  f_Errors f = ∅ -> view_ok (view_of f) ->
  exists err f', run_life (LRemove id o) f = (err, f') /\ life_result (LRemove id o) f err f'.
Proof.
  intros He (_ & _ & _ & Hk)%view_ok_spec. unfold run_life, bind. cbn [RemoveContainer fake_docker]. unfold fake_RemoveContainer.
  rewrite fake_op_run by done. unfold bind, modify, ret, get. cbv beta iota zeta.
  set (f1 := called "remove" f).
  assert (view_of f1 = view_of f) as Hv by (unfold f1; by rewrite view_called).
  assert (f_Errors f1 = ∅) as He1 by (unfold f1; by rewrite errors_called).
  unfold life_result. cbn [life_id]. generalize (joins f id). intros j. rewrite <- Hv in *. clearbody f1. clear Hv He f.
  change (dct_ID <$> f_ExitedContainerList f1) with (v_exited (view_of f1)).
  change (dct_ID <$> f_RunningContainerList f1) with (v_running (view_of f1)).
  assert (forall k f2, view_of (appendContainerTrace "Removed" k f2) = view_of f2) as Ht by (intros; apply view_trace).
  destruct (decide (id ∈ v_exited (view_of f1))) as [Hie|Hie].
  { eexists _, _. split; [reflexivity|]. split; [by rewrite errors_trace|].
    destruct (Hk id ltac:(tauto)) as [b Hb].
    assert (fst (life_step (LRemove id o) j (phase_of (view_of f1) id)) = true) as ->.
    { unfold phase_of. rewrite Hb, decide_True by done. by destruct b. }
    split; [done|]. rewrite Ht. unfold life_view, life_id. rewrite decide_True by done. unfold view_of. cbn. f_equal.
    - apply ids_remove_first.
    - by rewrite fmap_delete. }
  destruct (decide (id ∈ v_running (view_of f1))) as [Hir|Hir].
  - destruct (Hk id ltac:(tauto)) as [b Hb]. pose proof Hb as Hb'. rewrite v_map_lookup in Hb'.
    apply fmap_Some in Hb' as (c & Hc & ->). rewrite Hc.
    assert (phase_of (view_of f1) id = if st_Running (cj_State c) then PRunning else PCreated) as ->.
    { unfold phase_of. by rewrite Hb, decide_False, decide_True. }
    destruct (st_Running (cj_State c)); [eexists _, _; split; [reflexivity|]; split; [done|]; by split; [eexists|]|].
    eexists _, _. split; [reflexivity|]. split; [by rewrite errors_trace|]. split; [done|].
    rewrite Ht. unfold life_view, life_id. rewrite decide_False by done. unfold view_of. cbn. f_equal.
    + apply ids_remove_first.
    + by rewrite fmap_delete.
  - eexists _, _. split; [reflexivity|]. split; [done|].
    assert (fst (life_step (LRemove id o) j (phase_of (view_of f1) id)) = false) as ->.
    { unfold phase_of. destruct (v_map (view_of f1) !! id); [|done]. by rewrite !decide_False. }
    by split; [eexists|].
Qed.

(** C34: the fake client implements the life of containers.  From a client
    whose lists are consistent and have no errors injected, creating a
    container under a new name, starting, stopping and removing any container
    succeeds or fails as its phase says, moves it to the phase that follows,
    leaves the phase of every other container alone, and keeps the lists
    consistent. *)
Theorem fake_docker_refines_lifecycle (op : life_call) (f : FakeDockerClient) :
  f_Errors f = ∅ -> view_ok (view_of f) ->
  (forall c, op = LCreate c -> phase_of (view_of f) (life_id op) = Absent) ->
  exists err f', run_life op f = (err, f')
    /\ let p := phase_of (view_of f) (life_id op) in
       let '(ok, p') := life_step op (joins f (life_id op)) p in
       (err = None <-> ok = true)
       /\ phase_of (view_of f') (life_id op) = p'
       /\ (forall id, id <> life_id op -> phase_of (view_of f') id = phase_of (view_of f) id)
       /\ f_Errors f' = ∅ /\ view_ok (view_of f').
Proof.
  intros He Hok Hf.
  assert (exists err f', run_life op f = (err, f') /\ life_result op f err f') as (err & f' & Hrun & He' & Hres).
  { destruct op; [by apply create_runs|by apply start_runs|by apply stop_runs|by apply remove_runs]. }
  exists err, f'. split; [done|]. cbv zeta.
  destruct (life_step op (joins f (life_id op)) (phase_of (view_of f) (life_id op))) as [ok p'] eqn:Es.
  cbn [fst] in Hres. destruct ok.
  - destruct Hres as [-> Hv]. rewrite Hv. split; [done|].
    assert (view_ok (life_view op (view_of f)) /\ phase_of (life_view op (view_of f)) (life_id op) = p'
      /\ forall id, id <> life_id op -> phase_of (life_view op (view_of f)) id = phase_of (view_of f) id)
      as (? & ? & ?); [|done].
    destruct op as [c|id|id t|id o]; cbn [life_id] in *.
    + injection Es as <-. apply phase_create; [done|].
      specialize (Hf c eq_refl). revert Hf. unfold phase_of. destruct (v_map (view_of f) !! _); [|done].
      by repeat case_match.
    + assert (is_Some (v_map (view_of f) !! id)) as Hs.
      { unfold phase_of in Es. destruct (v_map (view_of f) !! id); [by eexists|done]. }
      destruct (phase_start id (view_of f) Hok Hs) as (H1 & H2 & H3). split; [done|]. split; [|done].
      rewrite H2. destruct (joins f id); [by rewrite Es|]. destruct (phase_of (view_of f) id); discriminate Es.
    + destruct (phase_stop id t (view_of f) Hok) as (H1 & H2 & H3). split; [done|]. split; [|done].
      rewrite H2. by destruct (phase_of (view_of f) id); simplify_eq/=.
    + assert (p' = Absent /\ (id ∈ v_running (view_of f) \/ id ∈ v_exited (view_of f))) as [-> Hl].
      { revert Es. unfold phase_of. destruct (v_map (view_of f) !! id) as [b|]; [|done].
        repeat case_decide; destruct b; cbn; intros; simplify_eq; tauto. }
      by apply phase_remove.
  - destruct Hres as [[e ->] Hv]. rewrite Hv. split; [done|]. split; [|done].
    destruct op as [c|id|id t|id o], (phase_of (view_of f) _), (joins f _); by simplify_eq/=.
Qed.
End FakeTheory.

(** A fake client at work: a client of its own, without sleeping or time. *)
Definition still_env : FakeEnv :=
  Build_FakeEnv (fun _ => 0%Z) (fun _ => 0%Z) (fun _ => 0%N) 1%Z (fun _ => 0%Z) (fun _ => "{}").

Definition sample_create : ContainerCreateConfig :=
  mkContainerCreateConfig "a" zero_DockerConfig zero_HostConfig.

(** A container created, started, stopped and started again is running, is
    still listed among the exited ones, and is removed. *)
Example restarted_container_is_removed :
  let id := GetFakeContainerID "/a" in
  let go op f := snd (run_life (FE := still_env) op f) in
  let f := go (LStart id) (go (LStop id 0) (go (LStart id) (go (LCreate sample_create) NewFakeDockerClient))) in
  (fun c => st_Running (cj_State c)) <$> f_ContainerMap f !! id = Some true
  /\ bool_decide (id ∈ dct_ID <$> f_ExitedContainerList f) = true
  /\ fst (run_life (FE := still_env) (LRemove id (mkRemoveOptions false false)) f) = None.
Proof. split_and!; vm_compute; reflexivity. Qed.

Lemma fake_docker_refines_lifecycle_witness :
  exists err f', run_life (FE := still_env) (LCreate sample_create) NewFakeDockerClient = (err, f')
    /\ err = None /\ phase_of (view_of f') (GetFakeContainerID "/a") = PCreated.
Proof.
  destruct (fake_docker_refines_lifecycle (FE := still_env) (LCreate sample_create) NewFakeDockerClient)
    as (err & f' & Hrun & He & Hp & _).
  - reflexivity.
  - split; [constructor|]. intros id [H|H]; inversion H.
  - intros c _. reflexivity.
  - exists err, f'. split; [exact Hrun|]. split; [by apply He|exact Hp].
Defined.
