(* ===== verification/Instrumented.v ===== *)
(** * Instrumented: the docker client that counts

    libdocker/instrumented_client.go over the counters of metrics/metrics.go:
    a docker client that calls another one and records each operation, its
    latency and its error.  Reading the clock leaves the world alone, so the
    readings are a parameter; latencies are kept in nanoseconds, where the
    code divides into seconds. *)
From S2P Require Import Prelude GoErrors Cri Libdocker Stats Exec.

(** ** The calls of the interface that carry streams

    The streams are part of the world. *)
Class StreamingClient (W : Type) := {
  Logs : string -> LogsOptions -> bool -> M W (option error);
  StartExec : string -> bool -> M W (option error);
  AttachToContainer : string -> AttachOptions -> bool -> M W (option error);
  ResizeExecTTY : string -> Z -> Z -> M W (option error);
  ResizeContainerTTY : string -> Z -> Z -> M W (option error);
}.

(** ** Metrics *)

(** The counters and the histogram, by operation, and how often the clock was
    read. *)
Record docker_metrics := mkMetrics {
  DockerOperations : gmap string nat;
  DockerOperationsLatency : gmap string (list Z);
  DockerOperationsErrors : gmap string nat;
  DockerOperationsTimeout : gmap string nat;
  clock_reads : nat;
}.

Definition Inc (m : gmap string nat) (operation : string) : gmap string nat :=
  <[operation := S (default 0 (m !! operation))]> m.
Definition Observe (m : gmap string (list Z)) (operation : string) (d : Z) : gmap string (list Z) :=
  <[operation := default [] (m !! operation) ++ [d]]> m.

Definition recordOperation (operation : string) (since : Z) (m : docker_metrics) : docker_metrics :=
  mkMetrics (Inc (DockerOperations m) operation) (Observe (DockerOperationsLatency m) operation since)
    (DockerOperationsErrors m) (DockerOperationsTimeout m) (clock_reads m).

Definition is_operationTimeout (err : error) : bool :=
  match err with operationTimeout _ => true | _ => false end.

Definition recordError (operation : string) (err : option error) (m : docker_metrics) : docker_metrics :=
  match err with
  | None => m
  | Some err =>
      mkMetrics (DockerOperations m) (DockerOperationsLatency m)
        (Inc (DockerOperationsErrors m) operation)
        (if is_operationTimeout err then Inc (DockerOperationsTimeout m) operation
         else DockerOperationsTimeout m) (clock_reads m)
  end.

Definition res_err {A} (r : res A) : option error := match r with Ok _ => None | Err e => Some e end.

(** ** The client *)

Section Instrumented.
Context {W : Type} (time_Now : nat -> Z).
Abbreviation MS := (docker_metrics * W)%type.

Definition now : M MS Z := fun '(m, w) =>
  (time_Now (clock_reads m),
   (mkMetrics (DockerOperations m) (DockerOperationsLatency m) (DockerOperationsErrors m)
      (DockerOperationsTimeout m) (S (clock_reads m)), w)).
Definition onClient {A} (m : M W A) : M MS A := fun '(mt, w) => let '(a, w') := m w in (a, (mt, w')).
Definition record (f : docker_metrics -> docker_metrics) : M MS unit := fun '(m, w) => (tt, (f m, w)).

(** Every method: the deferred [recordOperation] runs last. *)
Definition instrument {A} (error_of : A -> option error) (operation : string) (call : M W A) : M MS A :=
  let* start := now in
  let* out := onClient call in
  do* record (recordError operation (error_of out)) in
  let* finish := now in
  do* record (recordOperation operation (finish - start)) in
  ret out.

(** *** The methods *)

Definition in_ListContainers `{DockerClient W} := fun options =>
  instrument res_err "list_containers" (ListContainers options).
Definition in_InspectContainer `{DockerClient W} := fun id =>
  instrument res_err "inspect_container" (InspectContainer id).
Definition in_CreateContainer `{DockerClient W} := fun opts =>
  instrument res_err "create_container" (CreateContainer opts).
Definition in_StartContainer `{DockerClient W} := fun id =>
  instrument res_err "start_container" (StartContainer id).
Definition in_StopContainer `{DockerClient W} := fun id timeout =>
  instrument res_err "stop_container" (StopContainer id timeout).
Definition in_UpdateContainerResources `{DockerClient W} := fun id c =>
  instrument res_err "update_container" (UpdateContainerResources id c).
Definition in_RemoveContainer `{DockerClient W} := fun id opts =>
  instrument res_err "remove_container" (RemoveContainer id opts).
Definition in_InspectImageByRef `{DockerClient W} := fun image =>
  instrument res_err "inspect_image" (InspectImageByRef image).
Definition in_InspectImageByID `{DockerClient W} := fun image =>
  instrument res_err "inspect_image" (InspectImageByID image).
Definition in_ListImages `{DockerClient W} := fun opts =>
  instrument res_err "list_images" (ListImages opts).
Definition in_PullImage `{DockerClient W} := fun imageID auth =>
  instrument res_err "pull_image" (PullImage imageID auth).
Definition in_RemoveImage `{DockerClient W} := fun image =>
  instrument res_err "remove_image" (RemoveImage image).
Definition in_ImageHistory `{DockerClient W} := fun id =>
  instrument res_err "image_history" (ImageHistory id).
Definition in_Version `{DockerClient W} := instrument res_err "version" Version.
Definition in_Info `{DockerClient W} := instrument res_err "info" Info.
Definition in_CreateExec `{DockerClient W} := fun id opts =>
  instrument res_err "create_exec" (CreateExec id opts).
Definition in_InspectExec `{DockerClient W} := fun id =>
  instrument res_err "inspect_exec" (InspectExec id).

Definition in_GetContainerStats `{StatsClient W} := fun id =>
  instrument res_err "stats" (GetContainerStats id).
Definition in_InspectContainerWithSize `{StatsClient W} := fun id =>
  instrument res_err "inspect_container_withsize" (InspectContainerWithSize id).

Definition in_Logs `{StreamingClient W} := fun id opts tty =>
  instrument (fun err => err) "logs" (Logs id opts tty).
Definition in_StartExec `{StreamingClient W} := fun startExec tty =>
  instrument (fun err => err) "start_exec" (StartExec startExec tty).
Definition in_AttachToContainer `{StreamingClient W} := fun id opts tty =>
  instrument (fun err => err) "attach" (AttachToContainer id opts tty).
Definition in_ResizeExecTTY `{StreamingClient W} := fun id height width =>
  instrument (fun err => err) "resize_exec" (ResizeExecTTY id height width).
Definition in_ResizeContainerTTY `{StreamingClient W} := fun id height width =>
  instrument (fun err => err) "resize_container" (ResizeContainerTTY id height width).

Definition NewInstrumentedInterface `{DockerClient W} : DockerClient MS := {|
  ListContainers := in_ListContainers;
  InspectContainer := in_InspectContainer;
  CreateContainer := in_CreateContainer;
  StartContainer := in_StartContainer;
  StopContainer := in_StopContainer;
  UpdateContainerResources := in_UpdateContainerResources;
  RemoveContainer := in_RemoveContainer;
  InspectImageByRef := in_InspectImageByRef;
  InspectImageByID := in_InspectImageByID;
  ListImages := in_ListImages;
  PullImage := in_PullImage;
  RemoveImage := in_RemoveImage;
  ImageHistory := in_ImageHistory;
  Version := in_Version;
  Info := in_Info;
  CreateExec := in_CreateExec;
  InspectExec := in_InspectExec;
|}.

(** The context of a request is not the client's. *)
Definition instrumented_StatsClient `{StatsClient W} : StatsClient MS := {|
  GetContainerStats := in_GetContainerStats;
  InspectContainerWithSize := in_InspectContainerWithSize;
  ctx_Err := onClient ctx_Err;
|}.

Definition instrumented_StreamingClient `{StreamingClient W} : StreamingClient MS := {|
  Logs := in_Logs;
  StartExec := in_StartExec;
  AttachToContainer := in_AttachToContainer;
  ResizeExecTTY := in_ResizeExecTTY;
  ResizeContainerTTY := in_ResizeContainerTTY;
|}.
End Instrumented.


(** ** Code that uses a client *)

(** The calls of the interface, by the type of what they return. *)
Inductive client_call : Type -> Type :=
| CListContainers (o : ListOptions) : client_call (res (list DockerContainer))
| CInspectContainer (id : string) : client_call (res ContainerJSON)
| CInspectContainerWithSize (id : string) : client_call (res (option Z))
| CCreateContainer (c : ContainerCreateConfig) : client_call (res string)
| CStartContainer (id : string) : client_call (res unit)
| CStopContainer (id : string) (timeout : Z) : client_call (res unit)
| CUpdateContainerResources (id : string) (r : Resources) : client_call (res unit)
| CRemoveContainer (id : string) (o : RemoveOptions) : client_call (res unit)
| CInspectImageByRef (image : string) : client_call (res ImageInspect)
| CInspectImageByID (image : string) : client_call (res ImageInspect)
| CListImages (o : ImageListOptions) : client_call (res (list ImageSummary))
| CPullImage (image : string) (a : AuthConfig) : client_call (res unit)
| CRemoveImage (image : string) : client_call (res unit)
| CImageHistory (id : string) : client_call (res (list HistoryResponseItem))
| CLogs (id : string) (o : LogsOptions) (tty : bool) : client_call (option error)
| CVersion : client_call (res DockerVersion)
| CInfo : client_call (res DockerInfo)
| CCreateExec (id : string) (o : ExecOptions) : client_call (res string)
| CStartExec (id : string) (tty : bool) : client_call (option error)
| CInspectExec (id : string) : client_call (res ExecInspect)
| CAttachToContainer (id : string) (o : AttachOptions) (tty : bool) : client_call (option error)
| CResizeContainerTTY (id : string) (h w : Z) : client_call (option error)
| CResizeExecTTY (id : string) (h w : Z) : client_call (option error)
| CGetContainerStats (id : string) : client_call (res StatsJSON).

Definition perform {W A} (D : DockerClient W) (S : StatsClient W) (T : StreamingClient W) (c : client_call A)
  : M W A :=
  match c in client_call A return M W A with
  | CListContainers o => ListContainers o
  | CInspectContainer id => InspectContainer id
  | CInspectContainerWithSize id => InspectContainerWithSize id
  | CCreateContainer c => CreateContainer c
  | CStartContainer id => StartContainer id
  | CStopContainer id t => StopContainer id t
  | CUpdateContainerResources id r => UpdateContainerResources id r
  | CRemoveContainer id o => RemoveContainer id o
  | CInspectImageByRef i => InspectImageByRef i
  | CInspectImageByID i => InspectImageByID i
  | CListImages o => ListImages o
  | CPullImage i a => PullImage i a
  | CRemoveImage i => RemoveImage i
  | CImageHistory id => ImageHistory id
  | CLogs id o tty => Logs id o tty
  | CVersion => Version
  | CInfo => Info
  | CCreateExec id o => CreateExec id o
  | CStartExec id tty => StartExec id tty
  | CInspectExec id => InspectExec id
  | CAttachToContainer id o tty => AttachToContainer id o tty
  | CResizeContainerTTY id h w => ResizeContainerTTY id h w
  | CResizeExecTTY id h w => ResizeExecTTY id h w
  | CGetContainerStats id => GetContainerStats id
  end.

Definition call_error {A} (c : client_call A) : A -> option error :=
  match c in client_call A return A -> option error with
  | CLogs _ _ _ | CStartExec _ _ | CAttachToContainer _ _ _
  | CResizeContainerTTY _ _ _ | CResizeExecTTY _ _ _ => fun err => err
  | CListContainers _ | CInspectContainer _ | CInspectContainerWithSize _ | CCreateContainer _
  | CStartContainer _ | CStopContainer _ _ | CUpdateContainerResources _ _ | CRemoveContainer _ _
  | CInspectImageByRef _ | CInspectImageByID _ | CListImages _ | CPullImage _ _ | CRemoveImage _
  | CImageHistory _ | CVersion | CInfo | CCreateExec _ _ | CInspectExec _ | CGetContainerStats _ => res_err
  end.

(** The operation a call counts as. *)
Definition operation_of {A} (c : client_call A) : string :=
  match c with
  | CListContainers _ => "list_containers"
  | CInspectContainer _ => "inspect_container"
  | CInspectContainerWithSize _ => "inspect_container_withsize"
  | CCreateContainer _ => "create_container"
  | CStartContainer _ => "start_container"
  | CStopContainer _ _ => "stop_container"
  | CUpdateContainerResources _ _ => "update_container"
  | CRemoveContainer _ _ => "remove_container"
  | CInspectImageByRef _ | CInspectImageByID _ => "inspect_image"
  | CListImages _ => "list_images"
  | CPullImage _ _ => "pull_image"
  | CRemoveImage _ => "remove_image"
  | CImageHistory _ => "image_history"
  | CLogs _ _ _ => "logs"
  | CVersion => "version"
  | CInfo => "info"
  | CCreateExec _ _ => "create_exec"
  | CStartExec _ _ => "start_exec"
  | CInspectExec _ => "inspect_exec"
  | CAttachToContainer _ _ _ => "attach"
  | CResizeContainerTTY _ _ _ => "resize_container"
  | CResizeExecTTY _ _ _ => "resize_exec"
  | CGetContainerStats _ => "stats"
  end.

(** Code that reaches docker only by the calls of a client, each of which may
    depend on what the earlier ones returned. *)
Inductive client_code (A : Type) : Type :=
| Return (a : A)
| Call {B : Type} (c : client_call B) (k : B -> client_code A).
Arguments Return {A}.
Arguments Call {A B}.

(** What it returns, the world it leaves, and the calls it made: their
    operation and their error. *)
Fixpoint run {W A} (D : DockerClient W) (S : StatsClient W) (T : StreamingClient W) (p : client_code A) (w : W)
  : A * W * list (string * option error) :=
  match p with
  | Return a => (a, w, [])
  | Call c k =>
      let '(b, w) := perform D S T c w in
      let '(r, l) := run D S T (k b) w in
      (r, (operation_of c, call_error c b) :: l)
  end.

(** The calls of an operation in a list of them. *)
Definition calls_of (operation : string) (l : list (string * option error)) : list (option error) :=
  snd <$> base.filter (fun x => fst x = operation) l.
Definition failed (l : list (option error)) : nat := length (base.filter is_Some l).
Definition timed_out (l : list (option error)) : nat :=
  length (base.filter (fun e => Is_true (default false (is_operationTimeout <$> e))) l).

Definition count (m : gmap string nat) (operation : string) : nat := default 0 (m !! operation).

Lemma count_Inc m o o' : count (Inc m o) o' = (if decide (o = o') then S (count m o') else count m o').
Proof.
  unfold count, Inc. case_decide as Ho; [subst; by rewrite lookup_insert_eq|by rewrite lookup_insert_ne].
Qed.

Lemma failed_cons e l : failed (e :: l) = (match e with Some _ => 1 | None => 0 end) + failed l.
Proof. unfold failed. rewrite filter_cons. destruct e; [by rewrite decide_True by eauto|]. by rewrite decide_False by (by intros []). Qed.

Lemma timed_out_cons e l :
  timed_out (e :: l) = (if default false (is_operationTimeout <$> e) then 1 else 0) + timed_out l.
Proof. unfold timed_out. rewrite filter_cons. by destruct (default false _). Qed.

Lemma calls_of_cons o o' e l :
  calls_of o' ((o, e) :: l) = if decide (o = o') then e :: calls_of o' l else calls_of o' l.
Proof. unfold calls_of. rewrite filter_cons. cbn. by case_decide. Qed.

Section Transparent.
Context {W : Type} (time_Now : nat -> Z) (D : DockerClient W) (S : StatsClient W) (T : StreamingClient W).
Abbreviation MS := (docker_metrics * W)%type.

Lemma perform_instrumented {A} (c : client_call A) :
  perform (@NewInstrumentedInterface W time_Now D) (@instrumented_StatsClient W time_Now S)
    (@instrumented_StreamingClient W time_Now T) c
  = instrument time_Now (call_error c) (operation_of c) (perform D S T c).
Proof. by destruct c. Qed.

(** One call leaves its result and the world, and counts itself. *)
Lemma instrument_run {A} (e : A -> option error) o (call : M W A) m w :
  exists m', instrument time_Now e o call (m, w) = (fst (call w), (m', snd (call w)))
    /\ (forall o', count (DockerOperations m') o' = count (DockerOperations m) o' + (if decide (o = o') then 1 else 0))
    /\ (forall o', length (default [] (DockerOperationsLatency m' !! o'))
          = length (default [] (DockerOperationsLatency m !! o')) + (if decide (o = o') then 1 else 0))
    /\ (forall o', count (DockerOperationsErrors m') o' = count (DockerOperationsErrors m) o'
          + (if decide (o = o') then failed [e (fst (call w))] else 0))
    /\ (forall o', count (DockerOperationsTimeout m') o' = count (DockerOperationsTimeout m) o'
          + (if decide (o = o') then timed_out [e (fst (call w))] else 0)).
Proof.
  unfold instrument, bind, now, onClient, record, ret. destruct (call w) as [a w']. cbn [fst snd].
  eexists. split; [reflexivity|]. split_and!.
  - intros o'. cbn. destruct (e a); cbn; rewrite count_Inc; case_decide; lia.
  - intros o'. assert (forall l, length (default [] (Observe l o (time_Now (clock_reads (recordError o (e a)
        (mkMetrics (DockerOperations m) (DockerOperationsLatency m) (DockerOperationsErrors m)
           (DockerOperationsTimeout m) (Datatypes.S (clock_reads m))))) - time_Now (clock_reads m)) !! o'))
        = length (default [] (l !! o')) + (if decide (o = o') then 1 else 0)) as Hl.
    { intros l. unfold Observe. case_decide as Ho; [subst; rewrite lookup_insert_eq; cbn; by rewrite length_app|].
      rewrite lookup_insert_ne by done. lia. }
    cbn. rewrite Hl. by destruct (e a).
  - intros o'. rewrite failed_cons. cbn. destruct (e a) as [err|]; cbn; [rewrite count_Inc|]; case_decide; lia.
  - intros o'. rewrite timed_out_cons. cbn. destruct (e a) as [err|]; cbn; [|case_decide; lia].
    destruct (is_operationTimeout err); cbn; [rewrite count_Inc|]; case_decide; lia.
Qed.

(** C33: instrumentation is transparent and its counters are exact.  Whatever
    code is run on a client, it returns the same and leaves the same world on
    the instrumented client; and every operation is counted once, with one
    latency, every error as an error, and those that are timeouts also as
    timeouts. *)
Theorem instrumented_transparent {A} (p : client_code A) m w :
  let '(a, w', l) := run D S T p w in
  exists m',
    run (@NewInstrumentedInterface W time_Now D) (@instrumented_StatsClient W time_Now S)
      (@instrumented_StreamingClient W time_Now T) p (m, w) = (a, (m', w'), l)
    /\ forall o,
         count (DockerOperations m') o = count (DockerOperations m) o + length (calls_of o l)
         /\ length (default [] (DockerOperationsLatency m' !! o))
            = length (default [] (DockerOperationsLatency m !! o)) + length (calls_of o l)
         /\ count (DockerOperationsErrors m') o = count (DockerOperationsErrors m) o + failed (calls_of o l)
         /\ count (DockerOperationsTimeout m') o
            = count (DockerOperationsTimeout m) o + timed_out (calls_of o l).
Proof.
  revert m w. induction p as [a|B c k IH]; intros m w; cbn [run].
  { exists m. split; [done|]. intros o. unfold calls_of, failed, timed_out. cbn. lia. }
  rewrite perform_instrumented.
  destruct (instrument_run (call_error c) (operation_of c) (perform D S T c) m w) as (m1 & -> & H1 & H2 & H3 & H4).
  destruct (perform D S T c w) as [b w1]. cbn [fst snd] in *. specialize (IH b m1 w1).
  destruct (run D S T (k b) w1) as [[a w2] l]. destruct IH as (m2 & -> & IH).
  exists m2. split; [done|]. intros o.
  destruct (IH o) as (J1 & J2 & J3 & J4). rewrite J1, J2, J3, J4, H1, H2, H3, H4, calls_of_cons.
  rewrite failed_cons, timed_out_cons.
  destruct (decide (operation_of c = o)); [rewrite failed_cons, timed_out_cons; cbn [length]|];
    repeat split; change (failed []) with 0; change (timed_out []) with 0; lia.
Qed.

End Transparent.
