(* ===== verification/StreamServer.v ===== *)
(** * StreamServer: the addresses of streaming requests

    streaming/server.go: the configuration of the streaming server, its routes,
    its start and the URLs it hands out, resolved and printed as package
    net/url does; the requests behind them are those of [RequestCache].  The
    matching of a request to a route (go-restful) and the listener are
    parameters; TLS is the fact that it is configured. *)
From S2P Require Import Prelude GoErrors GoPath Cache RequestCache.

(** ** net/url

    A URL with a scheme, a host and a path; what is resolved here has no user,
    query, fragment or opaque part, and its path has the default encoding, so
    [RawPath] stays empty. *)
Record URL := mkURL { url_Scheme : string; url_Host : string; url_Path : string }.

Definition ascii_range (lo hi : N) (c : ascii) : bool :=
  ((lo <=? Ascii.N_of_ascii c) && (Ascii.N_of_ascii c <=? hi))%N.
Definition one_of (s : string) (c : ascii) : bool := negb (lacks c s).

(** [shouldEscape] says no, in a path and in a host. *)
Definition unreserved (c : ascii) : bool :=
  ascii_range 97 122 c || ascii_range 65 90 c || ascii_range 48 57 c || one_of "-_.~" c.
Definition path_char (c : ascii) : bool := unreserved c || one_of "$&+,/:;=@" c.
Definition host_char (c : ascii) : bool :=
  unreserved c || one_of "!$&'()*+,;=:[]<>" c || Ascii.eqb c (Ascii.ascii_of_N 34).

Definition percent (c : ascii) : string :=
  let n := Ascii.N_of_ascii c in
  String "%" (String (ascii_upper (hex_digit (n / 16))) (String (ascii_upper (hex_digit (n mod 16))) EmptyString)).
Fixpoint escape (keep : ascii -> bool) (s : string) : string :=
  match s with
  | EmptyString => EmptyString
  | String c s' => if keep c then String c (escape keep s') else percent c +:+ escape keep s'
  end.

Definition unhex (c : ascii) : option N :=
  let n := Ascii.N_of_ascii c in
  if ascii_range 48 57 c then Some (n - 48)%N
  else if ascii_range 97 102 c then Some (n - 97 + 10)%N
  else if ascii_range 65 70 c then Some (n - 65 + 10)%N
  else None.

(** [unescape] of a path; None when it is malformed. *)
Fixpoint unescape (s : string) : option string :=
  match s with
  | EmptyString => Some EmptyString
  | String c s' =>
      if Ascii.eqb c "%" then
        match s' with
        | String a (String b s'') =>
            match unhex a, unhex b with
            | Some x, Some y => String (Ascii.ascii_of_N (x * 16 + y)) <$> unescape s''
            | _, _ => None
            end
        | _ => None
        end
      else String c <$> unescape s'
  end.

Definition EscapedPath (u : URL) : string :=
  if decide (url_Path u = "*") then "*" else escape path_char (url_Path u).

Definition URL_String (u : URL) : string :=
  let scheme := if decide (url_Scheme u = "") then "" else url_Scheme u +:+ ":" in
  let authority :=
    if decide (url_Scheme u = "" /\ url_Host u = "") then ""
    else (if decide (url_Host u <> "" \/ url_Path u <> "") then "//" else "")
         +:+ escape host_char (url_Host u) in
  let path := EscapedPath u in
  let buf := scheme +:+ authority
             +:+ (if decide (path <> "" /\ has_prefix path "/" = false /\ url_Host u <> "") then "/" else "") in
  (** a colon in the first segment of a bare relative path *)
  let buf := if decide (buf = "" /\ contains (default "" (head (split path "/"))) ":" = true) then "./" else buf in
  buf +:+ path.

(** The loop of [resolvePath] over the elements: what is written so far and
    whether nothing was. *)
Definition resolve_step (st : string * bool) (elem : string) : string * bool :=
  let '(dst, first) := st in
  if decide (elem = ".") then (dst, false)
  else if decide (elem = "..") then
    match split (sdrop 1 dst) "/" with
    | [] | [_] => ("/", true)
    | parts => ("/" +:+ join (removelast parts) "/", first)
    end
  else (dst +:+ (if first then "" else "/") +:+ elem, false).

(** Everything up to the last slash, which is kept. *)
Definition upto_slash (s : string) : string := join (removelast (split s "/") ++ [""]) "/".

Definition resolvePath (base ref : string) : string :=
  let full := if decide (ref = "") then base
              else if has_prefix ref "/" then ref
              else upto_slash base +:+ ref in
  if decide (full = "") then ""
  else
    let elems := split full "/" in
    let '(dst, _) := foldl resolve_step ("/", true) elems in
    let r := match last elems with
             | Some "." | Some ".." => dst +:+ "/"
             | _ => dst
             end in
    if has_prefix r "//" then sdrop 1 r else r.

(** [ResolveReference] of a reference that is only a path; the error of
    [setPath] leaves the path as it was. *)
Definition ResolveReference (u : URL) (ref : string) : URL :=
  mkURL (url_Scheme u) (url_Host u)
    (default ref (unescape (resolvePath (EscapedPath u) (EscapedPath (mkURL "" "" ref))))).

(** ** The server *)

Record Config := mkConfig {
  sc_Addr : string;
  sc_BaseURL : option URL;
  sc_StreamIdleTimeout : Z;
  sc_StreamCreationTimeout : Z;
  sc_SupportedRemoteCommandProtocols : list string;
  sc_SupportedPortForwardProtocols : list string;
  sc_TLSConfig : bool;
}.

Inductive stream_endpoint := ExecEndpoint | AttachEndpoint | PortForwardEndpoint.
#[export] Instance stream_endpoint_eq_dec : EqDecision stream_endpoint.
Proof. solve_decision. Defined.

Record stream_route := mkRoute { rte_Method : string; rte_Path : string; rte_Handler : stream_endpoint }.

Record server := mkServer { sv_config : Config; sv_BaseURL : URL; sv_routes : list stream_route }.

Definition endpoints : list (string * stream_endpoint) :=
  [("/exec/{token}", ExecEndpoint); ("/attach/{token}", AttachEndpoint);
   ("/portforward/{token}", PortForwardEndpoint)].

Definition NewServer (config : Config) : server :=
  let base := match sc_BaseURL config with
              | Some u => u
              | None => mkURL (if sc_TLSConfig config then "https" else "http") (sc_Addr config) ""
              end in
  let pathPrefix := Dir (url_Path base) in
  mkServer config base
    (flat_map (fun '(path, handler) =>
       (fun method => mkRoute method (Join [pathPrefix; path]) handler) <$> ["GET"; "POST"]) endpoints).

Definition buildURL (s : server) (method token : string) : string :=
  URL_String (ResolveReference (sv_BaseURL s) (Join [method; token])).

(** [net.Listen], whose result is the address it listens on, [ServeTLS] and
    [Serve], which return when the server ends, and [Close]. *)
Class Listener (W : Type) := {
  net_Listen : string -> string -> M W (res string);
  http_ServeTLS : string -> M W (res unit);
  http_Serve : string -> M W (res unit);
  http_Close : M W (res unit);
}.

Definition set_base_host (host : string) (s : server) : server :=
  mkServer (sv_config s) (mkURL (url_Scheme (sv_BaseURL s)) host (url_Path (sv_BaseURL s))) (sv_routes s).

Section Start.
Context {W : Type} `{Listener W}.

Definition on_listener {A} (m : M W A) : M (server * W) A := fun '(s, w) => let '(a, w') := m w in (a, (s, w')).

Definition Start (stayUp : bool) : M (server * W) (res unit) :=
  if negb stayUp then ret (Err (Errorf "stayUp=false is not yet implemented"))
  else
    let* '(s, _) := get in
    let? addr := on_listener (net_Listen "tcp" (sc_Addr (sv_config s))) in
    do* modify (fun '(s, w) => (set_base_host addr s, w)) in
    if sc_TLSConfig (sv_config s) then on_listener (http_ServeTLS addr) else on_listener (http_Serve addr).

Definition Stop : M (server * W) (res unit) := on_listener http_Close.
End Start.

(** ** Escaping *)

Lemma unescape_escape (keep : ascii -> bool) s :
  keep "%"%char = false -> unescape (escape keep s) = Some s.
Proof.
  intros Hk. induction s as [|c s IH]; [done|]. cbn [escape]. destruct (keep c) eqn:Hc.
  - cbn [unescape]. destruct (Ascii.eqb_spec c "%"); [congruence|]. by rewrite IH.
  - assert (forall t, unescape (percent c +:+ t) = String c <$> unescape t) as -> by
      (intros t; destruct c as [[] [] [] [] [] [] [] []]; reflexivity).
    by rewrite IH.
Qed.

Lemma escape_app keep (a b : string) : escape keep (a +:+ b) = escape keep a +:+ escape keep b.
Proof.
  induction a as [|c a IH]; [done|]. change (String c a +:+ b) with (String c (a +:+ b)).
  cbn [escape]. rewrite IH. destruct (keep c); [done|]. by rewrite sapp_assoc.
Qed.

Lemma escape_join keep (c : ascii) (l : list string) :
  keep c = true -> escape keep (join l (String c "")) = join (escape keep <$> l) (String c "").
Proof.
  intros Hc. induction l as [|a l IH]; [done|]. destruct l as [|b l]; [done|].
  cbn [fmap list_fmap]. rewrite !join_cons, !escape_app. rewrite IH. cbn [escape]. by rewrite Hc.
Qed.

Lemma percent_lacks_slash c : lacks slash (percent c) = true.
Proof. by destruct c as [[] [] [] [] [] [] [] []]. Qed.

Lemma escape_lacks_slash keep s : lacks slash s = true -> lacks slash (escape keep s) = true.
Proof.
  unfold lacks. induction s as [|c s IH]; [done|]. cbn [escape sforall]. intros [Hc Hs]%andb_prop.
  destruct (keep c); [cbn [sforall]; by rewrite Hc, IH|].
  rewrite sforall_app. rewrite IH by done. by rewrite (percent_lacks_slash c : sforall _ _ = true).
Qed.

Lemma escape_plain s : plain s -> plain (escape path_char s).
Proof.
  intros (H1 & H2 & H3 & H4). assert (forall t, escape path_char s = escape path_char t -> s = t) as Hinj.
  { intros t Ht. assert (Some s = Some t) as [= ?]; [|done].
    by rewrite <- (unescape_escape path_char s), <- (unescape_escape path_char t), Ht. }
  split; [by apply escape_lacks_slash|]. split_and!.
  - intros H. by apply H2, (Hinj "").
  - intros H. by apply H3, (Hinj ".").
  - intros H. by apply H4, (Hinj "..").
Qed.

Lemma escape_keeps keep s : sforall keep s = true -> escape keep s = s.
Proof.
  induction s as [|c s IH]; [done|]. cbn [sforall escape]. intros [-> Hs]%andb_prop. by rewrite IH.
Qed.

(** ** Resolving *)

Lemma abs_path_cons_app c cs : abs_path (c :: cs) = "/" +:+ c +:+ abs_path cs.
Proof.
  destruct cs as [|d cs]; [change (abs_path []) with ""; by rewrite sapp_nil_r|].
  by rewrite !abs_path_cons, join_cons.
Qed.

Lemma resolve_plain cs dst :
  Forall plain cs -> foldl resolve_step (dst, false) cs = (dst +:+ abs_path cs, false).
Proof.
  intros Hp. revert dst. induction Hp as [|c cs (_ & _ & H1 & H2) _ IH]; intros dst.
  - change (abs_path []) with "". by rewrite sapp_nil_r.
  - cbn [foldl]. unfold resolve_step at 2. rewrite !decide_False by done. rewrite IH.
    by rewrite abs_path_cons_app, !sapp_assoc.
Qed.

Lemma last_not_dots (cs : list string) (A : Type) (x y : A) :
  Forall plain cs ->
  match last cs with Some "." | Some ".." => x | _ => y end = y.
Proof.
  intros Hp. destruct (last cs) as [c|] eqn:Hl; [|done].
  assert (plain c) as (_ & _ & H1 & H2).
  { rewrite Forall_forall in Hp. apply Hp. by apply last_Some_elem_of. }
  repeat (case_match; try done; subst).
Qed.

Lemma join_plain_head (c : string) cs :
  plain c -> join (c :: cs) "/" <> "" /\ has_prefix (join (c :: cs) "/") "/" = false.
Proof.
  intros (H1 & H2 & _). destruct c as [|a c]; [done|].
  assert (exists t, join (String a c :: cs) "/" = String a t) as [t ->].
  { destruct cs; [by eexists|]. rewrite join_cons. by eexists. }
  split; [done|]. unfold lacks in H1. cbn [sforall] in H1. apply andb_prop in H1 as [H1 _].
  rewrite has_prefix_char. by apply negb_true_iff.
Qed.

Lemma abs_path_app (a b : list string) : abs_path (a ++ b) = abs_path a +:+ abs_path b.
Proof.
  induction b as [|c b IH] using rev_ind; [rewrite app_nil_r; change (abs_path []) with ""; by rewrite sapp_nil_r|].
  by rewrite app_assoc, !abs_path_snoc, IH, sapp_assoc.
Qed.

Lemma abs_path_slash base : abs_path base +:+ "/" = abs_path (base ++ [""]).
Proof. by rewrite abs_path_app. Qed.

Lemma upto_slash_dir (base : list string) :
  Forall plain base -> upto_slash (abs_path base +:+ "/") = abs_path base +:+ "/".
Proof.
  intros Hb. unfold upto_slash. rewrite abs_path_slash.
  assert (split (abs_path (base ++ [""])) "/" = ("" :: base) ++ [""]) as ->.
  { apply (split_join slash). constructor; [done|]. apply Forall_app. split; [|by constructor].
    eapply Forall_impl; [exact Hb|]. by intros x [? _]. }
  by rewrite removelast_last.
Qed.

Lemma resolvePath_abs (base cs : list string) :
  Forall plain base -> Forall plain cs -> cs <> [] ->
  resolvePath (abs_path base +:+ "/") (join cs "/") = abs_path (base ++ cs).
Proof.
  intros Hb Hc Hne. destruct cs as [|c cs]; [done|]. unfold resolvePath.
  assert (plain c) as Hpc by by inversion Hc. destruct (join_plain_head c cs Hpc) as [H1 H2].
  rewrite (decide_False (P := join (c :: cs) "/" = "")) by exact H1. rewrite H2, upto_slash_dir by done.
  assert ((abs_path base +:+ "/") +:+ join (c :: cs) "/" = abs_path (base ++ c :: cs)) as ->.
  { rewrite abs_path_app, abs_path_cons. apply sapp_assoc. }
  assert (Forall plain (base ++ c :: cs)) as Hp by by apply Forall_app.
  rewrite decide_False by (rewrite abs_path_app, abs_path_cons; by destruct (abs_path base)).
  rewrite split_abs_path by done. cbn [foldl]. rewrite (resolve_plain _ "/") by done.
  destruct (base ++ c :: cs) as [|d l] eqn:El; [by destruct base|].
  change (last ("" :: d :: l)) with (last (d :: l)). rewrite (last_not_dots (d :: l)) by done.
  rewrite abs_path_cons. change ("/" +:+ "/" +:+ join (d :: l) "/") with ("//" +:+ join (d :: l) "/").
  by rewrite has_prefix_app.
Qed.

(** ** Tokens *)

Lemma b64_char_token n : unreserved (b64_char n) = true /\ Ascii.eqb (b64_char n) slash = false.
Proof.
  destruct (decide (n < 64)%N) as [Hn|Hn].
  - assert (forallb (fun k => unreserved (b64_char (N.of_nat k)) && negb (Ascii.eqb (b64_char (N.of_nat k)) slash))
      (seq 0 64) = true) as H by by vm_compute.
    rewrite forallb_forall in H. specialize (H (N.to_nat n)). rewrite N2Nat.id in H.
    apply andb_prop in H; [|apply in_seq; lia]. by rewrite negb_true_iff in H.
  - assert (b64_char n = "_"%char) as ->; [|done]. unfold b64_char.
    rewrite !(proj2 (N.ltb_ge _ _)) by lia. by rewrite (proj2 (N.eqb_neq _ _)) by lia.
Qed.

Lemma b64_encode_token bs :
  sforall path_char (b64_encode bs) = true /\ lacks slash (b64_encode bs) = true.
Proof.
  assert (forall n s, sforall path_char s = true /\ lacks slash s = true ->
    sforall path_char (String (b64_char n) s) = true /\ lacks slash (String (b64_char n) s) = true) as Hc.
  { intros n s [H1 H2]. destruct (b64_char_token n) as [J1 J2]. unfold lacks in *. cbn [sforall].
    unfold path_char at 1. by rewrite J1, J2, H1, H2. }
  revert bs. fix IH 1. intros [|a [|b [|c bs]]]; cbn [b64_encode]; repeat apply Hc; (apply IH || done).
Qed.


(** A token the cache gave out is an element of a path as it is. *)
Lemma uniqueToken_token {W} `{TimeLaws W} tries tokens w t w' :
  uniqueToken_loop tries tokens w = (Ok t, w') -> sforall path_char t = true /\ plain t.
Proof.
  revert w. induction tries as [|tries IH]; intros w; cbn [uniqueToken_loop]; [done|].
  pose proof (Rand_len tokenSize w) as Hl.
  destruct (RandRead tokenSize w) as [[bs|e] w1]; [|done].
  specialize (Hl bs eq_refl). apply b64_token_length in Hl.
  destruct (tokens !! b64_encode bs); [apply IH|]. rewrite <- Hl, stake_all. intros [= <- _].
  destruct (b64_encode_token bs) as [J1 J2]. split; [done|]. split; [done|].
  destruct (b64_encode bs) as [|a [|b [|c s]]]; cbn in Hl; unfold tokenLen in Hl; try lia. by split_and!.
Qed.

Lemma Insert_token {W} `{TimeLaws W} req c w t c' w' :
  Insert req (c, w) = (Ok t, (c', w')) -> sforall path_char t = true /\ plain t.
Proof.
  unfold Insert. destruct (gc (c, w)) as [[] [c1 w1]]. destruct (Nat.eqb _ _); [done|].
  destruct (uniqueToken (rc_tokens c1) w1) as [[t'|e] w2] eqn:E; [|done].
  destruct (Now w2) as [now w3]. intros [= <- _ _]. by eapply uniqueToken_token.
Qed.

(** ** The addresses *)

Definition endpoint_name (e : stream_endpoint) : string :=
  match e with ExecEndpoint => "exec" | AttachEndpoint => "attach" | PortForwardEndpoint => "portforward" end.

Definition endpoint_of (r : request) : stream_endpoint :=
  match r with ReqExec _ => ExecEndpoint | ReqAttach _ => AttachEndpoint | ReqPortForward _ => PortForwardEndpoint end.

Lemma endpoint_plain e : plain (endpoint_name e).
Proof. by destruct e; split_and!. Qed.

(** The path of an endpoint under a base, with what stands for the token. *)
Definition endpoint_path (base : list string) (e : stream_endpoint) (token : string) : string :=
  abs_path (base ++ [endpoint_name e; token]).

Lemma Join_relative (cs : list string) : cs <> [] -> Forall plain cs -> Join cs = join cs "/".
Proof.
  intros Hne Hp. unfold Join.
  assert (filter (fun e => e <> "") cs = cs) as ->.
  { clear Hne. induction Hp as [|c cs Hc _ IH]; [done|]. rewrite filter_cons, decide_True by apply Hc. by rewrite IH. }
  destruct cs as [|c cs]; [done|].
  destruct (join_plain_head c cs) as [H1 H2]; [by inversion Hp|].
  unfold Clean. rewrite decide_False, H2 by done.
  assert (split (join (c :: cs) "/") "/" = c :: cs) as ->.
  { apply (split_join slash). eapply Forall_impl; [exact Hp|]. by intros x [? _]. }
  rewrite foldl_clean_plain, app_nil_r, rev_involutive by done. cbv zeta.
  change ("" +:+ join (c :: cs) "/") with (join (c :: cs) "/"). by rewrite decide_False.
Qed.

(** The base path of a server that serves under a directory. *)
Definition base_url (scheme host : string) (base : list string) : URL := mkURL scheme host (abs_path base +:+ "/").

Lemma path_escape_slash : path_char slash = true.
Proof. done. Qed.

Lemma escape_abs_path base : escape path_char (abs_path base) = abs_path (escape path_char <$> base).
Proof. unfold abs_path. rewrite (escape_join _ slash) by done. done. Qed.

Lemma EscapedPath_abs u base : url_Path u = abs_path base -> base <> [] -> EscapedPath u = abs_path (escape path_char <$> base).
Proof.
  intros Hu Hne. unfold EscapedPath. rewrite Hu. destruct base as [|b base]; [done|].
  rewrite decide_False by by rewrite abs_path_cons. apply escape_abs_path.
Qed.

Lemma unescape_fmap_id (cs : list string) :
  sforall path_char (join cs "/") = true -> escape path_char (join cs "/") = join cs "/".
Proof. apply escape_keeps. Qed.

(** What the server hands out for a token: its base, the endpoint and the
    token, in its printed form. *)
Lemma buildURL_spec s scheme host base e token :
  sv_BaseURL s = base_url scheme host base -> Forall plain base -> host <> "" ->
  plain token -> sforall path_char token = true ->
  buildURL s (endpoint_name e) token
    = (if decide (scheme = "") then "" else scheme +:+ ":") +:+ "//" +:+ escape host_char host
      +:+ escape path_char (endpoint_path base e token).
Proof.
  intros Hs Hb Hh Ht Hc. unfold buildURL. rewrite Hs.
  assert (Forall plain [endpoint_name e; token]) as Hp by (repeat constructor; apply endpoint_plain || apply Ht).
  rewrite Join_relative by done. unfold ResolveReference, base_url. cbn [url_Scheme url_Host url_Path].
  assert (EscapedPath (mkURL "" "" (join [endpoint_name e; token] "/")) = join [endpoint_name e; token] "/") as ->.
  { unfold EscapedPath. cbn [url_Path]. rewrite decide_False by by destruct e.
    apply escape_keeps. rewrite join_cons, !sforall_app. change (join [token] "/") with token. rewrite Hc. by destruct e. }
  assert (EscapedPath (mkURL scheme host (abs_path base +:+ "/")) = abs_path (escape path_char <$> base) +:+ "/") as ->.
  { rewrite !abs_path_slash. rewrite (EscapedPath_abs _ (base ++ [""])) by (done || by destruct base).
    by rewrite fmap_app. }
  rewrite resolvePath_abs; [|apply Forall_fmap; eapply Forall_impl; [exact Hb|apply escape_plain]|done|done].
  assert (abs_path ((escape path_char <$> base) ++ [endpoint_name e; token])
    = escape path_char (endpoint_path base e token)) as ->.
  { unfold endpoint_path. rewrite escape_abs_path, fmap_app. cbn [fmap list_fmap].
    rewrite (escape_keeps _ token) by done. by destruct e. }
  rewrite unescape_escape by done. cbn [from_option id]. unfold URL_String. cbn [url_Scheme url_Host].
  assert (exists c l, base ++ [endpoint_name e; token] = c :: l) as (c & l & El) by (destruct base; by eexists _, _).
  assert (EscapedPath (mkURL scheme host (endpoint_path base e token)) = escape path_char (endpoint_path base e token)) as ->.
  { unfold EscapedPath. cbn [url_Path]. rewrite decide_False; [done|]. unfold endpoint_path. by rewrite El, abs_path_cons. }
  assert (has_prefix (escape path_char (endpoint_path base e token)) "/" = true) as ->.
  { unfold endpoint_path. rewrite escape_abs_path, El. cbn [fmap list_fmap]. rewrite abs_path_cons. apply has_prefix_app. }
  rewrite (decide_False (P := scheme = "" /\ host = "")) by tauto.
  rewrite (decide_True (P := host <> "" \/ _)) by tauto.
  rewrite (decide_False (P := _ <> "" /\ true = false /\ _)) by (intros (_ & ? & _); done).
  rewrite sapp_nil_r.
  rewrite decide_False.
  - by rewrite !sapp_assoc.
  - intros [H _]. by destruct (decide (scheme = "")); [|destruct scheme].
Qed.

(** *** Routes *)

Lemma foldl_clean_empties kept cs :
  Forall (fun c => c = "" \/ plain c) cs ->
  foldl (clean_step true) kept cs = rev (filter (fun c => c <> "") cs) ++ kept.
Proof.
  intros H. revert kept. induction H as [|c cs Hc _ IH]; intros kept; [done|]. cbn [foldl]. rewrite IH, filter_cons.
  destruct Hc as [->|(_ & H1 & H2 & H3)]; [done|]. rewrite decide_True by done.
  unfold clean_step. rewrite decide_False by tauto. rewrite decide_False by done. cbn [rev]. by rewrite <- app_assoc.
Qed.

Lemma Clean_empties cs :
  Forall (fun c => c = "" \/ plain c) cs -> filter (fun c => c <> "") cs <> [] ->
  Clean (abs_path cs) = abs_path (filter (fun c => c <> "") cs).
Proof.
  intros Hc Hne. destruct cs as [|c cs]; [done|]. unfold Clean.
  rewrite abs_path_cons, decide_False, has_prefix_app by done. rewrite <- abs_path_cons.
  assert (split (abs_path (c :: cs)) "/" = "" :: c :: cs) as ->.
  { apply (split_join slash). constructor; [done|]. eapply Forall_impl; [exact Hc|]. by intros x [->|[? _]]. }
  cbn [foldl]. change (clean_step true [] "") with (@nil string). fold (foldl (clean_step true)).
  change (foldl (clean_step true) (clean_step true [] c) cs) with (foldl (clean_step true) [] (c :: cs)).
  rewrite foldl_clean_empties, app_nil_r, rev_involutive by done. cbv zeta.
  destruct (filter _ (c :: cs)) as [|d l] eqn:Ef; [done|]. rewrite decide_False by done. by rewrite abs_path_cons.
Qed.

Lemma route_path base e :
  base <> [] -> Forall plain base ->
  Join [Dir (abs_path base +:+ "/"); "/" +:+ endpoint_name e +:+ "/{token}"] = endpoint_path base e "{token}".
Proof.
  intros Hne Hb.
  assert (filter (fun c => c <> "") base = base) as Hf.
  { clear Hne. induction Hb as [|c cs Hc _ IH]; [done|]. rewrite filter_cons, decide_True by apply Hc. by rewrite IH. }
  assert (Forall (fun c => c = "" \/ plain c) base) as Hb' by (eapply Forall_impl; [exact Hb|tauto]).
  assert (Dir (abs_path base +:+ "/") = abs_path base) as ->.
  { rewrite abs_path_slash. unfold Dir.
    assert (split (abs_path (base ++ [""])) "/" = ("" :: base) ++ [""]) as ->.
    { apply (split_join slash). constructor; [done|]. apply Forall_app. split; [|by constructor].
      eapply Forall_impl; [exact Hb|]. by intros x [? _]. }
    destruct base as [|b base]; [done|]. cbn [app]. change ("" :: b :: base ++ [""]) with (("" :: b :: base) ++ [""]).
    rewrite removelast_last. change (join (("" :: b :: base) ++ [""]) "/") with (abs_path ((b :: base) ++ [""])).
    rewrite Clean_empties.
    - by rewrite filter_app, Hf, app_nil_r.
    - apply Forall_app. split; [done|]. apply Forall_cons; split; [by left|constructor].
    - by rewrite filter_app, Hf. }
  unfold Join. rewrite filter_cons, decide_True by by destruct base. rewrite filter_cons, decide_True by done.
  rewrite join_cons. change (filter _ []) with (@nil string). 
  change (join ["/" +:+ endpoint_name e +:+ "/{token}"] "/") with (abs_path [endpoint_name e; "{token}"]).
  change ("/" +:+ abs_path [endpoint_name e; "{token}"]) with (abs_path ["" ; endpoint_name e; "{token}"]).
  rewrite <- abs_path_app. rewrite Clean_empties.
  - rewrite filter_app, Hf. unfold endpoint_path. by destruct e.
  - apply Forall_app. split; [done|]. apply Forall_cons; split; [by left|].
    apply Forall_cons; split; [right; apply endpoint_plain|]. apply Forall_cons; split; [right; by split_and!|constructor].
  - rewrite filter_app, Hf. by destruct base.
Qed.

Lemma routes_cover config base scheme host e method :
  sc_BaseURL config = Some (base_url scheme host base) -> base <> [] -> Forall plain base ->
  method ∈ ["GET"; "POST"] ->
  mkRoute method (endpoint_path base e "{token}") e ∈ sv_routes (NewServer config).
Proof.
  intros Hc Hne Hb Hm. unfold NewServer. rewrite Hc. cbn [sv_routes base_url url_Path].
  rewrite <- (route_path base e) by done.
  rewrite list_elem_of_In, in_flat_map. exists ("/" +:+ endpoint_name e +:+ "/{token}", e). split.
  - destruct e; cbn; tauto.
  - apply list_elem_of_In, list_elem_of_fmap. by exists method.
Qed.

(** [Start] listens on the configured address, and the URLs carry the address
    that it got, whatever host the base had. *)
Lemma Start_spec {W} `{Listener W} s (w : W) :
  let '(l, w1) := net_Listen "tcp" (sc_Addr (sv_config s)) w in
  match l with
  | Ok addr => exists r w2, Start true (s, w) = (r, (set_base_host addr s, w2))
  | Err err => Start true (s, w) = (Err err, (s, w1))
  end.
Proof.
  unfold Start, try, bind, get, on_listener, modify. cbn [negb].
  destruct (net_Listen _ _ w) as [[addr|err] w1]; [|done].
  destruct (sc_TLSConfig _); [destruct (http_ServeTLS addr w1)|destruct (http_Serve addr w1)]; by eexists _, _.
Qed.

(** ** From a request to its stream *)

Section Streams.
Context {W : Type} `{Clock W} `{Rand W} (BuildV4Options : list Z -> res unit).

Definition GetStream (s : server) (r : request) : M (requestCache * W) (res string) :=
  match r with
  | ReqExec e => GetExec (buildURL s) e
  | ReqAttach a => GetAttach (buildURL s) a
  | ReqPortForward p => GetPortForward (buildURL s) p
  end.

Definition served_map {A B} (f : A -> B) (r : served A) : served B :=
  match r with ServeStream a => ServeStream (f a) | ServeNotFound => ServeNotFound | ServeBadRequest e => ServeBadRequest e end.

Definition serve (e : stream_endpoint) (token : string) : M (requestCache * W) (served request) :=
  match e with
  | ExecEndpoint => let* r := serveExec token in ret (served_map ReqExec r)
  | AttachEndpoint => let* r := serveAttach token in ret (served_map ReqAttach r)
  | PortForwardEndpoint => let* r := servePortForward BuildV4Options token in ret (served_map ReqPortForward r)
  end.

(** How a request is served: the ports of a port forward may be refused. *)
Definition served_as (r : request) : served request :=
  match r with
  | ReqPortForward p =>
      match BuildV4Options (pf_Port p) with Ok _ => ServeStream r | Err err => ServeBadRequest err end
  | _ => ServeStream r
  end.

Lemma GetStream_ok s r cw u cw' :
  GetStream s r cw = (Ok u, cw') ->
  exists token, Insert r cw = (Ok token, cw') /\ u = buildURL s (endpoint_name (endpoint_of r)) token.
Proof.
  unfold GetStream, GetExec, GetAttach, GetPortForward, try, bind, ret.
  destruct r as [e|a|p]; cbn [endpoint_of endpoint_name];
    repeat (case_match; try done); intros; simplify_eq; by eexists.
Qed.

Lemma serve_consume e token cw :
  serve e token cw
  = let '(r, cw') := Consume token cw in
    (match r with
     | Some r => if decide (endpoint_of r = e) then served_as r else ServeNotFound
     | None => ServeNotFound
     end, cw').
Proof.
  unfold serve, serveExec, serveAttach, servePortForward, bind, ret.
  destruct e, (Consume token cw) as [[[]|] []]; try done. cbn. by case_match.
Qed.

End Streams.

(** C32: a URL handed out leads to its stream.  The server that has started on
    an address under a base path hands out, for a request it accepts, a URL on
    that address whose path is that of a route to the handler of the request,
    with a token in place of the template's; as long as the token is neither
    redeemed nor a minute old, whatever other requests come and go, that
    handler is given exactly the request, and no handler is given it again. *)
Theorem issued_url_served {W} `{TimeLaws W} (BuildV4Options : list Z -> res unit) (config : Config)
  (scheme host addr : string) (base : list string) (r : request) c w u c1 w1 :
  sc_BaseURL config = Some (base_url scheme host base) -> base <> [] -> Forall plain base -> addr <> "" ->
  inv c w ->
  let s := set_base_host addr (NewServer config) in
  GetStream s r (c, w) = (Ok u, (c1, w1)) ->
  exists token p,
    u = (if decide (scheme = "") then "" else scheme +:+ ":") +:+ "//" +:+ escape host_char addr +:+ p
    /\ unescape p = Some (endpoint_path base (endpoint_of r) token)
    /\ (forall method, method ∈ ["GET"; "POST"] ->
          mkRoute method (endpoint_path base (endpoint_of r) "{token}") (endpoint_of r) ∈ sv_routes s)
    /\ forall os c2 w2,
          rc_run os (c1, w1) = (c2, w2) -> RConsume token ∉ os -> (fst (Now w2) <= time w + cacheTTL)%Z ->
          exists c3, serve BuildV4Options (endpoint_of r) token (c2, w2)
                     = (served_as BuildV4Options r, (c3, snd (Now w2)))
            /\ forall e, serve BuildV4Options e token (c3, snd (Now w2)) = (ServeNotFound, (c3, snd (Now w2))).
Proof.
  intros Hb Hne Hp Ha Hinv s Hg. apply GetStream_ok in Hg as (token & Hi & ->).
  destruct (Insert_token _ _ _ _ _ _ Hi) as [Hc Ht].
  exists token, (escape path_char (endpoint_path base (endpoint_of r) token)). split_and!.
  - apply (buildURL_spec s scheme addr); [|done..]. unfold s, NewServer. cbn. by rewrite Hb.
  - by apply unescape_escape.
  - intros method Hm. by eapply routes_cover.
  - intros os c2 w2 Hr Hos Hn.
    destruct (token_redeemed_once r token os c c1 c2 w w1 w2) as (c3 & Hc1 & Hc2 & _); try done.
    exists c3. split; [|intros e]; rewrite serve_consume; [rewrite Hc1|by rewrite Hc2].
    by rewrite decide_True.
Qed.

(** The server that [RunCriDockerd] configures, asked for an exec. *)
Definition cri_config : Config :=
  mkConfig "127.0.0.1:0" (Some (mkURL "" "" "/cri/")) 0 0 [] [] false.

Lemma issued_url_served_witness :
  let s := set_base_host "127.0.0.1:40123" (NewServer cri_config) in
  fst (GetStream s demo_req (newRequestCache, demo_start)) = Ok "//127.0.0.1:40123/cri/exec/AQIDBAUG"
  /\ exists token p,
    "//127.0.0.1:40123/cri/exec/AQIDBAUG" = "//" +:+ escape host_char "127.0.0.1:40123" +:+ p
    /\ unescape p = Some (endpoint_path ["cri"] ExecEndpoint token)
    /\ exists c3 w3, serve (fun _ => Ok tt) ExecEndpoint token (demo_c1, demo_w1)
        = (ServeStream demo_req, (c3, w3)).
Proof.
  split; [reflexivity|].
  destruct (issued_url_served (fun _ => Ok tt) cri_config "" "" "127.0.0.1:40123" ["cri"] demo_req
              newRequestCache demo_start "//127.0.0.1:40123/cri/exec/AQIDBAUG" demo_c1 demo_w1)
    as (token & p & Hu & Hp & _ & Hs).
  - reflexivity.
  - discriminate.
  - apply Forall_cons; split; [by split_and!|constructor].
  - discriminate.
  - apply inv_new.
  - reflexivity.
  - exists token, p. split; [exact Hu|]. split; [exact Hp|].
    destruct (Hs [] demo_c1 demo_w1) as (c3 & Hc3 & _); [reflexivity|apply not_elem_of_nil|vm_compute; discriminate|].
    eexists c3, _. exact Hc3.
Defined.
