(* ===== verification/PluginMetrics.v ===== *)
(** * PluginMetrics: the metrics of network plugin operations

    network/metrics/metrics.go and the deferred records of network/plugins.go:
    the plugin manager's three operations on a pod, with the counters of
    operations and errors and the latencies.  The clock readings are a
    parameter, as in [Instrumented]. *)
From S2P Require Import Prelude GoErrors Cri Naming PluginManager Libdocker Stats Exec Instrumented.

(** The three vectors, by the label [operation_type], and how often the clock
    was read. *)
Record plugin_metrics := mkPluginMetrics {
  NetworkPluginOperations : gmap string nat;
  NetworkPluginOperationsLatency : gmap string (list Z);
  NetworkPluginOperationsErrors : gmap string nat;
  pmt_reads : nat;
}.

Definition NetworkPluginOperationsKey : string := "network_plugin_operations_total".
Definition NetworkPluginOperationsLatencyKey : string := "network_plugin_operations_duration_seconds".
Definition NetworkPluginOperationsErrorsKey : string := "network_plugin_operations_errors_total".

(** [Register]: the names registered; [sync.Once] registers them once. *)
Definition Register (registered : list string) : list string :=
  match registered with
  | [] => [NetworkPluginOperationsLatencyKey; NetworkPluginOperationsKey; NetworkPluginOperationsErrorsKey]
  | _ => registered
  end.

Definition plugin_recordOperation (operation : string) (since : Z) (m : plugin_metrics) : plugin_metrics :=
  mkPluginMetrics (Inc (NetworkPluginOperations m) operation)
    (Observe (NetworkPluginOperationsLatency m) operation since) (NetworkPluginOperationsErrors m)
    (pmt_reads m).
Definition plugin_recordError (operation : string) (m : plugin_metrics) : plugin_metrics :=
  mkPluginMetrics (NetworkPluginOperations m) (NetworkPluginOperationsLatency m)
    (Inc (NetworkPluginOperationsErrors m) operation) (pmt_reads m).

Section Metered.
Context {W : Type} `{NetworkPlugin W} (time_Now : nat -> Z).
Abbreviation MS := (plugin_metrics * W)%type.

Definition read_clock : M MS Z := fun '(m, w) =>
  (time_Now (pmt_reads m),
   (mkPluginMetrics (NetworkPluginOperations m) (NetworkPluginOperationsLatency m)
      (NetworkPluginOperationsErrors m) (S (pmt_reads m)), w)).
Definition on_plugin {A} (m : M W A) : M MS A := fun '(mt, w) => let '(a, w') := m w in (a, (mt, w')).
Definition on_metrics (f : plugin_metrics -> plugin_metrics) : M MS unit := fun '(m, w) => (tt, (f m, w)).

(** [defer recordOperation(operation, time.Now())], and [recordError] when the
    plugin fails. *)
Definition metered {A} (operation : string) (call : M W (res A)) : M MS (res A) :=
  let* start := read_clock in
  let* r := on_plugin call in
  do* (match r with Err _ => on_metrics (plugin_recordError operation) | Ok _ => ret tt end) in
  let* finish := read_clock in
  do* on_metrics (plugin_recordOperation operation (finish - start)) in
  ret r.

Definition metered_GetPodNetworkStatus (podNamespace podName : string) (id : ContainerID) :=
  metered "get_pod_network_status" (pm_GetPodNetworkStatus podNamespace podName id).
Definition metered_SetUpPod (podNamespace podName : string) (id : ContainerID)
  (annotations options : gmap string string) :=
  metered "set_up_pod" (pm_SetUpPod podNamespace podName id annotations options).
Definition metered_TearDownPod (podNamespace podName : string) (id : ContainerID) :=
  metered "tear_down_pod" (pm_TearDownPod podNamespace podName id).

(** An operation gives what it gives without the metrics, and is counted. *)
Lemma metered_exact {A} (operation : string) (call : M W (res A)) m w :
  let '(r, w') := call w in
  exists m', metered operation call (m, w) = (r, (m', w'))
    /\ NetworkPluginOperations m' = Inc (NetworkPluginOperations m) operation
    /\ NetworkPluginOperationsErrors m'
       = (if is_ok r then NetworkPluginOperationsErrors m else Inc (NetworkPluginOperationsErrors m) operation)
    /\ NetworkPluginOperationsLatency m'
       = Observe (NetworkPluginOperationsLatency m) operation
           (time_Now (S (pmt_reads m)) - time_Now (pmt_reads m))%Z.
Proof.
  unfold metered, bind, read_clock, on_plugin, on_metrics, ret.
  destruct (call w) as [[a|err] w']; cbn; by eexists.
Qed.
End Metered.
