(* ===== verification/Debug.v ===== *)
(** * Debug: the transport that logs the calls of the docker client

    libdocker/debug.go: the bodies of requests and responses are wrapped to
    capture what is read from them, and each call is logged when it fails or
    when the body of its response is closed.  Code that uses a body is a tree
    of reads, closes and other actions ([user]), so that the wrapped and the
    bare body can be given to the same code. *)
From S2P Require Import Prelude GoErrors.

(** ** Bodies and the code that uses them *)

(** An [io.ReadCloser] over a world: what a read of at most so many bytes
    gives, and what closing gives. *)
Record reader (W : Type) := mkReader {
  rd_Read : nat -> M W (string * option error);
  rd_Close : M W (option error);
}.
Arguments mkReader {W}.
Arguments rd_Read {W}.
Arguments rd_Close {W}.

Inductive body_op := OpRead (n : nat) | OpClose.
(** What an operation gives back: the bytes read, "" for a close, and the
    error. *)
Abbreviation outcome := (string * option error)%type.

(** Code over a body, and over the world beside it. *)
Inductive user (W A : Type) : Type :=
| Return (a : A)
| Perform (o : body_op) (k : outcome -> user W A)
| Act (B : Type) (m : M W B) (k : B -> user W A).
Arguments Return {W A}.
Arguments Perform {W A}.
Arguments Act {W A} B.

(** Run code on a body whose operations are given, over a state that holds
    the world. *)
Section Run.
Context {W S : Type}.
Variables (op : body_op -> M S outcome) (lift : forall B, M W B -> M S B).

Fixpoint run {A} (u : user W A) : M S A :=
  match u with
  | Return a => ret a
  | Perform o k => let* r := op o in run (k r)
  | Act B m k => let* b := lift B m in run (k b)
  end.
End Run.

Definition bare_op {W} (r : reader W) (o : body_op) : M W outcome :=
  match o with
  | OpRead n => rd_Read r n
  | OpClose => let* err := rd_Close r in ret ("", err)
  end.

Definition run_bare {W A} (r : reader W) (u : user W A) : M W A := run (bare_op r) (fun B m => m) u.

(** ** bodyCapture *)

(** The callbacks act on a state [C] of their own. *)
Record bodyCapture (W C : Type) := mkBodyCapture {
  bc_ReadCloser : option (reader W);
  captured : string;
  onRead : option (string -> C -> C);
  onClose : option (string -> C -> C);
}.
Arguments mkBodyCapture {W C}.
Arguments bc_ReadCloser {W C}.
Arguments captured {W C}.
Arguments onRead {W C}.
Arguments onClose {W C}.

Section Capture.
Context {W C : Type}.
(** The body, the state of its callbacks, the world. *)
Abbreviation BS := (bodyCapture W C * C * W)%type.

Definition on_world {B} (m : M W B) : M BS B := fun '(b, c, w) =>
  let '(x, w') := m w in (x, (b, c, w')).
Definition capture (p : string) : M BS unit := fun '(b, c, w) =>
  (tt, (mkBodyCapture (bc_ReadCloser b) (captured b +:+ p) (onRead b) (onClose b), c, w)).
(** [onRead] is called at most once. *)
Definition call_onRead : M BS unit := fun '(b, c, w) =>
  match onRead b with
  | None => (tt, (b, c, w))
  | Some f => (tt, (mkBodyCapture (bc_ReadCloser b) (captured b) None (onClose b), f (captured b) c, w))
  end.
Definition call_onClose : M BS unit := fun '(b, c, w) =>
  (tt, (b, match onClose b with None => c | Some f => f (captured b) c end, w)).

Definition is_EOF (err : option error) : bool := match err with Some e => is_sentinel EOF e | None => false end.

Definition bc_Read (n : nat) : M BS outcome :=
  let* '(b, _, _) := get in
  match bc_ReadCloser b with
  | None => ret ("", Some (Sentinel EOF))
  | Some r =>
      let* '(p, err) := on_world (rd_Read r n) in
      do* capture p in
      do* (if is_EOF err then call_onRead else ret tt) in
      ret (p, err)
  end.

Definition bc_Close : M BS (option error) :=
  do* call_onRead in
  let* '(b, _, _) := get in
  let* err := match bc_ReadCloser b with
              | None => ret None
              | Some r => on_world (rd_Close r)
              end in
  do* call_onClose in
  ret err.

Definition captured_op (o : body_op) : M BS outcome :=
  match o with
  | OpRead n => bc_Read n
  | OpClose => let* err := bc_Close in ret ("", err)
  end.
Definition run_captured {A} (u : user W A) : M BS A := run captured_op (fun B m => on_world m) u.

End Capture.

(** ** The transport *)

(** A request, with the text of its URL ([URL.String]); a body may be nil. *)
Record http_request (W : Type) := mkRequest {
  rq_Method : string;
  rq_Host : string;
  rq_Path : string;
  rq_URL : string;
  rq_Body : option (reader W);
}.
Arguments mkRequest {W}.
Arguments rq_Method {W}.
Arguments rq_Host {W}.
Arguments rq_Path {W}.
Arguments rq_URL {W}.
Arguments rq_Body {W}.

Record http_response (W : Type) := mkResponse { rs_Status : string; rs_Body : reader W }.
Arguments mkResponse {W}.
Arguments rs_Status {W}.
Arguments rs_Body {W}.

Definition formatEndpoint {W} (req : http_request W) : string :=
  if decide (rq_Host req <> "" /\ has_prefix (rq_Host req) "/" = true)
  then "unix://" +:+ rq_Host req +:+ rq_Path req
  else rq_URL req.

(** What is known of a call for the log, and the log. *)
Record captureContext := mkCapture {
  cx_method : string;
  cx_endpoint : string;
  cx_reqBody : string;
  cx_log : list string;
}.

Definition set_reqBody (p : string) (ctx : captureContext) : captureContext :=
  mkCapture (cx_method ctx) (cx_endpoint ctx) p (cx_log ctx).

Section Log.
(** [logrus.GetLevel() >= logrus.TraceLevel]. *)
Variable trace : bool.

Definition or_empty (body : string) : string := if decide (body = "") then "(empty)" else body.

Definition log_line (ctx : captureContext) (respStatus respBody : string) (err : option error) : string :=
  let call := "(dockerapi) " +:+ cx_method ctx +:+ " " +:+ cx_endpoint ctx in
  if trace then
    call +:+ ": " +:+ or_empty (cx_reqBody ctx) +:+ " => "
    +:+ match err with
        | Some e => "error: " +:+ Error e
        | None => respStatus +:+ " " +:+ or_empty respBody
        end
  else
    call +:+ " => " +:+ match err with Some e => "error: " +:+ Error e | None => respStatus end.

Definition cx_append (respStatus respBody : string) (err : option error) (ctx : captureContext)
  : captureContext :=
  mkCapture (cx_method ctx) (cx_endpoint ctx) (cx_reqBody ctx)
    (cx_log ctx ++ [log_line ctx respStatus respBody err]).

(** [captureRequest]: the context, and the body the request is given. *)
Definition captureRequest {W} (req : http_request W)
  : captureContext * option (bodyCapture W captureContext) :=
  (mkCapture (rq_Method req) (formatEndpoint req) "" [],
   (fun body => mkBodyCapture (Some body) "" (Some set_reqBody) None) <$> rq_Body req).

(** [captureResponse]: the error is logged at once, a response when its body
    is closed. *)
Definition captureResponse {W} (r : res (http_response W)) (ctx : captureContext)
  : res (string * bodyCapture W captureContext) * captureContext :=
  match r with
  | Err err => (Err err, cx_append "" "" (Some err) ctx)
  | Ok resp =>
      (Ok (rs_Status resp,
           mkBodyCapture (Some (rs_Body resp)) "" None
             (Some (fun body => cx_append (rs_Status resp) body None))), ctx)
  end.

(** A call: the base transport [base] uses the body of the request and
    answers, and [use] uses the body of the response. *)
Section Session.
Context {W A : Type}.
Variable base : http_request W -> user W (res (http_response W)).
Variable use : res string -> user W A.

(** A request without a body is never read or closed; whatever would is. *)
Definition no_body : reader W := mkReader (fun _ => ret ("", Some (Sentinel EOF))) (ret None).

Definition bare_session (req : http_request W) : M W A :=
  let* r := run_bare (default no_body (rq_Body req)) (base req) in
  match r with
  | Err err => run_bare no_body (use (Err err))
  | Ok resp => run_bare (rs_Body resp) (use (Ok (rs_Status resp)))
  end.

(** The body of the request is used by the base transport until [RoundTrip]
    returns, with [Read] and [Close] only; a transport that goes on with it in
    a goroutine afterwards, or looks at its type, is outside of this
    session. *)
Definition debug_session (req : http_request W) : M W (A * captureContext) := fun w =>
  let '(ctx, body) := captureRequest req in
  let '(r, ctx, w) :=
    match body with
    | None => let '(r, w) := run_bare no_body (base req) w in (r, ctx, w)
    | Some b => let '(r, (_, ctx, w)) := run_captured (base req) (b, ctx, w) in (r, ctx, w)
    end in
  let '(r, ctx) := captureResponse r ctx in
  match r with
  | Err err => let '(a, w) := run_bare no_body (use (Err err)) w in (a, ctx, w)
  | Ok (status, b) => let '(a, (_, ctx, w)) := run_captured (use (Ok status)) (b, ctx, w) in (a, ctx, w)
  end.

End Session.
End Log.

(** ** What a body was used for *)

(** The operations performed on a body, with what each gave. *)
Abbreviation trace_of := (list (body_op * outcome)).

Definition traced_op {W} (r : reader W) (o : body_op) : M (trace_of * W) outcome := fun '(tr, w) =>
  let '(x, w') := bare_op r o w in (x, (tr ++ [(o, x)], w')).
Definition run_traced {W A} (r : reader W) (u : user W A) : M (trace_of * W) A :=
  run (traced_op r) (fun B m => fun '(tr, w) => let '(b, w') := m w in (b, (tr, w'))) u.

Definition is_read (o : body_op) : bool := match o with OpRead _ => true | OpClose => false end.
Definition data_read (tr : trace_of) : string := String.concat "" ((fun x => fst (snd x)) <$> tr).

(** A body is over when it was read to its end, or closed. *)
Definition ends (x : body_op * outcome) : bool := negb (is_read (fst x)) || is_EOF (snd (snd x)).

(** What had been read when the body was first over; None when it never was. *)
Fixpoint reported (seen : string) (tr : trace_of) : option string :=
  match tr with
  | [] => None
  | x :: tr' =>
      let seen' := seen +:+ fst (snd x) in
      if ends x then Some seen' else reported seen' tr'
  end.

(** What had been read at each close. *)
Fixpoint close_bodies (seen : string) (tr : trace_of) : list string :=
  match tr with
  | [] => []
  | x :: tr' =>
      let seen' := seen +:+ fst (snd x) in
      (if is_read (fst x) then [] else [seen']) ++ close_bodies seen' tr'
  end.

(** ** Theory *)

Section Theory.
Context {W C : Type}.

(** The captured body and its callbacks only observe the operations. *)
Definition observe (x : body_op * outcome) (bc : bodyCapture W C * C) : bodyCapture W C * C :=
  let '(b, c) := bc in
  let seen := captured b +:+ fst (snd x) in
  let c := match onRead b with Some f => if ends x then f seen c else c | None => c end in
  let c := match onClose b with Some g => if is_read (fst x) then c else g seen c | None => c end in
  (mkBodyCapture (bc_ReadCloser b) seen (if ends x then None else onRead b) (onClose b), c).

Lemma captured_op_observe (r : reader W) (o : body_op) (b : bodyCapture W C) (c : C) (w : W) :
  bc_ReadCloser b = Some r ->
  captured_op o (b, c, w)
  = let '(x, w') := bare_op r o w in (x, (observe (o, x) (b, c), w')).
Proof.
  intros Hb. destruct b as [rc cap orc occ]. cbn in Hb. subst rc. destruct o as [n|].
  - cbn. unfold bc_Read, bind, get, on_world, capture, ret. cbn.
    destruct (rd_Read r n w) as [[p err] w']. cbn. unfold ends; cbn.
    destruct (is_EOF err); cbn; destruct orc, occ; reflexivity.
  - cbn. unfold bc_Close, bind, get, on_world, call_onRead, call_onClose, ret. cbn.
    destruct orc as [f|]; cbn; destruct (rd_Close r w) as [err w']; cbn; rewrite sapp_nil_r;
      destruct occ; reflexivity.
Qed.

Lemma run_traced_Perform {A} (r : reader W) o (k : outcome -> user W A) tr (w : W) :
  run_traced r (Perform o k) (tr, w)
  = let '(x, w') := bare_op r o w in run_traced r (k x) (tr ++ [(o, x)], w').
Proof. unfold run_traced. cbn [run]. unfold bind, traced_op at 1. by destruct (bare_op r o w). Qed.

Lemma run_traced_Act {A B} (r : reader W) (m : M W B) (k : B -> user W A) tr (w : W) :
  run_traced r (Act B m k) (tr, w) = let '(y, w') := m w in run_traced r (k y) (tr, w').
Proof. unfold run_traced. cbn [run]. unfold bind. by destruct (m w). Qed.

Lemma run_traced_step {A} (r : reader W) (u : user W A) tr (w : W) :
  run_traced r u (tr, w)
  = let '(a, (tr', w')) := run_traced r u ([], w) in (a, (tr ++ tr', w')).
Proof.
  revert tr w. induction u as [a|o k IH|B m k IH]; intros tr w.
  - cbn. by rewrite app_nil_r.
  - rewrite !run_traced_Perform. destruct (bare_op r o w) as [x w']. rewrite IH, (IH _ ([] ++ _)).
    destruct (run_traced r (k x) ([], w')) as [a [tr' w'']]. by rewrite <- app_assoc.
  - rewrite !run_traced_Act. destruct (m w) as [y w']. apply IH.
Qed.

(** Running on a bare body is running with the trace forgotten. *)
Lemma run_bare_traced {A} (r : reader W) (u : user W A) (w : W) :
  run_bare r u w = let '(a, (_, w')) := run_traced r u ([], w) in (a, w').
Proof.
  revert w. induction u as [a|o k IH|B m k IH]; intros w; [done| |].
  - rewrite run_traced_Perform. unfold run_bare. cbn [run]. unfold bind.
    destruct (bare_op r o w) as [x w']. fold (run_bare r (k x)). rewrite IH, (run_traced_step _ _ ([] ++ _)).
    by destruct (run_traced r (k x) ([], w')) as [a [tr' w'']].
  - rewrite run_traced_Act. unfold run_bare. cbn [run]. unfold bind. destruct (m w) as [y w'].
    fold (run_bare r (k y)). apply IH.
Qed.

(** Running on the captured body gives the same, and its callbacks have
    observed the trace. *)
Lemma run_captured_traced {A} (r : reader W) (u : user W A) (b : bodyCapture W C) (c : C) (w : W) :
  bc_ReadCloser b = Some r ->
  run_captured u (b, c, w)
  = let '(a, (tr, w')) := run_traced r u ([], w) in (a, (foldl (fun s x => observe x s) (b, c) tr, w')).
Proof.
  revert b c w. induction u as [a|o k IH|B m k IH]; intros b c w Hb; [done| |].
  - rewrite run_traced_Perform. unfold run_captured. cbn [run]. unfold bind.
    rewrite (captured_op_observe r) by done. destruct (bare_op r o w) as [x w'].
    destruct (observe (o, x) (b, c)) as [b1 c1] eqn:Eo.
    assert (bc_ReadCloser b1 = Some r) as Hb1 by (by injection Eo as <- _).
    fold (run_captured (W := W) (C := C) (k x)). rewrite (IH x b1 c1 w' Hb1), (run_traced_step _ _ ([] ++ _)).
    destruct (run_traced r (k x) ([], w')) as [a [tr' w'']]. cbn [foldl app]. by rewrite Eo.
  - rewrite run_traced_Act. unfold run_captured. cbn [run]. unfold bind at 1, on_world.
    destruct (m w) as [y w']. by apply IH.
Qed.

(** What the two kinds of callbacks have been told. *)
Lemma observe_onRead (f : string -> C -> C) b c tr :
  onRead b = Some f -> onClose b = None ->
  snd (foldl (fun s x => observe x s) (b, c) tr)
  = from_option (fun p => f p c) c (reported (captured b) tr).
Proof.
  intros Hr Hc. revert b c Hr Hc. induction tr as [|x tr IH]; intros b c Hr Hc; [done|].
  cbn [foldl reported]. unfold observe at 2. rewrite Hr, Hc. destruct (ends x) eqn:He.
  - cbn [from_option]. set (b1 := mkBodyCapture _ _ _ _). set (c1 := f _ c).
    assert (onRead b1 = None /\ onClose b1 = None) as [H1 H2] by done. clearbody b1 c1. clear -H1 H2.
    revert b1 c1 H1 H2. induction tr as [|y tr IH]; intros b c Hr Hc; [done|].
    cbn [foldl]. unfold observe at 2. rewrite Hr, Hc. apply IH; [by destruct (ends y)|done].
  - by rewrite IH.
Qed.

Lemma observe_onClose (g : string -> C -> C) b c tr :
  onRead b = None -> onClose b = Some g ->
  snd (foldl (fun s x => observe x s) (b, c) tr)
  = foldl (fun c p => g p c) c (close_bodies (captured b) tr).
Proof.
  intros Hr Hc. revert b c Hr Hc. induction tr as [|x tr IH]; intros b c Hr Hc; [done|].
  cbn [foldl close_bodies]. unfold observe at 2. rewrite Hr, Hc.
  rewrite IH by (by destruct (ends x)). cbn [captured]. by destruct (is_read (fst x)).
Qed.
End Theory.

Lemma cx_append_fold trace status bodies ctx :
  foldl (fun c p => cx_append trace status p None c) ctx bodies
  = mkCapture (cx_method ctx) (cx_endpoint ctx) (cx_reqBody ctx)
      (cx_log ctx ++ ((fun p => log_line trace ctx status p None) <$> bodies)).
Proof.
  revert ctx. induction bodies as [|p bodies IH]; intros ctx; cbn [foldl].
  - rewrite app_nil_r. by destruct ctx.
  - rewrite IH. cbn. by rewrite <- app_assoc.
Qed.

(** What the log holds after a call whose request and response bodies were
    used as the traces say. *)
Definition expected_log {W} (trace : bool) (req : http_request W) (tr_req : trace_of)
  (r : res (http_response W)) (tr_resp : trace_of) : list string :=
  let sent := match rq_Body req with Some _ => default "" (reported "" tr_req) | None => "" end in
  let ctx := mkCapture (rq_Method req) (formatEndpoint req) sent [] in
  match r with
  | Err err => [log_line trace ctx "" "" (Some err)]
  | Ok resp => (fun body => log_line trace ctx (rs_Status resp) body None) <$> close_bodies "" tr_resp
  end.

(** C37: The debug transport is transparent and its log is exact: for any base
    transport and any code that uses the response, whatever they read and
    close in whatever order, the results and the world are those without the
    transport; and the log has one line for a call that fails, and one line
    for each close of the response body of a call that does not, with what had
    been read of that body, and of the request body when it first ended or was
    closed. *)
Theorem debug_transport_transparent {W A} (trace : bool)
  (base : http_request W -> user W (res (http_response W))) (use : res string -> user W A)
  (req : http_request W) (w : W) :
  let '(r, (tr_req, w1)) := run_traced (default no_body (rq_Body req)) (base req) ([], w) in
  let '(a, (tr_resp, w2)) :=
    match r with
    | Err err => run_traced no_body (use (Err err)) ([], w1)
    | Ok resp => run_traced (rs_Body resp) (use (Ok (rs_Status resp))) ([], w1)
    end in
  bare_session base use req w = (a, w2)
  /\ exists ctx, debug_session trace base use req w = ((a, ctx), w2)
       /\ cx_log ctx = expected_log trace req tr_req r tr_resp.
Proof.
  destruct (run_traced (default no_body (rq_Body req)) (base req) ([], w)) as [r [tr_req w1]] eqn:E1.
  set (ctx := mkCapture (rq_Method req) (formatEndpoint req)
                (match rq_Body req with Some _ => default "" (reported "" tr_req) | None => "" end) []).
  assert (exists b,
    (let '(ctx, body) := captureRequest req in
     match body with
     | None => let '(r, w) := run_bare no_body (base req) w in (r, ctx, w)
     | Some b => let '(r, (_, ctx, w)) := run_captured (base req) (b, ctx, w) in (r, ctx, w)
     end) = (r, ctx, w1) /\ b = tt) as (_ & Hreq & _).
  { exists tt. split; [|done]. unfold captureRequest. subst ctx. destruct (rq_Body req) as [body|]; cbn [fmap option_fmap option_map].
    - rewrite (run_captured_traced body) by done. cbn in E1. rewrite E1.
      set (b := mkBodyCapture (Some body) "" (Some set_reqBody) None). set (c := mkCapture _ _ "" []).
      pose proof (observe_onRead set_reqBody b c tr_req eq_refl eq_refl) as Ho.
      destruct (foldl _ (b, c) tr_req) as [b' c']. cbn [snd] in Ho. subst c'.
      by destruct (reported (captured b) tr_req) eqn:Hr; cbn in Hr |- *; rewrite Hr.
    - rewrite run_bare_traced. cbn in E1. by rewrite E1. }
  destruct r as [resp|err].
  - destruct (run_traced (rs_Body resp) _ ([], w1)) as [a [tr_resp w2]] eqn:E2. split.
    + unfold bare_session, bind. rewrite run_bare_traced, E1. by rewrite run_bare_traced, E2.
    + unfold debug_session. destruct (captureRequest req) as [ctx0 body]. rewrite Hreq. cbn [captureResponse].
      rewrite (run_captured_traced (rs_Body resp)) by done. rewrite E2.
      set (g := fun body0 => cx_append trace (rs_Status resp) body0 None).
      set (b := mkBodyCapture (Some (rs_Body resp)) "" None (Some g)).
      pose proof (observe_onClose g b ctx tr_resp eq_refl eq_refl) as Ho.
      destruct (foldl _ (b, ctx) tr_resp) as [b' c']. cbn [snd] in Ho. exists c'. split; [done|].
      rewrite Ho. subst g. cbn [captured b]. by rewrite cx_append_fold.
  - destruct (run_traced no_body _ ([], w1)) as [a [tr_resp w2]] eqn:E2. split.
    + unfold bare_session, bind. rewrite run_bare_traced, E1. by rewrite run_bare_traced, E2.
    + unfold debug_session. destruct (captureRequest req) as [ctx0 body]. rewrite Hreq. cbn [captureResponse].
      rewrite run_bare_traced, E2. eexists. split; [done|]. done.
Qed.

(** A body that is closed twice is logged twice. *)
Definition two_parts : reader nat := mkReader
  (fun _ n => match n with
              | 0 => ("ab", None, 1)
              | 1 => ("c", Some (Sentinel EOF), 2)
              | _ => ("", Some (Sentinel EOF), n)
              end)%nat
  (ret None).
Definition read_all_close_twice : user nat unit :=
  Perform (OpRead 8) (fun _ => Perform (OpRead 8) (fun _ =>
    Perform OpClose (fun _ => Perform OpClose (fun _ => Return tt)))).

Example double_close_logged_twice :
  let '(_, ctx, _) :=
    debug_session true (fun _ => Perform OpClose (fun _ => Return (Ok (mkResponse "200 OK" two_parts))))
      (fun _ => read_all_close_twice)
      (mkRequest "POST" "/var/run/docker.sock" "/info" "" (Some two_parts)) 0%nat in
  cx_log ctx = ["(dockerapi) POST unix:///var/run/docker.sock/info: (empty) => 200 OK abc";
                "(dockerapi) POST unix:///var/run/docker.sock/info: (empty) => 200 OK abc"].
Proof. reflexivity. Qed.
