(* ===== verification/KubeClient.v ===== *)
(** * KubeClient: the calls of the docker client about statistics and terminals

    The calls of libdocker/kube_docker_client.go that [Libdocker] and [Exec] do
    not have: the size and the statistics of a container, terminal sizes with the
    goroutine that passes them on, and the encoding of registry credentials.  The body of an answer is a [reader]
    of [Debug], used by the decoder as any code would. *)
From S2P Require Import Prelude GoErrors Cri Libdocker RequestCache Stats Exec Debug.

(** The calls of the API; [ContainerInspectWithRaw] is asked for the size. *)
Class StatsAPI (W : Type) := {
  ContainerInspectWithRaw : Z -> string -> M W (res (option Z) * ctx_err);
  ContainerStatsOneShot : string -> M W (res (reader W));
  ContainerExecResize : string -> Z -> Z -> M W (option error);
  ContainerResize : string -> Z -> Z -> M W (option error);
}.

(** One piece of code after another. *)
Fixpoint user_bind {W A B} (u : user W A) (f : A -> user W B) : user W B :=
  match u with
  | Return a => f a
  | Perform o k => Perform o (fun r => user_bind (k r) f)
  | Act C m k => Act C m (fun c => user_bind (k c) f)
  end.

(** ** Credentials *)

(** [base64.URLEncoding]: the padded form. *)
Definition URLEncoding (bs : list N) : string :=
  b64_encode bs +:+ match (length bs mod 3)%nat with
                    | 0%nat => ""
                    | 1%nat => "=="
                    | _ => "="
                    end.

(** [json.Encoder.Encode] ends the text with a newline. *)
Definition base64EncodeAuth (marshal_auth : AuthConfig -> res string) (auth : AuthConfig) : res string :=
  match marshal_auth auth with
  | Err err => Err err
  | Ok text => Ok (URLEncoding (Ascii.N_of_ascii <$> String.list_ascii_of_string
                                  (text +:+ String (Ascii.ascii_of_N 10) "")))
  end.

Section Client.
Context {W : Type} `{StatsAPI W}.
Variable d : kubeDockerClient.
(** [json.Decoder.Decode] on a body. *)
Variable decode_stats : user W (res StatsJSON).

Definition kc_InspectContainerWithSize (id : string) : M W (res (option Z)) :=
  checked (ContainerInspectWithRaw (kc_timeout d) id).

Definition kc_ResizeExecTTY (id : string) (height width : Z) : M W (option error) :=
  ContainerExecResize id height width.
Definition kc_ResizeContainerTTY (id : string) (height width : Z) : M W (option error) :=
  ContainerResize id height width.

(** The goroutine of [handleResizing] of core/exec.go and
    streaming/streaming.go: it takes the sizes [resize] delivers until the
    channel is closed. *)
Fixpoint resize_loop (resizeFunc : Z -> Z -> M W (option error)) (resize : list (Z * Z)) : M W unit :=
  match resize with
  | [] => ret tt
  | (height, width) :: resize =>
      if ((height <? 1) || (width <? 1))%Z then resize_loop resizeFunc resize
      else let* _ := resizeFunc height width in resize_loop resizeFunc resize
  end.

(** The body is closed by a [defer] that a failed decoding never reaches. *)
Definition use_stats : user W (res StatsJSON) :=
  user_bind decode_stats (fun r =>
    match r with
    | Err err => Return (Err err)
    | Ok stats => Perform OpClose (fun _ => Return (Ok stats))
    end).

Definition kc_GetContainerStats (id : string) : M W (res StatsJSON) :=
  let? body := ContainerStatsOneShot id in
  run_bare body use_stats.

(** The statistics cache's interface, implemented; the error of a request's
    context is not the client's. *)
Definition kube_StatsClient (request_Err : M W (option error)) : StatsClient W := {|
  GetContainerStats := kc_GetContainerStats;
  InspectContainerWithSize := kc_InspectContainerWithSize;
  ctx_Err := request_Err;
|}.

(** ** Theory *)

Lemma run_traced_bind {A B} (r : reader W) (u : user W A) (f : A -> user W B) tr w :
  run_traced r (user_bind u f) (tr, w)
  = let '(a, s) := run_traced r u (tr, w) in run_traced r (f a) s.
Proof.
  revert tr w. induction u as [a|o k IH|C m k IH]; intros tr w; cbn [user_bind]; [done| |].
  - rewrite !run_traced_Perform. destruct (bare_op r o w). apply IH.
  - rewrite !run_traced_Act. destruct (m w). apply IH.
Qed.

(** Whether a body was closed. *)
Definition closed (tr : list (body_op * outcome)) : bool := existsb (fun x => negb (is_read (fst x))) tr.

(** A decoder that leaves closing to its caller: the body of an answer is
    closed exactly when the decoding succeeds, so each answer that does not
    decode leaks its connection. *)
Lemma stats_body_closed (body : reader W) w :
  closed (fst (snd (run_traced body decode_stats ([], w)))) = false ->
  let '(r, (tr, _)) := run_traced body use_stats ([], w) in closed tr = is_ok r.
Proof.
  intros Hd. unfold use_stats. rewrite run_traced_bind.
  destruct (run_traced body decode_stats ([], w)) as [[stats|err] [tr w']]; cbn in Hd; [|done].
  rewrite run_traced_Perform. destruct (bare_op body OpClose w') as [x w'']. cbn.
  unfold closed. rewrite existsb_app. cbn. by rewrite orb_true_r.
Qed.

(** The statistics do not depend on it. *)
Lemma kc_GetContainerStats_ok id body w w1 stats w2 :
  ContainerStatsOneShot id w = (Ok body, w1) -> run_bare body decode_stats w1 = (Ok stats, w2) ->
  fst (kc_GetContainerStats id w) = Ok stats.
Proof.
  intros E1 E2. unfold kc_GetContainerStats, try, bind. rewrite E1. rewrite run_bare_traced in E2 |- *.
  unfold use_stats. rewrite run_traced_bind.
  destruct (run_traced body decode_stats ([], w1)) as [a [tr w3]]. injection E2 as -> ->.
  rewrite run_traced_Perform. by destruct (bare_op body OpClose w2).
Qed.

(** The sizes that reach docker are those [handleResizing] of [Exec] passes on;
    a size docker refuses does not stop the ones that follow. *)
Lemma resize_loop_spec resizeFunc resize w :
  snd (resize_loop resizeFunc resize w)
  = foldl (fun w '(h, wd) => snd (resizeFunc h wd w)) w (handleResizing (Some resize)).
Proof.
  revert w. induction resize as [|[h wd] resize IH]; intros w; [done|]. unfold handleResizing in *.
  cbn [resize_loop]. rewrite filter_cons. cbn [fst snd].
  destruct (Z.ltb_spec h 1), (Z.ltb_spec wd 1); cbn [orb]; case_decide; try lia; [apply IH..|].
  unfold bind. cbn [foldl]. destruct (resizeFunc h wd w). apply IH.
Qed.

End Client.
