(* ===== verification/Connect.v ===== *)
(** * Connect: making the client of the docker daemon

    [getDockerClient] and [ConnectToDockerOrDie] of libdocker/client.go with
    [withDebugTransport] of libdocker/debug.go, over the options of the
    vendored docker client (client/options.go and [NewClientWithOpts] of
    client/client.go), translated as far as they decide where and how the
    daemon is contacted.  TLS configurations and how they are loaded, parsed
    tcp URLs, the set-up of sockets and the answer of the daemon to the
    negotiation of the API version are parameters. *)
From S2P Require Import Prelude GoErrors GoPath Libdocker.

(** ** The client of docker *)

(** [*http.Transport], with its TLS configuration and the protocol and address
    its dialer was set up for; or anything wrapped around another transport. *)
Inductive round_tripper (T : Type) :=
| http_Transport (tls : option T) (dial : option (string * string))
| wrapped (base : round_tripper T).
Arguments http_Transport {T} tls dial.
Arguments wrapped {T} base.

Record Client (T : Type) := mkClient {
  ac_host : string;
  ac_proto : string;
  ac_addr : string;
  ac_basePath : string;
  ac_version : string;
  ac_transport : round_tripper T;
}.
Arguments mkClient {T} _ _ _ _ _ _.
Arguments ac_host {T} _. Arguments ac_proto {T} _. Arguments ac_addr {T} _.
Arguments ac_basePath {T} _. Arguments ac_version {T} _. Arguments ac_transport {T} _.

(** What [NewClientWithOpts] fixes once the options have been applied. *)
Record connected (T : Type) := mkConnected {
  cn_client : Client T;
  cn_baseTransport : option (option T * option (string * string));
  cn_scheme : string;
}.
Arguments mkConnected {T} _ _ _.
Arguments cn_client {T} _. Arguments cn_baseTransport {T} _. Arguments cn_scheme {T} _.

Definition EnvOverrideHost : string := "DOCKER_HOST".
Definition EnvOverrideAPIVersion : string := "DOCKER_API_VERSION".
Definition EnvOverrideCertPath : string := "DOCKER_CERT_PATH".
Definition EnvTLSVerify : string := "DOCKER_TLS_VERIFY".
Definition DefaultDockerHost : string := "unix:///var/run/docker.sock".
Definition DefaultVersion : string := "1.46".

Section Connect.
Context {T : Type}.
Variable Getenv : string -> string.
(** [tlsconfig.Client] on the three files of a directory, and whether to skip
    the verification. *)
Variable tlsconfig : string -> string -> string -> bool -> res T.
(** Host and path of [url.Parse] on a tcp URL. *)
Variable Parse_tcp : string -> res (string * string).
(** [sockets.ConfigureTransport] fails on some unix paths. *)
Variable ConfigureTransport : string -> string -> res unit.

Definition Opt : Type := Client T -> res (Client T).

(** [c.client.Transport = t]. *)
Definition set_transport (t : round_tripper T) (c : Client T) : Client T :=
  mkClient (ac_host c) (ac_proto c) (ac_addr c) (ac_basePath c) (ac_version c) t.

Definition ParseHostURL (host : string) : res (string * string * string) :=
  let bad := Err (Errorf ("unable to parse docker host `" +:+ host +:+ "`")) in
  match split2 host "://" with
  | [proto; addr] =>
      if decide (addr = "") then bad
      else if decide (proto = "tcp") then
        match Parse_tcp ("tcp://" +:+ addr) with
        | Err err => Err err
        | Ok (h, p) => Ok (proto, h, p)
        end
      else Ok (proto, addr, "")
  | _ => bad
  end.

Definition WithHost (host : string) : Opt := fun c =>
  match ParseHostURL host with
  | Err err => Err err
  | Ok (proto, addr, path) =>
      match ac_transport c with
      | http_Transport tls _ =>
          match ConfigureTransport proto addr with
          | Err err => Err err
          | Ok _ => Ok (mkClient host proto addr path (ac_version c) (http_Transport tls (Some (proto, addr))))
          end
      | wrapped _ => Err (Errorf "cannot apply host to transport: *libdocker.wrappedTransport")
      end
  end.

Definition WithHostFromEnv : Opt := fun c =>
  if decide (Getenv EnvOverrideHost = "") then Ok c else WithHost (Getenv EnvOverrideHost) c.

Definition WithTLSClientConfigFromEnv : Opt := fun c =>
  let dockerCertPath := Getenv EnvOverrideCertPath in
  if decide (dockerCertPath = "") then Ok c
  else match tlsconfig (Join [dockerCertPath; "ca.pem"]) (Join [dockerCertPath; "cert.pem"])
               (Join [dockerCertPath; "key.pem"]) (bool_decide (Getenv EnvTLSVerify = "")) with
       | Err err => Err err
       | Ok tlsc => Ok (set_transport (http_Transport (Some tlsc) None) c)
       end.

Definition WithVersion (version : string) : Opt := fun c =>
  Ok (if decide (version = "") then c
      else mkClient (ac_host c) (ac_proto c) (ac_addr c) (ac_basePath c) version (ac_transport c)).
Definition WithVersionFromEnv : Opt := WithVersion (Getenv EnvOverrideAPIVersion).

(** The options in order, until one fails. *)
Fixpoint apply_opts (ops : list Opt) (c : Client T) : res (Client T) :=
  match ops with
  | [] => Ok c
  | op :: ops => match op c with Ok c' => apply_opts ops c' | Err err => Err err end
  end.

Definition FromEnv : Opt := apply_opts [WithTLSClientConfigFromEnv; WithHostFromEnv; WithVersionFromEnv].

(** The scheme is https when the transport is an [*http.Transport] with a TLS
    configuration. *)
Definition tls_of (base : option (option T * option (string * string))) : option T :=
  match base with Some (tls, _) => tls | None => None end.

Definition NewClientWithOpts (ops : list Opt) : res (connected T) :=
  match ParseHostURL DefaultDockerHost with
  | Err err => Err err
  | Ok (proto, addr, _) =>
      match ConfigureTransport proto addr with
      | Err err => Err err
      | Ok _ =>
          match apply_opts ops
                  (mkClient DefaultDockerHost proto addr "" DefaultVersion (http_Transport None (Some (proto, addr)))) with
          | Err err => Err err
          | Ok c =>
              let base := match ac_transport c with
                          | http_Transport tls dial => Some (tls, dial)
                          | wrapped _ => None
                          end in
              Ok (mkConnected c base (match tls_of base with Some _ => "https" | None => "http" end))
          end
      end
  end.

(** How the connections of exec and attach are made ([Client.Dialer]). *)
Inductive raw_connection :=
| TransportDial (proto addr : string)
| NetDial (proto addr : string)
| DialPipe (addr : string)
| TLSDial (proto addr : string) (tls : T).

Definition Dialer (cn : connected T) : raw_connection :=
  let proto := ac_proto (cn_client cn) in
  let addr := ac_addr (cn_client cn) in
  match cn_baseTransport cn with
  | Some (None, Some (p, a)) => TransportDial p a
  | base =>
      if decide (proto = "unix") then NetDial proto addr
      else if decide (proto = "npipe") then DialPipe addr
      else match tls_of base with
           | Some tls => TLSDial proto addr tls
           | None => NetDial proto addr
           end
  end.

(** ** The client of the service *)

Definition wrapTransport (baseTransport : round_tripper T) : round_tripper T := wrapped baseTransport.

(** [WithHTTPClient] on a copy of the client whose transport is wrapped. *)
Definition withDebugTransport : Opt := fun c => Ok (set_transport (wrapTransport (ac_transport c)) c).

Definition getDockerClient (debug : bool) (dockerEndpoint : string) : res (connected T) :=
  NewClientWithOpts
    ((if decide (dockerEndpoint = "") then [FromEnv] else [WithHost dockerEndpoint; WithVersion ""])
     ++ (if debug then [withDebugTransport] else [])).

(** The process ends when there is no client; the version is negotiated by the
    client that is made. *)
Definition ConnectToDockerOrDie (debug : bool) (dockerEndpoint : string)
  (requestTimeout imagePullProgressDeadline : Z) : option (connected T * kubeDockerClient) :=
  match getDockerClient debug dockerEndpoint with
  | Err _ => None
  | Ok client => Some (client, newKubeDockerClient requestTimeout imagePullProgressDeadline)
  end.

(** ** Theory *)

Lemma apply_opts_app ops ops' c :
  apply_opts (ops ++ ops') c = match apply_opts ops c with Ok c' => apply_opts ops' c' | Err err => Err err end.
Proof. revert c. induction ops as [|op ops IH]; intros c; cbn; [done|]. by destruct (op c). Qed.

(** No option but the debug one wraps the transport. *)
Definition plain_transport (c : Client T) : Prop := exists tls dial, ac_transport c = http_Transport tls dial.
Definition keeps_plain (op : Opt) : Prop := forall c c', plain_transport c -> op c = Ok c' -> plain_transport c'.

Lemma apply_opts_plain ops : Forall keeps_plain ops -> keeps_plain (apply_opts ops).
Proof.
  induction 1 as [|op ops Hop _ IH]; intros c c' Hc E; cbn in E; [by injection E as <-|].
  destruct (op c) as [c1|] eqn:E1; [|done]. exact (IH _ _ (Hop _ _ Hc E1) E).
Qed.

Lemma WithHost_plain host : keeps_plain (WithHost host).
Proof.
  intros c c' _ E. unfold WithHost in E. destruct (ParseHostURL host) as [[[proto addr] path]|]; [|done].
  destruct (ac_transport c); [|done]. destruct (ConfigureTransport proto addr); [|done].
  injection E as <-. by eexists _, _.
Qed.

Lemma WithVersion_plain v : keeps_plain (WithVersion v).
Proof. intros c c' (tls & dial & E) [= <-]. exists tls, dial. by destruct (decide _). Qed.

Lemma base_opts_plain endpoint :
  Forall keeps_plain (if decide (endpoint = "") then [FromEnv] else [WithHost endpoint; WithVersion ""]).
Proof.
  destruct (decide _); repeat constructor; auto using WithHost_plain, WithVersion_plain.
  apply apply_opts_plain. repeat constructor; [|intros c c'; unfold WithHostFromEnv|apply WithVersion_plain].
  - intros c c' Hc E. unfold WithTLSClientConfigFromEnv in E. destruct (decide _); [by injection E as <-|].
    destruct (tlsconfig _ _ _ _); [|done]. injection E as <-. by eexists _, _.
  - intros Hc E. destruct (decide _); [by injection E as <-|]. by eapply WithHost_plain.
Qed.

(** An endpoint that is given never brings a TLS configuration. *)
Lemma given_endpoint_no_tls endpoint c0 c tls dial :
  endpoint <> "" -> ac_transport c0 = http_Transport None (Some (ac_proto c0, ac_addr c0)) ->
  apply_opts (if decide (endpoint = "") then [FromEnv] else [WithHost endpoint; WithVersion ""]) c0 = Ok c ->
  ac_transport c = http_Transport tls dial -> tls = None.
Proof.
  intros Hd E0 E Ht. rewrite decide_False in E by done. cbn in E. unfold WithHost in E. rewrite E0 in E.
  destruct (ParseHostURL endpoint) as [[[proto addr] path]|]; [|done].
  destruct (ConfigureTransport proto addr); [|done]. cbn in E. injection E as <-. by injection Ht.
Qed.

(** C40: Logging at debug or trace level changes how the daemon is contacted.
    The client made at such a level exists exactly when the other one does,
    with the same host, address, path, version and base transport; but docker's
    client no longer sees the TLS configuration of that transport.  Where the
    environment asks for TLS, the scheme is https and the connections of exec
    and attach to a TCP address are TLS at the other levels, and the scheme is
    http and they are plain at these; without TLS, which is always so when an
    endpoint is given, the scheme is http at every level. *)
Theorem debug_level_drops_tls (dockerEndpoint : string) :
  match getDockerClient false dockerEndpoint with
  | Err err => getDockerClient true dockerEndpoint = Err err
  | Ok cn => exists cn' tls dial,
      getDockerClient true dockerEndpoint = Ok cn'
      /\ ac_transport (cn_client cn) = http_Transport tls dial
      /\ cn_client cn' = set_transport (wrapped (http_Transport tls dial)) (cn_client cn)
      /\ (dockerEndpoint <> "" -> tls = None)
      /\ cn_scheme cn' = "http"
      /\ match tls with
         | None => cn_scheme cn = "http"
         | Some tlsc => cn_scheme cn = "https"
             /\ let proto := ac_proto (cn_client cn) in
                let addr := ac_addr (cn_client cn) in
                (proto <> "unix" -> proto <> "npipe" ->
                 Dialer cn = TLSDial proto addr tlsc /\ Dialer cn' = NetDial proto addr)
         end
  end.
Proof.
  unfold getDockerClient, NewClientWithOpts.
  destruct (ParseHostURL DefaultDockerHost) as [[[proto addr] path]|]; [|done].
  destruct (ConfigureTransport proto addr); [|done]. rewrite app_nil_r, apply_opts_app.
  set (c0 := mkClient _ _ _ _ _ _).
  assert (plain_transport c0) as H0 by by eexists _, _.
  pose proof (apply_opts_plain _ (base_opts_plain dockerEndpoint) c0) as Hp.
  pose proof (given_endpoint_no_tls dockerEndpoint c0) as Hn.
  destruct (apply_opts _ c0) as [c|err]; [|done].
  destruct (Hp c H0 eq_refl) as (tls & dial & Ht). cbn [apply_opts withDebugTransport]. eexists _, tls, dial.
  split; [done|]. cbn [cn_client cn_scheme cn_baseTransport]. split; [done|]. split; [by unfold wrapTransport; rewrite Ht|].
  split; [|split; [done|]].
  - intros Hd. by eapply (Hn c tls dial).
  - rewrite Ht. destruct tls as [tlsc|]; cbn; [|done]. split; [done|]. intros Hu Hi.
    unfold Dialer. cbn. by rewrite !decide_False.
Qed.

End Connect.

(** *** An environment with TLS *)

Definition tls_env (name : string) : string :=
  if decide (name = EnvOverrideHost) then "tcp://10.0.0.5:2376"
  else if decide (name = EnvOverrideCertPath) then "/certs" else "".

Example tls_env_clients :
  let client debug := getDockerClient tls_env (fun ca _ _ skip => Ok (ca, skip))
    (fun u => Ok (trim_prefix u "tcp://", "")) (fun _ _ => Ok tt) debug "" in
  (exists cn, client false = Ok cn /\ cn_scheme cn = "https"
     /\ Dialer cn = TLSDial "tcp" "10.0.0.5:2376" ("/certs/ca.pem", true))
  /\ (exists cn, client true = Ok cn /\ cn_scheme cn = "http" /\ Dialer cn = NetDial "tcp" "10.0.0.5:2376").
Proof. cbv zeta. split; (eexists; split; [vm_compute; reflexivity|split; reflexivity]). Qed.
