(* ===== verification/Hairpin.v ===== *)
(** * Hairpin: hairpin mode on an interface of the host

    network/hairpin/hairpin.go: the host interface at the other end of a
    container's interface, found in the statistics ethtool prints inside the
    container, and the file of sysfs that turns hairpin mode on. *)
From S2P Require Import Prelude Regex GoErrors GoPath GoText.

(** [os.Stat], [os.WriteFile] and [net.InterfaceByIndex]. *)
Class HairpinOS (W : Type) := {
  sys_Stat : string -> M W (res unit);
  sys_WriteFile : string -> string -> M W (res unit);
  InterfaceByIndex : Z -> M W (res string);
}.

Definition sysfsNetPath : string := "/sys/devices/virtual/net".
Definition brportRelativePath : string := "brport".
Definition hairpinModeRelativePath : string := "hairpin_mode".
Definition hairpinEnable : string := "1".
Definition ethtoolOutputRegex : re := Seq (Lit "peer_ifindex: ") (Cap (Many1 is_digit)).

(** [strconv.Atoi]. *)
Definition Atoi (s : string) : res Z :=
  match parse_int 64 s with Ok z => Ok z | Err e => Err (NumError "Atoi" s e) end.

Section Hairpin.
Context {W : Type} `{Execer W} `{HairpinOS W}.

(** What is done with the output of ethtool. *)
Definition pair_of_output (containerInterfaceName containerDesc output : string) : M W (res string) :=
  match find_submatch ethtoolOutputRegex output with
  | Some (index :: _) =>
      match Atoi index with
      | Err err => ret (Err (Errorf ("peer_ifindex wasn't numeric: " +:+ index +:+ ": " +:+ Error err)))
      | Ok peerIfIndex => InterfaceByIndex peerIfIndex
      end
  | _ => ret (Err (Errorf ("no peer_ifindex in interface statistics for " +:+ containerInterfaceName
                           +:+ " of container " +:+ containerDesc)))
  end.

Definition findPairInterfaceOfContainerInterface (containerInterfaceName containerDesc : string)
  (nsenterArgs : list string) : M W (res string) :=
  let? nsenterPath := LookPath "nsenter" in
  let? ethtoolPath := LookPath "ethtool" in
  let* '(output, err) := CombinedOutput nsenterPath
    (nsenterArgs ++ ["-F"; "--"; ethtoolPath; "--statistics"; containerInterfaceName]) in
  match err with
  | Some e =>
      ret (Err (Errorf ("unable to query interface " +:+ containerInterfaceName +:+ " of container "
                        +:+ containerDesc +:+ ": " +:+ Error e +:+ ": " +:+ output)))
  | None => pair_of_output containerInterfaceName containerDesc output
  end.

(** A bridge port that cannot be examined is written to all the same, unless
    it does not exist. *)
Definition setUpInterface (ifName : string) : M W (res unit) :=
  let ifPath := Join [sysfsNetPath; ifName] in
  let? _ := sys_Stat ifPath in
  let brportPath := Join [ifPath; brportRelativePath] in
  let* s := sys_Stat brportPath in
  let write := sys_WriteFile (Join [brportPath; hairpinModeRelativePath]) hairpinEnable in
  match s with
  | Err err => if IsNotExist err then ret (Ok tt) else write
  | Ok _ => write
  end.

End Hairpin.

(** ** Theory *)

(** Components that are plain, some by computation. *)
Ltac plain_components :=
  repeat first [apply Forall_nil_2 | apply Forall_cons_2];
  first [assumption | apply (bool_decide_unpack _); vm_compute; exact I].

(** The statistics ethtool prints, the index being [n]. *)
Lemma peer_index_read (pre : string) (n : N) (rest : string) :
  lacks "p" pre = true -> (forall c t, rest = String c t -> is_digit c = false) ->
  find_submatch ethtoolOutputRegex (pre +:+ "peer_ifindex: " +:+ utoa n +:+ rest) = Some [utoa n].
Proof.
  intros Hpre Hr. induction pre as [|c pre IH].
  - change ("" +:+ ?s) with s. apply (prefers_find _ _ _ rest).
    eapply (prefers_seq _ _ _ []); [apply prefers_lit|].
    apply prefers_cap, prefers_many1; [apply utoa_digits|apply utoa_nonempty|exact Hr].
  - unfold lacks in Hpre, IH. cbn [sforall] in Hpre. apply andb_true_iff in Hpre as [Hc Hpre].
    rewrite <- (IH Hpre). change (String c pre +:+ ?s) with (String c (pre +:+ s)).
    cbn [find_submatch]. destruct (matches _ (String c _)) as [|[? ?] ?] eqn:E; [done|].
    exfalso. revert E. unfold ethtoolOutputRegex. cbn [matches]. unfold has_prefix. cbn [String.prefix].
    destruct (Ascii.ascii_dec "p" c) as [<-|]; [done|]. done.
Qed.

(** The interface with that index is looked up. *)
Lemma pair_interface_found {W} `{Execer W} `{HairpinOS W} name desc args pre n rest
  nsenterPath ethtoolPath (w w1 w2 w3 : W) :
  LookPath "nsenter" w = (Ok nsenterPath, w1) -> LookPath "ethtool" w1 = (Ok ethtoolPath, w2) ->
  CombinedOutput nsenterPath (args ++ ["-F"; "--"; ethtoolPath; "--statistics"; name]) w2
    = ((pre +:+ "peer_ifindex: " +:+ utoa n +:+ rest, None), w3) ->
  lacks "p" pre = true -> (forall c t, rest = String c t -> is_digit c = false) -> (n < 2 ^ 63)%N ->
  findPairInterfaceOfContainerInterface name desc args w = InterfaceByIndex (Z.of_N n) w3.
Proof.
  intros E1 E2 E3 Hpre Hr Hn. unfold findPairInterfaceOfContainerInterface, try, bind.
  rewrite E1, E2, E3. unfold pair_of_output. rewrite peer_index_read by done. unfold Atoi.
  rewrite parse_int_digits by (apply utoa_digits || apply utoa_nonempty).
  rewrite parse_uint_utoa by lia. change (2 ^ (Z.of_N 64 - 1))%Z with (2 ^ 63)%Z.
  destruct (Z.leb_spec (2 ^ 63) (Z.of_N n)); [lia|done].
Qed.

(** The only file written is the [hairpin_mode] of the interface, once, and not
    when the interface is not the port of a bridge. *)
Lemma hairpin_mode_written {W} `{HairpinOS W} ifName (w w1 w2 : W) r :
  plain ifName ->
  let ifPath := "/sys/devices/virtual/net/" +:+ ifName in
  sys_Stat ifPath w = (Ok tt, w1) -> sys_Stat (ifPath +:+ "/brport") w1 = (r, w2) ->
  setUpInterface ifName w
  = match r with
    | Err err => if IsNotExist err then (Ok tt, w2)
                 else sys_WriteFile (ifPath +:+ "/brport/hairpin_mode") "1" w2
    | Ok _ => sys_WriteFile (ifPath +:+ "/brport/hairpin_mode") "1" w2
    end.
Proof.
  intros Hp ifPath. set (net := ["sys"; "devices"; "virtual"; "net"]).
  assert (Forall plain (net ++ [ifName; "brport"])) as Hall.
  { plain_components. }
  assert (plain "hairpin_mode") as Hm by (apply (bool_decide_unpack _); vm_compute; exact I).
  assert (Join [sysfsNetPath; ifName] = ifPath) as E1.
  { change sysfsNetPath with (abs_path net). by rewrite Join_abs_path by (done || plain_components). }
  assert (ifPath = abs_path (net ++ [ifName])) as E2 by done.
  assert (Join [ifPath; brportRelativePath] = ifPath +:+ "/brport") as E3.
  { rewrite E2. rewrite Join_abs_path; [done|done| |]; plain_components. }
  assert (Join [ifPath +:+ "/brport"; hairpinModeRelativePath] = ifPath +:+ "/brport/hairpin_mode") as E4.
  { assert (ifPath +:+ "/brport" = abs_path (net ++ [ifName; "brport"])) as ->.
    { rewrite E2. change (net ++ [ifName; "brport"]) with ((net ++ [ifName]) ++ ["brport"]).
      by rewrite (abs_path_snoc (net ++ [ifName])). }
    rewrite Join_abs_path by done. change (net ++ [ifName; "brport"]) with ((net ++ [ifName]) ++ ["brport"]).
    rewrite (abs_path_snoc (net ++ [ifName])), <- E2, !sapp_assoc. done. }
  intros Es1 Es2. unfold setUpInterface, try, bind. rewrite E1, Es1, E3, Es2, E4.
  destruct r as [[]|err]; [done|]. by destruct (IsNotExist err).
Qed.
