(* ===== verification/CmdExec.v ===== *)
(** * CmdExec: commands that can be stopped

    utils/exec.go: the commands of package utils, a layer over os/exec.  Setters,
    running a command to its end and the translation of errors are functions;
    starting, waiting and stopping, where the process, the goroutine that waits
    and the timer of [Stop] run side by side, form a step relation. *)
From stdpp Require Import relations.
From S2P Require Import Prelude GoErrors.

(** ** Processes *)

(** [syscall.WaitStatus]: how a process ended. *)
Inductive WaitStatus := Exited (code : Z) | Signaled (sig : Z).
Definition SIGKILL : Z := 9.
Definition SIGTERM : Z := 15.

(** [WaitStatus.ExitStatus]. *)
Definition wait_ExitStatus (ws : WaitStatus) : Z :=
  match ws with Exited code => code | Signaled _ => (-1)%Z end.
Definition wait_Exited (ws : WaitStatus) : bool :=
  match ws with Exited _ => true | Signaled _ => false end.

(** ** Errors *)

(** The errors of os/exec: of a process that failed, of the lookup of its
    program, others. *)
Inductive exec_error :=
| exec_ExitError (ws : WaitStatus)
| exec_Error (name : string) (not_found : bool) (err : error)
| exec_other (err : error).

(** The errors of this package. *)
Inductive cmd_error :=
| ExitErrorWrapper (ws : WaitStatus)
| ErrExecutableNotFound
| cmd_passed (err : exec_error)
| CodeExitError (Err : error) (Code : Z).

Definition handleError (err : option exec_error) : option cmd_error :=
  match err with
  | None => None
  | Some (exec_ExitError ws) => Some (ExitErrorWrapper ws)
  | Some (exec_Error name true e) => Some ErrExecutableNotFound
  | Some e => Some (cmd_passed e)
  end.

(** The methods of the interface [ExitError], for the errors that have them. *)
Definition ExitStatus (e : cmd_error) : option Z :=
  match e with
  | ExitErrorWrapper ws => Some (wait_ExitStatus ws)
  | CodeExitError _ code => Some code
  | _ => None
  end.
Definition error_Exited (e : cmd_error) : option bool :=
  match e with
  | ExitErrorWrapper ws => Some (wait_Exited ws)
  | CodeExitError _ _ => Some true
  | _ => None
  end.

(** ** Commands *)

(** [exec.Cmd], its writers and readers being names; the state of the process
    is set by [Start], [ProcessState] by [Wait]. *)
Record Cmd := mkCmd {
  c_Path : string;
  c_Args : list string;
  c_Dir : string;
  c_Env : list string;
  c_Stdin : option string;
  c_Stdout : option string;
  c_Stderr : option string;
  c_started : bool;
  c_ProcessState : option WaitStatus;
}.

Definition Command (cmd : string) (args : list string) : Cmd :=
  mkCmd cmd (cmd :: args) "" [] None None None false None.

Definition SetDir (dir : string) (c : Cmd) : Cmd :=
  mkCmd (c_Path c) (c_Args c) dir (c_Env c) (c_Stdin c) (c_Stdout c) (c_Stderr c) (c_started c) (c_ProcessState c).
Definition SetEnv (env : list string) (c : Cmd) : Cmd :=
  mkCmd (c_Path c) (c_Args c) (c_Dir c) env (c_Stdin c) (c_Stdout c) (c_Stderr c) (c_started c) (c_ProcessState c).
Definition SetStdin (i : option string) (c : Cmd) : Cmd :=
  mkCmd (c_Path c) (c_Args c) (c_Dir c) (c_Env c) i (c_Stdout c) (c_Stderr c) (c_started c) (c_ProcessState c).
Definition SetStdout (o : option string) (c : Cmd) : Cmd :=
  mkCmd (c_Path c) (c_Args c) (c_Dir c) (c_Env c) (c_Stdin c) o (c_Stderr c) (c_started c) (c_ProcessState c).
Definition SetStderr (o : option string) (c : Cmd) : Cmd :=
  mkCmd (c_Path c) (c_Args c) (c_Dir c) (c_Env c) (c_Stdin c) (c_Stdout c) o (c_started c) (c_ProcessState c).
Definition set_started (c : Cmd) : Cmd :=
  mkCmd (c_Path c) (c_Args c) (c_Dir c) (c_Env c) (c_Stdin c) (c_Stdout c) (c_Stderr c) true (c_ProcessState c).
Definition set_ProcessState (ws : WaitStatus) (c : Cmd) : Cmd :=
  mkCmd (c_Path c) (c_Args c) (c_Dir c) (c_Env c) (c_Stdin c) (c_Stdout c) (c_Stderr c) (c_started c) (Some ws).

(** The operating system: [exec.LookPath], starting a process, and waiting for
    it, which gives what it wrote to its output and its error output (all of it
    to the first, in the order written, when both writers are the same), and an
    error in copying either. *)
Class Processes (W : Type) := {
  os_LookPath : string -> M W (option exec_error);
  os_StartProcess : Cmd -> M W (option error);
  os_WaitProcess : M W (string * string * WaitStatus * option error);
}.

Section Run.
Context {W : Type} `{Processes W}.
Abbreviation CS := (Cmd * W)%type.

Definition onOS {A} (m : M W A) : M CS A := fun '(c, w) => let '(a, w') := m w in (a, (c, w')).

(** [exec.Cmd.Start] and [exec.Cmd.Wait]. *)
Definition exec_Start : M CS (option exec_error) :=
  let* '(c, _) := get in
  let* l := onOS (os_LookPath (c_Path c)) in
  match l with
  | Some e => ret (Some e)
  | None =>
      if c_started c then ret (Some (exec_other (Errorf "exec: already started")))
      else
        let* s := onOS (os_StartProcess c) in
        match s with
        | Some e => ret (Some (exec_other e))
        | None => do* modify (fun '(c, w) => (set_started c, w)) in ret None
        end
  end.

Definition exec_Wait : M CS (string * string * option exec_error) :=
  let* '(c, _) := get in
  if negb (c_started c) then ret ("", "", Some (exec_other (Errorf "exec: not started")))
  else match c_ProcessState c with
       | Some _ => ret ("", "", Some (exec_other (Errorf "exec: Wait was already called")))
       | None =>
           let* '(out, errout, ws, copy) := onOS os_WaitProcess in
           do* modify (fun '(c, w) => (set_ProcessState ws c, w)) in
           ret (out, errout,
                match ws with
                | Exited 0 => exec_other <$> copy
                | _ => Some (exec_ExitError ws)
                end)
       end.

Definition exec_Run : M CS (string * string * option exec_error) :=
  let* err := exec_Start in
  match err with
  | Some e => ret ("", "", Some e)
  | None => exec_Wait
  end.

Definition cmd_Start : M CS (option cmd_error) := let* err := exec_Start in ret (handleError err).
Definition cmd_Wait : M CS (option cmd_error) :=
  let* '(_, _, err) := exec_Wait in ret (handleError err).
Definition cmd_Run : M CS (option cmd_error) :=
  let* '(_, _, err) := exec_Run in ret (handleError err).

(** [exec.Cmd.Output] and [CombinedOutput] set buffers of their own; the second
    gives both writers the same one. *)
Definition Output : M CS (string * option cmd_error) :=
  let* '(c, _) := get in
  match c_Stdout c with
  | Some _ => ret ("", handleError (Some (exec_other (Errorf "exec: Stdout already set"))))
  | None =>
      do* modify (fun '(c, w) => (SetStdout (Some "buffer") c, w)) in
      let* '(out, _, err) := exec_Run in
      ret (out, handleError err)
  end.
Definition CombinedOutput : M CS (string * option cmd_error) :=
  let* '(c, _) := get in
  match c_Stdout c, c_Stderr c with
  | Some _, _ => ret ("", handleError (Some (exec_other (Errorf "exec: Stdout already set"))))
  | None, Some _ => ret ("", handleError (Some (exec_other (Errorf "exec: Stderr already set"))))
  | None, None =>
      do* modify (fun '(c, w) => (SetStderr (Some "buffer") (SetStdout (Some "buffer") c), w)) in
      let* '(out, _, err) := exec_Run in
      ret (out, handleError err)
  end.

End Run.

(** ** Stopping *)

(** A process in the system: running, or ended and not waited for, or gone. *)
Inductive process := Alive | Zombie (ws : WaitStatus) | Reaped.

#[export] Instance WaitStatus_eq_dec : EqDecision WaitStatus.
Proof. solve_decision. Defined.
#[export] Instance process_eq_dec : EqDecision process.
Proof. solve_decision. Defined.

(** A command with its process, the timers of [Stop] that have not fired, the
    signals that reached the process while it was alive, and whether the
    program has panicked. *)
Record stop_state := mkStop {
  st_Process : option process;
  st_ProcessState : option WaitStatus;
  st_timers : nat;
  st_delivered : list Z;
  st_panicked : bool;
}.
Definition stop_start : stop_state := mkStop None None 0 [] false.

(** [Process.Signal]: a process that is not alive gets nothing. *)
Definition Signal (sig : Z) (s : stop_state) : stop_state :=
  match st_Process s with
  | Some Alive => mkStop (st_Process s) (st_ProcessState s) (st_timers s) (st_delivered s ++ [sig]) (st_panicked s)
  | _ => s
  end.

Definition Stop (s : stop_state) : stop_state :=
  match st_Process s with
  | None => s
  | Some _ =>
      let s := Signal SIGTERM s in
      mkStop (st_Process s) (st_ProcessState s) (S (st_timers s)) (st_delivered s) (st_panicked s)
  end.

(** The function of the timer: [ProcessState] is nil until [Wait] returns. *)
Definition kill_timer (s : stop_state) : stop_state :=
  let s := mkStop (st_Process s) (st_ProcessState s) (pred (st_timers s)) (st_delivered s) (st_panicked s) in
  match st_ProcessState s with
  | None => mkStop (st_Process s) None (st_timers s) (st_delivered s) true
  | Some ws => if wait_Exited ws then s else Signal SIGKILL s
  end.

Inductive stop_step : stop_state -> stop_state -> Prop :=
| step_start ps n d :
    stop_step (mkStop None ps n d false) (mkStop (Some Alive) ps n d false)
| step_end ws ps n d :
    stop_step (mkStop (Some Alive) ps n d false) (mkStop (Some (Zombie ws)) ps n d false)
| step_wait ws n d :
    stop_step (mkStop (Some (Zombie ws)) None n d false) (mkStop (Some Reaped) (Some ws) n d false)
| step_stop s : st_panicked s = false -> stop_step s (Stop s)
| step_timer s : st_panicked s = false -> (0 < st_timers s)%nat -> stop_step s (kill_timer s).

Definition stop_reachable (s : stop_state) : Prop := rtc stop_step stop_start s.

(** ** Theory *)

(** The state of the process is known exactly when it was waited for. *)
Definition stop_ok (s : stop_state) : Prop :=
  (is_Some (st_ProcessState s) <-> st_Process s = Some Reaped) /\ Forall (eq SIGTERM) (st_delivered s)
  /\ ((0 < st_timers s)%nat -> is_Some (st_Process s)).

Lemma Signal_not_alive sig s : st_Process s <> Some Alive -> Signal sig s = s.
Proof. unfold Signal. by destruct (st_Process s) as [[]|]. Qed.

Lemma kill_timer_silent s : stop_ok s -> st_delivered (kill_timer s) = st_delivered s.
Proof.
  intros ([H1 _] & _). unfold kill_timer. cbn. destruct (st_ProcessState s) as [ws|] eqn:E; [|done].
  destruct (wait_Exited ws); [done|]. rewrite Signal_not_alive; [done|]. cbn. rewrite H1; [done|by eexists].
Qed.

Lemma stop_step_ok s s' : stop_ok s -> stop_step s s' -> stop_ok s'.
Proof.
  intros Hok Hs. pose proof (kill_timer_silent s Hok) as Hq. destruct Hok as ([H1 H2] & H3 & H4).
  destruct Hs as [ps n d|ws ps n d|ws n d|s Hp|s Hp Ht]; cbn in *.
  - split_and!; [|done|intros _; by eexists]. split; [intros Hi; by apply H1 in Hi|done].
  - split_and!; [|done|intros _; by eexists]. split; [intros Hi; by apply H1 in Hi|done].
  - split_and!; [|done|intros _; by eexists]. split; [done|by eexists].
  - unfold stop_ok, Stop. destruct (st_Process s) as [p|] eqn:Ep; [|by rewrite Ep].
    unfold Signal. rewrite Ep. destruct p; cbn; rewrite ?Ep; split_and!; try done; try (intros _; by eexists).
    apply Forall_app. by repeat constructor.
  - unfold stop_ok. rewrite Hq. split_and!; [|done|].
    + unfold kill_timer. cbn. destruct (st_ProcessState s) as [ws|] eqn:Eps; cbn; [|by split].
      destruct (wait_Exited ws); [|rewrite Signal_not_alive by (cbn; rewrite H1; [done|by eexists])];
        cbn; by split.
    + intros _. unfold kill_timer. cbn. specialize (H4 Ht).
      destruct (st_ProcessState s) as [ws|] eqn:Eps; [|done]. destruct (wait_Exited ws); [done|].
      by rewrite Signal_not_alive by (cbn; rewrite H1; [done|by eexists]).
Qed.

Lemma stop_reachable_ok s : stop_reachable s -> stop_ok s.
Proof.
  intros Hr. unfold stop_reachable in Hr. eapply (rtc_ind_r stop_ok); [|intros x y _ Hs Hx|exact Hr].
  - split_and!; [|constructor|cbn; lia]. split; [by intros []|done].
  - by eapply stop_step_ok.
Qed.

(** C38: A command that ignores SIGTERM is never killed.  In every reachable
    state the signals that reached the process are all SIGTERM: each [Stop] of
    a process that is running delivers one, [Stop] of any other process and the
    timers deliver none.  A timer that fires before the process was waited for
    makes the program panic, while one that fires later does nothing but be
    gone. *)
Theorem stop_never_kills (s : stop_state) :
  stop_reachable s ->
  Forall (eq SIGTERM) (st_delivered s)
  /\ st_delivered (Stop s) = st_delivered s ++ (if decide (st_Process s = Some Alive) then [SIGTERM] else [])
  /\ st_delivered (kill_timer s) = st_delivered s
  /\ (st_panicked s = false -> (0 < st_timers s)%nat ->
        stop_step s (kill_timer s)
        /\ (st_ProcessState s = None -> st_panicked (kill_timer s) = true)
        /\ (is_Some (st_ProcessState s) ->
              kill_timer s = mkStop (st_Process s) (st_ProcessState s) (pred (st_timers s)) (st_delivered s) false)).
Proof.
  intros Hr. pose proof (stop_reachable_ok s Hr) as Hok. split_and!.
  - apply Hok.
  - unfold Stop. destruct (st_Process s) as [p|] eqn:Ep; [|by rewrite decide_False, app_nil_r].
    unfold Signal. rewrite Ep. by destruct p; cbn; rewrite ?app_nil_r.
  - by apply kill_timer_silent.
  - intros Hp Ht. destruct Hok as ([H1 _] & _). split; [by apply step_timer|]. unfold kill_timer; cbn. split.
    + by intros ->.
    + intros Hi. specialize (H1 Hi). destruct Hi as [ws Hws]. rewrite Hws.
      destruct (wait_Exited ws); cbn; [by rewrite Hp|].
      rewrite Signal_not_alive by (cbn; by rewrite H1). by rewrite Hp.
Qed.

(** A process that ignores SIGTERM, ten seconds after [Stop]. *)
Definition stubborn : stop_state := Stop (mkStop (Some Alive) None 0 [] false).

Lemma stubborn_reachable : stop_reachable stubborn.
Proof.
  eapply rtc_l; [apply step_start|]. eapply rtc_l; [by apply step_stop|]. apply rtc_refl.
Qed.

Lemma stop_never_kills_witness :
  st_delivered stubborn = [SIGTERM] /\ st_Process stubborn = Some Alive
  /\ st_panicked (kill_timer stubborn) = true.
Proof.
  split; [reflexivity|]. split; [reflexivity|].
  destruct (stop_never_kills stubborn stubborn_reachable) as (_ & _ & _ & H).
  destruct (H eq_refl ltac:(cbn; lia)) as (_ & Hp & _). exact (Hp eq_refl).
Defined.

(** What is reported of a command that was run: nothing when it exited with 0,
    its status as it ended otherwise; a program that is not found is
    [ErrExecutableNotFound]. *)
Lemma run_status {W} `{Processes W} c (w w1 w2 w3 : W) out errout ws copy :
  c_started c = false -> c_ProcessState c = None ->
  os_LookPath (c_Path c) w = (None, w1) -> os_StartProcess c w1 = (None, w2) ->
  os_WaitProcess w2 = ((out, errout, ws, copy), w3) ->
  fst (cmd_Run (c, w)) = match ws with
                         | Exited 0 => handleError (exec_other <$> copy)
                         | _ => Some (ExitErrorWrapper ws)
                         end.
Proof.
  intros Hc Hps El Es Ew. unfold cmd_Run, exec_Run, exec_Start, exec_Wait, onOS, bind, get, modify, ret.
  rewrite El, Hc, Es. cbn. rewrite Hps, Ew. cbn. by destruct ws as [[]|].
Qed.
