(* ===== verification/Startup.v ===== *)
(** * Startup: from the command line to a service

    [NewDockerService] of core/docker_service.go, the flags of config/options.go
    and cmd/cri/options/options.go with their defaults, the hairpin flag of
    config/hairpin.go, [RunCriDockerd] of cmd/server.go and the listener of
    backend/daemon.go: the components of the other files put together.  The
    parsing of the command line is [CommandLine]; that of addresses
    (net/netip), the gRPC server and the readiness notifications are parameters
    or left out. *)
From S2P Require Import Prelude GoErrors GoPath GoText Cri Cache Store Checkpoint RequestCache GoNet Libdocker PluginManager Hostport Service MemFs Sim PortForward Cni Kubenet ContainerManager StreamServer.

(** ** Flags *)

(** [HairpinModeValue]. *)
Definition validHairpinModes : list string := [PromiscuousBridge; HairpinVeth; HairpinNone].
Definition HairpinMode_String (value : string) : string := if decide (value = "") then HairpinNone else value.
Definition HairpinMode_Set (mode : string) (value : string) : res string :=
  if decide (mode ∈ validHairpinModes) then Ok mode
  else Err (Errorf (quote mode +:+ " is not a valid hairpin-mode value, must be one of: ["
                    +:+ join (quote <$> validHairpinModes) " " +:+ "]")).

Record ContainerRuntimeOptions := mkContainerRuntimeOptions {
  cro_CgroupDriver : string;
  cro_RuntimeCgroups : string;
  cro_CriDockerdRootDirectory : string;
  cro_PodSandboxImage : string;
  cro_DockerEndpoint : string;
  cro_ImagePullProgressDeadline : Z;
  cro_RuntimeRequestTimeout : Z;
  cro_StreamingConnectionIdleTimeout : Z;
  cro_StreamingBindAddr : string;
  cro_PodCIDR : string;
  cro_IPv6DualStackEnabled : bool;
  cro_NetworkPluginName : string;
  cro_NetworkPluginMTU : Z;
  cro_CNIConfDir : string;
  cro_CNIBinDir : string;
  cro_CNICacheDir : string;
}.

Record DockerCRIFlags := mkDockerCRIFlags {
  f_ContainerRuntimeOptions : ContainerRuntimeOptions;
  f_RemoteRuntimeEndpoint : string;
  f_NonMasqueradeCIDR : string;
}.

Definition defaultPodSandboxImage : string := "registry.k8s.io/pause" +:+ ":" +:+ "3.10".

Definition NewContainerRuntimeOptions : ContainerRuntimeOptions :=
  mkContainerRuntimeOptions "" "" "/var/lib/cri-dockerd" defaultPodSandboxImage "unix:///var/run/docker.sock"
    Minute 0 0 "" "" false "cni" 0 "/etc/cni/net.d" "/opt/cni/bin" "/var/lib/cni/cache".

Definition NewDockerCRIFlags : DockerCRIFlags :=
  mkDockerCRIFlags NewContainerRuntimeOptions "unix:///var/run/cri-dockerd.sock" "10.0.0.0/8".

(** ** Network plugins *)

Definition sysctlBridgeCallIP6Tables : string := "net/bridge/bridge-nf-call-ip6tables".

(** [Init] of the no-op plugin: failures are logged. *)
Definition noop_Init {W} `{Execer W} `{NodeOS W} : M W (res unit) :=
  let* _ := CombinedOutput "modprobe" ["br-netfilter"] in
  let* _ := SetSysctl sysctlBridgeCallIPTables 1 in
  let* val := GetSysctl sysctlBridgeCallIP6Tables in
  match val with
  | Ok val => if (val =? 1)%Z then ret (Ok tt)
              else let* _ := SetSysctl sysctlBridgeCallIP6Tables 1 in ret (Ok tt)
  | Err _ => ret (Ok tt)
  end.

(** The plugin in use. *)
Inductive network_plugin :=
| NoopPlugin
| CniPlugin (p : cniNetworkPlugin)
| KubenetPlugin (p : kubenetNetworkPlugin).

Definition network_plugin_Name (p : network_plugin) : string :=
  match p with
  | NoopPlugin => DefaultPluginName
  | CniPlugin _ => CNIPluginName
  | KubenetPlugin _ => KubenetPluginName
  end.

(** The settings under %+v. *)
Definition settings_string (s : NetworkPluginSettings) : string :=
  "&{HairpinMode:" +:+ nps_HairpinMode s +:+ " NonMasqueradeCIDR:" +:+ nps_NonMasqueradeCIDR s
  +:+ " PluginName:" +:+ nps_PluginName s +:+ " PluginBinDirString:" +:+ nps_PluginBinDirString s
  +:+ " PluginBinDirs:[" +:+ join (nps_PluginBinDirs s) " " +:+ "] PluginConfDir:" +:+ nps_PluginConfDir s
  +:+ " PluginCacheDir:" +:+ nps_PluginCacheDir s +:+ " MTU:" +:+ itoa (nps_MTU s) +:+ "}".

Definition set_PluginBinDirs (dirs : list string) (s : NetworkPluginSettings) : NetworkPluginSettings :=
  mkNetworkPluginSettings (nps_HairpinMode s) (nps_NonMasqueradeCIDR s) (nps_PluginName s)
    (nps_PluginBinDirString s) dirs (nps_PluginConfDir s) (nps_PluginCacheDir s) (nps_MTU s).

(** ** The service *)

Definition sandboxCheckpointDir : string := "sandbox".

(** What [NewDockerService] sets up beside the state of the service. *)
Record docker_service := mkStarted {
  dsv_config : service_config;
  dsv_network : network_plugin;
  dsv_settings : NetworkPluginSettings;
  dsv_streamingServer : option server;
  dsv_cgroupsName : string;
}.

Section Startup.
Context {W St : Type} `{DockerClient W} `{Clock W} `{Execer W} `{NodeOS W} `{LibCNI W} `{KubeCNI W} `{Netlink W}.
Context `{Filesystem St} `{Semver}.
(** The iptables runners of the two families, the validation of plugin names
    and what the kernel supports. *)
Context (iptables iptablesv6 : IPTables W) (IsQualifiedName : string -> list string) (kernelSupportsRRO : bool).
Abbreviation DS := (dockerService W St).

(** The service before its first call. *)
Definition new_service (w : W) (st : St) : DS := mkDockerService w st ∅ ∅ ∅.

Definition NewCheckpointManager (checkpointDir : string) : M DS (res unit) := onStore (NewFileStore checkpointDir).

(** The two plugins that are probed, and the actions of each beside the
    service. *)
Abbreviation PDS := ((cniNetworkPlugin * kubenetNetworkPlugin) * DS)%type.
Definition on_cni {A} (m : M (cniNetworkPlugin * W) A) : M PDS A := fun '((c, k), ds) =>
  let '(a, (c', w')) := m (c, ds_world ds) in (a, ((c', k), with_world ds w')).
Definition on_kubenet {A} (m : M (kubenetNetworkPlugin * W) A) : M PDS A := fun '((c, k), ds) =>
  let '(a, (k', w')) := m (k, ds_world ds) in (a, ((c, k'), with_world ds w')).
Definition on_service {A} (m : M DS A) : M PDS A := fun '(p, ds) =>
  let '(a, ds') := m ds in (a, (p, ds')).

Definition probe_plugins (s : NetworkPluginSettings) : M DS (cniNetworkPlugin * kubenetNetworkPlugin) :=
  let* c := onW (ProbeNetworkPlugins (nps_PluginConfDir s) (nps_PluginCacheDir s) (nps_PluginBinDirs s)) in
  ret (c, NewPlugin (nps_PluginBinDirs s) (nps_PluginCacheDir s)).

Definition init_plugin (s : NetworkPluginSettings) (i : nat) : M PDS (res unit) :=
  match i with
  | O => on_cni cni_Init
  | _ => on_kubenet (kn_Init iptables iptablesv6 (nps_HairpinMode s) (nps_NonMasqueradeCIDR s) (nps_MTU s))
  end.

(** Probe, choose and initialise the plugin. *)
Definition init_network (s : NetworkPluginSettings) : M DS (res network_plugin) := fun ds =>
  let '(probed, ds) := probe_plugins s ds in
  let '((plug, err), ((c, k), ds)) :=
    InitNetworkPlugin IsQualifiedName [CNIPluginName; KubenetPluginName] (on_service (onW noop_Init))
      (init_plugin s) (nps_PluginName s) (probed, ds) in
  (match err with
   | Some err => Err (Errorf ("didn't find compatible CNI plugin with given settings "
                              +:+ settings_string s +:+ ": " +:+ Error err))
   | None => match plug with
             | ChosenNoop => Ok NoopPlugin
             | ChosenPlugin O => Ok (CniPlugin c)
             | ChosenPlugin _ => Ok (KubenetPlugin k)
             | ChosenNone => Err nil_dereference_panic
             end
   end, ds).

Definition NewDockerService (podSandboxImage : string) (streamingConfig : option Config)
  (pluginSettings : NetworkPluginSettings) (cgroupsName kubeCgroupDriver criDockerdRootDir : string)
  : M DS (res docker_service) :=
  let? _ := NewCheckpointManager (Join [criDockerdRootDir; sandboxCheckpointDir]) in
  let? _ := checkVersionCompatibility in
  let streamingServer := NewServer <$> streamingConfig in
  match effectiveHairpinMode pluginSettings with
  | (Err err, _) => ret (Err err)
  | (Ok _, pluginSettings) =>
      let pluginSettings := set_PluginBinDirs (SplitDirs (nps_PluginBinDirString pluginSettings)) pluginSettings in
      let? plug := init_network pluginSettings in
      let* info := getDockerInfo in
      ret (match info with
           | Err _ => Err (Errorf "Failed to execute Info() call to the Docker client")
           | Ok dockerInfo =>
               match choose_cgroupDriver (di_CgroupDriver dockerInfo) kubeCgroupDriver with
               | Err err => Err err
               | Ok cgroupDriver =>
                   Ok (mkStarted
                         (mkServiceConfig podSandboxImage cgroupDriver (di_DockerRootDir dockerInfo) kernelSupportsRRO)
                         plug pluginSettings streamingServer cgroupsName)
               end
           end)
  end.

End Startup.

(** ** The process *)

(** Package net/netip: the printed form of what is parsed. *)
Class NetIP := {
  ParseAddrPort : string -> res string;
  ParseAddr : string -> res string;
}.

(** The sockets of the gRPC server: those systemd passes and those created. *)
Class SocketActivation (W : Type) := {
  activation_Listeners : M W (res nat);
  CreateListener : string -> M W (res unit);
}.

(** [logrus.Fatalf] ends the process. *)
Definition Fatal (msg : string) : error := Errorf ("fatal: " +:+ msg).

(** The address the streaming server binds to. *)
Definition resolve_bind_address `{NetIP} (StreamingBindAddr : string) : res string :=
  if decide (StreamingBindAddr = "") then Ok ""
  else match ParseAddrPort StreamingBindAddr with
       | Ok addrPort => Ok addrPort
       | Err _ =>
           match ParseAddr StreamingBindAddr with
           | Ok addr => Ok (JoinHostPort addr "0")
           | Err _ => Err (Fatal ("Could not parse the given streaming bind address: " +:+ StreamingBindAddr))
           end
       end.

Definition plugin_settings (hairpin : string) (f : DockerCRIFlags) : NetworkPluginSettings :=
  let r := f_ContainerRuntimeOptions f in
  mkNetworkPluginSettings (HairpinMode_String hairpin) (f_NonMasqueradeCIDR f) (cro_NetworkPluginName r)
    (cro_CNIBinDir r) [] (cro_CNIConfDir r) (cro_CNICacheDir r) (cro_NetworkPluginMTU r).

(** The kubelet's default streaming configuration. *)
Class StreamingDefaults := {
  DefaultStreamCreationTimeout : Z;
  SupportedStreamingProtocols : list string;
  SupportedProtocols : list string;
}.

Definition streaming_config `{StreamingDefaults} (resolvedAddr : string) (f : DockerCRIFlags) : Config :=
  mkConfig resolvedAddr (Some (mkURL "" "" "/cri/"))
    (cro_StreamingConnectionIdleTimeout (f_ContainerRuntimeOptions f))
    DefaultStreamCreationTimeout SupportedStreamingProtocols SupportedProtocols false.

Section Process.
Context {W : Type} `{SocketActivation W}.

Definition listenFD (addr : string) : M W (res unit) :=
  let? listeners := activation_Listeners in
  ret (if Nat.eqb listeners 0 then
         Err (Errorf "no sockets found via socket activation: make sure the service was started by systemd")
       else if decide (addr = "") then Ok tt else Err (Errorf "not supported yet")).

(** An address without a protocol is indexed out of range. *)
Definition getListener (addr : string) : M W (res unit) :=
  match split2 addr "://" with
  | [proto; listenAddr] => if decide (proto = "fd") then listenFD listenAddr else CreateListener addr
  | _ => ret (Err index_panic)
  end.

(** [CriDockerService.Start] after the service of [start] has started; the
    gRPC server then serves in a goroutine of its own. *)
Definition backend_Start (start : M W (res unit)) (endpoint : string) : M W (res unit) :=
  let? _ := start in
  let* l := getListener endpoint in
  ret (match l with
       | Err err => Err (Errorf ("cri-dockerd failed to listen on " +:+ quote endpoint +:+ ": " +:+ Error err))
       | Ok _ => Ok tt
       end).
End Process.

Section Run.
Context {W St : Type} `{DockerClient W} `{Clock W} `{Execer W} `{NodeOS W} `{LibCNI W} `{KubeCNI W} `{Netlink W}.
Context `{Filesystem St} `{Semver} `{NetIP} `{StreamingDefaults} `{SocketActivation W}.
Context {HO : HostOS W} {PH : ProcHost W} {UV : UtilVersion}.
Context (iptables iptablesv6 : IPTables W) (IsQualifiedName : string -> list string) (kernelSupportsRRO : bool).
Abbreviation DS := (dockerService W St).

(** [UpdateRuntimeConfig] with the pod CIDR of the flags, on the plugin in use. *)
Definition plugin_Event (IPv6DualStackEnabled : bool) (p : network_plugin) (name : string)
  (details : gmap string string) : M W network_plugin := fun w =>
  match p with
  | NoopPlugin => (NoopPlugin, w)
  | CniPlugin c => let '(_, (c', w')) := cni_Event name details (c, w) in (CniPlugin c', w')
  | KubenetPlugin k =>
      let '(_, (k', w')) := kn_Event IPv6DualStackEnabled name details (k, w) in (KubenetPlugin k', w')
  end.

Definition set_network (p : network_plugin) (d : docker_service) : docker_service :=
  mkStarted (dsv_config d) p (dsv_settings d) (dsv_streamingServer d) (dsv_cgroupsName d).

Definition update_pod_cidr (IPv6DualStackEnabled : bool) (podCIDR : string) (d : docker_service)
  : M DS docker_service :=
  if decide (podCIDR = "") then ret d
  else let* p := onW (plugin_Event IPv6DualStackEnabled (dsv_network d) NET_PLUGIN_EVENT_POD_CIDR_CHANGE
                        {[ NET_PLUGIN_EVENT_POD_CIDR_CHANGE_DETAIL_CIDR := podCIDR ]}) in
       ret (set_network p d).

(** [Start] of the service: nothing is left to clean up on Linux; the streaming
    server serves in a goroutine of its own. *)
Definition service_Start (d : docker_service) : M W (res unit) :=
  let? _ := ContainerManager.Start (NewContainerManager (dsv_cgroupsName d)) in ret (Ok tt).

Definition RunCriDockerd (hairpin : string) (f : DockerCRIFlags) : M DS (res docker_service) :=
  let r := f_ContainerRuntimeOptions f in
  match resolve_bind_address (cro_StreamingBindAddr r) with
  | Err err => ret (Err err)
  | Ok resolvedAddr =>
      let? ds := NewDockerService iptables iptablesv6 IsQualifiedName kernelSupportsRRO
                   (cro_PodSandboxImage r) (Some (streaming_config resolvedAddr f)) (plugin_settings hairpin f)
                   (cro_RuntimeCgroups r) (cro_CgroupDriver r) (cro_CriDockerdRootDirectory r) in
      let* ds := update_pod_cidr (cro_IPv6DualStackEnabled r) (cro_PodCIDR r) ds in
      let? _ := onW (backend_Start (service_Start ds) (f_RemoteRuntimeEndpoint f)) in
      ret (Ok ds)
  end.
End Run.

(** ** What a service that has started promises *)

Section StartupTheory.
Context {W St : Type} `{DC : DockerClient W} `{CK : Clock W} `{EX : Execer W} `{NO : NodeOS W} `{LC : LibCNI W}.
Context `{KC : KubeCNI W} `{FS : Filesystem St} `{SV : Semver}.
Context (iptables iptablesv6 : IPTables W) (IsQualifiedName : string -> list string) (kernelSupportsRRO : bool).
Abbreviation DS := (dockerService W St).

(** The tables a call of the daemon leaves alone. *)
Definition tables (ds : DS) := (ds_networkReady ds, ds_containerCleanupInfos ds).
Definition knows (ds : DS) (key : string) : Prop := is_Some (ds_systemInfoCache ds !! key).

(** A value that was not in the cache was fetched. *)
Lemma Memoize_fetched key fn (ds ds' : DS) v :
  Memoize_sysinfo key fn ds = (Ok (Some v), ds') -> ~ knows ds key ->
  (exists w, fst (fn w) = Ok v) /\ tables ds' = tables ds
  /\ forall k, k <> key -> knows ds' k -> knows ds k.
Proof.
  unfold Memoize_sysinfo, Memoize, knows. rewrite getEntry_spec.
  intros Hm Hk%eq_None_not_Some. rewrite Hk in Hm. revert Hm. cbn [from_option].
  destruct (Now (ds_world ds)) as [now w1]. destruct (fresh _ systemInfoCacheMinTTL now).
  { intros Hv. apply (f_equal fst) in Hv. discriminate Hv. }
  destruct (Now w1) as [start w2]. destruct (fn w2) as [[v'|err] w3] eqn:Ef; [|done].
  destruct (Now w3) as [gen w4]. destruct (Now w4) as [stop w5]. intros [= <- <-].
  split; [exists w2; by rewrite Ef|]. split; [done|]. intros k Hne. cbn. by rewrite !lookup_insert_ne.
Qed.

Lemma getDockerVersion_fetched (ds ds' : DS) v :
  getDockerVersion ds = (Ok v, ds') -> ~ knows ds "docker_version" ->
  (exists w dv, fst (Version w) = Ok dv /\ v = fixAPIVersion dv) /\ tables ds' = tables ds
  /\ forall k, k <> "docker_version" -> knows ds' k -> knows ds k.
Proof.
  unfold getDockerVersion, bind, ret. intros Hv Hk.
  destruct (Memoize_sysinfo _ _ ds) as [[[[dv| |]|]|err] ds1] eqn:Em; simplify_eq.
  apply Memoize_fetched in Em as ((w & Hw) & Ht & Hc); [|done]. split; [|done].
  exists w. destruct (Version w) as [[x|e] w']; cbn in *; simplify_eq. by eexists.
Qed.

Lemma getDockerInfo_fetched (ds ds' : DS) i :
  getDockerInfo ds = (Ok i, ds') -> ~ knows ds "docker_info" ->
  (exists w, fst (Info w) = Ok i) /\ tables ds' = tables ds.
Proof.
  unfold getDockerInfo, bind, ret. intros Hv Hk.
  destruct (Memoize_sysinfo _ _ ds) as [[[[|i'|]|]|err] ds1] eqn:Em; simplify_eq.
  apply Memoize_fetched in Em as ((w & Hw) & Ht & _); [|done]. split; [|done].
  exists w. destruct (Info w) as [[x|e] w']; cbn in *; by simplify_eq.
Qed.

(** Docker is recent enough. *)
Definition compatible (dv : DockerVersion) : Prop :=
  exists v min, semver_Parse (dv_APIVersion dv +:+ ".0") = Ok v /\ semver_Parse MinimumDockerAPIVersion = Ok min
    /\ semver_Compare v min <> Lt.

Lemma checkVersionCompatibility_ok (ds ds' : DS) :
  checkVersionCompatibility ds = (Ok tt, ds') -> ~ knows ds "docker_version" ->
  (exists w dv, fst (Version w) = Ok dv /\ compatible dv) /\ tables ds' = tables ds
  /\ forall k, k <> "docker_version" -> knows ds' k -> knows ds k.
Proof.
  unfold checkVersionCompatibility, getDockerAPIVersion, try, bind, ret. intros Hc Hk.
  destruct (getDockerVersion ds) as [[v|err] ds1] eqn:Ev; [|done].
  apply getDockerVersion_fetched in Ev as ((w & dv & Hw & ->) & Ht & Hkn); [|done].
  cbn [fixAPIVersion dv_APIVersion] in Hc.
  destruct (semver_Parse (dv_APIVersion dv +:+ ".0")) as [v|err] eqn:Ep; [|done].
  destruct (semver_Parse MinimumDockerAPIVersion) as [m|err] eqn:Em; [|done].
  assert (semver_Compare v m <> Lt /\ ds1 = ds') as [Hl ->] by (destruct (semver_Compare v m); by simplify_eq).
  split; [|done]. exists w, dv. split; [done|]. by exists v, m.
Qed.

(** ** The plugin *)

(** Only the world changes. *)
Definition keeps (ds ds' : DS) : Prop := exists w, ds' = with_world ds w.

Lemma keeps_trans ds ds1 ds2 : keeps ds ds1 -> keeps ds1 ds2 -> keeps ds ds2.
Proof. intros [w ->] [w' ->]. by exists w'. Qed.

Lemma keeps_onW {A} (m : M W A) ds : keeps ds (snd (onW m ds)).
Proof. unfold onW. destruct (m (ds_world ds)) as [a w]. by exists w. Qed.

Lemma probe_plugins_keeps s ds : keeps ds (snd (probe_plugins s ds)).
Proof.
  unfold probe_plugins, bind, ret. pose proof (keeps_onW (ProbeNetworkPlugins (nps_PluginConfDir s)
    (nps_PluginCacheDir s) (nps_PluginBinDirs s)) ds) as Hk. by destruct (onW _ ds).
Qed.

Lemma init_plugin_keeps s i pds :
  keeps (snd pds) (snd (snd (init_plugin iptables iptablesv6 s i pds))).
Proof.
  destruct pds as [[c k] ds]. unfold init_plugin, on_cni, on_kubenet. cbn [snd].
  destruct i; [destruct (cni_Init _) as [a [c' w']]|destruct (kn_Init _ _ _ _ _ _) as [a [k' w']]]; by exists w'.
Qed.

(** The plugin that is chosen without an error. *)
Lemma InitNetworkPlugin_ok {S} (noop : M S (res unit)) (Init : nat -> M S (res unit)) name s s' plug :
  InitNetworkPlugin IsQualifiedName [CNIPluginName; KubenetPluginName] noop Init name s = ((plug, None), s') ->
  (plug = ChosenNoop /\ (name = "" \/ name = "no-op") /\ s' = snd (noop s))
  \/ (exists i, plug = ChosenPlugin i /\ ~ (name = "" \/ name = "no-op") /\ s' = snd (Init i s)
        /\ name = match i with O => CNIPluginName | _ => KubenetPluginName end).
Proof.
  unfold InitNetworkPlugin, bind, ret. case_decide as Hn.
  { destruct (noop s) as [[u|e] s1]; intros [= <- <-]. by left. }
  cbn [register_plugins]. set (q1 := IsQualifiedName CNIPluginName). set (q2 := IsQualifiedName KubenetPluginName).
  destruct q1 as [|e1 l1], q2 as [|e2 l2]; rewrite ?lookup_empty;
    try rewrite (lookup_insert_ne ∅ CNIPluginName KubenetPluginName) by done; rewrite ?lookup_empty.
  2: { destruct ((<[CNIPluginName:=0]> ∅ : gmap string nat) !! name) as [i|]; [destruct (Init i s) as [[u|e] s1]|]; by rewrite NewAggregate_Some. }
  2: { destruct ((<[KubenetPluginName:=1]> ∅ : gmap string nat) !! name) as [i|]; [destruct (Init i s) as [[u|e] s1]|]; by rewrite NewAggregate_Some. }
  2: { destruct ((∅ : gmap string nat) !! name) as [i|]; [destruct (Init i s) as [[u|e] s1]|]; by rewrite NewAggregate_Some. }
  destruct (decide (KubenetPluginName = name)) as [<-|Hk].
  { rewrite lookup_insert_eq. destruct (Init 1 s) as [[u|e] s1] eqn:Ei; [|by rewrite NewAggregate_Some].
    intros [= <- <-]. right. exists 1. by rewrite Ei. }
  rewrite lookup_insert_ne by done. destruct (decide (CNIPluginName = name)) as [<-|Hc].
  { rewrite lookup_insert_eq. destruct (Init 0 s) as [[u|e] s1] eqn:Ei; [|by rewrite NewAggregate_Some].
    intros [= <- <-]. right. exists 0. by rewrite Ei. }
  rewrite lookup_insert_ne, lookup_empty by done. by rewrite NewAggregate_Some.
Qed.

Lemma init_network_ok s (ds ds' : DS) plug :
  init_network iptables iptablesv6 IsQualifiedName s ds = (Ok plug, ds') ->
  network_plugin_Name plug
    = (if decide (nps_PluginName s = "" \/ nps_PluginName s = "no-op") then DefaultPluginName else nps_PluginName s)
  /\ keeps ds ds'.
Proof.
  unfold init_network. pose proof (probe_plugins_keeps s ds) as Hp.
  destruct (probe_plugins s ds) as [probed ds1]. cbn [snd] in Hp.
  destruct (InitNetworkPlugin _ _ _ _ _ _) as [[ch [err|]] [[c k] ds2]] eqn:Ei; [done|].
  apply InitNetworkPlugin_ok in Ei as [(-> & Hn & Hs)|(i & -> & Hn & Hs & Hname)].
  - intros [= <- <-]. rewrite decide_True by done. split; [done|]. eapply keeps_trans; [exact Hp|].
    unfold on_service in Hs. pose proof (keeps_onW noop_Init ds1) as Hk. destruct (onW noop_Init ds1) as [u ds3].
    cbn in Hs, Hk. by simplify_eq.
  - intros [= Hplug <-]. rewrite decide_False by done. split.
    + by destruct i; simplify_eq.
    + eapply keeps_trans; [exact Hp|]. pose proof (init_plugin_keeps s i (probed, ds1)) as Hk. by rewrite <- Hs in Hk.
Qed.

Lemma effectiveHairpinMode_ok ps ps' :
  effectiveHairpinMode ps = (Ok tt, ps') ->
  nps_HairpinMode ps ∈ validHairpinModes
  /\ ps' = set_HairpinMode (if decide (nps_HairpinMode ps = PromiscuousBridge /\ nps_PluginName ps <> "kubenet")
                            then HairpinVeth else nps_HairpinMode ps) ps.
Proof.
  assert (ps = set_HairpinMode (nps_HairpinMode ps) ps) as Hid by by destruct ps.
  unfold effectiveHairpinMode, bind, get, put, ret, validHairpinModes. intros H.
  repeat case_decide; simplify_eq; try tauto; split; try done; try set_solver.
Qed.

(** C31: a service that has started is the one that was asked for.  Its docker
    is recent enough; its network plugin is the one named, or the no-op one;
    its hairpin mode is a valid one, and promiscuous bridges are left to
    kubenet; its cgroup driver is docker's, and the kubelet's when that gives
    one, so that the runtime configuration reports it; its streaming server is
    there if configured; and no sandbox or container is known yet. *)
Theorem new_docker_service (w : W) (st : St) (image : string) (sc : option Config) (ps : NetworkPluginSettings)
  (cgroups kube root : string) d ds' :
  NewDockerService iptables iptablesv6 IsQualifiedName kernelSupportsRRO image sc ps cgroups kube root
    (new_service w st) = (Ok d, ds') ->
  (exists w0 dv, fst (Version w0) = Ok dv /\ compatible dv)
  /\ network_plugin_Name (dsv_network d)
     = (if decide (nps_PluginName ps = "" \/ nps_PluginName ps = "no-op") then DefaultPluginName
        else nps_PluginName ps)
  /\ nps_HairpinMode ps ∈ validHairpinModes
  /\ nps_HairpinMode (dsv_settings d)
     = (if decide (nps_HairpinMode ps = PromiscuousBridge /\ nps_PluginName ps <> "kubenet")
        then HairpinVeth else nps_HairpinMode ps)
  /\ (exists w1 info, fst (Info w1) = Ok info
        /\ dsv_config d = mkServiceConfig image
             (if decide (di_CgroupDriver info = "") then defaultCgroupDriver else di_CgroupDriver info)
             (di_DockerRootDir info) kernelSupportsRRO)
  /\ (kube <> "" -> cfg_cgroupDriver (dsv_config d) = kube)
  /\ (kube = "systemd" -> ds_RuntimeConfig (dsv_config d) = Ok CgroupDriver_SYSTEMD)
  /\ dsv_streamingServer d = NewServer <$> sc
  /\ tables ds' = (∅, ∅).
Proof.
  unfold NewDockerService, NewCheckpointManager, onStore, try, bind, ret.
  destruct (NewFileStore _ _) as [[u|e] st1]; [|done].
  set (ds0 := mkDockerService _ st1 _ _ _).
  destruct (checkVersionCompatibility ds0) as [[[]|e] ds1] eqn:Ev; [|done].
  apply checkVersionCompatibility_ok in Ev as (Hv & Ht1 & Hk1); [|unfold knows; cbn; by rewrite lookup_empty; intros []].
  destruct (effectiveHairpinMode ps) as [[[]|e] ps1] eqn:Eh; [|done].
  apply effectiveHairpinMode_ok in Eh as (Hh & ->). set (ps2 := set_PluginBinDirs _ _).
  destruct (init_network _ _ _ ps2 ds1) as [[plug|e] ds2] eqn:En; [|done].
  apply init_network_ok in En as (Hname & w2 & ->).
  destruct (getDockerInfo (with_world ds1 w2)) as [[info|e] ds3] eqn:Ei; [|done].
  apply getDockerInfo_fetched in Ei as ((w1 & Hi) & Ht3).
  2: { intros Hk. apply (Hk1 "docker_info") in Hk; [|done]. unfold knows in Hk. cbn in Hk.
       rewrite lookup_empty in Hk. destruct Hk as [? Hk]. discriminate Hk. }
  unfold choose_cgroupDriver.
  set (driver := if decide (di_CgroupDriver info = "") then defaultCgroupDriver else di_CgroupDriver info).
  destruct (decide (kube <> "" /\ kube <> driver)) as [Hd|Hd]; [done|]. intros [= <- <-].
  cbn [dsv_network dsv_settings dsv_config dsv_streamingServer cfg_cgroupDriver].
  assert (kube <> "" -> driver = kube) as Hc.
  { intros Hne. destruct (decide (kube = driver)); [done|tauto]. }
  split_and!; try done.
  - by exists w1, info.
  - intros ->. unfold ds_RuntimeConfig. cbn [cfg_cgroupDriver]. by rewrite Hc.
  - rewrite Ht3. exact Ht1.
Qed.

End StartupTheory.

(** ** A node that starts *)

Section StartedNode.
#[local] Instance start_execer : Execer sim := {|
  CombinedOutput := fun _ _ => ret ("", None);
  LookPath := fun f => ret (Ok ("/usr/bin/" +:+ f));
|}.
#[local] Instance start_os : NodeOS sim := {|
  net_Interfaces := ret (Ok []);
  os_ReadDir := fun _ => ret (Ok []);
  SetSysctl := fun _ _ => ret (Ok tt);
  GetSysctl := fun _ => ret (Ok 1%Z);
|}.
#[local] Instance start_cni : LibCNI sim := {|
  cni_Result := unit;
  ConfFiles := fun _ _ => ret (Ok []);
  ConfListFromFile := fun f => ret (Err (Errorf f));
  ConfFromFile := fun f => ret (Err (Errorf f));
  ConfListFromConf := fun c => ret (Err (Errorf (nc_Name c)));
  ValidateNetworkList := fun _ _ => ret (Ok []);
  AddNetworkList := fun _ _ _ => ret (Ok tt);
  DelNetworkList := fun _ _ _ => ret (Ok tt);
|}.
#[local] Instance start_kube : KubeCNI sim := {|
  ConfFromBytes := fun s => Ok s;
  AddNetwork := fun _ config rt => ret (Ok "result");
  DelNetwork := fun _ config rt => ret (Ok tt);
  cnitypes020_GetResult := fun _ => Ok (mkResult020 None None);
|}.
Definition start_iptables : IPTables sim := {|
  ipt_IsIPv6 := false;
  ipt_EnsureChain := fun _ _ => ret (Ok true);
  ipt_EnsureRule := fun _ _ _ _ => ret (Ok true);
  ipt_SaveInto := fun _ => ret (Ok "");
  ipt_RestoreAll := fun _ => ret (Ok tt);
|}.
Definition start_settings : NetworkPluginSettings := plugin_settings PromiscuousBridge NewDockerCRIFlags.

Definition start_run : res docker_service * dockerService sim memfs :=
  NewDockerService (W := sim) (St := memfs) start_iptables start_iptables (fun _ => []) true "" None start_settings
    "" "cgroupfs" "/var/lib/cri-dockerd" (new_service sim_empty (mkMemfs ∅ [])).

(** Promiscuous bridges are not for CNI: the mode falls back. *)
Lemma new_docker_service_witness :
  exists d ds', start_run = (Ok d, ds')
    /\ network_plugin_Name (dsv_network d) = "cni"
    /\ nps_HairpinMode (dsv_settings d) = HairpinVeth
    /\ cfg_cgroupDriver (dsv_config d) = "cgroupfs".
Proof.
  unfold start_run.
  destruct (NewDockerService _ _ _ _ _ _ _ _ _ _ _) as [[d|e] ds'] eqn:E; [|vm_compute in E; discriminate E].
  exists d, ds'. split; [reflexivity|].
  destruct (new_docker_service start_iptables start_iptables (fun _ => []) true sim_empty (mkMemfs ∅ []) "" None
    start_settings "" "cgroupfs" "/var/lib/cri-dockerd" d ds' E) as (_ & Hn & _ & Hh & _ & Hk & _).
  split; [exact Hn|]. split; [exact Hh|]. apply Hk. discriminate.
Defined.
End StartedNode.

(** A mode the flag accepts is one the service starts with. *)
Lemma hairpin_flag_accepted mode value value' f :
  HairpinMode_Set mode value = Ok value' ->
  fst (effectiveHairpinMode (plugin_settings value' f)) = Ok tt.
Proof.
  unfold HairpinMode_Set. case_decide as Hm; [|done]. intros [= <-].
  unfold validHairpinModes in Hm. rewrite !elem_of_cons in Hm.
  unfold effectiveHairpinMode, bind, get, put, ret, plugin_settings. cbn [nps_HairpinMode nps_PluginName].
  destruct Hm as [->|[->|[->|Hm%elem_of_nil]]]; [..|done]; unfold HairpinMode_String; cbn;
    repeat case_decide; done || tauto.
Qed.

(** The streaming server of the process serves under a base path. *)
Lemma streaming_config_base `{StreamingDefaults} addr f :
  sc_BaseURL (streaming_config addr f) = Some (base_url "" "" ["cri"]).
Proof. done. Qed.
