(* ===== verification/CommandLine.v ===== *)
(** * CommandLine: from the arguments of the process to its flags

    The flags of config/options.go and cmd/cri/options/options.go, the command
    of cmd/server.go with what it does before [RunCriDockerd], and
    cmd/version/version.go.  The arguments are parsed by the vendored pflag,
    whose parser is translated as far as these flags use it: long flags,
    with their value after an equals sign or as the next argument, the
    shorthand -h, arguments that are not flags, and the end of flags.  The
    texts of durations and of 32-bit numbers are parameters. *)
From coqutil Require Import Datatypes.RecordSetters.
From S2P Require Import Prelude GoErrors Cri Cache Store Checkpoint Libdocker PluginManager Service Kubenet Cni GoText MemFs Startup.
Import DoubleBraceUpdate.

(** [time.ParseDuration] and [strconv.ParseInt] with base 0 and 32 bits. *)
Class FlagTexts := {
  ParseDuration : string -> res Z;
  ParseInt32 : string -> res Z;
}.

(** ** State *)

(** What the flags are bound to: the options, the global hairpin mode and the
    command's own flags. *)
Record cli := mkCli {
  cl_flags : DockerCRIFlags;
  cl_hairpin : string;
  cl_help : bool;
  cl_version : bool;
  cl_buildinfo : bool;
  cl_loglevel : string;
}.

Definition cli_default : cli := mkCli NewDockerCRIFlags "" false false false "info".

Record flag := mkFlag {
  fl_Name : string;
  fl_NoOptDefVal : string;
  fl_Set : string -> cli -> res cli;
}.

(** ** The flags *)

(** [strconv.ParseBool]. *)
Definition ParseBool (s : string) : res bool :=
  if decide (s ∈ ["1"; "t"; "T"; "true"; "TRUE"; "True"]) then Ok true
  else if decide (s ∈ ["0"; "f"; "F"; "false"; "FALSE"; "False"]) then Ok false
  else Err (NumError "ParseBool" s ErrSyntax).

Definition set_options (f : ContainerRuntimeOptions -> ContainerRuntimeOptions) (c : cli) : cli :=
  c{{cl_flags := (cl_flags c){{f_ContainerRuntimeOptions := f (f_ContainerRuntimeOptions (cl_flags c))}} }}.

Definition StringVar (name : string) (set : string -> cli -> cli) : flag :=
  mkFlag name "" (fun v c => Ok (set v c)).
Definition BoolVar (name : string) (set : bool -> cli -> cli) : flag :=
  mkFlag name "true" (fun v c => match ParseBool v with Ok b => Ok (set b c) | Err e => Err e end).

Section Flags.
Context `{FlagTexts}.

Definition DurationVar (name : string) (set : Z -> cli -> cli) : flag :=
  mkFlag name "" (fun v c => match ParseDuration v with Ok d => Ok (set d c) | Err e => Err e end).
Definition Int32Var (name : string) (set : Z -> cli -> cli) : flag :=
  mkFlag name "" (fun v c => match ParseInt32 v with Ok d => Ok (set d c) | Err e => Err e end).

(** [ContainerRuntimeOptions.AddFlags]. *)
Definition options_AddFlags : list flag := [
  StringVar "runtime-cgroups" (fun v => set_options (fun o => o{{cro_RuntimeCgroups := v}}));
  StringVar "cri-dockerd-root-directory" (fun v => set_options (fun o => o{{cro_CriDockerdRootDirectory := v}}));
  StringVar "pod-infra-container-image" (fun v => set_options (fun o => o{{cro_PodSandboxImage := v}}));
  StringVar "docker-endpoint" (fun v => set_options (fun o => o{{cro_DockerEndpoint := v}}));
  DurationVar "image-pull-progress-deadline" (fun v => set_options (fun o => o{{cro_ImagePullProgressDeadline := v}}));
  DurationVar "runtime-request-timeout" (fun v => set_options (fun o => o{{cro_RuntimeRequestTimeout := v}}));
  StringVar "streaming-bind-addr" (fun v => set_options (fun o => o{{cro_StreamingBindAddr := v}}));
  StringVar "pod-cidr" (fun v => set_options (fun o => o{{cro_PodCIDR := v}}));
  BoolVar "ipv6-dual-stack" (fun v => set_options (fun o => o{{cro_IPv6DualStackEnabled := v}}));
  StringVar "network-plugin" (fun v => set_options (fun o => o{{cro_NetworkPluginName := v}}));
  StringVar "cni-conf-dir" (fun v => set_options (fun o => o{{cro_CNIConfDir := v}}));
  StringVar "cni-bin-dir" (fun v => set_options (fun o => o{{cro_CNIBinDir := v}}));
  StringVar "cni-cache-dir" (fun v => set_options (fun o => o{{cro_CNICacheDir := v}}));
  Int32Var "network-plugin-mtu" (fun v => set_options (fun o => o{{cro_NetworkPluginMTU := v}}));
  mkFlag "hairpin-mode" "" (fun v c =>
    match HairpinMode_Set v (cl_hairpin c) with Ok h => Ok (c{{cl_hairpin := h}}) | Err e => Err e end)
].

(** [DockerCRIFlags.AddFlags]. *)
Definition AddFlags : list flag :=
  options_AddFlags
  ++ [StringVar "container-runtime-endpoint" (fun v c =>
        c{{cl_flags := (cl_flags c){{f_RemoteRuntimeEndpoint := v}} }})].

(** The flags [NewDockerCRICommand] adds itself. *)
Definition cleanFlagSet : list flag :=
  AddFlags
  ++ [BoolVar "help" (fun v c => c{{cl_help := v}});
      BoolVar "version" (fun v c => c{{cl_version := v}});
      BoolVar "buildinfo" (fun v c => c{{cl_buildinfo := v}});
      StringVar "log-level" (fun v c => c{{cl_loglevel := v}})].

Definition lookup_flag (name : string) : option flag :=
  List.find (fun f => bool_decide (fl_Name f = name)) cleanFlagSet.

(** ** pflag *)

Definition invalid_argument (f : flag) (value : string) (err : error) : error :=
  let flagName := if decide (fl_Name f = "help") then "-h, --help" else "--" +:+ fl_Name f in
  Errorf ("invalid argument " +:+ quote value +:+ " for " +:+ quote flagName +:+ " flag: " +:+ Error err).

Definition flag_Set (f : flag) (value : string) (c : cli) : res cli :=
  match fl_Set f value c with
  | Ok c' => Ok c'
  | Err err => Err (invalid_argument f value err)
  end.

(** [parseLongArg] on an argument and the one after it: the state, and whether
    the next argument was used. *)
Definition parseLongArg (s : string) (next : option string) (c : cli) : res (cli * bool) :=
  let name := sdrop 2 s in
  if decide (name = "" \/ has_prefix name "-" = true \/ has_prefix name "=" = true)
  then Err (Errorf ("bad flag syntax: " +:+ s))
  else
    let '(name, inline) := match cut "=" name with Some (n, v) => (n, Some v) | None => (name, None) end in
    match lookup_flag name with
    | None => Err (Errorf ("unknown flag: --" +:+ name))
    | Some f =>
        match inline with
        | Some v => result_map (fun c => (c, false)) (flag_Set f v c)
        | None =>
            if decide (fl_NoOptDefVal f <> "")
            then result_map (fun c => (c, false)) (flag_Set f (fl_NoOptDefVal f) c)
            else match next with
                 | Some v => result_map (fun c => (c, true)) (flag_Set f v c)
                 | None => Err (Errorf ("flag needs an argument: " +:+ s))
                 end
        end
    end.

(** [parseShortArg]: -h is the only shorthand, a boolean; each turn takes a
    letter, or the rest after an equals sign. *)
Fixpoint parseShortArg (shorthands : string) (c : cli) : res cli :=
  match shorthands with
  | EmptyString => Ok c
  | String l rest =>
      if has_prefix shorthands "test." then Ok c
      else if Ascii.eqb l "h" then
        match lookup_flag "help" with
        | None => Err (Errorf "pflag: help requested")
        | Some f =>
            if decide (has_prefix rest "=" = true /\ rest <> "=") then flag_Set f (sdrop 1 rest) c
            else match flag_Set f (fl_NoOptDefVal f) c with
                 | Err err => Err err
                 | Ok c' => parseShortArg rest c'
                 end
        end
      else Err (Errorf ("unknown shorthand flag: '" +:+ String l "" +:+ "' in -" +:+ shorthands))
  end.

(** [parseArgs]: the state and the arguments that are not flags. *)
Fixpoint parseArgs (args : list string) (c : cli) (positional : list string) : res (cli * list string) :=
  match args with
  | [] => Ok (c, positional)
  | s :: rest =>
      if decide (has_prefix s "-" = false \/ s = "-") then parseArgs rest c (positional ++ [s])
      else if has_prefix s "--" then
        if decide (s = "--") then Ok (c, positional ++ rest)
        else match parseLongArg s (head rest) c with
             | Err err => Err err
             | Ok (c', false) => parseArgs rest c' positional
             | Ok (c', true) =>
                 match rest with
                 | [] => Ok (c', positional)
                 | _ :: rest' => parseArgs rest' c' positional
                 end
             end
      else match parseShortArg (sdrop 1 s) c with
           | Err err => Err err
           | Ok c' => parseArgs rest c' positional
           end
  end.

Definition Parse (args : list string) : res (cli * list string) := parseArgs args cli_default [].

(** ** The command *)

(** The variables of cmd/version, set when the program is built. *)
Record version_info := mkVersionInfo { v_Version : string; v_PreRelease : string; v_GitCommit : string }.
Definition PlatformName : string := "cri-dockerd".
Definition TagVersion (v : version_info) : string :=
  if decide (v_PreRelease v = "") then v_Version v else v_Version v +:+ "-" +:+ v_PreRelease v.
Definition FullVersion (v : version_info) : string :=
  if decide (v_PreRelease v = "") then v_Version v +:+ " (" +:+ v_GitCommit v +:+ ")"
  else v_Version v +:+ "-" +:+ v_PreRelease v +:+ " (" +:+ v_GitCommit v +:+ ")".

(** [logrus.ParseLevel]. *)
Inductive Level := PanicLevel | FatalLevel | ErrorLevel | WarnLevel | InfoLevel | DebugLevel | TraceLevel.
Definition ParseLevel (lvl : string) : option Level :=
  let l := to_lower lvl in
  if decide (l = "panic") then Some PanicLevel
  else if decide (l = "fatal") then Some FatalLevel
  else if decide (l = "error") then Some ErrorLevel
  else if decide (l = "warn" \/ l = "warning") then Some WarnLevel
  else if decide (l = "info") then Some InfoLevel
  else if decide (l = "debug") then Some DebugLevel
  else if decide (l = "trace") then Some TraceLevel
  else None.

(** What the command does: end with a message, after the usage or not; print
    the help, the version or the build information; or start the service, with
    a level of logging if one was given. *)
Inductive action :=
| Fatal (usage : bool) (msg : string)
| ShowHelp
| PrintText (text : string)
| Serve (level : option Level) (flags : DockerCRIFlags) (hairpin : string).

Definition nl : string := String (Ascii.ascii_of_N 10) "".

(** [Run] of [NewDockerCRICommand]. *)
Definition command_Run (v : version_info) (go_version : string) (args : list string) : action :=
  match Parse args with
  | Err err => Fatal true (Error err)
  | Ok (_, cmd :: _) => Fatal true ("Unknown command: " +:+ cmd)
  | Ok (c, []) =>
      if cl_help c then ShowHelp
      else if cl_version c then PrintText (PlatformName +:+ " " +:+ FullVersion v +:+ nl)
      else if cl_buildinfo c then
        PrintText ("Program: " +:+ PlatformName +:+ nl +:+ "Version: " +:+ FullVersion v +:+ nl
                   +:+ "GitCommit: " +:+ v_GitCommit v +:+ nl +:+ "Go version: " +:+ go_version +:+ nl)
      else if decide (cl_loglevel c = "") then Serve None (cl_flags c) (cl_hairpin c)
      else match ParseLevel (cl_loglevel c) with
           | None => Fatal false ("Unknown log level: " +:+ cl_loglevel c)
           | Some level => Serve (Some level) (cl_flags c) (cl_hairpin c)
           end
  end.

End Flags.

(** ** Theory *)

Section Theory.
Context `{HT : FlagTexts}.

(** *** What no flag sets *)

(** The options without a flag. *)
Definition unset_options (c : cli) : string * Z * string :=
  (cro_CgroupDriver (f_ContainerRuntimeOptions (cl_flags c)),
   cro_StreamingConnectionIdleTimeout (f_ContainerRuntimeOptions (cl_flags c)),
   f_NonMasqueradeCIDR (cl_flags c)).

Definition keeps_unset (f : flag) : Prop :=
  forall v c c', fl_Set f v c = Ok c' -> unset_options c' = unset_options c.

Lemma flags_keep_unset : Forall keeps_unset cleanFlagSet.
Proof.
  unfold cleanFlagSet, AddFlags, options_AddFlags. cbn [app].
  repeat (apply Forall_cons_2; [|]); [..|apply Forall_nil_2]; intros v c c'; cbn;
    try (by intros [= <-]); case_match; by intros [= <-].
Qed.

Lemma lookup_flag_in name f : lookup_flag name = Some f -> f ∈ cleanFlagSet /\ fl_Name f = name.
Proof.
  intros [Hin Hn]%List.find_some. split; [by apply list_elem_of_In|].
  by apply bool_decide_eq_true in Hn.
Qed.

Lemma flag_Set_unset name f v c c' :
  lookup_flag name = Some f -> flag_Set f v c = Ok c' -> unset_options c' = unset_options c.
Proof.
  intros [Hin _]%lookup_flag_in. unfold flag_Set.
  destruct (fl_Set f v c) as [c1|] eqn:E; [|done]. intros [= <-].
  pose proof flags_keep_unset as Hall. rewrite Forall_forall in Hall. by eapply Hall.
Qed.

Lemma parseLongArg_unset s next c c' b :
  parseLongArg s next c = Ok (c', b) -> unset_options c' = unset_options c.
Proof.
  unfold parseLongArg. destruct (decide _); [done|].
  destruct (match cut "=" (sdrop 2 s) with Some (n, v) => (n, Some v) | None => _ end) as [name inline].
  destruct (lookup_flag name) as [f|] eqn:El; [|done].
  assert (forall v b', result_map (fun c => (c, b')) (flag_Set f v c) = Ok (c', b) ->
                       unset_options c' = unset_options c) as Hs.
  { intros v b'. destruct (flag_Set f v c) as [c1|] eqn:E; [|done]. intros [= <- _].
    by eapply flag_Set_unset. }
  destruct inline as [v|]; [apply Hs|]. destruct (decide _); [apply Hs|]. destruct next; [apply Hs|done].
Qed.

Lemma parseShortArg_unset s c c' : parseShortArg s c = Ok c' -> unset_options c' = unset_options c.
Proof.
  revert c. induction s as [|l s IH]; intros c; [by intros [= <-]|]. cbn [parseShortArg].
  destruct (has_prefix _ "test."); [by intros [= <-]|]. destruct (Ascii.eqb l "h"); [|done].
  destruct (lookup_flag "help") as [f|] eqn:El; [|done]. destruct (decide _).
  - intros E. by eapply flag_Set_unset.
  - destruct (flag_Set f _ c) as [c1|] eqn:E; [|done]. intros Hs. rewrite (IH _ Hs).
    by eapply flag_Set_unset.
Qed.

Lemma parseArgs_unset args c pos c' pos' :
  parseArgs args c pos = Ok (c', pos') -> unset_options c' = unset_options c.
Proof.
  revert c pos. induction args as [args IH] using (induction_ltof1 _ (@length string)). unfold ltof in IH.
  intros c pos. destruct args as [|s rest]; [by intros [= <- <-]|]. cbn [parseArgs].
  destruct (decide _); [apply IH; cbn; lia|]. destruct (has_prefix s "--").
  - destruct (decide _); [by intros [= <- _]|].
    destruct (parseLongArg s (head rest) c) as [[c1 []]|] eqn:E; [..|done]; apply parseLongArg_unset in E as <-.
    + destruct rest as [|v rest]; [by intros [= <- _]|]. apply IH. cbn. lia.
    + apply IH. cbn. lia.
  - destruct (parseShortArg (sdrop 1 s) c) as [c1|] eqn:E; [|done]. apply parseShortArg_unset in E as <-.
    apply IH. cbn. lia.
Qed.

(** *** What the flags set *)

(** A setting: a flag, its value, and whether both are one argument. *)
Record setting := mkSetting { s_flag : string; s_value : string; s_joined : bool }.

Definition setting_args (s : setting) : list string :=
  if s_joined s then ["--" +:+ s_flag s +:+ "=" +:+ s_value s] else ["--" +:+ s_flag s; s_value s].

(** A flag that exists, and needs its value when it is given apart. *)
Definition setting_ok (s : setting) : Prop :=
  exists f, lookup_flag (s_flag s) = Some f /\ (s_joined s = false -> fl_NoOptDefVal f = "").

Fixpoint apply_settings (l : list setting) (c : cli) : res cli :=
  match l with
  | [] => Ok c
  | s :: l' =>
      match lookup_flag (s_flag s) with
      | None => Err (Errorf ("unknown flag: --" +:+ s_flag s))
      | Some f => match flag_Set f (s_value s) c with
                  | Ok c' => apply_settings l' c'
                  | Err err => Err err
                  end
      end
  end.

Definition flag_name_ok (n : string) : bool :=
  lacks "=" n && negb (String.eqb n "") && negb (has_prefix n "-").

Lemma flag_names_ok name f : lookup_flag name = Some f -> flag_name_ok name = true.
Proof.
  intros [Hin <-]%lookup_flag_in.
  assert (Forall (fun f => flag_name_ok (fl_Name f) = true) cleanFlagSet) as Hall.
  { unfold cleanFlagSet, AddFlags, options_AddFlags. cbn [app].
    repeat (apply Forall_cons_2; [reflexivity|]). apply Forall_nil_2. }
  rewrite Forall_forall in Hall. by apply Hall.
Qed.

Lemma no_equals_prefix n v : lacks "=" n = true -> n <> "" -> has_prefix (n +:+ v) "=" = false.
Proof.
  destruct n as [|d n]; [done|]. intros Hl _. change (String d n +:+ v) with (String d (n +:+ v)).
  rewrite has_prefix_char. unfold lacks in Hl. cbn [sforall] in Hl. by destruct (Ascii.eqb d "=").
Qed.

Lemma no_dash_prefix n v : has_prefix n "-" = false -> n <> "" -> has_prefix (n +:+ v) "-" = false.
Proof.
  destruct n as [|d n]; [done|]. intros Hl _. change (String d n +:+ v) with (String d (n +:+ v)).
  by rewrite has_prefix_char in Hl |- *.
Qed.

Lemma parseLongArg_setting s f next c :
  lookup_flag (s_flag s) = Some f -> (s_joined s = false -> fl_NoOptDefVal f = "") ->
  parseLongArg (default "" (head (setting_args s))) (if s_joined s then next else Some (s_value s)) c
  = result_map (fun c => (c, negb (s_joined s))) (flag_Set f (s_value s) c).
Proof.
  intros Hf Hj. pose proof (flag_names_ok _ _ Hf) as Hn. unfold flag_name_ok in Hn.
  apply andb_true_iff in Hn as [[He Hne]%andb_true_iff Hd]. apply negb_true_iff in Hne, Hd.
  apply String.eqb_neq in Hne. destruct s as [n v j]. cbn [s_flag s_value s_joined] in *.
  unfold setting_args, parseLongArg. cbn [s_joined s_flag s_value]. destruct j; cbn [head default from_option id].
  - change (sdrop 2 ("--" +:+ n +:+ "=" +:+ v)) with (n +:+ "=" +:+ v).
    rewrite decide_False.
    2: { intros [Hx|[Hx|Hx]]; [by destruct n| |].
         - by rewrite no_dash_prefix in Hx.
         - by rewrite no_equals_prefix in Hx. }
    change ("=" +:+ v) with (String "=" v). rewrite (cut_char_app "=") by done. by rewrite Hf.
  - change (sdrop 2 ("--" +:+ n)) with n. rewrite decide_False.
    2: { intros [Hx|[Hx|Hx]]; [done|congruence|]. pose proof (no_equals_prefix n "" He Hne) as Hq.
         rewrite sapp_nil_r in Hq. congruence. }
    rewrite (cut_char_none "=") by done. rewrite Hf, Hj by done. by rewrite decide_False by (intros Hx; by apply Hx).
Qed.

Lemma parseArgs_setting s f rest c pos :
  lookup_flag (s_flag s) = Some f -> (s_joined s = false -> fl_NoOptDefVal f = "") ->
  parseArgs (setting_args s ++ rest) c pos
  = match flag_Set f (s_value s) c with Ok c' => parseArgs rest c' pos | Err err => Err err end.
Proof.
  intros Hf Hj. pose proof (flag_names_ok _ _ Hf) as Hn. unfold flag_name_ok in Hn.
  apply andb_true_iff in Hn as [[He Hne]%andb_true_iff _]. apply negb_true_iff, String.eqb_neq in Hne.
  pose proof (parseLongArg_setting s f (head rest) c Hf Hj) as Hp.
  destruct s as [n v j]. unfold setting_args in *. cbn [s_flag s_value s_joined] in *.
  destruct j; cbn [app parseArgs head default from_option id] in *.
  - rewrite decide_False by (intros [Hx|Hx]; discriminate).
    change (has_prefix ("--" +:+ n +:+ "=" +:+ v) "--") with (has_prefix ("--" +:+ (n +:+ "=" +:+ v)) "--").
    rewrite has_prefix_app, decide_False by (by destruct n). rewrite Hp. by destruct (flag_Set f v c).
  - rewrite decide_False by (intros [Hx|Hx]; discriminate).
    rewrite has_prefix_app, decide_False by (by destruct n). rewrite Hp. by destruct (flag_Set f v c).
Qed.

(** C39: The command line sets the options: any list of settings of existing
    flags, written as --flag=value or, for a flag that needs a value, as
    --flag value, is parsed as setting each flag to exactly that text, in that
    order, whatever the text is; it fails exactly when a text is refused, with
    the first one's error; and no arguments at all can set the cgroup driver,
    the idle timeout of streaming connections or the CIDR that is not
    masqueraded. *)
Theorem command_line_sets_options :
  (forall (l : list setting) (c : cli) (pos : list string), Forall setting_ok l ->
     parseArgs (l ≫= setting_args) c pos = result_map (fun c' => (c', pos)) (apply_settings l c))
  /\ (forall args c pos, Parse args = Ok (c, pos) -> unset_options c = ("", 0%Z, "10.0.0.0/8")).
Proof.
  split.
  - intros l c pos Hl. revert c. induction Hl as [|s l (f & Hf & Hj) _ IH]; intros c; [done|].
    change ((s :: l) ≫= setting_args) with (setting_args s ++ (l ≫= setting_args)).
    rewrite (parseArgs_setting s f) by done. cbn [apply_settings]. rewrite Hf.
    destruct (flag_Set f (s_value s) c) as [c1|]; [apply IH|done].
  - intros args c pos Hp. exact (parseArgs_unset _ _ _ _ _ Hp).
Qed.

End Theory.

(** *** Command lines *)

#[local] Instance seconds_only : FlagTexts := {|
  ParseDuration := fun s => match parse_int64 (trim_suffix s "s") with
                            | Ok n => Ok (n * Second)%Z
                            | Err _ => Err (Errorf ("time: invalid duration " +:+ quote s))
                            end;
  ParseInt32 := fun s => match parse_int 32 s with Ok n => Ok n | Err e => Err (NumError "ParseInt" s e) end;
|}.

Lemma command_line_sets_options_witness :
  let l := [mkSetting "docker-endpoint" "--weird=value" false; mkSetting "ipv6-dual-stack" "T" true;
            mkSetting "runtime-request-timeout" "90s" true; mkSetting "docker-endpoint" "tcp://h:1" true] in
  (exists c, apply_settings l cli_default = Ok c
     /\ parseArgs (l ≫= setting_args) cli_default [] = Ok (c, [])
     /\ cro_DockerEndpoint (f_ContainerRuntimeOptions (cl_flags c)) = "tcp://h:1"
     /\ cro_RuntimeRequestTimeout (f_ContainerRuntimeOptions (cl_flags c)) = (90 * Second)%Z).
Proof.
  intros l. eexists. split; [vm_compute; reflexivity|]. split; [|split; reflexivity].
  rewrite (proj1 command_line_sets_options l cli_default []).
  - vm_compute. reflexivity.
  - repeat (apply Forall_cons_2; [eexists; split; [reflexivity|intros Hx; first [reflexivity|discriminate Hx]]|]).
    apply Forall_nil_2.
Defined.

(** What the command does with some command lines. *)
Definition dev_version : version_info := mkVersionInfo "0.3.17" "rc.1" "483e3b6".
Example command_actions :
  command_Run dev_version "go1.22" ["--version"] = PrintText ("cri-dockerd 0.3.17-rc.1 (483e3b6)" +:+ nl)
  /\ command_Run dev_version "go1.22" ["-h=false"; "-test.v"; "serve"] = Fatal true "Unknown command: serve"
  /\ command_Run dev_version "go1.22" ["-hh"] = ShowHelp
  /\ command_Run dev_version "go1.22" ["--log-level"; "WARNING"; "--hairpin-mode=none"; "--"]
     = Serve (Some WarnLevel) NewDockerCRIFlags "none"
  /\ command_Run dev_version "go1.22" ["--log-level=loud"] = Fatal false "Unknown log level: loud".
Proof. vm_compute. repeat split; reflexivity. Qed.
