(* ===== verification/Windows.v ===== *)
(** * Windows: credential specs in the registry

    core/helpers_windows.go and core/security_context_windows.go: the options
    of a container on Windows, and the gMSA credential specs that
    [CreateContainer] copies to values of the registry and that are removed
    with the container, when its creation fails, and when the service starts;
    with [CreateContainer], [RemoveContainer] and the start of the service as
    this build has them.  The registry is a parameter ([Registry], the
    program's [registryKey] interface), and what it promises is
    [RegistryLaws]: names of values are case-insensitive and keep the case
    they were created with. *)
From coqutil Require Import Datatypes.RecordSetters.
From S2P Require Import Prelude Regex GoErrors GoPath GoText Cri Naming Labels Cache Store Checkpoint Libdocker PluginManager Service Sim SecurityContext SandboxHelpers Containers.
Import DoubleBraceUpdate.

(** ** Interfaces *)

(** [registry.CreateKey] under [LOCAL_MACHINE] and the methods of a key. *)
Class Registry (R : Type) := {
  registryKey : Type;
  registryCreateKeyFunc : string -> N -> M R (res registryKey);
  SetStringValue : registryKey -> string -> string -> M R (res unit);
  DeleteValue : registryKey -> string -> M R (res unit);
  ReadValueNames : registryKey -> Z -> M R (res (list string));
  key_Close : registryKey -> M R (res unit);
}.

(** [randomReader.Read] of a slice of that length: the bytes read, and the
    error. *)
Class RandomReader (W : Type) := rand_Read : nat -> M W (list Byte.byte * option error).

(** The access rights of package registry. *)
Definition QUERY_VALUE : N := 1.
Definition SET_VALUE : N := 2.

(** ** State *)

Record containerCleanupInfo := mkCleanupInfo { gMSARegistryValueName : string }.

(** The docker service as this build has it: its cleanup infos hold a struct
    ([ds_containerCleanupInfos], of the other platforms, is not used), and the
    registry and the log of failed clean-ups come with it. *)
Record windowsService (W St R : Type) := mkWindowsService {
  ws_service : dockerService W St;
  ws_registry : R;
  ws_containerCleanupInfos : gmap string containerCleanupInfo;
  ws_log : list (string * error);
}.
Arguments mkWindowsService {W St R}.
Arguments ws_service {W St R}.
Arguments ws_registry {W St R}.
Arguments ws_containerCleanupInfos {W St R}.
Arguments ws_log {W St R}.

(** ** Constants *)

Definition credentialSpecRegistryLocation : string :=
  "SOFTWARE\Microsoft\Windows NT\CurrentVersion\Virtualization\Containers\CredentialSpecs".
Definition gMSARegistryValueNamePrefix : string := "k8s-cred-spec-".
Definition gMSARegistryValueNameSuffixRandomBytes : nat := 40.
Definition gMSARegistryValueNamesRegex : re :=
  Seq (Lit gMSARegistryValueNamePrefix)
      (Times (2 * gMSARegistryValueNameSuffixRandomBytes) (Class is_hex)).
Definition DefaultMemorySwap : Z := 0.

(** ** Options of a container *)

Section Options.
(** [os.Getenv("CONTAINER_NETWORK")] and [runtime.NumCPU()]. *)
Variables (CONTAINER_NETWORK : string) (NumCPU : Z).

Definition applyWindowsContainerSecurityContext (wsc : option WindowsContainerSecurityContext)
  (config : DockerConfig) : DockerConfig :=
  match wsc with
  | None => config
  | Some w =>
      if decide (wsc_RunAsUsername w = "") then config
      else config{{dc_User := wsc_RunAsUsername w}}
  end.

Definition windows_resources (rOpts : WindowsContainerResources) : Resources :=
  zero_Resources{{r_Memory := wr_MemoryLimitInBytes rOpts;
                  r_CPUShares := wr_CpuShares rOpts;
                  r_CPUCount := wr_CpuCount rOpts;
                  r_NanoCPUs := int64 (int64 (wr_CpuMaximum rOpts * NumCPU) * 100000)}}.

Definition updateCreateConfig (createConfig : ContainerCreateConfig) (config : ContainerConfig)
  (podSandboxID : string) : res ContainerCreateConfig :=
  let hc := if decide (CONTAINER_NETWORK = "")
            then modifyHostOptionsForContainer None podSandboxID (ccc_HostConfig createConfig)
            else (ccc_HostConfig createConfig){{hc_NetworkMode := CONTAINER_NETWORK}} in
  match cc_Windows config with
  | None => Ok (createConfig{{ccc_HostConfig := hc}})
  | Some wc =>
      let hc := match wcc_Resources wc with
                | None => hc
                | Some rOpts => hc{{hc_Resources := windows_resources rOpts}}
                end in
      Ok (createConfig{{ccc_HostConfig := hc;
                        ccc_Config := applyWindowsContainerSecurityContext
                                        (wcc_SecurityContext wc) (ccc_Config createConfig)}})
  end.
End Options.

Definition getSecurityOpts (seccompProfile : option SecurityProfile) (privileged : bool)
  (separator : string) : res (list string) := Ok [].
Definition getSandBoxSecurityOpts (separator : string) : list string := [].
Definition getNetworkNamespace (c : ContainerJSON) : res string := Ok (hc_NetworkMode (cj_HostConfig c)).

(** ** Credential specs *)

Section Gmsa.
Context {W St R : Type} `{RandomReader W} `{Registry R}.
Abbreviation WS := (windowsService W St R).

Definition onDS {A} (m : M (dockerService W St) A) : M WS A := fun ws =>
  let '(a, ds) := m (ws_service ws) in
  (a, mkWindowsService ds (ws_registry ws) (ws_containerCleanupInfos ws) (ws_log ws)).
Definition onRegistry {A} (m : M R A) : M WS A := fun ws =>
  let '(a, r) := m (ws_registry ws) in
  (a, mkWindowsService (ws_service ws) r (ws_containerCleanupInfos ws) (ws_log ws)).
Definition logError (containerNameOrID : string) (err : error) : M WS unit := fun ws =>
  (tt, mkWindowsService (ws_service ws) (ws_registry ws) (ws_containerCleanupInfos ws)
         (ws_log ws ++ [(containerNameOrID, err)])).

Definition getContainerCleanupInfo (containerID : string) : M WS (option containerCleanupInfo) :=
  fun ws => (ws_containerCleanupInfos ws !! containerID, ws).
Definition setContainerCleanupInfo (containerID : string) (info : containerCleanupInfo) : M WS unit :=
  fun ws => (tt, mkWindowsService (ws_service ws) (ws_registry ws)
                   (<[containerID := info]> (ws_containerCleanupInfos ws)) (ws_log ws)).
Definition clearContainerCleanupInfo (containerID : string) : M WS unit := fun ws =>
  (tt, mkWindowsService (ws_service ws) (ws_registry ws)
         (delete containerID (ws_containerCleanupInfos ws)) (ws_log ws)).

(** [randomString]. *)
Definition randomString (length : nat) : M W (res string) :=
  let wrap err := Errorf ("unable to generate random string: " +:+ Error err) in
  let* '(randBytes, err) := rand_Read length in
  ret (match err with
       | Some e => Err (wrap e)
       | None =>
           let n := List.length randBytes in
           if decide (n = length) then Ok (hex_encode (Byte.to_N <$> randBytes))
           else Err (wrap (Errorf ("only got " +:+ utoa (N.of_nat n) +:+ " random bytes, expected "
                                   +:+ utoa (N.of_nat length))))
       end).

(** [gMSARegistryValueName()]. *)
Definition newGMSARegistryValueName : M W (res string) :=
  let* r := randomString gMSARegistryValueNameSuffixRandomBytes in
  ret (match r with
       | Err err => Err (Errorf ("error when generating gMSA registry value name: " +:+ Error err))
       | Ok randomSuffix => Ok (gMSARegistryValueNamePrefix +:+ randomSuffix)
       end).

Definition open_key_error (err : error) : error :=
  Errorf ("unable to open registry key " +:+ quote credentialSpecRegistryLocation +:+ ": " +:+ Error err).
Definition registry_value_error (what valueName : string) (err : error) : error :=
  Errorf ("unable to " +:+ what +:+ " registry value " +:+ quote credentialSpecRegistryLocation +:+ "/"
          +:+ quote valueName +:+ ": " +:+ Error err).

(** Open the key of the credential specs, use it, close it ([defer]). *)
Definition with_credential_specs {A} (fail : error -> A) (use : registryKey -> M R A) : M R A :=
  let* k := registryCreateKeyFunc credentialSpecRegistryLocation SET_VALUE in
  match k with
  | Err err => ret (fail (open_key_error err))
  | Ok key =>
      let* r := use key in
      do* key_Close key in
      ret r
  end.

Definition write_credential_spec (valueName credSpec : string) : M R (res unit) :=
  with_credential_specs Err (fun key =>
    let* r := SetStringValue key valueName credSpec in
    ret (match r with
         | Err err => Err (registry_value_error "write into" valueName err)
         | Ok _ => Ok tt
         end)).

Definition copyGMSACredSpecToRegistryValue (credSpec : string) : M WS (res string) :=
  let? valueName := onDS (onW newGMSARegistryValueName) in
  let? _ := onRegistry (write_credential_spec valueName credSpec) in
  ret (Ok valueName).

(** [applyGMSAConfig]: the configuration and the cleanup info it leaves. *)
Definition applyGMSAConfig (config : ContainerConfig) (createConfig : ContainerCreateConfig)
  (cleanupInfo : containerCleanupInfo) : M WS (res (ContainerCreateConfig * containerCleanupInfo)) :=
  let credSpec := match cc_Windows config ≫= wcc_SecurityContext with
                  | Some sc => wsc_CredentialSpec sc
                  | None => ""
                  end in
  if decide (credSpec = "") then ret (Ok (createConfig, cleanupInfo))
  else
    let? valueName := copyGMSACredSpecToRegistryValue credSpec in
    let hc := ccc_HostConfig createConfig in
    let opts := hc_SecurityOpt hc ++ [String.append "credentialspec=registry://" valueName] in
    ret (Ok (createConfig{{ccc_HostConfig := hc{{hc_SecurityOpt := opts}} }}, mkCleanupInfo valueName)).

Definition applyPlatformSpecificDockerConfig (config : ContainerConfig)
  (createConfig : ContainerCreateConfig) : M WS (res (ContainerCreateConfig * containerCleanupInfo)) :=
  applyGMSAConfig config createConfig (mkCleanupInfo "").

(** ** Clean-ups *)

Definition removeGMSARegistryValue (cleanupInfo : containerCleanupInfo) : M R (res unit) :=
  if decide (gMSARegistryValueName cleanupInfo = "") then ret (Ok tt)
  else
    with_credential_specs Err (fun key =>
      let* r := DeleteValue key (gMSARegistryValueName cleanupInfo) in
      ret (match r with
           | Err err => Err (registry_value_error "remove" (gMSARegistryValueName cleanupInfo) err)
           | Ok _ => Ok tt
           end)).

(** The loop over the values of the key. *)
Fixpoint remove_matching (key : registryKey) (valueNames : list string) : M R (list error) :=
  match valueNames with
  | [] => ret []
  | valueName :: rest =>
      if match_whole gMSARegistryValueNamesRegex valueName then
        let* r := DeleteValue key valueName in
        let* errors := remove_matching key rest in
        ret (match r with
             | Err err => registry_value_error "remove" valueName err :: errors
             | Ok _ => errors
             end)
      else remove_matching key rest
  end.

Definition removeAllGMSARegistryValues : M R (list error) :=
  with_credential_specs (fun err => [err]) (fun key =>
    let* names := ReadValueNames key 0 in
    match names with
    | Err err =>
        ret [Errorf ("unable to list values under registry key "
                     +:+ quote credentialSpecRegistryLocation +:+ ": " +:+ Error err)]
    | Ok valueNames => remove_matching key valueNames
    end).

Definition performPlatformSpecificContainerCleanup (cleanupInfo : containerCleanupInfo)
  : M WS (list error) :=
  let* r := onRegistry (removeGMSARegistryValue cleanupInfo) in
  ret (match r with Err err => [err] | Ok _ => [] end).

Definition performPlatformSpecificContainerCleanupAndLogErrors (containerNameOrID : string)
  (cleanupInfo : option containerCleanupInfo) : M WS (list error) :=
  match cleanupInfo with
  | None => ret []
  | Some info =>
      let* errors := performPlatformSpecificContainerCleanup info in
      do* for_each errors (logError containerNameOrID) in
      ret errors
  end.

Definition performPlatformSpecificContainerForContainer (containerID : string) : M WS (list error) :=
  let* info := getContainerCleanupInfo containerID in
  match info with
  | None => ret []
  | Some _ =>
      let* errors := performPlatformSpecificContainerCleanupAndLogErrors containerID info in
      do* (if decide (errors = []) then clearContainerCleanupInfo containerID else ret tt) in
      ret errors
  end.

Definition platformSpecificContainerInitCleanup : M WS (list error) :=
  onRegistry removeAllGMSARegistryValues.

(** [initCleanup] of docker_service.go: its errors are logged. *)
Definition initCleanup : M WS unit := do* platformSpecificContainerInitCleanup in ret tt.

(** ** CreateContainer and RemoveContainer on Windows *)

Context `{DockerClient W} `{NetworkPlugin W} `{Clock W} `{HostOS W} `{SELinux W}.
Context `{Store St} `{ServiceJSON} `{Semver}.
Variable cfg : service_config.
Variables (CONTAINER_NETWORK : string) (NumCPU : Z).

Definition windows_create_config (podSandboxID : string) (config : ContainerConfig)
  (sandboxConfig : PodSandboxConfig) : M (dockerService W St) (res ContainerCreateConfig) :=
  build_create_config_for cfg
    (fun createConfig => updateCreateConfig CONTAINER_NETWORK NumCPU createConfig config podSandboxID)
    (ret (Ok [])) podSandboxID config sandboxConfig.

Definition ds_CreateContainer (r : CreateContainerRequest) : M WS (res string) :=
  match ccr_Config r with
  | None => ret (Err (Errorf "container config is nil"))
  | Some config =>
      match ccr_SandboxConfig r with
      | None => ret (Err (Errorf ("sandbox config is nil for container "
                                  +:+ quote (cm_Name (cc_Metadata config)))))
      | Some sandboxConfig =>
          let? createConfig := onDS (windows_create_config (ccr_PodSandboxId r) config sandboxConfig) in
          let? '(createConfig, cleanupInfo) := applyPlatformSpecificDockerConfig config createConfig in
          let* c := onDS (onW (create_or_recover createConfig)) in
          match c with
          | Ok containerID =>
              do* setContainerCleanupInfo containerID cleanupInfo in
              ret (Ok containerID)
          | Err createErr =>
              do* performPlatformSpecificContainerCleanupAndLogErrors
                    (makeContainerName sandboxConfig config) (Some cleanupInfo) in
              ret (Err createErr)
          end
      end
  end.

Definition ds_RemoveContainer (containerID : string) : M WS (res unit) :=
  let? _ := onDS (removeContainerLogSymlink containerID) in
  let* errors := performPlatformSpecificContainerForContainer containerID in
  match errors with
  | _ :: _ => ret (Err (Errorf ("failed to run platform-specific clean ups for container "
                                +:+ quote containerID +:+ ": " +:+ errors_text errors)))
  | [] =>
      let* r := onDS (onW (RemoveContainer containerID (mkRemoveOptions true true))) in
      ret (match r with
           | Err err => Err (Errorf ("failed to remove container " +:+ quote containerID
                                     +:+ ": " +:+ Error err))
           | Ok _ => Ok tt
           end)
  end.

End Gmsa.

(** ** What the registry promises *)

(** The names this program gives to values are their own folding. *)
Definition plain_name (n : string) : bool :=
  sforall (fun c => is_lower_letter c || is_digit c || Ascii.eqb c "-") n.

(** A value written under a name that exists keeps the name it was created
    with. *)
Definition set_value (fold : string -> string) (n v : string) (values : gmap string (string * string))
  : gmap string (string * string) :=
  <[fold n := (from_option fst n (values !! fold n), v)]> values.

(** The values of a key by folded name, each with the name and the data
    stored.  An operation that fails changes nothing. *)
Class RegistryLaws (R : Type) `{Registry R} := {
  reg_fold : string -> string;
  reg_values : R -> string -> gmap string (string * string);
  key_path : registryKey -> string;
  key_access : registryKey -> N;
  reg_fold_plain : forall n, plain_name n = true -> reg_fold n = n;
  reg_stored : forall r path k n d, reg_values r path !! k = Some (n, d) -> reg_fold n = k;
  create_law : forall path access r res r', registryCreateKeyFunc path access r = (res, r') ->
    (forall p, reg_values r' p = reg_values r p)
    /\ (forall k, res = Ok k -> key_path k = path /\ key_access k = access);
  set_law : forall k n v r res r', SetStringValue k n v r = (res, r') ->
    forall p, reg_values r' p = if decide (p = key_path k /\ is_ok res = true)
                                then set_value reg_fold n v (reg_values r p) else reg_values r p;
  delete_law : forall k n r res r', DeleteValue k n r = (res, r') ->
    forall p, reg_values r' p = if decide (p = key_path k /\ is_ok res = true)
                                then delete (reg_fold n) (reg_values r p) else reg_values r p;
  read_law : forall k r res r', ReadValueNames k 0 r = (res, r') ->
    (forall p, reg_values r' p = reg_values r p)
    /\ (forall names, res = Ok names -> forall n, n ∈ names <->
          exists key d, reg_values r (key_path k) !! key = Some (n, d));
  close_law : forall k r res r', key_Close k r = (res, r') ->
    forall p, reg_values r' p = reg_values r p;
}.

(** [RegEnumValue] needs a key opened with [KEY_QUERY_VALUE]. *)
Definition enforces_access (R : Type) `{RegistryLaws R} : Prop :=
  forall k n r, N.land (key_access k) QUERY_VALUE = 0%N -> is_ok (fst (ReadValueNames k n r)) = false.

(** ** Theory *)

Definition is_credential_spec_name (n : string) : bool := match_whole gMSARegistryValueNamesRegex n.

(** Bytes of the language are bytes as numbers. *)
Lemma bytes_are_bytes bs : Forall is_byte (Byte.to_N <$> bs).
Proof.
  apply Forall_fmap, Forall_true. intros b. pose proof (Byte.to_N_bounded b). unfold is_byte; cbn. lia.
Qed.

Lemma hex_encode_length bs : String.length (hex_encode bs) = (2 * length bs)%nat.
Proof.
  induction bs as [|b bs IH]; [done|]. rewrite hex_encode_cons, slength_app, IH. simpl. lia.
Qed.

Lemma credential_spec_name_spec n :
  is_credential_spec_name n = true <->
  exists t, n = gMSARegistryValueNamePrefix +:+ t /\ String.length t = 80%nat /\ sforall is_hex t = true.
Proof. apply match_whole_lit_times. Qed.

Lemma is_hex_lower c : is_hex c = true -> is_lower_letter c || is_digit c = true.
Proof. destruct c as [[] [] [] [] [] [] [] []]; reflexivity || discriminate. Qed.

Lemma credential_spec_name_plain n : is_credential_spec_name n = true -> plain_name n = true.
Proof.
  intros (t & -> & _ & Ht)%credential_spec_name_spec. unfold plain_name. rewrite sforall_app.
  apply andb_true_iff. split; [reflexivity|]. eapply sforall_impl; [|exact Ht].
  intros c Hc. by rewrite (is_hex_lower c Hc).
Qed.

Section Theory.
Context {W St R : Type} `{HRand : RandomReader W} `{HReg : Registry R} `{HLaws : !RegistryLaws R}.
Abbreviation WS := (windowsService W St R).

(** The values under the key of the credential specs. *)
Definition specs (r : R) : gmap string (string * string) := reg_values r credentialSpecRegistryLocation.

Lemma onDS_step {A} (m : M (dockerService W St) A) (ws : WS) a ws' :
  onDS m ws = (a, ws') ->
  ws_registry ws' = ws_registry ws /\ ws_containerCleanupInfos ws' = ws_containerCleanupInfos ws
  /\ ws_log ws' = ws_log ws /\ (a, ws_service ws') = m (ws_service ws).
Proof. unfold onDS. destruct (m (ws_service ws)). by intros [= <- <-]. Qed.

Lemma onRegistry_step {A} (m : M R A) (ws : WS) a ws' :
  onRegistry m ws = (a, ws') ->
  m (ws_registry ws) = (a, ws_registry ws') /\ ws_log ws' = ws_log ws
  /\ ws_containerCleanupInfos ws' = ws_containerCleanupInfos ws /\ ws_service ws' = ws_service ws.
Proof. unfold onRegistry. destruct (m (ws_registry ws)). by intros [= <- <-]. Qed.

(** The key is opened at the location of the credential specs, with
    [SET_VALUE], and opening and closing it change nothing. *)
Lemma with_credential_specs_step {A} (fail : error -> A) (use : registryKey -> M R A) r a r' :
  with_credential_specs fail use r = (a, r') ->
  (exists err, a = fail err /\ specs r' = specs r)
  \/ exists key r1 r2, key_path key = credentialSpecRegistryLocation /\ key_access key = SET_VALUE
       /\ specs r1 = specs r /\ use key r1 = (a, r2) /\ specs r' = specs r2.
Proof.
  unfold with_credential_specs. intros (k & r1 & E1 & E)%bind_step.
  destruct (create_law _ _ _ _ _ E1) as [Hv Hk].
  destruct k as [key|err]; [|injection E as <- <-; left; eauto].
  apply bind_step in E as (x & r2 & E2 & E). apply bind_step in E as (? & r3 & E3 & E).
  injection E as <- <-. right. destruct (Hk key eq_refl). exists key, r1, r2.
  split_and!; try done; [apply Hv|apply (close_law _ _ _ _ E3)].
Qed.

Lemma write_credential_spec_step name credSpec r res r' :
  write_credential_spec name credSpec r = (res, r') ->
  specs r' = match res with Ok _ => set_value reg_fold name credSpec (specs r) | Err _ => specs r end.
Proof.
  intros [(err & -> & ->)|(key & r1 & r2 & Hp & _ & <- & E & ->)]%with_credential_specs_step; [done|].
  apply bind_step in E as (x & r3 & E3 & E). pose proof (set_law _ _ _ _ _ _ E3 credentialSpecRegistryLocation) as Hl.
  destruct x as [[]|err]; injection E as <- <-; unfold specs; rewrite Hl.
  - by rewrite decide_True.
  - rewrite decide_False; [done|]. by intros [].
Qed.

Lemma removeGMSARegistryValue_step info r res r' :
  removeGMSARegistryValue info r = (res, r') ->
  specs r' = if decide (gMSARegistryValueName info = "") then specs r
             else if is_ok res then delete (reg_fold (gMSARegistryValueName info)) (specs r)
             else specs r.
Proof.
  unfold removeGMSARegistryValue. destruct (decide _) as [|Hn]; [by intros [= <- <-]|].
  intros [(err & -> & ->)|(key & r1 & r2 & Hp & _ & <- & E & ->)]%with_credential_specs_step; [done|].
  apply bind_step in E as (x & r3 & E3 & E).
  pose proof (delete_law _ _ _ _ _ E3 credentialSpecRegistryLocation) as Hl.
  unfold specs. destruct x as [[]|err]; injection E as <- <-; rewrite Hl; cbn [is_ok].
  - by rewrite decide_True.
  - rewrite decide_False; [done|]. by intros [].
Qed.

Lemma remove_matching_step key names r errors r' :
  key_path key = credentialSpecRegistryLocation -> remove_matching key names r = (errors, r') ->
  exists gone : gset string,
    (forall k, specs r' !! k = if decide (k ∈ gone) then None else specs r !! k)
    /\ (forall k, k ∈ gone -> exists n, n ∈ names /\ is_credential_spec_name n = true /\ reg_fold n = k)
    /\ (errors = [] -> forall n, n ∈ names -> is_credential_spec_name n = true -> reg_fold n ∈ gone).
Proof.
  intros Hp. revert r errors r'. induction names as [|n names IH]; intros r errors r' E.
  { injection E as <- <-. exists ∅. split_and!; [|set_solver..]. intros k. by rewrite decide_False by set_solver. }
  cbn [remove_matching] in E. unfold is_credential_spec_name.
  destruct (match_whole gMSARegistryValueNamesRegex n) eqn:Hn.
  2: { destruct (IH _ _ _ E) as (gone & H1 & H2 & H3). exists gone. split_and!; [done| |].
       - intros k Hk. destruct (H2 k Hk) as (m & ? & ?). exists m. split; [by apply list_elem_of_further|done].
       - intros He m [->|Hm]%elem_of_cons Hs; [by rewrite Hn in Hs|by apply H3]. }
  apply bind_step in E as (x & r1 & E1 & E). apply bind_step in E as (es & r2 & E2 & E).
  destruct (IH _ _ _ E2) as (gone & H1 & H2 & H3). injection E as <- <-.
  pose proof (delete_law _ _ _ _ _ E1 credentialSpecRegistryLocation) as Hl. fold (specs r1) (specs r) in Hl.
  destruct x as [[]|err].
  - exists ({[reg_fold n]} ∪ gone). rewrite decide_True in Hl by done. split_and!.
    + intros k. rewrite H1, Hl. destruct (decide (k ∈ gone)) as [Hg|Hg].
      * by rewrite decide_True by set_solver.
      * destruct (decide (k = reg_fold n)) as [->|Hne].
        -- rewrite lookup_delete_eq, decide_True by set_solver. done.
        -- rewrite lookup_delete_ne by done. rewrite decide_False by set_solver. done.
    + intros k [->%elem_of_singleton|Hk]%elem_of_union.
      * exists n. split; [by apply list_elem_of_here|done].
      * destruct (H2 k Hk) as (m & ? & ?). exists m. split; [by apply list_elem_of_further|done].
    + intros He m [->|Hm]%elem_of_cons Hs; [set_solver|]. apply elem_of_union. right. by apply H3.
  - exists gone. rewrite decide_False in Hl by (by intros []). split_and!; [|intros k Hk|done].
    + intros k. by rewrite H1, Hl.
    + destruct (H2 k Hk) as (m & ? & ?). exists m. split; [by apply list_elem_of_further|done].
Qed.

(** What removing the leftovers of earlier runs does, if it can list them. *)
Lemma removeAll_step r errors r' :
  removeAllGMSARegistryValues r = (errors, r') ->
  (forall k n d, specs r' !! k = Some (n, d) -> specs r !! k = Some (n, d))
  /\ (forall k n d, specs r !! k = Some (n, d) -> is_credential_spec_name n = false ->
        specs r' !! k = Some (n, d))
  /\ (errors = [] -> forall k n d, specs r' !! k = Some (n, d) -> is_credential_spec_name n = false).
Proof.
  unfold removeAllGMSARegistryValues.
  intros [(err & -> & ->)|(key & r1 & r2 & Hp & _ & <- & E & ->)]%with_credential_specs_step; [done|].
  apply bind_step in E as (x & r3 & E3 & E).
  destruct (read_law _ _ _ _ E3) as [Hv Hn]. specialize (Hv credentialSpecRegistryLocation).
  fold (specs r3) (specs r1) in Hv. rewrite <- Hv.
  destruct x as [names|err]; [|by injection E as <- <-].
  specialize (Hn names eq_refl). rewrite Hp in Hn. fold (specs r1) in Hn. rewrite <- Hv in Hn.
  destruct (remove_matching_step _ _ _ _ _ Hp E) as (gone & H1 & H2 & H3). split_and!.
  - intros k n d. rewrite H1. by destruct (decide _).
  - intros k n d Hk Hs. rewrite H1. destruct (decide (k ∈ gone)) as [Hg|]; [|done].
    destruct (H2 k Hg) as (m & (k' & d' & Hk')%Hn & Hm & Hf).
    pose proof (reg_stored _ _ _ _ _ Hk') as Hf'. rewrite Hf in Hf'. subst k'.
    unfold specs in *. rewrite Hk in Hk'. simplify_eq. congruence.
  - intros He k n d. rewrite H1. destruct (decide (k ∈ gone)) as [|Hg]; [done|]. intros Hk.
    destruct (is_credential_spec_name n) eqn:Hs; [|done]. destruct Hg.
    rewrite <- (reg_stored _ _ _ _ _ Hk). apply H3; [done| |done]. apply Hn. eauto.
Qed.

(** The credential spec a container asks for, "" for none. *)
Definition credential_spec (config : ContainerConfig) : string :=
  match cc_Windows config ≫= wcc_SecurityContext with
  | Some sc => wsc_CredentialSpec sc
  | None => ""
  end.

Definition with_security_opt (opt : string) (cc : ContainerCreateConfig) : ContainerCreateConfig :=
  let hc := ccc_HostConfig cc in
  let opts := hc_SecurityOpt hc ++ [opt] in
  cc{{ccc_HostConfig := hc{{hc_SecurityOpt := opts}} }}.

Lemma new_value_name_step w res w' :
  newGMSARegistryValueName w = (res, w') ->
  forall name, res = Ok name -> is_credential_spec_name name = true.
Proof.
  intros (x & w1 & E1 & E)%bind_step name ->. apply bind_step in E1 as ([bs e] & w2 & E2 & E1).
  injection E1 as <- <-. destruct e; [done|].
  destruct (decide _) as [Hl|]; [|done]. injection E as <- <-. apply credential_spec_name_spec. eexists.
  split; [done|]. rewrite hex_encode_length, length_fmap, Hl. split; [done|apply hex_encode_hex, bytes_are_bytes].
Qed.

Lemma apply_step config cc (ws : WS) res ws' :
  applyPlatformSpecificDockerConfig config cc ws = (res, ws') ->
  ws_containerCleanupInfos ws' = ws_containerCleanupInfos ws /\ ws_log ws' = ws_log ws
  /\ match res with
     | Err _ => specs (ws_registry ws') = specs (ws_registry ws)
     | Ok (cc', info) =>
         let name := gMSARegistryValueName info in
         if decide (credential_spec config = "")
         then cc' = cc /\ name = "" /\ specs (ws_registry ws') = specs (ws_registry ws)
         else is_credential_spec_name name = true
              /\ cc' = with_security_opt ("credentialspec=registry://" +:+ name) cc
              /\ specs (ws_registry ws')
                 = set_value reg_fold name (credential_spec config) (specs (ws_registry ws))
     end.
Proof.
  unfold applyPlatformSpecificDockerConfig, applyGMSAConfig. fold (credential_spec config).
  destruct (decide (credential_spec config = "")) as [Hc|Hc]; [by intros [= <- <-]|].
  intros (x & ws1 & E1 & E)%bind_step. apply bind_step in E1 as (y & ws2 & E2 & E1).
  apply onDS_step in E2 as (Hr & Hi & Hg & E2). unfold onW in E2.
  destruct (newGMSARegistryValueName _) as [y' w'] eqn:En. injection E2 as -> _.
  destruct y' as [name|err].
  2: { injection E1 as <- <-. injection E as <- <-. by rewrite Hi, Hg, Hr. }
  apply bind_step in E1 as (z & ws3 & E3 & E1).
  apply onRegistry_step in E3 as (E3 & Hg3 & Hi3 & _). apply write_credential_spec_step in E3.
  rewrite Hr in E3. rewrite Hg in Hg3. rewrite Hi in Hi3.
  destruct z as [[]|err]; injection E1 as <- <-; injection E as <- <-; [|done].
  split_and!; [done|done|by eapply new_value_name_step|done|done].
Qed.

(** *** Effects of a clean-up *)

(** What [performPlatformSpecificContainerCleanupAndLogErrors] does: the value
    is gone, or the failure is logged. *)
Lemma cleanup_step name info (ws : WS) errors ws' :
  performPlatformSpecificContainerCleanupAndLogErrors name (Some info) ws = (errors, ws') ->
  ws_containerCleanupInfos ws' = ws_containerCleanupInfos ws
  /\ ws_log ws' = ws_log ws ++ ((fun err => (name, err)) <$> errors) /\ (length errors <= 1)%nat
  /\ specs (ws_registry ws')
     = (if decide (gMSARegistryValueName info = "") then specs (ws_registry ws)
        else if decide (errors = []) then delete (reg_fold (gMSARegistryValueName info)) (specs (ws_registry ws))
        else specs (ws_registry ws)).
Proof.
  intros (es & ws1 & E1 & E)%bind_step. apply bind_step in E1 as (x & ws2 & E2 & E1).
  apply onRegistry_step in E2 as (E2 & Hg & Hi & _). apply removeGMSARegistryValue_step in E2.
  destruct x as [[]|err]; injection E1 as <- <-; apply bind_step in E as (? & ws3 & E3 & E);
    injection E as <- <-; injection E3 as _ <-; cbn; rewrite ?Hi, ?Hg, E2; cbn [is_ok].
  - split_and!; [done|by rewrite app_nil_r|lia|done].
  - split_and!; [done|done|lia|done].
Qed.

(** ** No credential spec is lost track of *)

(** A value that some container's cleanup info names. *)
Definition tracked (infos : gmap string containerCleanupInfo) (key : string) : Prop :=
  exists id info, infos !! id = Some info /\ reg_fold (gMSARegistryValueName info) = key.

(** The keys that hold a credential spec written by this program, as far as
    its name tells. *)
Definition holds_spec (r : R) (key : string) : Prop :=
  exists n d, specs r !! key = Some (n, d) /\ is_credential_spec_name n = true.

(** All values but at most [n] were there before, or are tracked. *)
Definition accounted (before : gmap string (string * string)) (r : R)
  (infos : gmap string containerCleanupInfo) (n : nat) : Prop :=
  exists lost : list string, (length lost <= n)%nat
    /\ forall key, holds_spec r key -> is_Some (before !! key) \/ tracked infos key \/ key ∈ lost.

Lemma accounted_mono before r r' infos infos' n n' :
  accounted before r infos n -> (n <= n')%nat ->
  (forall key, holds_spec r' key -> holds_spec r key) ->
  (forall key, holds_spec r' key -> tracked infos key -> tracked infos' key) ->
  accounted before r' infos' n'.
Proof. intros (lost & Hl & Ha) Hn Hr Ht. exists lost. split; [lia|]. naive_solver. Qed.

Lemma holds_spec_delete r r' name key :
  specs r' = delete name (specs r) -> holds_spec r' key -> holds_spec r key /\ key <> name.
Proof.
  intros Hs (n & d & Hk & Hn). rewrite Hs in Hk. apply lookup_delete_Some in Hk as [? ?].
  split; [by exists n, d|done].
Qed.

Lemma holds_spec_eq r r' key : specs r' = specs r -> holds_spec r' key -> holds_spec r key.
Proof. intros Hs (n & d & Hk & Hn). exists n, d. by rewrite <- Hs. Qed.

Lemma holds_spec_nonempty r key : holds_spec r key -> key <> "".
Proof.
  intros (n & d & Hk & Hn) ->. pose proof (reg_stored _ _ _ _ _ Hk) as Hf.
  rewrite reg_fold_plain in Hf by by apply credential_spec_name_plain.
  subst n. discriminate.
Qed.

(** Writing a value only adds the one under its name. *)
Lemma holds_spec_set r r' name data key :
  specs r' = set_value reg_fold name data (specs r) -> holds_spec r' key ->
  holds_spec r key \/ key = reg_fold name.
Proof.
  intros Hs (n & d & Hk & Hn). rewrite Hs in Hk. unfold set_value in Hk.
  destruct (decide (key = reg_fold name)) as [|Hne]; [by right|]. left.
  rewrite lookup_insert_ne in Hk by done. by exists n, d.
Qed.

Lemma accounted_remove before (ws ws' : WS) id info errors :
  ws_containerCleanupInfos ws !! id = Some info ->
  performPlatformSpecificContainerForContainer id ws = (errors, ws') ->
  accounted before (ws_registry ws) (ws_containerCleanupInfos ws) (length (ws_log ws)) ->
  accounted before (ws_registry ws') (ws_containerCleanupInfos ws') (length (ws_log ws')).
Proof.
  intros Hid E Ha. unfold performPlatformSpecificContainerForContainer in E.
  apply bind_step in E as (x & ws1 & E1 & E). injection E1 as <- <-. rewrite Hid in E.
  apply bind_step in E as (es & ws2 & E2 & E). apply cleanup_step in E2 as (Hi & Hg & _ & Hs).
  apply bind_step in E as (? & ws3 & E3 & E). injection E as <- <-.
  destruct (decide (es = [])) as [->|He].
  - injection E3 as _ <-. cbn. rewrite Hi, Hg, app_nil_r. eapply accounted_mono; [exact Ha|lia| |].
    + intros key Hk. destruct (decide _) in Hs; [by eapply holds_spec_eq|]. by eapply holds_spec_delete.
    + intros key Hk (id' & info' & Hid' & Hf). exists id', info'. split; [|done].
      apply lookup_delete_Some. split; [|done]. intros <-. rewrite Hid in Hid'. injection Hid' as <-.
      destruct (decide _) as [Hn|Hn] in Hs.
      * rewrite Hn, reg_fold_plain in Hf by done. by eapply holds_spec_nonempty.
      * destruct (holds_spec_delete _ _ _ _ Hs Hk) as [_ Hne]. by rewrite Hf in Hne.
  - injection E3 as _ <-. rewrite Hi, Hg, length_app. eapply accounted_mono; [exact Ha|lia| |done].
    intros key Hk. apply (holds_spec_eq _ (ws_registry ws2)); [|done]. rewrite Hs. by destruct (decide _).
Qed.

(** The configuration docker is given, the credential spec being in place. *)
Lemma accounted_create before (ws ws1 ws2 : WS) config cc cc' info id :
  applyPlatformSpecificDockerConfig config cc ws = (Ok (cc', info), ws1) ->
  ws_registry ws2 = ws_registry ws1 ->
  ws_containerCleanupInfos ws !! id = None ->
  accounted before (ws_registry ws) (ws_containerCleanupInfos ws) (length (ws_log ws)) ->
  accounted before (ws_registry ws2) (<[id := info]> (ws_containerCleanupInfos ws)) (length (ws_log ws)).
Proof.
  intros E Hr Hid (lost & Hl & Ha). apply apply_step in E as (_ & _ & E). rewrite <- Hr in E.
  exists lost. split; [done|]. intros key Hk.
  assert (holds_spec (ws_registry ws) key \/ key = reg_fold (gMSARegistryValueName info)) as [Hk'| ->].
  { cbv zeta in E. destruct (decide _) in E.
    - destruct E as (_ & _ & Hs). left. by eapply holds_spec_eq.
    - destruct E as (_ & _ & Hs). by eapply holds_spec_set. }
  - destruct (Ha key Hk') as [?|[(id' & info' & Hid' & Hf)|?]]; [by left| |by right; right].
    right. left. exists id', info'. split; [|done]. rewrite lookup_insert_ne; [done|]. by intros <-; rewrite Hid in Hid'.
  - right. left. exists id, info. by rewrite lookup_insert_eq.
Qed.

(** A creation that failed leaves its value only if a failure is logged. *)
Lemma accounted_failed before (ws ws1 ws2 ws3 : WS) config cc cc' info name errors :
  applyPlatformSpecificDockerConfig config cc ws = (Ok (cc', info), ws1) ->
  ws_registry ws2 = ws_registry ws1 -> ws_containerCleanupInfos ws2 = ws_containerCleanupInfos ws1 ->
  ws_log ws2 = ws_log ws1 ->
  performPlatformSpecificContainerCleanupAndLogErrors name (Some info) ws2 = (errors, ws3) ->
  accounted before (ws_registry ws) (ws_containerCleanupInfos ws) (length (ws_log ws)) ->
  accounted before (ws_registry ws3) (ws_containerCleanupInfos ws3) (length (ws_log ws3)).
Proof.
  intros E Hr Hi Hg Ec Ha. apply cleanup_step in Ec as (Hi3 & Hg3 & _ & Hs3).
  apply apply_step in E as (Hi1 & Hg1 & E). rewrite Hi3, Hi, Hi1, Hg3, Hg, Hg1, length_app, length_fmap.
  rewrite Hr in Hs3. cbv zeta in E. destruct (decide (credential_spec config = "")).
  { destruct E as (_ & Hn & Hs). rewrite decide_True in Hs3 by done. rewrite Hs in Hs3.
    eapply accounted_mono; [exact Ha|lia|intros key; by apply holds_spec_eq|done]. }
  destruct E as (Hn & _ & Hs). rewrite decide_False in Hs3 by (intros Hc; rewrite Hc in Hn; discriminate).
  destruct Ha as (lost & Hl & Ha). destruct (decide (errors = [])) as [->|He].
  - exists lost. split; [lia|]. intros key Hk. apply Ha.
    destruct (holds_spec_delete _ _ _ _ Hs3 Hk) as [Hk1 Hne]. by destruct (holds_spec_set _ _ _ _ _ Hs Hk1).
  - exists (reg_fold (gMSARegistryValueName info) :: lost).
    split; [destruct errors; [done|]; cbn; lia|]. intros key Hk.
    assert (holds_spec (ws_registry ws1) key) as Hk1 by (by eapply holds_spec_eq).
    destruct (holds_spec_set _ _ _ _ _ Hs Hk1) as [Hk2| ->]; [|right; right; by apply list_elem_of_here].
    destruct (Ha key Hk2) as [?|[?|?]]; [by left|by right; left|].
    right. right. by apply list_elem_of_further.
Qed.

Context `{DockerClient W} `{NetworkPlugin W} `{Clock W} `{HostOS W} `{SELinux W}.
Context `{Store St} `{ServiceJSON} `{Semver}.
Variable cfg : service_config.
Variables (CONTAINER_NETWORK : string) (NumCPU : Z).

Lemma CreateContainer_accounted before r (ws ws' : WS) res :
  ds_CreateContainer cfg CONTAINER_NETWORK NumCPU r ws = (res, ws') ->
  (forall id, res = Ok id -> ws_containerCleanupInfos ws !! id = None) ->
  accounted before (ws_registry ws) (ws_containerCleanupInfos ws) (length (ws_log ws)) ->
  accounted before (ws_registry ws') (ws_containerCleanupInfos ws') (length (ws_log ws')).
Proof.
  intros E Hfresh Ha. unfold ds_CreateContainer in E.
  destruct (ccr_Config r) as [config|]; [|by injection E as <- <-].
  destruct (ccr_SandboxConfig r) as [sconfig|]; [|by injection E as <- <-].
  apply bind_step in E as (x & ws1 & E1 & E). apply onDS_step in E1 as (Hr1 & Hi1 & Hg1 & _).
  rewrite <- Hr1, <- Hi1, <- Hg1 in Ha. rewrite <- Hi1 in Hfresh.
  destruct x as [cc|err]; [|by injection E as <- <-].
  apply bind_step in E as (y & ws2 & E2 & E).
  destruct y as [[cc' info]|err].
  2: { injection E as <- <-. apply apply_step in E2 as (Hi2 & Hg2 & Hs2). rewrite Hi2, Hg2.
       eapply accounted_mono; [exact Ha|lia|intros key; by apply holds_spec_eq|done]. }
  apply bind_step in E as (z & ws3 & E3 & E). apply onDS_step in E3 as (Hr3 & Hi3 & Hg3 & _).
  pose proof (apply_step _ _ _ _ _ E2) as (Hi2 & Hg2 & _).
  destruct z as [id|err]; apply bind_step in E as (u & ws4 & E4 & E); injection E as <- <-.
  - injection E4 as _ <-. cbn. rewrite Hi3, Hi2, Hg3, Hg2.
    eapply accounted_create; eauto.
  - by eapply accounted_failed.
Qed.

Lemma RemoveContainer_accounted before id (ws ws' : WS) res :
  ds_RemoveContainer id ws = (res, ws') ->
  accounted before (ws_registry ws) (ws_containerCleanupInfos ws) (length (ws_log ws)) ->
  accounted before (ws_registry ws') (ws_containerCleanupInfos ws') (length (ws_log ws')).
Proof.
  intros E Ha. apply bind_step in E as (x & ws1 & E1 & E). apply onDS_step in E1 as (Hr1 & Hi1 & Hg1 & _).
  rewrite <- Hr1, <- Hi1, <- Hg1 in Ha. destruct x as [[]|err]; [|by injection E as <- <-].
  apply bind_step in E as (es & ws2 & E2 & E).
  assert (accounted before (ws_registry ws2) (ws_containerCleanupInfos ws2) (length (ws_log ws2))) as Ha2.
  { destruct (ws_containerCleanupInfos ws1 !! id) as [info|] eqn:Hid; [by eapply accounted_remove|].
    unfold performPlatformSpecificContainerForContainer in E2.
    apply bind_step in E2 as (o & ws1' & E2' & E2). injection E2' as <- <-. rewrite Hid in E2.
    by injection E2 as <- <-. }
  destruct es; [|by injection E as <- <-].
  apply bind_step in E as (y & ws3 & E3 & E). apply onDS_step in E3 as (Hr3 & Hi3 & Hg3 & _).
  injection E as <- <-. by rewrite Hr3, Hi3, Hg3.
Qed.

(** What happens to a service that started with the values [before] in the
    registry: its operations, and whatever other code does to docker and to
    values that are not credential specs of this program. *)
Inductive reach (before : gmap string (string * string)) : WS -> Prop :=
| reach_start ds r :
    specs r = before -> reach before (mkWindowsService ds r ∅ [])
| reach_create r ws res ws' :
    reach before ws -> ds_CreateContainer cfg CONTAINER_NETWORK NumCPU r ws = (res, ws') ->
    (forall id, res = Ok id -> ws_containerCleanupInfos ws !! id = None) -> reach before ws'
| reach_remove id ws res ws' :
    reach before ws -> ds_RemoveContainer id ws = (res, ws') -> reach before ws'
| reach_init ws res ws' : reach before ws -> initCleanup ws = (res, ws') -> reach before ws'
| reach_elsewhere ws ds r :
    reach before ws -> (forall key, holds_spec r key -> holds_spec (ws_registry ws) key) ->
    reach before (mkWindowsService ds r (ws_containerCleanupInfos ws) (ws_log ws)).

(** C9: Credential specs are accounted for: at every point of the life of the
    service on Windows, each registry value under a name of the program's own
    pattern was there before the service started, or is named by the cleanup
    info of a container (so that removing the container removes it), or is one
    of at most as many values as there are failed removals in the log. *)
Theorem credential_specs_accounted before (ws : WS) :
  reach before ws ->
  exists lost : list string, (length lost <= length (ws_log ws))%nat
    /\ forall key, holds_spec (ws_registry ws) key ->
         is_Some (before !! key) \/ tracked (ws_containerCleanupInfos ws) key \/ key ∈ lost.
Proof.
  intros Hr. change (accounted before (ws_registry ws) (ws_containerCleanupInfos ws) (length (ws_log ws))).
  induction Hr as [ds r Hs|r ws res ws' _ IH E Hf|id ws res ws' _ IH E|ws res ws' _ IH E|ws ds r _ IH Hk].
  - exists []. split; [done|]. intros key (n & d & Hk & _). left. cbn in Hk. rewrite Hs in Hk. eauto.
  - by eapply CreateContainer_accounted.
  - by eapply RemoveContainer_accounted.
  - apply bind_step in E as (es & ws1 & E1 & E). injection E as _ <-.
    apply onRegistry_step in E1 as (E1 & Hg & Hi & _). rewrite Hg, Hi.
    apply removeAll_step in E1 as (Hsub & _). eapply accounted_mono; [exact IH|lia| |done].
    intros key (n & d & Hk & Hn). exists n, d. eauto.
  - eapply accounted_mono; [exact IH|cbn; lia|done|done].
Qed.

(** C10: A credential spec reaches docker and goes away again: a container that
    asks for none is left as it is; for one that does, the configuration
    docker gets is the one before with one more security option, which names a
    registry value of the program's pattern whose data is the spec, and
    removing the value the cleanup info names puts the registry back, if the
    name was not taken. *)
Theorem credential_spec_roundtrip config cc cc' info (ws ws' : WS) :
  applyPlatformSpecificDockerConfig config cc ws = (Ok (cc', info), ws') ->
  let name := gMSARegistryValueName info in
  (credential_spec config = "" ->
     cc' = cc /\ name = "" /\ specs (ws_registry ws') = specs (ws_registry ws))
  /\ (credential_spec config <> "" ->
        is_credential_spec_name name = true
        /\ cc' = with_security_opt ("credentialspec=registry://" +:+ name) cc
        /\ snd <$> specs (ws_registry ws') !! name = Some (credential_spec config)
        /\ forall r2 r3, specs r2 = specs (ws_registry ws') -> specs (ws_registry ws) !! name = None ->
             removeGMSARegistryValue info r2 = (Ok tt, r3) -> specs r3 = specs (ws_registry ws)).
Proof.
  intros (_ & _ & E)%apply_step name. cbv zeta in E. split; intros Hc.
  { by rewrite decide_True in E. }
  rewrite decide_False in E by done. destruct E as (Hn & Hcc & Hs).
  assert (reg_fold name = name) as Hf by by apply reg_fold_plain, credential_spec_name_plain.
  fold name in Hcc, Hs, Hn. unfold set_value in Hs. rewrite Hf in Hs. split_and!; [done|done| |].
  - rewrite Hs, lookup_insert_eq. done.
  - intros r2 r3 Hr2 Hfree Hrm. apply removeGMSARegistryValue_step in Hrm. fold name in Hrm.
    rewrite decide_False in Hrm by (intros Hx; rewrite Hx in Hn; discriminate).
    rewrite Hrm, Hf, Hr2, Hs. cbn [is_ok]. by rewrite delete_insert_id.
Qed.

(** Starting the service on Windows never touches a value that is not a
    credential spec of the program, and leaves none of those when it reports
    no error.  But it opens the key for writing only: where the registry
    enforces access rights it cannot list the values, reports an error and
    removes nothing. *)
Theorem init_cleanup_outcome (ws ws' : WS) errors :
  platformSpecificContainerInitCleanup ws = (errors, ws') ->
  (forall key n d, specs (ws_registry ws) !! key = Some (n, d) -> is_credential_spec_name n = false ->
     specs (ws_registry ws') !! key = Some (n, d))
  /\ (errors = [] -> forall key, ~ holds_spec (ws_registry ws') key)
  /\ (enforces_access R -> errors <> [] /\ specs (ws_registry ws') = specs (ws_registry ws)).
Proof.
  intros (E & _)%onRegistry_step. pose proof (removeAll_step _ _ _ E) as (_ & Hk & He). split_and!.
  - done.
  - intros Hes key (n & d & Hn & Hs). rewrite (He Hes _ _ _ Hn) in Hs. done.
  - intros Hacc. unfold removeAllGMSARegistryValues in E.
    apply with_credential_specs_step in E as [(err & -> & ->)|(key & r1 & r2 & Hp & Ha & <- & E & ->)]; [done|].
    apply bind_step in E as (x & r3 & E3 & E). destruct (read_law _ _ _ _ E3) as [Hv _].
    specialize (Hacc key 0%Z r1). rewrite Ha, E3 in Hacc. specialize (Hacc eq_refl).
    destruct x; [done|]. injection E as <- <-. split; [done|]. apply Hv.
Qed.

End Theory.

(** ** A registry *)

(** A registry that enforces access rights, and a source of random bytes that
    are all zero: a concrete instance for evaluating the definitions. *)
Module MemRegistry.

Definition memreg : Type := gmap string (gmap string (string * string)).
Definition access_denied : error := Errorf "Access is denied.".
Definition allows (access right : N) : bool := negb (N.land access right =? 0)%N.
(** A name is kept under its lower case. *)
Definition named (e : string * (string * string)) : Prop := to_lower e.2.1 = e.1.
Definition values_at (r : memreg) (path : string) : gmap string (string * string) :=
  filter named (default ∅ (r !! path)).

#[export] Instance mem_Registry : Registry memreg := {|
  registryKey := (string * N)%type;
  registryCreateKeyFunc := fun path access => ret (Ok (path, access));
  SetStringValue := fun '(path, access) n v r =>
    if allows access SET_VALUE
    then (Ok tt, <[path := set_value to_lower n v (values_at r path)]> r)
    else (Err access_denied, r);
  DeleteValue := fun '(path, access) n r =>
    if negb (allows access SET_VALUE) then (Err access_denied, r)
    else match values_at r path !! to_lower n with
         | None => (Err (Errorf "The system cannot find the file specified."), r)
         | Some _ => (Ok tt, <[path := delete (to_lower n) (values_at r path)]> r)
         end;
  ReadValueNames := fun '(path, access) n r =>
    (if allows access QUERY_VALUE then Ok (fst <$> (map_to_list (values_at r path)).*2)
     else Err access_denied, r);
  key_Close := fun _ => ret (Ok tt);
|}.

Lemma values_at_named r path : map_Forall (fun k e => named (k, e)) (values_at r path).
Proof. intros k e [_ H]%map_lookup_filter_Some. done. Qed.

Lemma values_at_insert (r : memreg) path vs p :
  map_Forall (fun k e => named (k, e)) vs ->
  values_at (<[path := vs]> r) p = if decide (p = path) then vs else values_at r p.
Proof.
  intros Hvs. unfold values_at, memreg in *. destruct (decide (p = path)) as [->|].
  - rewrite lookup_insert_eq. cbn. by apply map_filter_id.
  - by rewrite lookup_insert_ne.
Qed.

Lemma set_value_named n v vs :
  map_Forall (fun k e => named (k, e)) vs ->
  map_Forall (fun k e => named (k, e)) (set_value to_lower n v vs).
Proof.
  intros Hvs. apply map_Forall_insert_2; [|done]. unfold named; cbn.
  destruct (vs !! to_lower n) as [[m d]|] eqn:Hl; [|done]. by apply Hvs in Hl.
Qed.

Lemma plain_to_lower n : plain_name n = true -> to_lower n = n.
Proof.
  induction n as [|c n IH]; [done|]. unfold plain_name. cbn [sforall]. intros [Hc Hn]%andb_true_iff.
  cbn. rewrite <- (IH Hn) at 2. f_equal. revert Hc.
  by destruct c as [[] [] [] [] [] [] [] []]; vm_compute.
Qed.

#[export] Program Instance mem_laws : RegistryLaws memreg := {|
  reg_fold := to_lower;
  reg_values := values_at;
  key_path := fst;
  key_access := snd;
|}.
Next Obligation. exact plain_to_lower. Qed.
Next Obligation. intros r path k n d Hk. by apply values_at_named in Hk. Qed.
Next Obligation. intros path access r res r' [= <- <-]. split; [done|]. by intros k [= <-]. Qed.
Next Obligation.
  intros [path access] n v r res r' E p. cbn in E. destruct (allows access SET_VALUE); injection E as <- <-.
  - rewrite values_at_insert by apply set_value_named, values_at_named. cbn.
    destruct (decide (p = path)) as [->|]; [by rewrite decide_True|]. rewrite decide_False; [done|]. by intros [].
  - rewrite decide_False; [done|]. by intros [].
Qed.
Next Obligation.
  intros [path access] n r res r' E p. cbn in E. destruct (negb (allows access SET_VALUE)).
  { injection E as <- <-. rewrite decide_False; [done|]. by intros []. }
  destruct (values_at r path !! to_lower n); injection E as <- <-.
  - rewrite values_at_insert by apply map_Forall_delete, values_at_named. cbn.
    destruct (decide (p = path)) as [->|]; [by rewrite decide_True|]. rewrite decide_False; [done|]. by intros [].
  - rewrite decide_False; [done|]. by intros [].
Qed.
Next Obligation.
  intros [path access] r res r' E. cbn in E. injection E as <- <-. split; [done|].
  intros names. destruct (allows access QUERY_VALUE); [|done]. intros [= <-] n. cbn.
  rewrite <- list_fmap_compose, list_elem_of_fmap. split.
  - intros ([k [m d]] & -> & Hm%elem_of_map_to_list). eauto.
  - intros (k & d & Hk). exists (k, (n, d)). split; [done|]. by apply elem_of_map_to_list.
Qed.
Next Obligation. intros k r res r' [= <- <-] p. done. Qed.

Lemma mem_enforces_access : enforces_access memreg.
Proof. intros [path access] n r Ha. cbn in *. unfold allows. by rewrite Ha. Qed.

End MemRegistry.
Import MemRegistry.

(** *** A container with a credential spec *)

#[export] Instance sim_zero_reader : RandomReader sim := fun n => ret (repeat Byte.x00 n, None).

Definition gmsa_config : ContainerConfig :=
  mkContainerConfig (mkContainerMetadata "iis" 0) (Some "iis:1") [] [] "" [] [] [] ∅ ∅ "iis/0.log"
    false false false None []
    (Some (mkWindowsContainerConfig None (Some (mkWindowsContainerSecurityContext "app" "{spec}")))).
Definition gmsa_request : CreateContainerRequest :=
  mkCreateContainerRequest "sandbox" (Some gmsa_config) (Some example_sandbox).
Definition gmsa_sim : sim :=
  snd (CreateContainer (mkContainerCreateConfig "sandbox" zero_DockerConfig zero_HostConfig) sim_empty).
Abbreviation win := (windowsService sim (gmap string string) memreg).

(** A service that starts with a leftover in the registry. *)
Definition leftover : memreg :=
  {[ credentialSpecRegistryLocation :=
       {[ "other" := ("Other", "x");
          "k8s-cred-spec-" +:+ hex_encode (repeat 1%N 40)
            := ("k8s-cred-spec-" +:+ hex_encode (repeat 1%N 40), "old") ]} ]}.
Definition gmsa_start : win :=
  mkWindowsService (mkDockerService gmsa_sim ∅ ∅ ∅ ∅) leftover ∅ [].
Definition gmsa_created : res string * win := ds_CreateContainer sim_config "" 4 gmsa_request gmsa_start.

Lemma gmsa_reach : reach sim_config "" 4 (specs leftover) (snd gmsa_created).
Proof.
  eapply reach_create; [by apply (reach_start _ _ _ _ (mkDockerService gmsa_sim ∅ ∅ ∅ ∅) leftover)
                       |apply surjective_pairing|done].
Qed.

Lemma credential_specs_accounted_witness :
  is_ok (fst gmsa_created) = true /\ size (specs (ws_registry (snd gmsa_created))) = 3%nat
  /\ ws_log (snd gmsa_created) = []
  /\ exists lost : list string, (length lost <= length (ws_log (snd gmsa_created)))%nat
    /\ forall key, holds_spec (ws_registry (snd gmsa_created)) key ->
         is_Some (specs leftover !! key) \/ tracked (ws_containerCleanupInfos (snd gmsa_created)) key
         \/ key ∈ lost.
Proof.
  split; [vm_compute; reflexivity|]. split; [vm_compute; reflexivity|].
  split; [vm_compute; reflexivity|].
  exact (credential_specs_accounted sim_config "" 4 (specs leftover) (snd gmsa_created) gmsa_reach).
Defined.

Definition gmsa_applied : res (ContainerCreateConfig * containerCleanupInfo) * win :=
  applyPlatformSpecificDockerConfig gmsa_config
    (mkContainerCreateConfig "c" zero_DockerConfig zero_HostConfig) gmsa_start.

Lemma credential_spec_roundtrip_witness :
  exists cc info ws', gmsa_applied = (Ok (cc, info), ws')
    /\ hc_SecurityOpt (ccc_HostConfig cc)
       = ["credentialspec=registry://" +:+ gMSARegistryValueName info]
    /\ snd <$> specs (ws_registry ws') !! gMSARegistryValueName info = Some "{spec}".
Proof.
  destruct gmsa_applied as [[[cc info]|err] ws'] eqn:E.
  - exists cc, info, ws'. split; [reflexivity|].
    destruct (credential_spec_roundtrip _ _ _ _ _ _ E) as [_ H].
    destruct H as (_ & -> & Hv & _); [discriminate|]. split; [reflexivity|exact Hv].
  - exfalso. assert (is_ok (fst gmsa_applied) = true) as Hok by (vm_compute; reflexivity).
    rewrite E in Hok. discriminate.
Defined.

Lemma init_cleanup_outcome_witness :
  let '(errors, ws') := platformSpecificContainerInitCleanup gmsa_start in
  errors <> [] /\ specs (ws_registry ws') = specs leftover.
Proof.
  destruct (platformSpecificContainerInitCleanup gmsa_start) as [errors ws'] eqn:E.
  exact (proj2 (proj2 (init_cleanup_outcome gmsa_start ws' errors E)) mem_enforces_access).
Defined.
