(* ===== verification/Platforms.v ===== *)
(** * Platforms: the node on Windows, and builds for other platforms

    The parts of the program that differ by platform and touch no credential
    spec: pod addresses (core/helpers_windows.go, network/cni/cni_windows.go),
    statistics (core/stats_windows.go, core/imagefs_windows.go, over hcsshim
    and the kubelet's winstats) and port forwards
    (streaming/streaming_windows.go) on Windows; and what the builds for
    neither Linux nor Windows refuse or leave out (the *_unsupported.go
    files). *)
From stdpp Require Import relations.
From S2P Require Import Prelude GoErrors GoNet GoText Cri Naming Labels Cache Store Checkpoint Libdocker PluginManager Service Sim SandboxHelpers Hostport PortForward Bandwidth Cni Stats Writers Exec Windows.

(** ** What the node relies on *)

(** hcsshim: an open container, its statistics (64-bit counters), and the
    classification of errors. *)
Class Hcsshim (W : Type) := {
  hcs_Container : Type;
  hcs_OpenContainer : string -> M W (res hcs_Container);
  hcs_Close : hcs_Container -> M W (option error);
  (** [TotalRuntime100ns] and [UsagePrivateWorkingSetBytes] *)
  hcs_Statistics : hcs_Container -> M W (res (Z * Z));
  hcs_IsNotExist : error -> bool;
  hcs_IsAlreadyStopped : error -> bool;
}.

(** [winstats.StatsClient.GetDirFsInfo]: the bytes used under a directory. *)
Class Winstats (W : Type) := GetDirFsInfo : string -> M W (res Z).

(** A CNI result in version 0.2.0, with the printed addresses; [IP4] and [IP6]
    are pointers. *)
Record Result020 := mkResult020 { r020_IP4 : option string; r020_IP6 : option string }.
(** [cniTypes020.GetResult]. *)
Class Results020 (W : Type) `{LibCNI W} := GetResult : cni_Result -> res Result020.

Section Node.
Context {W St : Type} `{DockerClient W} `{NetworkPlugin W} `{Clock W} `{HostOS W} `{Store St}.
Variable cfg : service_config.
Variable CONTAINER_NETWORK : string.
Abbreviation DS := (dockerService W St).

(** ** Statistics *)

(** [getContainerStats]: None for a container HCS does not know or that has
    stopped or not started, and for any that cannot be opened. *)
Definition getContainerStats `{Hcsshim W} (container : Container) : M DS (res (option ContainerStats)) :=
  let containerID := c_Id container in
  let* o := onW (hcs_OpenContainer containerID) in
  match o with
  | Err _ => ret (Ok None)
  | Ok hcsshimContainer =>
      let* s := onW (hcs_Statistics hcsshimContainer) in
      let* r := match s with
                | Err err =>
                    ret (if contains (Error err) "0x5" || contains (Error err) "0xc0370105"
                         then Ok None else Err err)
                | Ok (totalRuntime100ns, workingSet) =>
                    let* timestamp := onW Now in
                    ret (Ok (Some (mkContainerStats containerID (c_Metadata container) (c_Labels container)
                           (c_Annotations container) timestamp (uint64 (totalRuntime100ns * 100)) workingSet
                           (Some (mkFilesystemUsage timestamp (cfg_dockerRootDir cfg) (Some 0%Z) None)))))
                end in
      do* onW (hcs_Close hcsshimContainer) in
      ret r
  end.

Definition imageFsInfo `{Winstats W} : M DS (res ImageFsInfoResponse) :=
  let? usage := onW (GetDirFsInfo (cfg_dockerRootDir cfg)) in
  let* timestamp := onW Now in
  ret (Ok (mkImageFsInfoResponse
             [mkFilesystemUsage timestamp (cfg_dockerRootDir cfg) (Some usage) None] [])).

(** ** The addresses of a pod *)

(** The loop over the containers of a sandbox: without [CONTAINER_NETWORK] the
    network is added to each again, and no address is taken from them. *)
Fixpoint pod_ips_loop (sandboxID : string) (containers : list DockerContainer) : M DS (list string) :=
  match containers with
  | [] => ret []
  | c :: rest =>
      let* i := onW (InspectContainer (dct_ID c)) in
      match i with
      | Err _ => pod_ips_loop sandboxID rest
      | Ok r =>
          if decide (CONTAINER_NETWORK = "") then
            let* _ := getIPs sandboxID r in
            pod_ips_loop sandboxID rest
          else
            let* containerIPs := getIPs (dct_ID c) r in
            match containerIPs with
            | [] => pod_ips_loop sandboxID rest
            | _ => ret containerIPs
            end
      end
  end.

Definition determinePodIPBySandboxID (sandboxID : string) : M DS (list string) :=
  let f := AddLabel sandboxIDLabelKey sandboxID
             (AddLabel containerTypeLabelKey containerTypeLabelContainer ∅) in
  let* l := onW (ListContainers (mkListOptions true f)) in
  match l with
  | Err _ => ret []
  | Ok containers => pod_ips_loop sandboxID containers
  end.

(** ** Forwarding a port: wincat runs in the sandbox *)

Section Forward.
Context {Out : Type} `{StreamAPI W}.
(** Writes to the forwarded stream. *)
Variable stream : string -> M Out wres.

(** The stream's state and the buffer of the standard error. *)
Definition to_stream (p : string) : M (Out * string) wres := fun '(o, e) =>
  let '(r, o') := stream p o in (r, (o', e)).
Definition to_stderr (p : string) : M (Out * string) wres := fun '(o, e) =>
  ((len p, None), (o, e +:+ p)).

Definition exec_error_text (r : exec_result) : option string :=
  match r with
  | ExecOK => None
  | ExecError err => Some (Error err)
  | dockerExitError inspect =>
      Some ("Error executing in Docker Container: " +:+ itoa (ei_ExitCode inspect))
  end.

Definition portForward (podSandboxID : string) (port : Z) : M (W * Out) (option error) := fun '(w, o) =>
  let '(r, (w', (o', stderr))) :=
    ExecWithContext (Some to_stream) (Some to_stderr) podSandboxID ["wincat.exe"; "127.0.0.1"; itoa port]
      true false 0 (w, (o, "")) in
  ((fun text => Errorf (text +:+ ": " +:+ stderr)) <$> exec_error_text r, (w', o')).

End Forward.
End Node.

(** ** The CNI plugin on Windows *)

Definition getLoNetwork (binDirs : list string) : option cniNetwork := None.

Definition buildDNSCapabilities (dnsConfig : option DNSConfig) : option cniDNSConfig :=
  (fun d => mkCniDNSConfig (Cri.dns_Servers d) (Cri.dns_Searches d) (Cri.dns_Options d)) <$> dnsConfig.

Section WindowsCni.
Context {W : Type} `{Execer W} `{Host W} `{LibCNI W} `{Quantities} `{DNSJSON} `{!Results020 W}.
Abbreviation PS := (cniNetworkPlugin * W)%type.
Variable between : M PS unit.

Definition platformInit : M PS (res unit) := ret (Ok tt).

(** [IP4] of the result is dereferenced without a test. *)
Definition result_status (r : Result020) : res (option PodNetworkStatus) :=
  match r020_IP4 r with
  | None => Err nil_dereference_panic
  | Some ip4 => Ok (Some (mkPodNetworkStatus ip4 (ip4 :: from_option (fun ip6 => [ip6]) [] (r020_IP6 r))))
  end.

(** [GetPodNetworkStatus]: the network is added again, and its answer read. *)
Definition GetPodNetworkStatus (namespace name : string) (id : ContainerID)
  : M PS (res (option PodNetworkStatus)) :=
  let* r := Cni.onWorld (GetNetNS (cid_ID id)) in
  match r with
  | Err err => ret (Err (Errorf ("CNI failed to retrieve network namespace path: " +:+ Error err)))
  | Ok netnsPath =>
      let* n := getDefaultNetwork between in
      match n with
      | None =>
          ret (Err (Errorf ("CNI network not yet initialized, skipping pod network status for container "
                            +:+ quote_id id)))
      | Some _ =>
          let* n := getDefaultNetwork between in
          let? result := addToNetwork n name namespace id netnsPath ∅ ∅ in
          ret (match GetResult result with
               | Err err => Err err
               | Ok result020 => result_status result020
               end)
      end
  end.

End WindowsCni.

(** [NewContainerManager] and its [Start] on Windows do nothing. *)
Definition windows_manager_Start {W} : M W (res unit) := ret (Ok tt).

(** ** Neither Linux nor Windows *)

Definition unsupported_DefaultMemorySwap : Z := -1.
Definition unsupported_kernelSupportsRRO : bool := false.
Definition unsupported_getSecurityOpts (seccompProfile : option SecurityProfile) (privileged : bool)
  (separator : string) : res (list string) := Ok [].
Definition unsupported_getSandBoxSecurityOpts (separator : string) : list string := [].
Definition unsupported_updateCreateConfig (createConfig : ContainerCreateConfig) (config : ContainerConfig)
  (sandboxConfig : PodSandboxConfig) (podSandboxID securityOptSep : string)
  : res ContainerCreateConfig := Ok createConfig.
Definition unsupported_determinePodIPBySandboxID (uid : string) : list string := [].
Definition unsupported_getNetworkNamespace (c : ContainerJSON) : res string := Err (Errorf "unsupported platform").
Definition unsupported_applyPlatformSpecificDockerConfig : res (option unit) := Ok None.
Definition unsupported_performPlatformSpecificContainerCleanup (cleanupInfo : unit) : list error := [].
Definition unsupported_platformSpecificContainerInitCleanup : list error := [].
Definition unsupported_performPlatformSpecificContainerCleanupAndLogErrors (cleanupInfo : option unit)
  : list error :=
  match cleanupInfo with
  | None => []
  | Some info => unsupported_performPlatformSpecificContainerCleanup info
  end.
Definition unsupported_performPlatformSpecificContainerForContainer {W St} (containerID : string)
  : M (dockerService W St) (list error) :=
  let* info := Service.getContainerCleanupInfo containerID in
  match info with
  | None => ret []
  | Some _ =>
      let errors := unsupported_performPlatformSpecificContainerCleanupAndLogErrors info in
      do* (if decide (errors = []) then Service.clearContainerCleanupInfo containerID else ret tt) in
      ret errors
  end.
Definition unsupported_getContainerStats (c : Container) : res ContainerStats := Err (Errorf "not implemented").
Definition unsupported_ImageFsInfo : res ImageFsInfoResponse := Err (Errorf "not implemented").
Definition unsupported_manager_Start : res unit := Err (Errorf "Container Manager is unsupported in this build").

Definition unsupported_kubenet_error : error := Errorf "Kubenet is not supported in this build".
Definition unsupported_kubenet_Init (nonMasqueradeCIDR : string) (mtu : Z) : res unit := Err unsupported_kubenet_error.
(** The rest is the embedded no-op plugin's. *)
Definition unsupported_kubenet (W : Type) : NetworkPlugin W := {|
  Plugin_Name := "kubenet";
  Plugin_SetUpPod := fun _ _ _ _ _ => ret (Err unsupported_kubenet_error);
  Plugin_TearDownPod := fun _ _ _ => ret (Err unsupported_kubenet_error);
  Plugin_GetPodNetworkStatus := fun _ _ _ => ret (Err unsupported_kubenet_error);
  Plugin_Status := @Plugin_Status W (NoopNetworkPlugin W);
  Plugin_Event := @Plugin_Event W (NoopNetworkPlugin W);
|}.

(** ** Theory *)

(** A container that HCS cannot open is no error: its statistics are left out. *)
Lemma stats_of_unopened {W St} `{Clock W} `{Hcsshim W} (cfg : service_config) (c : Container)
  (ds ds' : dockerService W St) r :
  getContainerStats cfg c ds = (r, ds') ->
  is_ok (fst (hcs_OpenContainer (c_Id c) (ds_world ds))) = false -> r = Ok None.
Proof.
  intros E Ho. apply bind_step in E as (o & ds1 & E1 & E). unfold onW in E1.
  destruct (hcs_OpenContainer (c_Id c) (ds_world ds)) as [[k|err] w1]; [done|].
  injection E1 as <- <-. by injection E as <- <-.
Qed.

Section Status.
Context {W : Type} `{Execer W} `{Host W} `{LibCNI W} `{Quantities} `{DNSJSON} `{R020 : !Results020 W}.
Context (between : M (cniNetworkPlugin * W) unit).

(** C11: The status of a pod on Windows: with the network re-read between any
    two steps of the request and no panic in the world, the request panics
    only on an answer of the CNI plugin without an IPv4 address; a status it reports has the IPv4 address of an
    answer first, and the IPv6 address after it, if there is one; and the
    chosen network is not lost. *)
Theorem windows_status_outcome (namespace name : string) (id : ContainerID)
  (p p' : cniNetworkPlugin) (w w' : W) (r : res (option PodNetworkStatus)) :
  background between -> no_panics (W := W) -> (forall x, GetResult x <> Err nil_dereference_panic) ->
  GetPodNetworkStatus between namespace name id (p, w) = (r, (p', w')) ->
  (r = Err nil_dereference_panic ->
     exists x ip6, GetResult x = Ok (mkResult020 None ip6))
  /\ (forall st, r = Ok st -> exists x ip4 ip6, GetResult x = Ok (mkResult020 (Some ip4) ip6)
        /\ st = Some (mkPodNetworkStatus ip4 (ip4 :: from_option (fun a => [a]) [] ip6)))
  /\ (is_Some (cni_defaultNetwork p) -> is_Some (cni_defaultNetwork p')).
Proof.
  intros Hb Hnp Hres E. pose proof Hnp as (Hns & _). apply bind_step in E as (ns & [p1 w1] & E1 & E).
  pose proof (Hns (cid_ID id) w) as Hn. unfold Cni.onWorld in E1.
  destruct (GetNetNS (cid_ID id) w) as [ns' w0]. injection E1 as -> <- <-.
  destruct ns as [path|e]; [|by injection E as <- <- <-].
  apply bind_step in E as (n & [p2 w2] & E2 & E).
  pose proof (keeps_getDefaultNetwork between Hb p w0) as Hk. rewrite E2 in Hk. cbn in Hk.
  destruct n as [n|]; [|injection E as <- <- <-; by split_and!; [| |apply Hk]].
  assert (is_Some (cni_defaultNetwork p2)) as Hp2.
  { apply bind_step in E2 as (u & [p3 w3] & _ & E2). apply bind_step in E2 as (q & s & Eq & E2).
    injection Eq as <- <-. injection E2 as E2 <- <-. by exists n. }
  destruct (getDefaultNetwork_some between Hb p2 w2 Hp2) as (n2 & p3 & w3 & E3 & Hp3).
  apply bind_step in E as (m & s3 & E3' & E). rewrite E3 in E3'. injection E3' as <- <-.
  destruct (addToNetwork_frame (Some n2) name namespace id path ∅ ∅ p3 w3 Hnp) as [Hf Hr].
  apply bind_step in E as (x & [p4 w4] & E4 & E). rewrite E4 in Hf, Hr. cbn in Hf, Hr. subst p4.
  specialize (Hr ltac:(by eexists)).
  destruct x as [x|e]; injection E as <- <- <-.
  - destruct (GetResult x) as [[ip4 ip6]|e] eqn:Ex.
    + destruct ip4 as [ip4|]; cbn; split_and!; try done; try (intros st [= <-]); eauto 6.
    + split_and!; try done. intros [= ->]. by destruct (Hres x).
  - split_and!; try done. intros [= ->]. by destruct Hr.
Qed.

End Status.

(** An IPv6-only cluster. *)
#[local] Existing Instance sim_cni.
#[local] Existing Instance sim_host.
#[local] Existing Instance sim_quantities.
#[local] Existing Instance sim_dns.
#[local] Instance ipv6_only : Results020 sim := fun _ => Ok (mkResult020 None (Some "fd00::7")).

Lemma windows_status_outcome_witness :
  let '(r, (p', _)) := GetPodNetworkStatus busy "default" "web-0" (mkContainerID "docker" "c0ffee")
                         (cni_ready, sim_empty) in
  r = Err nil_dereference_panic /\ is_Some (cni_defaultNetwork p')
  /\ exists (x : cni_Result) ip6, GetResult x = Ok (mkResult020 None ip6).
Proof.
  assert (fst (GetPodNetworkStatus busy "default" "web-0" (mkContainerID "docker" "c0ffee")
                 (cni_ready, sim_empty)) = Err nil_dereference_panic) as Hr by (vm_compute; reflexivity).
  destruct (GetPodNetworkStatus busy "default" "web-0" (mkContainerID "docker" "c0ffee")
              (cni_ready, sim_empty)) as [r [p' w']] eqn:E.
  destruct (windows_status_outcome (R020 := ipv6_only) busy "default" "web-0" (mkContainerID "docker" "c0ffee") cni_ready p'
    sim_empty w' r busy_background sim_no_panics (fun x => ltac:(intros Hx; cbv in Hx; discriminate Hx)) E) as (Hp & _ & Hk).
  split; [exact Hr|]. split; [apply Hk; by eexists|exact (Hp Hr)].
Defined.
